(* ===== verification/_CoqProject ===== *)
-Q . S2P
Prelude.v
Mem.v
CString.v
Snprintf.v
World.v
Sample.v
SpikeUtils.v
Spinlock.v
SpikeFile.v
SpikeStat.v
Asm.v
Process.v
Syscall.v
Strap.v
Elf.v
Kernel.v
Mtrap.v
Dts.v
Load.v
SpikeMemory.v
Htif.v
Minit.v
UserLib.v
System.v
Nested.v
Boot.v
Reach.v
App.v
AppRun.v
Whole.v
