(* ===== verification/Prelude.v ===== *)
(** * Verification of the lq-os-lab proxy kernel

    The program is a small RISC-V proxy kernel: it starts in machine mode, finds its devices in a
    device tree, starts itself in supervisor mode, loads one application from a file of the host,
    and serves its system calls and timer interrupts.  Everything it prints or reads goes to the
    host (Spike) through HTIF.

    The development is a shallow embedding: a C function is a function of the same name in the
    monad [M] of this file over the state it works on, with the guards, early returns and order of
    effects of the source; an integer is a [Z] with its wrap-around written out; memory is one flat
    map from addresses to bytes, as the kernel runs without address translation.

    ** Files, and what they model (paths under src/)

    - Prelude: integers, outcomes, the monad, loops with fuel, invariants of computations ([keeps],
      [terminates], [never], [wpo]) and lenses.
    - Mem: bytes and little-endian words in memory, and the views the specifications use.
    - CString: util/string.c.  Snprintf: util/snprintf.c, with [render], the text of a format.
    - World: kernel/config.h, kernel/riscv.h, the layouts of kernel/process.h; the state [world]
      (memory, CSRs, the kernel's variables, the host) and the interfaces [Host], [Platform],
      [RiscvCsrs], [InterruptCsrs] and [Linked] to what is outside the repository.  Sample: instances
      of them, among them a host with one file and a table of open descriptors.
    - SpikeUtils, SpikeFile, SpikeStat: spike_interface/spike_utils.c and spike_file.c, above the
      calls of the front-end.  Htif: spike_htif.c and [frontend_syscall], below them; [HtifHost] is
      what the host promises ([ConsoleHost], what its console does), and [frontend_refines] shows that a call through [magic_mem], [tohost]
      and [fromhost] is the one step [World.frontend] takes.
    - Spinlock: spike_interface/atomic.h, as one hart runs it, and the interleavings of the accesses of
      several harts to one lock.
    - Asm: util/load_store.S, kernel/strap_vector.S, kernel/machine/mtrap_vector.S and mentry.S,
      interpreted instruction by instruction.
    - Process: kernel/process.c.  Syscall: kernel/syscall.c.  Strap: kernel/strap.c and the round
      of a supervisor trap.  Elf: kernel/elf.c.  Load: what a loading comes to as a whole, with the
      host an application needs: it passes the arguments in one state of it ([ArgsHost]), opens the
      path with a descriptor in another ([OpenHost]), and serves the file to [pread] on that
      descriptor, and on no other, in the states after ([FileServer]); [AppHost] is the three.  Kernel: kernel/kernel.c.
    - Mtrap: kernel/machine/mtrap.c and the round of a machine trap.  Dts: spike_interface/dts_parse.c,
      with trees, their flattening and the visits of a scan.  SpikeMemory: spike_memory.c.
      Minit: kernel/machine/minit.c.
    - UserLib: user/user_lib.c over the round of a system call. System: the machine while an
      application runs, as a transition relation over the rounds. Nested: timer interrupts within
      the trap entry and the handler of the timer. Boot: everything from [m_start] to the first user
      instruction, or to the end when there is no sound application. Reach: every state after that.
    - App: user/app_print_backtrace.c, with the stack frames of its functions and the timer interrupts
      that come at their calls; [Compiled] is what the compiler decides, [Interrupts] what the timer
      does.  AppRun: how it runs.  Whole: the boot and the application one after the other.

    The calls go up this list: [m_start] (Minit) scans the device tree (Dts) for HTIF (Htif) and the
    memory (SpikeMemory) and enters [s_start] (Kernel), which loads the application (Elf, over
    SpikeFile) and ends in [switch_to] (Process); from then on control is the application's until a
    trap enters Asm, then Mtrap or Strap, then Syscall, and [switch_to] again.

    ** What the theorems show

    - Composition.  [Whole.power_on_output]: from the C entry point to the exit, on a host with the
      example application, however often the timer interrupts it: every byte on the console;
      [AppRun.main_prints] is the application's part, from any kernel prepared for it.
      [Reach.reaches_on_time]: with any application, in every state reachable after the boot, the
      kernel is prepared, the timer is on time, and an interrupt, an exit call or a fault is dealt
      with; it rests on [System.run_kept]: user instructions, system calls and timer ticks in any
      order keep the kernel prepared for the next trap of either mode, and the counters are right.
      [System.timer_tick_spec], [Strap.syscall_round], [Strap.timer_round], [Mtrap.mtrap_timer]: a
      whole round, from a user context back to it.  [UserLib.printu_prints] and [UserLib.exit_stops]:
      from the library call of the application to the host.
    - Starting.  [Boot.boot_spec], from the machine-mode entry to the application, in a state from
      which [System.run_kept] goes on, whatever application the host serves as long as the file is
      sound, and [Boot.boot_refuses] and [Boot.boot_no_application] when it is not or there is none;
      [Minit.m_start_spec], [Process.switch_to_spec]; the loader: [Load.load_bincode_spec]
      and, for what it refuses, [Load.load_bincode_refuses]; [Load.load_user_symbols_spec] and
      [Elf.elf_load_spec], of its parts, which name the descriptor of every [pread] ([Elf.is_pread]); its bounds on any file ([Elf.load_user_symbols_safe]).
    - Devices.  [Dts.fdt_scan_equiv]: scanning the blob of a tree is visiting its nodes in order;
      [SpikeMemory.query_mem_spec] and [Htif.query_htif_spec] follow from it.  [Htif.frontend_refines],
      [Htif.tohost_roundtrip], [Htif.getchar_spec].
    - System calls: [Syscall.sys_user_backtrace_spec] and [Syscall.do_syscall_frame]:
      every call comes to an end and touches the host only.
    - Assembly: what the three vectors save and restore, and what is lost when one interrupts
      another ([Nested.interrupted_save_loses], from the trap to the jump to the handler).  [Nested.early_ticks_lost]: the ticks that are not
      counted when the timer interrupts its own handler.
    - Locks.  [Spinlock.mutual_exclusion]: what the spinlocks promise any number of harts as long as
      nothing gets between the two accesses of [atomic_swap]; [Spinlock.all_get_in]: what happens
      in every order in which the harts all read the lock before one of them writes it.  [Spinlock.alone_locks]: the steps are those of the code.
    - Errors: which causes, faults and panics stop the machine, and with which messages; the loops
      that never end ([SpikeMemory.mem_regions_stuck], [Htif.getchar_deadlock]).
    - The table of host files: [SpikeFile.spike_file_openat_spec] and [SpikeFile.spike_file_refs_spec].
    - The library routines: text, bounds, termination and the round trip of numbers.

    ** Loops and fuel

    A loop is [loop fuel body], which yields [NoFuel] when the bound is used up; [NoFuel] is no
    result, and the theorems exclude it.  Counted loops have their count as bound.  Scans for a NUL
    have the number of mapped bytes ([Mem.scan_terminates]); the backtrace has the number of rounds
    its frame pointers allow ([Syscall.sys_user_backtrace_terminates]).  Four loops have no bound in
    general: [Dts.fdt_scan_loop] takes the number of mapped bytes, enough for the blob of a tree
    ([Dts.fdt_scan_blob]), while [Dts.negative_length_stuck] is a blob for which nothing is;
    [SpikeMemory.mem_regions] likewise ([SpikeMemory.mem_regions_stuck]); and the waiting loops of
    Htif take their bound as an argument, for which the host's latency is enough
    ([Htif.frontend_refines]), and which is never enough for a failed assertion ([Htif.report_stuck]).
    The loops the code means to be endless are [Halted].

    ** Not modelled

    The linker scripts, the Makefile and the documents, which hold no program logic (the addresses
    they fix are in [Platform]); the macros without a use of util/functions.h and the abbreviations
    of util/types.h; the numbers of front-end calls the kernel never makes, in spike_htif.h; the
    name and the owner of a lock, which nothing reads; the 32-bit branches of the conditional
    compilation. Compiled code is represented at the calls only. Of the application's, the words of
    a frame that lead back to the caller are in memory, in the places -fno-omit-frame-pointer gives
    them (Makefile), and the sizes of the frames are any that suffice; its local variables but for
    the array of [printu], the saved argument registers of [printu] and the other saved registers
    are not. The stack of the kernel itself is not bounded but for the nesting of [poweroff]. Of the
    hardware, [m_start]'s mret changes the interrupt enables and the previous mode ([Asm.mret_effect]);
    the mret of mtrapvec goes to its target only, as the interrupt before it is not taken to touch
    them either. What a trap does to the CSRs is in [UserLib.ecall_csrs], [System.timer_interrupt],
    [System.soft_interrupt] and, for exceptions, [System.machine_exception] and
    [System.supervisor_exception]; the accesses of several harts to a lock are taken one at a time,
    in some order. A timer interrupt may also arrive while the kernel runs in supervisor mode;
    [Mtrap.mtrap_timer] holds for any interrupted code, Nested shows what it does to the trap entry
    and to the handler of the timer, but System, Reach and App have interrupts in user mode only,
    and the other files take the C code of the kernel to run uninterrupted. *)
From stdpp Require Export base tactics list gmap fin_maps numbers strings.
From Stdlib Require Export ZArith Lia.
From Stdlib Require Import Ascii.

#[global] Open Scope Z_scope.

(** * Machine integers

    A [w]-bit unsigned integer of the C code is a [Z] in [[0, 2^w)], a signed one a [Z] in
    [[-2^(w-1), 2^(w-1))]; the functions below are the conversions C performs on assignment and
    on casts, that is, the wrap-around. *)
Definition u8 (z : Z) : Z := z `mod` 2 ^ 8.
Definition u16 (z : Z) : Z := z `mod` 2 ^ 16.
Definition u32 (z : Z) : Z := z `mod` 2 ^ 32.
Definition u64 (z : Z) : Z := z `mod` 2 ^ 64.
Definition s32 (z : Z) : Z := (z + 2 ^ 31) `mod` 2 ^ 32 - 2 ^ 31.
Definition s64 (z : Z) : Z := (z + 2 ^ 63) `mod` 2 ^ 64 - 2 ^ 63.

(** C's test [if (z)] on an integer. *)
Definition truthy (z : Z) : bool := negb (z =? 0).

(** * Outcomes and the state monad

    [Ret a s]: the code returned [a] in state [s].  [Halted s]: the code reached one of the
    program's terminal loops ([shutdown], [poweroff]) in state [s] and never returns.  [Fault]:
    an access to an address outside every object, or C behaviour that is undefined.  [NoFuel]:
    a loop ran longer than the bound the definition gives it (see the section on fuel above). *)
Inductive outcome (S A : Type) : Type :=
| Ret (a : A) (s : S)
| Halted (s : S)
| Fault
| NoFuel.
Arguments Ret {S A} a s.
Arguments Halted {S A} s.
Arguments Fault {S A}.
Arguments NoFuel {S A}.

Definition M (S A : Type) : Type := S → outcome S A.

#[global] Instance M_ret S : MRet (M S) := λ A a s, Ret a s.
#[global] Instance M_bind S : MBind (M S) := λ A B f m s,
  match m s with
  | Ret a s' => f a s'
  | Halted s' => Halted s'
  | Fault => Fault
  | NoFuel => NoFuel
  end.

Definition fault {S A} : M S A := λ _, Fault.
Definition halt {S A} : M S A := λ s, Halted s.
Definition no_fuel {S A} : M S A := λ _, NoFuel.
Definition gets {S A} (f : S → A) : M S A := λ s, Ret (f s) s.
Definition modify {S} (f : S → S) : M S () := λ s, Ret () (f s).
Definition of_option {S A} (o : option A) : M S A :=
  match o with Some a => mret a | None => fault end.
(** C's [if (c) m;] *)
Definition when {S} (c : bool) (m : M S ()) : M S () := if c then m else mret ().

(** A C loop: [body] yields [inl a] to go round again with loop variables [a] and [inr b] to
    leave the loop ([break], [return], the condition false) with [b]. *)
Fixpoint loop {S A B} (fuel : nat) (body : A → M S (A + B)) (a : A) : M S B :=
  match fuel with
  | O => no_fuel
  | Datatypes.S fuel' =>
      r ← body a; match r with inl a' => loop fuel' body a' | inr b => mret b end
  end.

(** ** Lenses: running the code of one component inside a larger state *)
Class Lens (S T : Type) := {
  lget : S → T;
  lset : T → S → S;
  lget_lset t s : lget (lset t s) = t;
  lset_lget s : lset (lget s) s = s;
  lset_lset t t' s : lset t (lset t' s) = lset t s;
}.

Definition zoom {S T A} `{Lens S T} (m : M T A) : M S A := λ s,
  match m (lget s) with
  | Ret a t => Ret a (lset t s)
  | Halted t => Halted (lset t s)
  | Fault => Fault
  | NoFuel => NoFuel
  end.

(** Postconditions: [wpo o Q R] holds when [o] returned in [Q] or stopped in [R], and did
    neither fault nor run out of fuel. *)
Definition wpo {S A} (o : outcome S A) (Q : A → S → Prop) (R : S → Prop) : Prop :=
  match o with Ret a s => Q a s | Halted s => R s | Fault => False | NoFuel => False end.

(** The outcome is not an exhausted loop bound. *)
Definition terminates {S A} (o : outcome S A) : Prop :=
  match o with NoFuel => False | _ => True end.

(** [keeps P m]: every state [m] returns or stops in satisfies [P] when the first one did. *)
Definition keeps {S A} (P : S → Prop) (m : M S A) : Prop :=
  ∀ s, P s → match m s with Ret _ s' => P s' | Halted s' => P s' | _ => True end.

(** ** Equations and rules for the monad *)
Section monad.
Context {S A B : Type}.
Implicit Types (m : M S A) (f : A → M S B).

Lemma bind_Ret m f s a s' : m s = Ret a s' → (m ≫= f) s = f a s'.
Proof. unfold mbind, M_bind. by intros ->. Qed.
Lemma bind_Halted m f s s' : m s = Halted s' → (m ≫= f) s = Halted s'.
Proof. unfold mbind, M_bind. by intros ->. Qed.
Lemma bind_Fault m f s : m s = Fault → (m ≫= f) s = Fault.
Proof. unfold mbind, M_bind. by intros ->. Qed.
Lemma bind_NoFuel m f s : m s = NoFuel → (m ≫= f) s = NoFuel.
Proof. unfold mbind, M_bind. by intros ->. Qed.
Lemma mret_bind (a : A) f s : (mret a ≫= f) s = f a s.
Proof. done. Qed.
Lemma bind_inv m f s b s' :
  (m ≫= f) s = Ret b s' → ∃ a s1, m s = Ret a s1 ∧ f a s1 = Ret b s'.
Proof. unfold mbind, M_bind. destruct (m s) as [a s1| | |]; naive_solver. Qed.

Lemma wpo_bind m f s Q R :
  wpo (m s) (λ a s', wpo (f a s') Q R) R → wpo ((m ≫= f) s) Q R.
Proof. unfold mbind, M_bind. by destruct (m s). Qed.
Lemma wpo_mono (o : outcome S A) (Q Q' : A → S → Prop) (R R' : S → Prop) :
  wpo o Q R → (∀ a s, Q a s → Q' a s) → (∀ s, R s → R' s) → wpo o Q' R'.
Proof. destruct o; simpl; auto. Qed.

Lemma terminates_bind m f s :
  terminates (m s) → (∀ a s', m s = Ret a s' → terminates (f a s')) → terminates ((m ≫= f) s).
Proof. unfold mbind, M_bind. destruct (m s); simpl; naive_solver. Qed.
Lemma terminates_of_option (o : option A) (s : S) : terminates (of_option o s).
Proof. by destruct o. Qed.
End monad.

Lemma bind_assoc {S A B C} (m : M S A) (f : A → M S B) (g : B → M S C) s :
  ((m ≫= f) ≫= g) s = (m ≫= (λ a, f a ≫= g)) s.
Proof. unfold mbind, M_bind. by destruct (m s). Qed.

Section loop_rules.
Context {S A B : Type} (body : A → M S (A + B)).

Lemma loop_step fuel a s a' s' :
  body a s = Ret (inl a') s' → loop (Datatypes.S fuel) body a s = loop fuel body a' s'.
Proof. intros H. simpl. by rewrite (bind_Ret _ _ _ _ _ H). Qed.
Lemma loop_exit fuel a s b s' :
  body a s = Ret (inr b) s' → loop (Datatypes.S fuel) body a s = Ret b s'.
Proof. intros H. simpl. by rewrite (bind_Ret _ _ _ _ _ H). Qed.

Lemma loop_NoFuel fuel a s : body a s = NoFuel → loop fuel body a s = NoFuel.
Proof. intros H. destruct fuel; [done|]. simpl. by apply bind_NoFuel. Qed.
(** A loop that stays in the same state and never leaves is never over. *)
Lemma loop_stuck fuel a s : body a s = Ret (inl a) s → loop fuel body a s = NoFuel.
Proof. intros H. induction fuel as [|fuel IH]; [done|]. by rewrite (loop_step fuel a s a s H). Qed.

(** Termination by a measure on the loop variables and the state. *)
Lemma loop_terminates (I : A → S → Prop) (μ : A → S → nat) :
  (∀ a s, I a s → terminates (body a s) ∧
     ∀ a' s', body a s = Ret (inl a') s' → I a' s' ∧ (μ a' s' < μ a s)%nat) →
  ∀ fuel a s, I a s → (μ a s < fuel)%nat → terminates (loop fuel body a s).
Proof.
  intros Hb fuel. induction fuel as [|fuel IH]; intros a s HI Hμ; [lia|].
  simpl. destruct (Hb a s HI) as [Ht Hstep].
  apply terminates_bind; [done|]. intros [a'|b] s' Hr; [|done].
  destruct (Hstep a' s' Hr) as [HI' Hlt]. apply IH; [done|lia].
Qed.

(** Total correctness by an invariant and a measure. *)
Lemma loop_wpo (I : A → S → Prop) (μ : A → S → nat) (Q : B → S → Prop) (R : S → Prop) :
  (∀ a s, I a s → wpo (body a s) (λ r s', match r with
       | inl a' => I a' s' ∧ (μ a' s' < μ a s)%nat
       | inr b => Q b s' end) R) →
  ∀ fuel a s, I a s → (μ a s < fuel)%nat → wpo (loop fuel body a s) Q R.
Proof.
  intros Hb fuel. induction fuel as [|fuel IH]; intros a s HI Hμ; [lia|].
  simpl. apply wpo_bind. eapply wpo_mono; [by apply Hb| |done].
  intros [a'|b] s'; simpl; [|done]. intros [HI' Hlt]. apply IH; [done|lia].
Qed.

(** A property of the state that the body keeps, the loop keeps. *)
Lemma loop_state (P : S → Prop) :
  (∀ a s r s', P s → body a s = Ret r s' → P s') →
  ∀ fuel a s b s', P s → loop fuel body a s = Ret b s' → P s'.
Proof.
  intros Hb fuel. induction fuel as [|fuel IH]; intros a s b s' HP; simpl; [done|].
  intros ([a'|b'] & s1 & H1 & H2)%bind_inv; [|injection H2 as <- <-]; eauto.
Qed.

(** More fuel does not change a result. *)
Lemma loop_fuel_mono fuel fuel' a s :
  (fuel ≤ fuel')%nat → terminates (loop fuel body a s) →
  loop fuel' body a s = loop fuel body a s.
Proof.
  revert fuel' a s. induction fuel as [|fuel IH]; intros fuel' a s Hle Ht; [done|].
  destruct fuel' as [|fuel']; [lia|]. simpl in *. unfold mbind, M_bind in *.
  destruct (body a s) as [[a'|b] s'| | |]; try done. apply IH; [lia|done].
Qed.
End loop_rules.

(** ** Invariants *)
Section keeps_rules.
Context {S : Type} (P : S → Prop).

Lemma keeps_ret {A} (a : A) : keeps P (mret a).
Proof. by intros s. Qed.
Lemma keeps_bind {A B} (m : M S A) (f : A → M S B) :
  keeps P m → (∀ a, keeps P (f a)) → keeps P (m ≫= f).
Proof.
  intros Hm Hf s HP. unfold mbind, M_bind. pose proof (Hm s HP) as H1.
  destruct (m s) as [a s'| | |]; try done. by apply Hf.
Qed.
Lemma keeps_fault {A} : keeps (A := A) P fault.
Proof. by intros s. Qed.
Lemma keeps_halt {A} : keeps (A := A) P halt.
Proof. by intros s. Qed.
Lemma keeps_no_fuel {A} : keeps (A := A) P no_fuel.
Proof. by intros s. Qed.
Lemma keeps_gets {A} (f : S → A) : keeps P (gets f).
Proof. by intros s. Qed.
Lemma keeps_modify f : (∀ s, P s → P (f s)) → keeps P (modify f).
Proof. intros Hf s. exact (Hf s). Qed.
Lemma keeps_when c m : keeps P m → keeps P (when c m).
Proof. intros Hm. destruct c; [done|apply keeps_ret]. Qed.
Lemma keeps_if {A} (c : bool) (m m' : M S A) :
  keeps P m → keeps P m' → keeps P (if c then m else m').
Proof. by destruct c. Qed.
Lemma keeps_loop {A B} (body : A → M S (A + B)) :
  (∀ a, keeps P (body a)) → ∀ fuel a, keeps P (loop fuel body a).
Proof.
  intros Hb fuel. induction fuel as [|fuel IH]; intros a; [apply keeps_no_fuel|].
  simpl. apply keeps_bind; [apply Hb|]. intros [a'|b]; [apply IH|apply keeps_ret].
Qed.
Lemma keeps_Ret {A} (m : M S A) s a s' : keeps P m → P s → m s = Ret a s' → P s'.
Proof. intros Hm HP Hs. specialize (Hm s HP). by rewrite Hs in Hm. Qed.
End keeps_rules.

(** [reads m]: [m] never changes the state. *)
Definition reads {S A} (m : M S A) : Prop := ∀ P, keeps P m.
Lemma keeps_zoom {S T A} `{Lens S T} (P : S → Prop) (m : M T A) :
  (∀ s, P s → keeps (λ t, P (lset t s)) m) → keeps P (zoom m).
Proof.
  intros Hm s HP. unfold zoom. assert (P (lset (lget s) s)) as HP' by (by rewrite lset_lget).
  specialize (Hm s HP (lget s) HP'). by destruct (m (lget s)).
Qed.
Lemma reads_zoom {S T A} `{Lens S T} (m : M T A) : reads m → reads (S := S) (zoom m).
Proof. intros Hm P. apply keeps_zoom. intros s _. apply Hm. Qed.
Lemma reads_Ret {S A} (m : M S A) s a s' : reads m → m s = Ret a s' → s' = s.
Proof. intros Hm Hr. specialize (Hm (λ s', s' = s) s eq_refl). by rewrite Hr in Hm. Qed.

(** Guards: a program that never returns, behind a condition. *)
Definition never {S A} (m : M S A) : Prop := ∀ s a s', m s ≠ Ret a s'.
Lemma keeps_guard {S A} (P : S → Prop) (c : bool) (m : M S ()) (k : () → M S A) :
  never m → keeps P m → (c = false → ∀ u, keeps P (k u)) → keeps P (when c m ≫= k).
Proof.
  intros Hn Hm Hk s HP. destruct c; [|by apply Hk]. specialize (Hm s HP). cbn [when].
  unfold mbind, M_bind. destruct (m s) as [u s'| | |] eqn:E; try done. by destruct (Hn s u s').
Qed.
Lemma keeps_unless {S A} (P : S → Prop) (c : bool) (m : M S ()) (k : () → M S A) :
  never m → keeps P m → (c = true → ∀ u, keeps P (k u)) →
  keeps P ((if c then mret tt else m) ≫= k).
Proof.
  intros Hn Hm Hk. pose proof (keeps_guard P (negb c) m k Hn Hm) as Hg. destruct c; apply Hg;
    try done; intros _ u; by apply Hk.
Qed.
Lemma keeps_assoc {S A B C} (P : S → Prop) (m : M S A) (f : A → M S B) (g : B → M S C) :
  keeps P (m ≫= (λ a, f a ≫= g)) → keeps P ((m ≫= f) ≫= g).
Proof. intros Hk s HP. rewrite bind_assoc. by apply Hk. Qed.
Lemma never_bind {S A B} (m : M S A) (f : A → M S B) : (∀ a, never (f a)) → never (m ≫= f).
Proof. intros Hf s b s' (a & s1 & _ & H)%bind_inv. by eapply Hf. Qed.

Create HintDb keeps.
#[export] Hint Resolve keeps_ret keeps_fault keeps_halt keeps_no_fuel keeps_gets keeps_when
  keeps_if : keeps.
(** [keeps_tac]: take a monadic program apart, leaving the primitives to the hints. *)
Ltac keeps_tac :=
  repeat (intros; first
    [ solve [auto with keeps]
    | match goal with |- keeps _ (loop _ _ _) => apply keeps_loop end
    | apply keeps_bind | apply keeps_if | apply keeps_when
    | match goal with |- keeps _ (match ?x with _ => _ end) => destruct x end
    | match goal with |- keeps _ (if ?x then _ else _) => destruct x end ]).

Lemma terminates_zoom {S T A} `{Lens S T} (m : M T A) s :
  terminates (m (lget s)) → terminates (zoom m s).
Proof. unfold zoom. by destruct (m (lget s)). Qed.

Section zoom_rules.
Context {S T : Type} `{Lens S T}.
Lemma zoom_Ret {A} (m : M T A) s a t : m (lget s) = Ret a t → zoom m s = Ret a (lset t s).
Proof. unfold zoom. by intros ->. Qed.
Lemma zoom_Halted {A} (m : M T A) s t : m (lget s) = Halted t → zoom m s = Halted (lset t s).
Proof. unfold zoom. by intros ->. Qed.
Lemma zoom_bind {A B} (m : M T A) (f : A → M T B) s :
  zoom (m ≫= f) s = (zoom m ≫= (λ a, zoom (f a))) s.
Proof.
  unfold zoom, mbind, M_bind. destruct (m (lget s)) as [a t| | |]; try done.
  rewrite lget_lset. destruct (f a t); by rewrite ?lset_lset.
Qed.
End zoom_rules.

(** * Generic lemmas on integers *)
Lemma u8_range z : 0 ≤ u8 z < 256.
Proof. apply (Z.mod_pos_bound z (2 ^ 8)). lia. Qed.
Lemma u16_range z : 0 ≤ u16 z < 2 ^ 16.
Proof. apply Z.mod_pos_bound. lia. Qed.
Lemma u32_range z : 0 ≤ u32 z < 2 ^ 32.
Proof. apply Z.mod_pos_bound. lia. Qed.
Lemma u64_range z : 0 ≤ u64 z < 2 ^ 64.
Proof. apply Z.mod_pos_bound. lia. Qed.
Lemma s32_range z : - 2 ^ 31 ≤ s32 z < 2 ^ 31.
Proof. unfold s32. pose proof (Z.mod_pos_bound (z + 2 ^ 31) (2 ^ 32)). lia. Qed.
Lemma s64_range z : - 2 ^ 63 ≤ s64 z < 2 ^ 63.
Proof. unfold s64. pose proof (Z.mod_pos_bound (z + 2 ^ 63) (2 ^ 64)). lia. Qed.
Lemma u8_id z : 0 ≤ z < 256 → u8 z = z.
Proof. apply Z.mod_small. Qed.
Lemma u16_id z : 0 ≤ z < 2 ^ 16 → u16 z = z.
Proof. apply Z.mod_small. Qed.
Lemma u32_id z : 0 ≤ z < 2 ^ 32 → u32 z = z.
Proof. apply Z.mod_small. Qed.
Lemma u64_id z : 0 ≤ z < 2 ^ 64 → u64 z = z.
Proof. apply Z.mod_small. Qed.
Lemma s32_id z : - 2 ^ 31 ≤ z < 2 ^ 31 → s32 z = z.
Proof. intros ?. unfold s32. rewrite Z.mod_small; lia. Qed.
Lemma s64_id z : - 2 ^ 63 ≤ z < 2 ^ 63 → s64 z = z.
Proof. intros ?. unfold s64. rewrite Z.mod_small; lia. Qed.

Create HintDb widths.
Create HintDb terminates.
Create Rewrite HintDb widths.
#[export] Hint Resolve u8_range u16_range u32_range u64_range s32_range s64_range : widths.
#[export] Hint Rewrite u8_id u16_id u32_id u64_id s32_id s64_id using lia : widths.

(** [case_Z] splits the innermost boolean comparison of two integers in the goal and turns it
    into a linear (in)equality. *)
Ltac case_Z :=
  match goal with
  | |- context [?a =? ?b] => destruct (Z.eqb_spec a b)
  | |- context [?a <? ?b] => destruct (Z.ltb_spec a b)
  | |- context [?a <=? ?b] => destruct (Z.leb_spec a b)
  | |- context [?a >=? ?b] => rewrite (Z.geb_leb a b); destruct (Z.leb_spec b a)
  | |- context [?a >? ?b] => rewrite (Z.gtb_ltb a b); destruct (Z.ltb_spec b a)
  end.

(** [mrun]: run the head of a monadic goal whose result is known. *)
Ltac mrun H := rewrite (bind_Ret _ _ _ _ _ H).

(** * Strings of the source as byte lists *)
Fixpoint bytes (s : string) : list Z :=
  match s with
  | EmptyString => []
  | String c s' => Z.of_N (N_of_ascii c) :: bytes s'
  end.
Definition newline : string := String (Ascii.ascii_of_nat 10) EmptyString.
Definition carriage : string := String (Ascii.ascii_of_nat 13) EmptyString.

Lemma bytes_range s : Forall (λ b, 0 ≤ b < 256) (bytes s).
Proof.
  induction s as [|c s IH]; constructor; [|done]. pose proof (Ascii.N_ascii_bounded c). lia.
Qed.
