(* ===== verification/Mem.v ===== *)
(** Byte-addressed memory: the object the C code's pointers point into.

    The kernel runs in Bare mode, virtual addresses are physical ones, so one flat map from
    addresses to bytes serves the kernel and the user program.  An access outside the map is a
    fault.  The file holds single accesses, little-endian words, the pure views [read_bytes],
    [write_bytes] and [cstr] that the specifications use, and their lemmas; it models the
    machine's memory, no function of the source. *)
From S2P Require Import Prelude.

Abbreviation mem := (gmap Z Z).

(** * Single accesses *)
Definition load8 (p : Z) : M mem Z := λ m,
  match m !! p with Some b => Ret b m | None => Fault end.
Definition store8 (p v : Z) : M mem () := λ m,
  match m !! p with Some _ => Ret () (<[p := u8 v]> m) | None => Fault end.

(** * Pure views *)
Fixpoint read_bytes (m : mem) (p : Z) (n : nat) : option (list Z) :=
  match n with
  | O => Some []
  | S n' => b ← m !! p; bs ← read_bytes m (p + 1) n'; Some (b :: bs)
  end.

Fixpoint write_bytes (m : mem) (p : Z) (bs : list Z) : mem :=
  match bs with
  | [] => m
  | b :: bs' => write_bytes (<[p := b]> m) (p + 1) bs'
  end.

(** Little-endian value of a list of bytes, and back. *)
Fixpoint le_val (bs : list Z) : Z :=
  match bs with [] => 0 | b :: bs' => b + 256 * le_val bs' end.
Fixpoint le_bytes (n : nat) (v : Z) : list Z :=
  match n with O => [] | S n' => v `mod` 256 :: le_bytes n' (v / 256) end.

(** * Multi-byte accesses *)
Definition load_le (n : nat) (p : Z) : M mem Z := λ m,
  match read_bytes m p n with Some bs => Ret (le_val bs) m | None => Fault end.
Definition store_le (n : nat) (p v : Z) : M mem () := λ m,
  match read_bytes m p n with
  | Some _ => Ret () (write_bytes m p (le_bytes n v))
  | None => Fault
  end.
(** A block of bytes stored by an agent other than the C code (the host answering a [pread]). *)
Definition store_block (p : Z) (bs : list Z) : M mem () := λ m,
  match read_bytes m p (length bs) with
  | Some _ => Ret () (write_bytes m p (map u8 bs))
  | None => Fault
  end.

Definition load16 := load_le 2.
Definition load32 := load_le 4.
Definition load64 := load_le 8.
Definition store32 := store_le 4.
Definition store64 := store_le 8.

(** Every stored byte is a byte. *)
Definition mem_wf (m : mem) : Prop := map_Forall (λ _ b, 0 ≤ b < 256) m.

(** The addresses [p, p+n) are all mapped. *)
Definition mapped (m : mem) (p : Z) (n : nat) : Prop :=
  ∀ i, 0 ≤ i < Z.of_nat n → is_Some (m !! (p + i)).

(** The C string [s] (without its NUL) lies at [p]. *)
Fixpoint cstr (m : mem) (p : Z) (s : list Z) : Prop :=
  match s with
  | [] => m !! p = Some 0
  | b :: s' => m !! p = Some b ∧ b ≠ 0 ∧ cstr m (p + 1) s'
  end.

(** A bound on the length of any scan that reads a fresh mapped address at each step. *)
Definition scan_fuel (m : mem) : nat := S (size m).

(** * Lemmas *)
Lemma load8_Some m p b : m !! p = Some b → load8 p m = Ret b m.
Proof. unfold load8. by intros ->. Qed.
Lemma load8_None m p : m !! p = None → load8 p m = Fault.
Proof. unfold load8. by intros ->. Qed.
Lemma store8_Some m p b v : m !! p = Some b → store8 p v m = Ret () (<[p := u8 v]> m).
Proof. unfold store8. by intros ->. Qed.
Lemma load8_inv m p b m' : load8 p m = Ret b m' → m !! p = Some b ∧ m' = m.
Proof. unfold load8. destruct (m !! p); naive_solver. Qed.

Lemma length_le_bytes n v : length (le_bytes n v) = n.
Proof. revert v; induction n; intros; simpl; auto. Qed.

Lemma le_val_le_bytes n v : le_val (le_bytes n v) = v `mod` 256 ^ Z.of_nat n.
Proof.
  revert v. induction n as [|n IH]; intros v; [by rewrite Z.mod_1_r|].
  cbn [le_bytes le_val]. rewrite IH, Nat2Z.inj_succ, Z.pow_succ_r by lia.
  symmetry. rewrite Z.rem_mul_r; lia.
Qed.

Lemma le_bytes_range n v : Forall (λ b, 0 ≤ b < 256) (le_bytes n v).
Proof.
  revert v; induction n as [|n IH]; intros; simpl; constructor; auto.
  apply Z.mod_pos_bound. lia.
Qed.

Lemma le_val_range bs :
  Forall (λ b, 0 ≤ b < 256) bs → 0 ≤ le_val bs < 256 ^ Z.of_nat (length bs).
Proof.
  induction 1 as [|b bs Hb _ IH]; [simpl; lia|].
  cbn [le_val length]. rewrite Nat2Z.inj_succ, Z.pow_succ_r by lia. lia.
Qed.

Lemma le_bytes_le_val bs :
  Forall (λ b, 0 ≤ b < 256) bs → le_bytes (length bs) (le_val bs) = bs.
Proof.
  induction 1 as [|b bs Hb Hbs IH]; [done|]. cbn [le_val length le_bytes].
  rewrite Z.mul_comm, Z.mod_add, Z.div_add by lia.
  rewrite Z.mod_small, Z.div_small by lia. by rewrite Z.add_0_l, IH.
Qed.

Lemma lookup_write_bytes m p bs a :
  write_bytes m p bs !! a =
    if decide (p ≤ a < p + Z.of_nat (length bs)) then bs !! Z.to_nat (a - p) else m !! a.
Proof.
  revert m p. induction bs as [|b bs IH]; intros m p; cbn [write_bytes length].
  - case_decide; [lia|done].
  - rewrite IH. destruct (decide (a = p)) as [->|Hne].
    + rewrite decide_False by lia. rewrite decide_True by lia.
      by rewrite Z.sub_diag, lookup_insert_eq.
    + rewrite lookup_insert_ne by done.
      destruct (decide (p + 1 ≤ a < p + 1 + Z.of_nat (length bs))).
      * rewrite decide_True by lia. replace (Z.to_nat (a - p)) with (S (Z.to_nat (a - (p + 1)))) by lia.
        done.
      * by rewrite decide_False by lia.
Qed.

Lemma lookup_write_bytes_ne m p bs a :
  ¬ (p ≤ a < p + Z.of_nat (length bs)) → write_bytes m p bs !! a = m !! a.
Proof. intros. rewrite lookup_write_bytes. by rewrite decide_False. Qed.

Lemma write_bytes_app m p bs bs' :
  write_bytes m p (bs ++ bs') = write_bytes (write_bytes m p bs) (p + Z.of_nat (length bs)) bs'.
Proof.
  revert m p. induction bs as [|b bs IH]; intros m p; cbn [write_bytes length app].
  - by rewrite Z.add_0_r.
  - rewrite IH. f_equal. lia.
Qed.

Lemma mapped_write_bytes m p bs q n : mapped m q n → mapped (write_bytes m p bs) q n.
Proof.
  intros Hm i Hi. rewrite lookup_write_bytes. case_decide; [|by apply Hm].
  apply lookup_lt_is_Some. lia.
Qed.

Lemma mapped_written m p bs : mapped (write_bytes m p bs) p (length bs).
Proof.
  intros i Hi. rewrite lookup_write_bytes, decide_True by lia. apply lookup_lt_is_Some. lia.
Qed.

Lemma mapped_insert m p v q n : mapped m q n → mapped (<[p := v]> m) q n.
Proof. intros Hm. apply (mapped_write_bytes m p [v] q n Hm). Qed.

Lemma mapped_ext m m' p n :
  (∀ a, p ≤ a < p + Z.of_nat n → m' !! a = m !! a) → mapped m p n → mapped m' p n.
Proof. intros He Hm i Hi. rewrite He by lia. by apply Hm. Qed.
Lemma mapped_le m p n n' : (n' ≤ n)%nat → mapped m p n → mapped m p n'.
Proof. intros Hle Hm i Hi. apply Hm. lia. Qed.

Lemma mapped_sub m p n q n' :
  p ≤ q → q + Z.of_nat n' ≤ p + Z.of_nat n → mapped m p n → mapped m q n'.
Proof.
  intros Hq Hle Hm i Hi. replace (q + i) with (p + (q - p + i)) by lia. apply Hm. lia.
Qed.

Lemma mapped_app m p n n' :
  mapped m p (n + n') ↔ mapped m p n ∧ mapped m (p + Z.of_nat n) n'.
Proof.
  split.
  - intros Hm. split; (eapply mapped_sub; [| |exact Hm]; lia).
  - intros [H1 H2] i Hi. destruct (decide (i < Z.of_nat n)); [apply H1; lia|].
    replace (p + i) with (p + Z.of_nat n + (i - Z.of_nat n)) by lia. apply H2. lia.
Qed.

Lemma mapped_S m p n : mapped m p (S n) ↔ is_Some (m !! p) ∧ mapped m (p + 1) n.
Proof.
  split.
  - intros Hm. split.
    + rewrite <- (Z.add_0_r p). apply Hm. lia.
    + eapply mapped_sub; [| |done]; lia.
  - intros [H0 Hm] i Hi. destruct (decide (i = 0)) as [->|]; [by rewrite Z.add_0_r|].
    replace (p + i) with (p + 1 + (i - 1)) by lia. apply Hm. lia.
Qed.

(** [read_bytes] succeeds exactly on mapped ranges, and reads pointwise. *)
Lemma read_bytes_is_Some m p n : is_Some (read_bytes m p n) ↔ mapped m p n.
Proof.
  revert p. induction n as [|n IH]; intros p.
  - split; [intros _ i Hi; lia|by eexists].
  - rewrite mapped_S, <- IH. cbn [read_bytes]. split.
    + intros [bs Hbs]. destruct (m !! p) as [b|]; [|done]. simpl in Hbs.
      destruct (read_bytes m (p + 1) n); [|done]. split; by eexists.
    + intros [[b ->] [bs ->]]. by eexists.
Qed.

Lemma read_bytes_length m p n bs : read_bytes m p n = Some bs → length bs = n.
Proof.
  revert p bs. induction n as [|n IH]; intros p bs; cbn [read_bytes]; [naive_solver|].
  destruct (m !! p); simpl; [|done]. destruct (read_bytes m (p + 1) n) eqn:E; [|done].
  simpl. intros [= <-]. cbn [length]. f_equal. by eapply IH.
Qed.

Lemma read_bytes_lookup m p n bs i :
  read_bytes m p n = Some bs → (i < n)%nat → m !! (p + Z.of_nat i) = bs !! i.
Proof.
  revert p bs i. induction n as [|n IH]; intros p bs i; cbn [read_bytes]; [lia|].
  destruct (m !! p) as [b|] eqn:Ep; simpl; [|done].
  destruct (read_bytes m (p + 1) n) as [bs'|] eqn:E; [|done].
  intros [= <-] Hi. destruct i as [|i]; [by rewrite Z.add_0_r|].
  change ((b :: bs') !! S i) with (bs' !! i).
  rewrite <- (IH (p + 1) bs' i E) by lia. f_equal. lia.
Qed.

Lemma read_bytes_ext m m' p n :
  (∀ i, 0 ≤ i < Z.of_nat n → m' !! (p + i) = m !! (p + i)) →
  read_bytes m' p n = read_bytes m p n.
Proof.
  revert p. induction n as [|n IH]; intros p He; cbn [read_bytes]; [done|].
  assert (m' !! p = m !! p) as -> by (rewrite <- (Z.add_0_r p); apply He; lia).
  rewrite IH; [done|]. intros i Hi. replace (p + 1 + i) with (p + (1 + i)) by lia. apply He. lia.
Qed.

Lemma read_bytes_intro m p n bs :
  length bs = n → (∀ i, (i < n)%nat → m !! (p + Z.of_nat i) = bs !! i) →
  read_bytes m p n = Some bs.
Proof.
  revert p bs. induction n as [|n IH]; intros p bs Hl He; cbn [read_bytes].
  - by destruct bs.
  - destruct bs as [|b bs]; [done|]. pose proof (He O) as H0. rewrite Z.add_0_r in H0.
    rewrite H0 by lia. simpl. rewrite (IH (p + 1) bs); [done|naive_solver|].
    intros i Hi. change (bs !! i) with ((b :: bs) !! S i).
    rewrite <- (He (S i)) by lia. f_equal. lia.
Qed.

Lemma read_write_bytes m p bs : read_bytes (write_bytes m p bs) p (length bs) = Some bs.
Proof.
  apply read_bytes_intro; [done|]. intros i Hi. rewrite lookup_write_bytes, decide_True by lia.
  f_equal. lia.
Qed.

Lemma read_write_bytes_ne m p bs q n :
  (q + Z.of_nat n ≤ p ∨ p + Z.of_nat (length bs) ≤ q) →
  read_bytes (write_bytes m p bs) q n = read_bytes m q n.
Proof. intros Hd. apply read_bytes_ext. intros i Hi. apply lookup_write_bytes_ne. lia. Qed.

Lemma read_bytes_spec m p n bs :
  read_bytes m p n = Some bs ↔
  length bs = n ∧ ∀ i, (i < n)%nat → m !! (p + Z.of_nat i) = bs !! i.
Proof.
  split.
  - intros Hr. split; [by eapply read_bytes_length|]. intros. by eapply read_bytes_lookup.
  - intros [Hl He]. by apply read_bytes_intro.
Qed.

Lemma read_bytes_app m p bs bs' :
  read_bytes m p (length bs + length bs') = Some (bs ++ bs') ↔
  read_bytes m p (length bs) = Some bs ∧
  read_bytes m (p + Z.of_nat (length bs)) (length bs') = Some bs'.
Proof.
  rewrite !read_bytes_spec, length_app. split.
  - intros [_ He]. split; (split; [done|]); intros i Hi.
    + rewrite He by lia. by apply lookup_app_l.
    + rewrite <- Z.add_assoc, <- Nat2Z.inj_add, He by lia. rewrite lookup_app_r by lia.
      f_equal. lia.
  - intros [[_ H1] [_ H2]]. split; [done|]. intros i Hi.
    destruct (decide (i < length bs)%nat).
    + rewrite lookup_app_l by lia. by apply H1.
    + rewrite lookup_app_r by lia. rewrite <- H2 by lia. f_equal. lia.
Qed.

Lemma read_bytes_split m p n n' bs :
  read_bytes m p (n + n') = Some bs →
  read_bytes m p n = Some (take n bs) ∧ read_bytes m (p + Z.of_nat n) n' = Some (drop n bs).
Proof.
  intros Hr. pose proof (read_bytes_length _ _ _ _ Hr) as Hl.
  pose proof (read_bytes_app m p (take n bs) (drop n bs)) as Happ.
  rewrite take_drop, length_take_le, length_drop in Happ by lia.
  replace (length bs - n)%nat with n' in Happ by lia. by apply Happ.
Qed.

Lemma read_bytes_sub m p N bs off n :
  read_bytes m p N = Some bs → (off + n ≤ N)%nat →
  read_bytes m (p + Z.of_nat off) n = Some (take n (drop off bs)).
Proof.
  intros Hr Hn. replace N with (off + (n + (N - off - n)))%nat in Hr by lia.
  apply read_bytes_split in Hr as [_ Hr]. by apply read_bytes_split in Hr as [Hr _].
Qed.

Lemma read_bytes_wf m p n bs :
  mem_wf m → read_bytes m p n = Some bs → Forall (λ b, 0 ≤ b < 256) bs.
Proof.
  intros Hwf Hr. apply Forall_lookup. intros i b Hb.
  eapply (Hwf (p + Z.of_nat i)). rewrite (read_bytes_lookup _ _ _ _ _ Hr); [done|].
  apply lookup_lt_Some in Hb. by rewrite (read_bytes_length _ _ _ _ Hr) in Hb.
Qed.

Lemma mem_wf_lookup m p b : mem_wf m → m !! p = Some b → 0 ≤ b < 256.
Proof. intros Hwf Hb. exact (Hwf p b Hb). Qed.

Lemma mem_wf_insert m p b : mem_wf m → 0 ≤ b < 256 → mem_wf (<[p := b]> m).
Proof. intros Hm Hb. by apply map_Forall_insert_2. Qed.

Lemma mem_wf_write_bytes m p bs :
  mem_wf m → Forall (λ b, 0 ≤ b < 256) bs → mem_wf (write_bytes m p bs).
Proof.
  intros Hm Hbs. revert m p Hm. induction Hbs as [|b bs Hb _ IH]; intros m p Hm; [done|].
  cbn [write_bytes]. apply IH. by apply mem_wf_insert.
Qed.

(** ** Words *)
Lemma load_le_Ret n p m v m' :
  load_le n p m = Ret v m' ↔ ∃ bs, read_bytes m p n = Some bs ∧ v = le_val bs ∧ m' = m.
Proof.
  unfold load_le. destruct (read_bytes m p n) as [bs|]; split; [|intros (? & [= ->] & -> & ->)|done|]; [|done|].
  - intros [= <- <-]. eauto.
  - intros (? & ? & _). done.
Qed.

Lemma load_le_mapped n p m : mapped m p n → ∃ v, load_le n p m = Ret v m.
Proof.
  intros [bs Hbs]%read_bytes_is_Some. exists (le_val bs). apply load_le_Ret. eauto.
Qed.

Lemma store_le_mapped n p v m :
  mapped m p n → store_le n p v m = Ret () (write_bytes m p (le_bytes n v)).
Proof. intros [bs Hbs]%read_bytes_is_Some. unfold store_le. by rewrite Hbs. Qed.

Lemma store_le_inv n p v m u m' :
  store_le n p v m = Ret u m' → mapped m p n ∧ m' = write_bytes m p (le_bytes n v).
Proof.
  unfold store_le. destruct (read_bytes m p n) eqn:E; [|done]. intros [= <-].
  split; [apply read_bytes_is_Some; eauto|done].
Qed.

Lemma store_le_bytes n p m bs :
  mem_wf m → n = length bs → Forall (λ b, 0 ≤ b < 256) bs → mapped m p n →
  store_le n p (le_val bs) m = Ret () (write_bytes m p bs).
Proof. intros ? -> ? ?. rewrite store_le_mapped by done. by rewrite le_bytes_le_val. Qed.

Lemma load_store_same n p v m :
  load_le n p (write_bytes m p (le_bytes n v)) =
    Ret (v `mod` 256 ^ Z.of_nat n) (write_bytes m p (le_bytes n v)).
Proof.
  apply load_le_Ret. exists (le_bytes n v). rewrite le_val_le_bytes.
  pose proof (read_write_bytes m p (le_bytes n v)) as Hr. rewrite length_le_bytes in Hr. done.
Qed.

(** A load sees through a write to a disjoint range. *)
Lemma load_write_ne n p m q bs v :
  p + Z.of_nat n ≤ q ∨ q + Z.of_nat (length bs) ≤ p →
  load_le n p m = Ret v m → load_le n p (write_bytes m q bs) = Ret v (write_bytes m q bs).
Proof.
  intros Hd (bs' & Hr & -> & _)%load_le_Ret. apply load_le_Ret. exists bs'.
  by rewrite read_write_bytes_ne.
Qed.

(** ** 64-bit words in memory *)
Definition word_at (m : mem) (p : Z) : option Z := le_val <$> read_bytes m p 8.
Definition write_word (m : mem) (p v : Z) : mem := write_bytes m p (le_bytes 8 v).

Lemma load64_word m p v : word_at m p = Some v → load64 p m = Ret v m.
Proof.
  unfold word_at, load64, load_le. destruct (read_bytes m p 8); [|done]. by intros [= ->].
Qed.
Lemma store64_word m p v : is_Some (word_at m p) → store64 p v m = Ret () (write_word m p v).
Proof.
  intros [? Hw]. unfold word_at in Hw. unfold store64, store_le.
  by destruct (read_bytes m p 8).
Qed.
Lemma word_at_mapped m p : mapped m p 8 → is_Some (word_at m p).
Proof. intros [bs Hbs]%read_bytes_is_Some. unfold word_at. rewrite Hbs. by eexists. Qed.
Lemma word_at_inv m p : is_Some (word_at m p) → mapped m p 8.
Proof.
  intros [v Hv]. apply read_bytes_is_Some. unfold word_at in Hv.
  destruct (read_bytes m p 8); [by eexists|done].
Qed.
Lemma word_at_write m p v : word_at (write_word m p v) p = Some (u64 v).
Proof.
  unfold word_at, write_word. pose proof (read_write_bytes m p (le_bytes 8 v)) as Hr.
  rewrite length_le_bytes in Hr. rewrite Hr. change (Some (le_val (le_bytes 8 v)) = Some (u64 v)). by rewrite le_val_le_bytes.
Qed.
(** A word does not see writes outside its eight bytes. *)
Lemma word_at_write_bytes_ne m p q bs :
  p + 8 ≤ q ∨ q + Z.of_nat (length bs) ≤ p → word_at (write_bytes m q bs) p = word_at m p.
Proof. intros Hd. unfold word_at. by rewrite read_write_bytes_ne by lia. Qed.
Lemma word_at_write_ne m p q v :
  p + 8 ≤ q ∨ q + 8 ≤ p → word_at (write_word m q v) p = word_at m p.
Proof. intros Hd. apply word_at_write_bytes_ne. rewrite length_le_bytes. lia. Qed.
Lemma mapped_write_word m p v q n : mapped m q n → mapped (write_word m p v) q n.
Proof. apply mapped_write_bytes. Qed.
Lemma mem_wf_write_word m p v : mem_wf m → mem_wf (write_word m p v).
Proof. intros Hm. apply mem_wf_write_bytes; [done|]. apply le_bytes_range. Qed.
Lemma lookup_write_word_ne m p v a : a < p ∨ p + 8 ≤ a → write_word m p v !! a = m !! a.
Proof. intros Ha. apply lookup_write_bytes_ne. rewrite length_le_bytes. lia. Qed.
Lemma word_at_range m p v : mem_wf m → word_at m p = Some v → 0 ≤ v < 2 ^ 64.
Proof.
  intros Hwf Hv. unfold word_at in Hv. destruct (read_bytes m p 8) as [bs|] eqn:Hb; [|done].
  injection Hv as <-. pose proof (le_val_range bs (read_bytes_wf _ _ _ _ Hwf Hb)) as Hr.
  rewrite (read_bytes_length _ _ _ _ Hb) in Hr. exact Hr.
Qed.
Lemma word_at_ext m m' p : (∀ a, p ≤ a < p + 8 → m' !! a = m !! a) → word_at m' p = word_at m p.
Proof.
  intros He. unfold word_at. f_equal. apply read_bytes_ext. intros i Hi. apply He. lia.
Qed.

(** The same for 32-bit and 16-bit words. *)
Definition word32_at (m : mem) (p : Z) : option Z := le_val <$> read_bytes m p 4.
Definition word16_at (m : mem) (p : Z) : option Z := le_val <$> read_bytes m p 2.
Lemma load32_word m p v : word32_at m p = Some v → load32 p m = Ret v m.
Proof.
  unfold word32_at, load32, load_le. destruct (read_bytes m p 4); [|done]. by intros [= ->].
Qed.

(** ** C strings *)
Lemma cstr_lookup m p s i :
  cstr m p s → (i < length s)%nat → ∃ b, s !! i = Some b ∧ m !! (p + Z.of_nat i) = Some b ∧ b ≠ 0.
Proof.
  revert p i. induction s as [|b s IH]; intros p i; cbn [cstr length]; [lia|].
  intros (Hb & H0 & Hs) Hi. destruct i as [|i].
  - exists b. by rewrite Z.add_0_r.
  - destruct (IH (p + 1) i Hs) as (b' & Hs' & Hm & Hne); [lia|]. exists b'.
    replace (p + Z.of_nat (S i)) with (p + 1 + Z.of_nat i) by lia. done.
Qed.

Lemma cstr_nul m p s : cstr m p s → m !! (p + Z.of_nat (length s)) = Some 0.
Proof.
  revert p. induction s as [|b s IH]; intros p; cbn [cstr length]; [by rewrite Z.add_0_r|].
  intros (_ & _ & Hs). replace (p + Z.of_nat (S (length s))) with (p + 1 + Z.of_nat (length s)) by lia.
  auto.
Qed.

Lemma cstr_mapped m p s : cstr m p s → mapped m p (S (length s)).
Proof.
  intros Hs i Hi. destruct (decide (i = Z.of_nat (length s))) as [->|].
  - rewrite (cstr_nul _ _ _ Hs). eauto.
  - destruct (cstr_lookup m p s (Z.to_nat i) Hs) as (b & _ & Hb & _); [lia|].
    rewrite Z2Nat.id in Hb by lia. eauto.
Qed.

Lemma cstr_read_nul m p s : cstr m p s → read_bytes m p (length (s ++ [0])) = Some (s ++ [0]).
Proof.
  intros Hs. apply read_bytes_intro; [done|]. intros i Hi. rewrite length_app in Hi. simpl in Hi.
  destruct (decide (i < length s)%nat) as [Hlt|Hge].
  - destruct (cstr_lookup _ _ _ _ Hs Hlt) as (b & Hb & Hm & _). by rewrite lookup_app_l, Hm.
  - assert (i = length s) as -> by lia. rewrite lookup_app_r, Nat.sub_diag by lia.
    by rewrite (cstr_nul _ _ _ Hs).
Qed.

Lemma cstr_ext m m' p s :
  (∀ i, 0 ≤ i ≤ Z.of_nat (length s) → m' !! (p + i) = m !! (p + i)) → cstr m p s → cstr m' p s.
Proof.
  revert p. induction s as [|b s IH]; intros p He; cbn [cstr length].
  - intros <-. rewrite <- (Z.add_0_r p). apply He. simpl; lia.
  - intros (Hb & H0 & Hs). repeat split; [|done|].
    + rewrite <- Hb. rewrite <- (Z.add_0_r p). apply He. simpl; lia.
    + apply IH; [|done]. intros i Hi. replace (p + 1 + i) with (p + (1 + i)) by lia.
      apply He. simpl; lia.
Qed.

Lemma cstr_unique m p s s' : cstr m p s → cstr m p s' → s = s'.
Proof.
  revert p s'. induction s as [|b s IH]; intros p [|b' s']; cbn [cstr]; [done| | |].
  - intros H1 (H2 & ? & _). congruence.
  - intros (H2 & ? & _) H1. congruence.
  - intros (H1 & _ & H3) (H1' & _ & H3'). f_equal; [congruence|eauto].
Qed.

(** ** Scans terminate: a mapped range is no longer than the map *)
Lemma mapped_size m p n : mapped m p n → (n ≤ size m)%nat.
Proof.
  intros Hm. rewrite <- size_dom.
  trans (size (list_to_set (seqZ p (Z.of_nat n)) : gset Z)).
  - rewrite size_list_to_set by apply NoDup_seqZ. by rewrite length_seqZ, Nat2Z.id.
  - apply subseteq_size. intros a Ha. apply elem_of_list_to_set, elem_of_seqZ in Ha.
    apply elem_of_dom. replace a with (p + (a - p)) by lia. apply Hm. lia.
Qed.

Lemma cstr_scan_fuel m p s : cstr m p s → (length s < size m)%nat.
Proof. intros Hs%cstr_mapped%mapped_size. lia. Qed.

(** A loop whose every round reads the mapped address [pos a] and moves [pos] up, and whose
    writes leave the set of mapped addresses alone, is over within [scan_fuel] rounds. *)
Lemma scan_terminates {S A B} (mo : S → mem) (pos : A → Z) (body : A → M S (A + B)) a s :
  (∀ a s, terminates (body a s) ∧ ∀ a' s', body a s = Ret (inl a') s' →
     pos a < pos a' ∧ is_Some (mo s !! pos a) ∧ dom (mo s') =@{gset Z} dom (mo s)) →
  terminates (loop (scan_fuel (mo s)) body a s).
Proof.
  intros Hb.
  apply (loop_terminates body (λ _ _, True)
    (λ a s, size (filter (λ k, pos a ≤ k) (dom (mo s) : gset Z)))); [|done|].
  - intros a1 s1 _. destruct (Hb a1 s1) as [Ht Hs]. split; [done|].
    intros a2 s2 Hr. split; [done|]. destruct (Hs a2 s2 Hr) as (Hlt & Hm & ->).
    apply subset_size. split.
    + intros k. rewrite !elem_of_filter. intros [? ?]. split; [lia|done].
    + intros Hsub. assert (pos a1 ∈ filter (λ k, pos a2 ≤ k) (dom (mo s1) : gset Z)) as Hin.
      { apply Hsub, elem_of_filter. split; [lia|]. by apply elem_of_dom. }
      apply elem_of_filter in Hin as [? _]. lia.
  - unfold scan_fuel. apply Nat.lt_succ_r. rewrite <- size_dom. apply subseteq_size.
    intros k. rewrite elem_of_filter. by intros [_ ?].
Qed.

Lemma store8_inv p v m u m' :
  store8 p v m = Ret u m' → is_Some (m !! p) ∧ m' = <[p := u8 v]> m ∧ dom m' =@{gset Z} dom m.
Proof.
  unfold store8. destruct (m !! p) as [b|] eqn:E; [|done]. intros [= <- <-].
  split; [by eexists|]. split; [done|]. apply set_eq. intros k.
  rewrite !elem_of_dom. destruct (decide (k = p)) as [->|Hne].
  - rewrite lookup_insert_eq, E. naive_solver.
  - by rewrite lookup_insert_ne.
Qed.

Lemma load8_terminates p m : terminates (load8 p m).
Proof. unfold load8. by destruct (m !! p). Qed.
Lemma store8_terminates p v m : terminates (store8 p v m).
Proof. unfold store8. by destruct (m !! p). Qed.
Lemma load_le_terminates n p m : terminates (load_le n p m).
Proof. unfold load_le. by destruct (read_bytes m p n). Qed.
Lemma store_le_terminates n p v m : terminates (store_le n p v m).
Proof. unfold store_le. by destruct (read_bytes m p n). Qed.
Lemma load8_reads p : reads (load8 p).
Proof. intros P m Hm. unfold load8. by destruct (m !! p). Qed.
Lemma load_le_reads n p : reads (load_le n p).
Proof. intros P m Hm. unfold load_le. by destruct (read_bytes m p n). Qed.
Lemma load64_reads p : reads (load64 p).
Proof. apply load_le_reads. Qed.
Lemma load32_reads p : reads (load32 p).
Proof. apply load_le_reads. Qed.
#[export] Hint Resolve load8_terminates store8_terminates load_le_terminates
  store_le_terminates : terminates.

(** [tbind]: the termination goal of a bind, with the result of its head inverted by hand. *)
Ltac tbind :=
  apply terminates_bind; [solve [eauto with terminates]|].
