(* ===== verification/CString.v ===== *)
(** The C string library, util/string.c: [memcpy], [memset], [strlen], [strcmp], [strcpy],
    [atol], [memmove] and [safestrcpy], as functions in the state monad over [Mem.mem].

    Each loop of the source is a [Prelude.loop] whose body is the loop's condition and body, with
    the C variables it changes as loop variables.  Scans that stop at a NUL have [scan_fuel] as
    bound, counted loops their count.  [char] is unsigned on RISC-V. *)
From S2P Require Import Prelude Mem.

(** [sizeof(uintptr_t)] on RV64. *)
Definition word_size : Z := 8.

(** [while (d < lim) { word copy }], then [while (d < lim) *d++ = *s++]. *)
Definition memcpy_words (fuel : nat) (lim d s : Z) : M mem (Z * Z) :=
  loop fuel (λ '(d, s),
    if d <? lim then
      w ← load64 s; store64 d w;; mret (inl (d + word_size, s + word_size))
    else mret (inr (d, s))) (d, s).
Definition memcpy_bytes (fuel : nat) (lim d s : Z) : M mem () :=
  loop fuel (λ '(d, s),
    if d <? lim then
      b ← load8 s; store8 d b;; mret (inl (d + 1, s + 1))
    else mret (inr tt)) (d, s).
Definition memcpy (dest src len : Z) : M mem Z :=
  let fuel := S (Z.to_nat len) in
  '(d, s) ← (if Z.land (Z.lor dest src) (word_size - 1) =? 0
             then memcpy_words fuel (dest + len - (word_size - 1)) dest src
             else mret (dest, src));
  memcpy_bytes fuel (dest + len) d s;;
  mret dest.

(** The replicated word of [memset]'s aligned path. *)
Definition memset_word (byte : Z) : Z :=
  let word := Z.land byte 255 in
  let word := u64 (Z.lor word (Z.shiftl word 8)) in
  let word := u64 (Z.lor word (Z.shiftl word 16)) in
  u64 (Z.lor word (Z.shiftl (Z.shiftl word 16) 16)).

Definition memset_words (fuel : nat) (lim word d : Z) : M mem () :=
  loop fuel (λ d,
    if d <? lim then store64 d word;; mret (inl (d + word_size)) else mret (inr tt)) d.
Definition memset_bytes (fuel : nat) (lim byte d : Z) : M mem () :=
  loop fuel (λ d,
    if d <? lim then store8 d byte;; mret (inl (d + 1)) else mret (inr tt)) d.
Definition memset (dest byte len : Z) : M mem Z :=
  let fuel := S (Z.to_nat len) in
  (if Z.land (Z.lor dest len) (word_size - 1) =? 0
   then memset_words fuel (dest + len) (memset_word byte) dest
   else memset_bytes fuel (dest + len) byte dest);;
  mret dest.

Definition strlen_loop (fuel : nat) (p : Z) : M mem Z :=
  loop fuel (λ p,
    b ← load8 p; if truthy b then mret (inl (p + 1)) else mret (inr p)) p.
Definition strlen (s : Z) : M mem Z :=
  fuel ← gets scan_fuel;
  p ← strlen_loop fuel s;
  mret (p - s).

Definition strcmp_loop (fuel : nat) (s1 s2 : Z) : M mem Z :=
  loop fuel (λ '(s1, s2),
    c1 ← load8 s1; c2 ← load8 s2;
    if truthy c1 && (c1 =? c2) then mret (inl (s1 + 1, s2 + 1)) else mret (inr (c1 - c2)))
    (s1, s2).
Definition strcmp (s1 s2 : Z) : M mem Z :=
  fuel ← gets scan_fuel;
  strcmp_loop fuel s1 s2.

Definition strcpy_loop (fuel : nat) (d s : Z) : M mem () :=
  loop fuel (λ '(d, s),
    b ← load8 s; store8 d b;;
    if truthy b then mret (inl (d + 1, s + 1)) else mret (inr tt)) (d, s).
Definition strcpy (dest src : Z) : M mem Z :=
  fuel ← gets scan_fuel;
  strcpy_loop fuel dest src;;
  mret dest.

(** Signed overflow of [res] wraps, as the code gcc emits for RV64 does. *)
Definition atol_spaces (fuel : nat) (str : Z) : M mem Z :=
  loop fuel (λ str,
    b ← load8 str; if b =? 32 then mret (inl (str + 1)) else mret (inr str)) str.
Definition atol_digits (fuel : nat) (str res : Z) : M mem Z :=
  loop fuel (λ '(str, res),
    b ← load8 str;
    if truthy b then mret (inl (str + 1, s64 (s64 (res * 10) + (b - 48))))
    else mret (inr res)) (str, res).
Definition atol (str : Z) : M mem Z :=
  fuel ← gets scan_fuel;
  str ← atol_spaces fuel str;
  b ← load8 str;
  let '(sign, str) :=
    if (b =? 45) || (b =? 43) then (b =? 45, str + 1) else (false, str) in
  res ← atol_digits fuel str 0;
  mret (if sign : bool then s64 (- res) else res).

(** [while (n-- > 0) *--d = *--s] and [while (n-- > 0) *d++ = *s++]. *)
Definition memmove_down (fuel : nat) (n d s : Z) : M mem () :=
  loop fuel (λ '(n, d, s),
    if n >? 0 then
      b ← load8 (s - 1); store8 (d - 1) b;; mret (inl (n - 1, d - 1, s - 1))
    else mret (inr tt)) (n, d, s).
Definition memmove_up (fuel : nat) (n d s : Z) : M mem () :=
  loop fuel (λ '(n, d, s),
    if n >? 0 then
      b ← load8 s; store8 d b;; mret (inl (n - 1, d + 1, s + 1))
    else mret (inr tt)) (n, d, s).
Definition memmove (dst src n : Z) : M mem Z :=
  let fuel := S (Z.to_nat n) in
  (if (src <? dst) && (src + n >? dst)
   then memmove_down fuel n (dst + n) (src + n)
   else memmove_up fuel n dst src);;
  mret dst.

(** [while (--n > 0 && ( *s++ = *t++ ) != 0);], the value is the final [s]. *)
Definition safestrcpy_loop (fuel : nat) (n s t : Z) : M mem Z :=
  loop fuel (λ '(n, s, t),
    if n - 1 >? 0 then
      b ← load8 t; store8 s b;;
      if truthy b then mret (inl (n - 1, s + 1, t + 1)) else mret (inr (s + 1))
    else mret (inr s)) (n, s, t).
Definition safestrcpy (s t n : Z) : M mem Z :=
  if n <=? 0 then mret s
  else
    e ← safestrcpy_loop (S (Z.to_nat n)) n s t;
    store8 e 0;;
    mret s.

(** Dictionary order on strings, the order [strcmp] computes. *)
Fixpoint lex_lt (a b : list Z) : Prop :=
  match a, b with
  | _, [] => False
  | [], _ :: _ => True
  | x :: a', y :: b' => x < y ∨ (x = y ∧ lex_lt a' b')
  end.

(** The value of a list of decimal digits. *)
Definition is_digit (c : Z) : Prop := 48 ≤ c ≤ 57.
Definition dec_value (acc : Z) (ds : list Z) : Z :=
  foldl (λ v c, 10 * v + (c - 48)) acc ds.

(** * Forward copies *)
Lemma copy_step m d s b bs :
  mem_wf m → read_bytes m s (length (b :: bs)) = Some (b :: bs) →
  mapped m d (length (b :: bs)) →
  d ≤ s ∨ s + Z.of_nat (length (b :: bs)) ≤ d →
  load8 s m = Ret b m ∧ store8 d b m = Ret tt (<[d := b]> m) ∧
  mem_wf (<[d := b]> m) ∧
  read_bytes (<[d := b]> m) (s + 1) (length bs) = Some bs ∧
  mapped (<[d := b]> m) (d + 1) (length bs) ∧
  (d + 1 ≤ s + 1 ∨ s + 1 + Z.of_nat (length bs) ≤ d + 1).
Proof.
  change (length (b :: bs)) with (S (length bs)).
  intros Hwf Hr [[b' Hd] Hmap]%mapped_S Hdis. pose proof (read_bytes_wf _ _ _ _ Hwf Hr) as Hbs.
  inversion_clear Hbs as [|?? Hb _]. cbn [read_bytes] in Hr.
  destruct (m !! s) as [b0|] eqn:Es; simpl in Hr; [|done].
  destruct (read_bytes m (s + 1) (length bs)) as [bs'|] eqn:Er; [|done]. simpl in Hr.
  injection Hr as [= -> ->].
  split_and!.
  - by apply load8_Some.
  - rewrite (store8_Some _ _ _ _ Hd). by rewrite u8_id.
  - by apply mem_wf_insert.
  - rewrite <- Er. apply read_bytes_ext. intros i Hi. apply lookup_insert_ne. lia.
  - by apply mapped_insert.
  - lia.
Qed.

Lemma memcpy_bytes_ok fuel lim m d s bs :
  mem_wf m → read_bytes m s (length bs) = Some bs → mapped m d (length bs) →
  d ≤ s ∨ s + Z.of_nat (length bs) ≤ d →
  lim = d + Z.of_nat (length bs) → (length bs < fuel)%nat →
  memcpy_bytes fuel lim d s m = Ret tt (write_bytes m d bs).
Proof.
  revert m d s fuel. induction bs as [|b bs IH]; intros m d s [|fuel] Hwf Hr Hmap Hdis Hlim Hf;
    try (simpl in Hf; lia).
  - unfold memcpy_bytes. erewrite loop_exit; [done|]. simpl in *. by rewrite (proj2 (Z.ltb_ge _ _)) by lia.
  - destruct (copy_step _ _ _ _ _ Hwf Hr Hmap Hdis) as (Hl & Hst & ?). destruct_and!.
    unfold memcpy_bytes. erewrite loop_step.
    2:{ cbn [length] in *. rewrite (proj2 (Z.ltb_lt _ _)) by lia. mrun Hl. by mrun Hst. }
    simpl in *. apply IH; auto; lia.
Qed.

Lemma memmove_up_ok fuel n m d s bs :
  mem_wf m → read_bytes m s (length bs) = Some bs → mapped m d (length bs) →
  d ≤ s ∨ s + Z.of_nat (length bs) ≤ d →
  n = Z.of_nat (length bs) → (length bs < fuel)%nat →
  memmove_up fuel n d s m = Ret tt (write_bytes m d bs).
Proof.
  revert m d s n fuel.
  induction bs as [|b bs IH]; intros m d s n [|fuel] Hwf Hr Hmap Hdis Hn Hf; try (simpl in Hf; lia).
  - unfold memmove_up. erewrite loop_exit; [done|]. by simpl in *; subst.
  - destruct (copy_step _ _ _ _ _ Hwf Hr Hmap Hdis) as (Hl & Hst & ?). destruct_and!.
    unfold memmove_up. erewrite loop_step.
    2:{ cbn [length] in *. rewrite (proj2 (Z.gtb_gt _ _)) by lia. mrun Hl. by mrun Hst. }
    simpl in *. apply IH; auto; lia.
Qed.

(** ** The word loop of [memcpy] *)
Lemma copy_word_step m d s ws bs :
  mem_wf m → length ws = 8%nat → read_bytes m s (8 + length bs) = Some (ws ++ bs) →
  mapped m d (8 + length bs) →
  d ≤ s ∨ s + 8 + Z.of_nat (length bs) ≤ d →
  load64 s m = Ret (le_val ws) m ∧ store64 d (le_val ws) m = Ret tt (write_bytes m d ws) ∧
  mem_wf (write_bytes m d ws) ∧
  read_bytes (write_bytes m d ws) (s + 8) (length bs) = Some bs ∧
  mapped (write_bytes m d ws) (d + 8) (length bs).
Proof.
  intros Hwf Hl Hr [Hd1 Hd2]%mapped_app Hdis. rewrite <- Hl in Hr at 1.
  apply read_bytes_app in Hr as [Hr1 Hr2]. rewrite Hl in Hr1, Hr2.
  pose proof (read_bytes_wf _ _ _ _ Hwf Hr1) as Hws. split_and!.
  - apply load_le_Ret. eauto.
  - by apply store_le_bytes.
  - by apply mem_wf_write_bytes.
  - rewrite read_write_bytes_ne; [done|]. lia.
  - by apply mapped_write_bytes.
Qed.

Lemma memcpy_words_ok fuel lim m d s bs :
  mem_wf m → read_bytes m s (length bs) = Some bs → mapped m d (length bs) →
  d ≤ s ∨ s + Z.of_nat (length bs) ≤ d →
  lim = d + Z.of_nat (length bs) - 7 → (length bs < fuel)%nat →
  ∃ k, (k ≤ length bs)%nat ∧
    memcpy_words fuel lim d s m =
      Ret (d + Z.of_nat k, s + Z.of_nat k) (write_bytes m d (take k bs)).
Proof.
  revert m d s bs. induction fuel as [|fuel IH]; intros m d s bs Hwf Hr Hmap Hdis Hlim Hf; [lia|].
  destruct (decide (length bs < 8)%nat) as [Hlt|Hge].
  - exists O. split; [lia|]. unfold memcpy_words. rewrite !Z.add_0_r.
    erewrite loop_exit; [done|]. cbn beta iota. by rewrite (proj2 (Z.ltb_ge _ _)) by lia.
  - rewrite <- (take_drop 8 bs) in Hr at 2. assert (Hl8 : length (take 8 bs) = 8%nat).
    { rewrite length_take. lia. }
    set (ws := take 8 bs) in *. set (bs' := drop 8 bs) in *.
    assert (Hlb : length bs = (8 + length bs')%nat) by (subst bs'; rewrite length_drop; lia).
    rewrite Hlb in *.
    destruct (copy_word_step m d s ws bs' Hwf Hl8 Hr Hmap) as (Hld & Hst & Hwf' & Hr' & Hmap').
    { lia. }
    destruct (IH _ (d + 8) (s + 8) bs' Hwf' Hr' Hmap') as (k & Hk & Heq); [lia|lia|lia|].
    exists (8 + k)%nat. split; [lia|]. unfold memcpy_words.
    erewrite (loop_step _ _ _ _ (d + 8, s + 8)).
    2:{ cbn beta iota. rewrite (proj2 (Z.ltb_lt _ _)) by lia. mrun Hld. by mrun Hst. }
    fold (memcpy_words fuel lim (d + 8) (s + 8)). rewrite Heq. f_equal; [f_equal; lia|].
    rewrite <- take_take_drop. fold ws bs'. rewrite write_bytes_app, Hl8. done.
Qed.

(** ** Backward copy *)
Lemma copy_step_down m d s b bs :
  mem_wf m → read_bytes m s (length bs + 1) = Some (bs ++ [b]) →
  mapped m d (length bs + 1) → s ≤ d →
  load8 (s + Z.of_nat (length bs)) m = Ret b m ∧
  store8 (d + Z.of_nat (length bs)) b m = Ret tt (<[d + Z.of_nat (length bs) := b]> m) ∧
  mem_wf (<[d + Z.of_nat (length bs) := b]> m) ∧
  read_bytes (<[d + Z.of_nat (length bs) := b]> m) s (length bs) = Some bs ∧
  mapped (<[d + Z.of_nat (length bs) := b]> m) d (length bs).
Proof.
  intros Hwf Hr [Hd1 Hd2]%mapped_app Hsd. change 1%nat with (length [b]) in Hr.
  apply read_bytes_app in Hr as [Hr1 Hr2].
  pose proof (read_bytes_wf _ _ _ _ Hwf Hr2) as Hb. inversion_clear Hb as [|?? Hb0 _].
  apply mapped_S in Hd2 as [[b' Hd2] _]. cbn [read_bytes length] in Hr2.
  destruct (m !! _) as [b0|] eqn:Es; simpl in Hr2; [|done]. injection Hr2 as [= ->].
  split_and!.
  - by apply load8_Some.
  - rewrite (store8_Some _ _ _ _ Hd2). by rewrite u8_id.
  - by apply mem_wf_insert.
  - rewrite <- Hr1. apply read_bytes_ext. intros i Hi. apply lookup_insert_ne. lia.
  - by apply mapped_insert.
Qed.

Lemma memmove_down_ok fuel n m d s d' s' bs :
  mem_wf m → read_bytes m s (length bs) = Some bs → mapped m d (length bs) → s ≤ d →
  n = Z.of_nat (length bs) → d' = d + n → s' = s + n → (length bs < fuel)%nat →
  memmove_down fuel n d' s' m = Ret tt (write_bytes m d bs).
Proof.
  revert m n d' s' fuel.
  induction bs as [|b bs IH] using rev_ind; intros m n d' s' [|fuel] Hwf Hr Hmap Hsd Hn Hd' Hs' Hf;
    try (simpl in Hf; lia).
  - unfold memmove_down. erewrite loop_exit; [done|]. by simpl in *; subst.
  - rewrite length_app in *. cbn [length] in *.
    destruct (copy_step_down _ _ _ _ _ Hwf Hr Hmap Hsd) as (Hl & Hst & ?). destruct_and!.
    unfold memmove_down. erewrite loop_step.
    2:{ rewrite (proj2 (Z.gtb_gt _ _)) by lia.
        replace (s' - 1) with (s + Z.of_nat (length bs)) by lia. mrun Hl.
        replace (d' - 1) with (d + Z.of_nat (length bs)) by lia. by mrun Hst. }
    fold (memmove_down fuel (n - 1) (d + Z.of_nat (length bs)) (s + Z.of_nat (length bs))).
    rewrite (IH (<[d + Z.of_nat (length bs):=b]> m)); try (done || lia).
    f_equal. rewrite write_bytes_app. cbn [write_bytes].
    apply map_eq. intros a. rewrite !lookup_write_bytes.
    destruct (decide (a = d + Z.of_nat (length bs))) as [->|Hne].
    + by rewrite decide_False, !lookup_insert_eq by lia.
    + rewrite !lookup_insert_ne by done. by rewrite lookup_write_bytes.
Qed.

(** ** Filling *)
Lemma land_255 b : Z.land b 255 = u8 b.
Proof. change 255 with (Z.ones 8). by rewrite Z.land_ones. Qed.

(** The word holds the low byte eight times. *)
Lemma memset_word_bytes byte : memset_word byte = le_val (replicate 8 (u8 byte)).
Proof.
  unfold memset_word. rewrite land_255. pose proof (u8_range byte) as Hb.
  set (b := u8 byte) in *. clearbody b.
  assert (Hor : ∀ x y k, 0 ≤ x < 2 ^ k → 0 ≤ k → Z.lor x (Z.shiftl y k) = x + y * 2 ^ k).
  { intros x y k Hx Hk. rewrite <- Z.shiftl_mul_pow2 by done.
    enough (Z.land x (Z.shiftl y k) = 0) as H0
      by (pose proof (Z.add_lor_land x (Z.shiftl y k)); lia).
    apply Z.bits_inj'. intros i Hi. rewrite Z.land_spec, Z.bits_0.
    destruct (decide (i < k)).
    - by rewrite Z.shiftl_spec_low, andb_false_r.
    - by rewrite <- (Z.mod_small x (2 ^ k)), Z.mod_pow2_bits_high by lia. }
  rewrite (Hor b b 8), (u64_id (b + _)) by lia.
  rewrite (Hor (b + b * 2 ^ 8) _ 16), (u64_id (_ + _ * 2 ^ 16)) by lia.
  rewrite Z.shiftl_shiftl, Hor, u64_id by lia. simpl. lia.
Qed.

Lemma le_bytes_replicate b : 0 ≤ b < 256 → le_bytes 8 (le_val (replicate 8 b)) = replicate 8 b.
Proof. intros. apply (le_bytes_le_val (replicate 8 b)). by apply Forall_replicate. Qed.

Lemma memset_bytes_ok fuel lim byte m d k :
  mapped m d k → lim = d + Z.of_nat k → (k < fuel)%nat →
  memset_bytes fuel lim byte d m = Ret tt (write_bytes m d (replicate k (u8 byte))).
Proof.
  revert m d fuel. induction k as [|k IH]; intros m d [|fuel] Hm Hlim Hf; try lia.
  - unfold memset_bytes. erewrite loop_exit; [done|]. by rewrite (proj2 (Z.ltb_ge _ _)) by lia.
  - apply mapped_S in Hm as [[b Hb] Hm]. unfold memset_bytes.
    erewrite (loop_step _ _ _ _ (d + 1)).
    2:{ rewrite (proj2 (Z.ltb_lt _ _)) by lia. by mrun (store8_Some _ _ _ byte Hb). }
    simpl. apply IH; [by apply mapped_insert|lia|lia].
Qed.

Lemma memset_words_ok fuel lim byte m d k :
  mapped m d (8 * k) → lim = d + Z.of_nat (8 * k) → (k < fuel)%nat →
  memset_words fuel lim (memset_word byte) d m =
    Ret tt (write_bytes m d (replicate (8 * k) (u8 byte))).
Proof.
  revert m d fuel. induction k as [|k IH]; intros m d [|fuel] Hm Hlim Hf; try lia.
  - unfold memset_words. erewrite loop_exit; [done|]. by rewrite (proj2 (Z.ltb_ge _ _)) by lia.
  - replace (8 * S k)%nat with (8 + 8 * k)%nat in * by lia.
    apply mapped_app in Hm as [Hm1 Hm2]. unfold memset_words.
    pose proof (store_le_mapped 8 d (memset_word byte) m Hm1) as Hst.
    erewrite (loop_step _ _ _ _ (d + 8)).
    2:{ rewrite (proj2 (Z.ltb_lt _ _)) by lia. by mrun Hst. }
    fold (memset_words fuel lim (memset_word byte) (d + 8)).
    rewrite IH; [|by apply mapped_write_bytes|lia|lia].
    rewrite replicate_add, write_bytes_app, length_replicate.
    by rewrite memset_word_bytes, le_bytes_replicate by apply u8_range.
Qed.

(** ** NUL-terminated scans *)
Lemma strlen_loop_ok fuel m p s :
  cstr m p s → (length s < fuel)%nat →
  strlen_loop fuel p m = Ret (p + Z.of_nat (length s)) m.
Proof.
  revert p fuel. induction s as [|b s IH]; intros p [|fuel] Hs Hf; try (simpl in Hf; lia);
    unfold strlen_loop; cbn [cstr] in Hs.
  - erewrite loop_exit; [by rewrite Z.add_0_r|]. by mrun (load8_Some _ _ _ Hs).
  - destruct Hs as (Hb & H0 & Hs). erewrite (loop_step _ _ _ _ (p + 1)).
    2:{ mrun (load8_Some _ _ _ Hb). unfold truthy. by rewrite (proj2 (Z.eqb_neq _ _)). }
    fold (strlen_loop fuel (p + 1)). rewrite IH by (done || (simpl in Hf; lia)).
    f_equal. simpl. lia.
Qed.

Lemma strcmp_loop_ok fuel m p1 p2 a b :
  mem_wf m → cstr m p1 a → cstr m p2 b → (length a < fuel)%nat →
  ∃ r, strcmp_loop fuel p1 p2 m = Ret r m ∧ (r = 0 ↔ a = b) ∧ (r < 0 ↔ lex_lt a b).
Proof.
  intros Hwf. revert p1 p2 b fuel.
  induction a as [|x a IH]; intros p1 p2 b [|fuel] Ha Hb Hf; try (simpl in Hf; lia);
    unfold strcmp_loop; cbn [cstr] in Ha; destruct b as [|y b]; cbn [cstr] in Hb.
  - exists 0. split; [|naive_solver lia]. erewrite loop_exit; [done|].
    mrun (load8_Some _ _ _ Ha). by mrun (load8_Some _ _ _ Hb).
  - destruct Hb as (Hy & H0 & Hb). pose proof (mem_wf_lookup _ _ _ Hwf Hy) as Hy'. exists (0 - y). split.
    + erewrite loop_exit; [done|]. mrun (load8_Some _ _ _ Ha). by mrun (load8_Some _ _ _ Hy).
    + cbn [lex_lt]. split; [split; [lia|done]|]. split; [done|lia].
  - destruct Ha as (Hx & H0 & Ha). pose proof (mem_wf_lookup _ _ _ Hwf Hx) as Hx'. exists (x - 0). split.
    + erewrite loop_exit; [done|]. mrun (load8_Some _ _ _ Hx). mrun (load8_Some _ _ _ Hb).
      rewrite (proj2 (Z.eqb_neq x 0)) by done. by rewrite andb_false_r.
    + cbn [lex_lt]. split; [split; [lia|done]|]. split; [lia|done].
  - destruct Ha as (Hx & H0 & Ha). destruct Hb as (Hy & _ & Hb). cbn [lex_lt].
    destruct (Z.eqb_spec x y) as [->|Hne].
    + destruct (IH (p1 + 1) (p2 + 1) b fuel Ha Hb) as (r & Hr & He & Hlt); [simpl in Hf; lia|].
      exists r. erewrite (loop_step _ _ _ _ (p1 + 1, p2 + 1)).
      2:{ mrun (load8_Some _ _ _ Hx). mrun (load8_Some _ _ _ Hy). unfold truthy.
          by rewrite (proj2 (Z.eqb_neq y 0)), Z.eqb_refl by done. }
      split; [exact Hr|]. rewrite He, Hlt. split; [split; [by intros ->|by intros [=]]|].
      split; [by right|]. by intros [?|[_ ?]]; [lia|].
    + exists (x - y). erewrite loop_exit.
      2:{ mrun (load8_Some _ _ _ Hx). mrun (load8_Some _ _ _ Hy).
          by rewrite (proj2 (Z.eqb_neq x y)), andb_false_r by done. }
      split; [done|]. split; [split; [lia|intros [=]; lia]|]. lia.
Qed.

Lemma strcpy_loop_ok fuel m d s bs :
  mem_wf m → cstr m s bs → mapped m d (S (length bs)) →
  d ≤ s ∨ s + Z.of_nat (length bs) < d → (length bs < fuel)%nat →
  strcpy_loop fuel d s m = Ret tt (write_bytes m d (bs ++ [0])).
Proof.
  revert m d s fuel.
  induction bs as [|b bs IH]; intros m d s [|fuel] Hwf Hs [[c Hc] Hmap]%mapped_S Hdis Hf;
    try (simpl in Hf; lia); unfold strcpy_loop; cbn [cstr] in Hs.
  - erewrite loop_exit; [done|]. mrun (load8_Some _ _ _ Hs). by mrun (store8_Some _ _ _ 0 Hc).
  - destruct Hs as (Hb & H0 & Hs). pose proof (mem_wf_lookup _ _ _ Hwf Hb) as Hb'.
    erewrite (loop_step _ _ _ _ (d + 1, s + 1)).
    2:{ mrun (load8_Some _ _ _ Hb). mrun (store8_Some _ _ _ b Hc).
        unfold truthy. by rewrite (proj2 (Z.eqb_neq _ _)). }
    rewrite u8_id by done. cbn [app write_bytes length] in *.
    apply IH; [by apply mem_wf_insert| |by apply mapped_insert|lia|lia].
    eapply cstr_ext; [|done]. intros i Hi. apply lookup_insert_ne. lia.
Qed.

Lemma safestrcpy_loop_short fuel m n d s bs :
  mem_wf m → cstr m s bs → mapped m d (S (length bs)) →
  d ≤ s ∨ s + Z.of_nat (length bs) < d → Z.of_nat (length bs) < n - 1 → (length bs < fuel)%nat →
  safestrcpy_loop fuel n d s m =
    Ret (d + Z.of_nat (S (length bs))) (write_bytes m d (bs ++ [0])).
Proof.
  revert m n d s fuel.
  induction bs as [|b bs IH]; intros m n d s [|fuel] Hwf Hs [[c Hc] Hmap]%mapped_S Hdis Hn Hf;
    try (simpl in Hf; lia); unfold safestrcpy_loop; cbn [cstr] in Hs.
  - erewrite loop_exit; [done|]. rewrite (proj2 (Z.gtb_gt _ _)) by (simpl in Hn; lia).
    mrun (load8_Some _ _ _ Hs). by mrun (store8_Some _ _ _ 0 Hc).
  - destruct Hs as (Hb & H0 & Hs). pose proof (mem_wf_lookup _ _ _ Hwf Hb) as Hb'. cbn [app write_bytes length] in *.
    erewrite (loop_step _ _ _ _ (n - 1, d + 1, s + 1)).
    2:{ rewrite (proj2 (Z.gtb_gt _ _)) by lia. mrun (load8_Some _ _ _ Hb).
        mrun (store8_Some _ _ _ b Hc). unfold truthy. by rewrite (proj2 (Z.eqb_neq _ _)). }
    rewrite u8_id by done. fold (safestrcpy_loop fuel (n - 1) (d + 1) (s + 1)).
    rewrite (IH (<[d := b]> m)); [f_equal; lia|by apply mem_wf_insert| |by apply mapped_insert|lia..].
    eapply cstr_ext; [|done]. intros i Hi. apply lookup_insert_ne. lia.
Qed.

Lemma safestrcpy_loop_long fuel m n d s bs :
  mem_wf m → Forall (λ b, b ≠ 0) bs → read_bytes m s (length bs) = Some bs →
  mapped m d (length bs) → d ≤ s ∨ s + Z.of_nat (length bs) ≤ d →
  n - 1 = Z.of_nat (length bs) → (length bs < fuel)%nat →
  safestrcpy_loop fuel n d s m = Ret (d + Z.of_nat (length bs)) (write_bytes m d bs).
Proof.
  revert m n d s fuel.
  induction bs as [|b bs IH]; intros m n d s [|fuel] Hwf Hnz Hr Hmap Hdis Hn Hf;
    try (simpl in Hf; lia).
  - unfold safestrcpy_loop. erewrite loop_exit; [by rewrite Z.add_0_r|].
    simpl in Hn. by rewrite Hn.
  - destruct (copy_step _ _ _ _ _ Hwf Hr Hmap Hdis) as (Hl & Hst & ?). destruct_and!.
    inversion_clear Hnz as [|?? Hb0 Hnz']. unfold safestrcpy_loop.
    erewrite (loop_step _ _ _ _ (n - 1, d + 1, s + 1)).
    2:{ cbn [length] in *. rewrite (proj2 (Z.gtb_gt _ _)) by lia. mrun Hl. mrun Hst.
        unfold truthy. by rewrite (proj2 (Z.eqb_neq _ _)). }
    fold (safestrcpy_loop fuel (n - 1) (d + 1) (s + 1)). simpl in *.
    rewrite (IH (<[d := b]> m)); auto; try lia. f_equal. lia.
Qed.

(** ** [atol] *)
Lemma dec_value_le acc ds : 0 ≤ acc → Forall is_digit ds → acc ≤ dec_value acc ds.
Proof.
  intros Hacc Hds. revert acc Hacc. induction Hds as [|c ds Hc _ IH]; intros acc Hacc; [done|].
  unfold dec_value, is_digit in *. cbn [foldl]. specialize (IH (10 * acc + (c - 48))). lia.
Qed.

Lemma atol_digits_ok fuel m p ds acc :
  cstr m p ds → Forall is_digit ds → 0 ≤ acc → dec_value acc ds < 2 ^ 63 →
  (length ds < fuel)%nat →
  atol_digits fuel p acc m = Ret (dec_value acc ds) m.
Proof.
  revert p acc fuel. induction ds as [|c ds IH]; intros p acc [|fuel] Hs Hd Hacc Hv Hf;
    try (simpl in Hf; lia); unfold atol_digits; cbn [cstr] in Hs.
  - erewrite loop_exit; [done|]. by mrun (load8_Some _ _ _ Hs).
  - destruct Hs as (Hc & H0 & Hs). inversion_clear Hd as [|?? Hc' Hd'].
    change (dec_value acc (c :: ds)) with (dec_value (10 * acc + (c - 48)) ds) in *.
    unfold is_digit in Hc'. pose proof (dec_value_le (10 * acc + (c - 48)) ds ltac:(lia) Hd').
    erewrite (loop_step _ _ _ _ (p + 1, 10 * acc + (c - 48))).
    2:{ mrun (load8_Some _ _ _ Hc). unfold truthy. rewrite (proj2 (Z.eqb_neq _ _)) by done.
        cbn [negb]. rewrite !s64_id by (rewrite ?s64_id; lia). do 4 f_equal. lia. }
    apply IH; auto; simpl in Hf; lia.
Qed.

Lemma atol_spaces_ok fuel m p k s :
  cstr m p (replicate k 32 ++ s) → head s ≠ Some 32 → (k < fuel)%nat →
  atol_spaces fuel p m = Ret (p + Z.of_nat k) m.
Proof.
  revert p fuel. induction k as [|k IH]; intros p [|fuel] Hs Hne Hf; try lia;
    unfold atol_spaces; cbn [replicate app cstr] in Hs.
  - erewrite loop_exit; [by rewrite Z.add_0_r|].
    destruct s as [|b s]; cbn [cstr] in Hs.
    + by mrun (load8_Some _ _ _ Hs).
    + destruct Hs as (Hb & _ & _). mrun (load8_Some _ _ _ Hb).
      rewrite (proj2 (Z.eqb_neq _ _)); [done|]. simpl in Hne. congruence.
  - destruct Hs as (Hb & _ & Hs). erewrite (loop_step _ _ _ _ (p + 1)).
    2:{ by mrun (load8_Some _ _ _ Hb). }
    fold (atol_spaces fuel (p + 1)). rewrite IH by (done || lia). f_equal. lia.
Qed.

(** * The properties of the string library *)

(** [memcpy] copies: on ranges that do not overlap, or overlap with the destination below
    the source, the destination ends up holding the source's bytes and nothing else changes, by
    the word loop with its byte tail as well as by the byte loop alone. *)
Theorem memcpy_correct m dest src bs :
  mem_wf m → read_bytes m src (length bs) = Some bs → mapped m dest (length bs) →
  dest ≤ src ∨ src + Z.of_nat (length bs) ≤ dest →
  memcpy dest src (Z.of_nat (length bs)) m = Ret dest (write_bytes m dest bs).
Proof.
  intros Hwf Hr Hmap Hdis. unfold memcpy. rewrite Nat2Z.id. destruct (_ =? 0).
  - destruct (memcpy_words_ok (S (length bs)) (dest + Z.of_nat (length bs) - 7) m dest src bs)
      as (k & Hk & Hw); auto with lia.
    unfold word_size. mrun Hw. cbn beta iota.
    pose proof (read_bytes_split m src k (length bs - k) bs) as Hsp.
    replace (k + (length bs - k))%nat with (length bs) in Hsp by lia.
    destruct (Hsp Hr) as [Hr1 Hr2].
    replace (length bs) with (k + (length bs - k))%nat in Hmap by lia.
    apply mapped_app in Hmap as [_ Hmap].
    pose proof (memcpy_bytes_ok (S (length bs)) (dest + Z.of_nat (length bs))
      (write_bytes m dest (take k bs)) (dest + Z.of_nat k) (src + Z.of_nat k) (drop k bs)) as Hb.
    rewrite length_drop in Hb. erewrite bind_Ret; [|apply Hb].
    + unfold mret, M_ret. f_equal.
      rewrite <- (take_drop k bs) at 3. rewrite write_bytes_app, length_take_le by lia. done.
    + apply mem_wf_write_bytes; [done|]. by eapply read_bytes_wf.
    + rewrite read_write_bytes_ne; [done|]. rewrite length_take_le by lia. lia.
    + by apply mapped_write_bytes.
    + lia.
    + lia.
    + lia.
  - rewrite mret_bind. cbn beta iota.
    by mrun (memcpy_bytes_ok (S (length bs)) _ m dest src bs Hwf Hr Hmap Hdis eq_refl
               (Nat.lt_succ_diag_r _)).
Qed.

Lemma memcpy_correct_witness :
  let m := write_bytes (∅ : mem) 64 (map Z.of_nat (seq 0 48)) in
  memcpy 64 80 19 m = Ret 64 (write_bytes m 64 (map Z.of_nat (seq 16 19))).
Proof.
  cbv zeta. set (m := write_bytes (∅ : mem) 64 _).
  apply (memcpy_correct m 64 80 (map Z.of_nat (seq 16 19))).
  - apply mem_wf_write_bytes; [apply map_Forall_empty|].
    apply (bool_decide_unpack _). vm_compute. exact I.
  - vm_compute. reflexivity.
  - apply read_bytes_is_Some. vm_compute. by eexists.
  - left. done.
Defined.

(** [memmove] copies whatever the overlap of the two ranges. *)
Theorem memmove_correct m dst src bs :
  mem_wf m → read_bytes m src (length bs) = Some bs → mapped m dst (length bs) →
  memmove dst src (Z.of_nat (length bs)) m = Ret dst (write_bytes m dst bs).
Proof.
  intros Hwf Hr Hmap. unfold memmove. rewrite Nat2Z.id.
  destruct (Z.ltb_spec src dst); simpl; [rewrite Z.gtb_ltb; destruct (Z.ltb_spec dst (src + Z.of_nat (length bs)))|].
  - by mrun (memmove_down_ok (S (length bs)) _ m dst src _ _ bs Hwf Hr Hmap ltac:(lia) eq_refl
               eq_refl eq_refl (Nat.lt_succ_diag_r _)).
  - by mrun (memmove_up_ok (S (length bs)) _ m dst src bs Hwf Hr Hmap ltac:(lia) eq_refl
               (Nat.lt_succ_diag_r _)).
  - by mrun (memmove_up_ok (S (length bs)) _ m dst src bs Hwf Hr Hmap ltac:(lia) eq_refl
               (Nat.lt_succ_diag_r _)).
Qed.

Lemma memmove_correct_witness :
  let m := write_bytes (∅ : mem) 0 [1; 2; 3; 4; 5; 6] in
  memmove 2 0 4 m = Ret 2 (write_bytes m 2 [1; 2; 3; 4]) ∧
  memmove 0 1 5 m = Ret 0 (write_bytes m 0 [2; 3; 4; 5; 6]).
Proof.
  cbv zeta. set (m := write_bytes (∅ : mem) 0 _).
  assert (mem_wf m).
  { apply mem_wf_write_bytes; [apply map_Forall_empty|].
    apply (bool_decide_unpack _). vm_compute. exact I. }
  split.
  - apply (memmove_correct m 2 0 [1; 2; 3; 4]); [done|by vm_compute|].
    apply read_bytes_is_Some. vm_compute. by eexists.
  - apply (memmove_correct m 0 1 [2; 3; 4; 5; 6]); [done|by vm_compute|].
    apply read_bytes_is_Some. vm_compute. by eexists.
Defined.

Lemma memset_Ret m dest byte n :
  mapped m dest n →
  memset dest byte (Z.of_nat n) m = Ret dest (write_bytes m dest (replicate n (u8 byte))).
Proof.
  intros Hmap. unfold memset. rewrite Nat2Z.id. destruct (Z.eqb_spec (Z.land (Z.lor dest (Z.of_nat n)) (word_size - 1)) 0) as [Hal|_].
  - assert (Z.of_nat n `mod` 8 = 0) as Hn.
    { change (word_size - 1) with (Z.ones 3) in Hal. rewrite Z.land_lor_distr_l in Hal.
      apply Z.lor_eq_0_iff in Hal as [_ Hal]. by rewrite Z.land_ones in Hal. }
    apply Z.mod_divide in Hn as [k Hk]; [|lia].
    assert (n = 8 * Z.to_nat k)%nat as Hk' by lia.
    erewrite bind_Ret; [done|]. rewrite Hk' at 3.
    apply memset_words_ok; [by rewrite <- Hk'|by rewrite <- Hk'|lia].
  - by mrun (memset_bytes_ok (S n) (dest + Z.of_nat n) byte m dest n Hmap eq_refl
               (Nat.lt_succ_diag_r _)).
Qed.

(** [memset] fills exactly [len] bytes with the low byte of its argument, whichever of its
    two loops the alignment test selects. *)
Theorem memset_correct m dest byte n :
  mapped m dest n →
  memset dest byte (Z.of_nat n) m = Ret dest (write_bytes m dest (replicate n (u8 byte))).
Proof. apply memset_Ret. Qed.

Lemma memset_correct_witness :
  let m := write_bytes (∅ : mem) 16 (replicate 24 7) in
  memset 16 (-1) 16 m = Ret 16 (write_bytes m 16 (replicate 16 255)) ∧
  memset 17 (-1) 16 m = Ret 17 (write_bytes m 17 (replicate 16 255)).
Proof.
  cbv zeta. split.
  - apply (memset_correct _ 16 (-1) 16). apply read_bytes_is_Some. vm_compute. by eexists.
  - apply (memset_correct _ 17 (-1) 16). apply read_bytes_is_Some. vm_compute. by eexists.
Defined.

(** [strlen] returns the length of the string and reads nothing past its NUL. *)
Lemma strlen_correct m p s : cstr m p s → strlen p m = Ret (Z.of_nat (length s)) m.
Proof.
  intros Hs. pose proof (cstr_scan_fuel _ _ _ Hs). unfold strlen, gets.
  rewrite (bind_Ret _ _ m (scan_fuel m) m) by done.
  mrun (strlen_loop_ok (scan_fuel m) m p s Hs ltac:(unfold scan_fuel; lia)).
  unfold mret, M_ret. f_equal. lia.
Qed.

Lemma strcmp_Ret m p1 p2 a b :
  mem_wf m → cstr m p1 a → cstr m p2 b →
  ∃ r, strcmp p1 p2 m = Ret r m ∧ (r = 0 ↔ a = b) ∧ (r < 0 ↔ lex_lt a b).
Proof.
  intros Hwf Ha Hb. pose proof (cstr_scan_fuel _ _ _ Ha). unfold strcmp, gets.
  rewrite (bind_Ret _ _ m (scan_fuel m) m) by done.
  apply strcmp_loop_ok; auto. unfold scan_fuel. lia.
Qed.

(** [strcmp] decides equality and computes dictionary order: on two strings in memory the
    result is zero exactly when they are equal and negative exactly when the first comes before
    the second. *)
Theorem strcmp_correct m p1 p2 a b :
  mem_wf m → cstr m p1 a → cstr m p2 b →
  ∃ r, strcmp p1 p2 m = Ret r m ∧ (r = 0 ↔ a = b) ∧ (r < 0 ↔ lex_lt a b).
Proof. apply strcmp_Ret. Qed.

Lemma strcmp_correct_witness :
  let m := write_bytes (write_bytes (∅ : mem) 0 (bytes "main" ++ [0])) 8 (bytes "make" ++ [0]) in
  ∃ r, strcmp 0 8 m = Ret r m ∧ (r = 0 ↔ bytes "main" = bytes "make") ∧
       (r < 0 ↔ lex_lt (bytes "main") (bytes "make")).
Proof.
  cbv zeta. apply strcmp_correct.
  - do 2 (apply mem_wf_write_bytes; [|apply (bool_decide_unpack _); vm_compute; exact I]).
    apply map_Forall_empty.
  - vm_compute. naive_solver.
  - vm_compute. naive_solver.
Defined.

(** [strcpy] copies a string with its NUL. *)
Lemma strcpy_correct m dest src s :
  mem_wf m → cstr m src s → mapped m dest (S (length s)) →
  dest ≤ src ∨ src + Z.of_nat (length s) < dest →
  strcpy dest src m = Ret dest (write_bytes m dest (s ++ [0])).
Proof.
  intros Hwf Hs Hmap Hdis. pose proof (cstr_scan_fuel _ _ _ Hs). unfold strcpy, gets.
  rewrite (bind_Ret _ _ m (scan_fuel m) m) by done.
  by mrun (strcpy_loop_ok (scan_fuel m) m dest src s Hwf Hs Hmap Hdis
             ltac:(unfold scan_fuel; lia)).
Qed.

Lemma cstr_write_bytes m p s :
  Forall (λ b, b ≠ 0) s → cstr (write_bytes m p (s ++ [0])) p s.
Proof.
  revert m p. intros m p Hnz. revert m p. induction Hnz as [|b s Hb _ IH]; intros m p.
  - simpl. apply lookup_insert_eq.
  - cbn [app write_bytes cstr]. split_and!; [|done|apply IH].
    rewrite lookup_write_bytes_ne by lia. apply lookup_insert_eq.
Qed.

Lemma cstr_nonzero m p s : cstr m p s → Forall (λ b, b ≠ 0) s.
Proof. revert p. induction s as [|b s IH]; intros p; cbn [cstr]; [done|]. intros (_ & ? & ?). eauto. Qed.

Lemma cstr_read m p s : cstr m p s → read_bytes m p (length s) = Some s.
Proof.
  intros Hs. apply read_bytes_intro; [done|]. intros i Hi.
  destruct (cstr_lookup _ _ _ _ Hs Hi) as (b & Hb & Hm & _). congruence.
Qed.

(** C37. [safestrcpy], with a buffer of [n > 0] bytes, writes inside that buffer only and leaves
    a NUL-terminated string there: the longest prefix of the source that fits. *)
Theorem safestrcpy_correct m d t n s :
  mem_wf m → cstr m t s → (0 < n)%nat → mapped m d n →
  d ≤ t ∨ t + Z.of_nat (length s) < d →
  ∃ m', safestrcpy d t (Z.of_nat n) m = Ret d m' ∧
    cstr m' d (take (n - 1) s) ∧
    ∀ a, ¬ (d ≤ a < d + Z.of_nat n) → m' !! a = m !! a.
Proof.
  intros Hwf Hs Hn Hmap Hdis. unfold safestrcpy. rewrite Nat2Z.id.
  rewrite (proj2 (Z.leb_gt _ _)) by lia.
  pose proof (cstr_nonzero _ _ _ Hs) as Hnz.
  destruct (decide (length s < n - 1)%nat) as [Hlt|Hge].
  - erewrite bind_Ret; [|eapply (safestrcpy_loop_short (S n)); eauto; [|lia..]].
    2:{ by eapply mapped_le; [|exact Hmap]; lia. }
    set (m1 := write_bytes m d (s ++ [0])). set (e := d + Z.of_nat (S (length s))).
    assert (is_Some (m1 !! e)) as [b Hb].
    { apply (mapped_write_bytes _ _ _ _ _ Hmap). lia. }
    mrun (store8_Some _ _ _ 0 Hb). eexists. split; [done|]. split.
    + rewrite take_ge by lia. apply (cstr_ext m1).
      * intros i Hi. apply lookup_insert_ne. lia.
      * by apply cstr_write_bytes.
    + intros a Ha. rewrite lookup_insert_ne by lia. apply lookup_write_bytes_ne.
      rewrite length_app. simpl. lia.
  - assert (length (take (n - 1) s) = n - 1)%nat as Hl by (rewrite length_take; lia).
    assert (Hr := read_bytes_split m t (n - 1) (length s - (n - 1)) s).
    replace (n - 1 + (length s - (n - 1)))%nat with (length s) in Hr by lia.
    destruct (Hr (cstr_read _ _ _ Hs)) as [Hr1 _].
    erewrite bind_Ret.
    2:{ eapply (safestrcpy_loop_long (S n) m (Z.of_nat n) d t (take (n - 1) s)); rewrite ?Hl; auto; try lia.
        - by apply Forall_take.
        - eapply mapped_le; [|exact Hmap]; lia. }
    rewrite Hl. set (m1 := write_bytes m d (take (n - 1) s)). set (e := d + Z.of_nat (n - 1)).
    assert (is_Some (m1 !! e)) as [b Hb].
    { apply (mapped_write_bytes _ _ _ _ _ Hmap). lia. }
    mrun (store8_Some _ _ _ 0 Hb). eexists. split; [done|]. split.
    + replace (<[e := u8 0]> m1) with (write_bytes m d (take (n - 1) s ++ [0])).
      * apply cstr_write_bytes. by apply Forall_take.
      * rewrite write_bytes_app, Hl. done.
    + intros a Ha. rewrite lookup_insert_ne by lia. apply lookup_write_bytes_ne. lia.
Qed.

Lemma safestrcpy_correct_witness :
  let m := write_bytes (write_bytes (∅ : mem) 0 (bytes "kernel" ++ [0])) 16 (replicate 5 1) in
  ∃ m', safestrcpy 16 0 4 m = Ret 16 m' ∧ cstr m' 16 (take (4 - 1) (bytes "kernel")) ∧
    ∀ a, ¬ (16 ≤ a < 16 + Z.of_nat 4) → m' !! a = m !! a.
Proof.
  cbv zeta. apply (safestrcpy_correct _ 16 0 4 (bytes "kernel")).
  - do 2 (apply mem_wf_write_bytes; [|apply (bool_decide_unpack _); vm_compute; exact I]).
    apply map_Forall_empty.
  - vm_compute. naive_solver.
  - lia.
  - apply read_bytes_is_Some. vm_compute. by eexists.
  - right. vm_compute. done.
Defined.

(** The text [atol] accepts: leading blanks, an optional sign, decimal digits. *)
Definition atol_text (k : nat) (sign : list Z) (ds : list Z) : list Z :=
  replicate k 32 ++ sign ++ ds.
Definition sign_value (sign : list Z) (v : Z) : Z :=
  match sign with [45] => - v | _ => v end.

Lemma atol_Ret m p k sign ds :
  cstr m p (atol_text k sign ds) → sign ∈ [[]; [43]; [45]] → Forall is_digit ds →
  dec_value 0 ds < 2 ^ 63 →
  atol p m = Ret (sign_value sign (dec_value 0 ds)) m.
Proof.
  intros Hs Hsign Hd Hv. pose proof (cstr_scan_fuel _ _ _ Hs) as Hf.
  unfold atol_text in *. rewrite !length_app, length_replicate in Hf.
  unfold atol, gets. rewrite (bind_Ret _ _ m (scan_fuel m) m) by done.
  assert (head (sign ++ ds) ≠ Some 32) as Hh.
  { set_unfold in Hsign. destruct Hsign as [->|[->|[->|[]]]]; [|done..].
    destruct Hd as [|c ds Hc _]; [done|]. unfold is_digit in Hc. simpl. intros [=]. lia. }
  mrun (atol_spaces_ok (scan_fuel m) m p k _ Hs Hh ltac:(unfold scan_fuel; lia)).
  assert (cstr m (p + Z.of_nat k) (sign ++ ds)) as Hs'.
  { clear -Hs. revert p Hs. induction k as [|k IH]; intros p; [by rewrite Z.add_0_r|].
    cbn [replicate app cstr]. intros (_ & _ & Hs%IH).
    by replace (p + Z.of_nat (S k)) with (p + 1 + Z.of_nat k) by lia. }
  pose proof (dec_value_le 0 ds ltac:(lia) Hd) as Hpos.
  assert (∀ q, cstr m q ds → atol_digits (scan_fuel m) q 0 m = Ret (dec_value 0 ds) m) as Hdig.
  { intros q Hq. apply atol_digits_ok; auto; unfold scan_fuel; lia. }
  clear Hs Hh. set_unfold in Hsign. destruct Hsign as [->|[->|[->|[]]]]; cbn [app cstr] in Hs'.
  - assert (∃ b, m !! (p + Z.of_nat k) = Some b ∧ (b =? 45) = false ∧ (b =? 43) = false)
      as (b & Hb & H45 & H43).
    { destruct Hd as [|c ds Hc _]; cbn [cstr] in Hs'; [eauto|].
      destruct Hs' as (Hb & _). unfold is_digit in Hc. exists c.
      split_and!; [done|apply Z.eqb_neq; lia..]. }
    mrun (load8_Some _ _ _ Hb). rewrite H45, H43. cbn. by mrun (Hdig _ Hs').
  - destruct Hs' as (Hb & _ & Hs'). mrun (load8_Some _ _ _ Hb). cbn. by mrun (Hdig _ Hs').
  - destruct Hs' as (Hb & _ & Hs'). mrun (load8_Some _ _ _ Hb). cbn. mrun (Hdig _ Hs').
    unfold mret, M_ret. rewrite s64_id by lia. done.
Qed.

(** [atol] reads back a signed decimal number: blanks, an optional sign, then digits whose
    value fits in a [long]. *)
Theorem atol_correct m p k sign ds :
  cstr m p (atol_text k sign ds) → sign ∈ [[]; [43]; [45]] → Forall is_digit ds →
  dec_value 0 ds < 2 ^ 63 →
  atol p m = Ret (sign_value sign (dec_value 0 ds)) m.
Proof. apply atol_Ret. Qed.

Lemma atol_correct_witness :
  let m := write_bytes (∅ : mem) 100 (bytes "  -4096" ++ [0]) in atol 100 m = Ret (-4096) m.
Proof.
  cbv zeta. apply (atol_correct _ 100 2 [45] (bytes "4096")).
  - vm_compute. naive_solver.
  - set_solver.
  - unfold is_digit. vm_compute. repeat constructor; done.
  - vm_compute. done.
Defined.

(** ** Termination of the scans *)
Lemma strlen_loop_terminates m p : terminates (strlen_loop (scan_fuel m) p m).
Proof.
  apply (scan_terminates id id). intros a s. split.
  - tbind. intros b s' _. by destruct (truthy b).
  - intros a' s'. intros (b & s1 & [Hl ->]%load8_inv & Hr)%bind_inv.
    destruct (truthy b); [|done]. injection Hr as <- <-. split_and!; [simpl; lia|by eexists|done].
Qed.

Lemma strcmp_loop_terminates m p q : terminates (strcmp_loop (scan_fuel m) p q m).
Proof.
  apply (scan_terminates id fst). intros [a1 a2] s. split.
  - tbind. intros c1 s1 _. tbind. intros c2 s2 _. by destruct (_ && _).
  - intros [a1' a2'] s'. intros (b & s1 & [Hl ->]%load8_inv & Hr)%bind_inv.
    apply bind_inv in Hr as (b' & s2 & [Hl' ->]%load8_inv & Hr).
    destruct (_ && _); [|done]. injection Hr as <- <- <-. split_and!; [simpl; lia|by eexists|done].
Qed.

Lemma strcpy_loop_terminates m d s : terminates (strcpy_loop (scan_fuel m) d s m).
Proof.
  apply (scan_terminates id snd). clear. intros [d s] m1. split.
  - tbind. intros b m2 _. tbind. intros [] m3 _. by destruct (truthy b).
  - intros [d' s'] m'. intros (b & m2 & [Hl ->]%load8_inv & Hr)%bind_inv.
    apply bind_inv in Hr as (u & m3 & (Hd & -> & Hdom)%store8_inv & Hr).
    destruct (truthy b); [|done]. injection Hr as <- <- <-. split_and!; [simpl; lia|by eexists|done].
Qed.

Lemma atol_spaces_terminates m p : terminates (atol_spaces (scan_fuel m) p m).
Proof.
  apply (scan_terminates id id). intros a s. split.
  - tbind. intros b s' _. by destruct (_ =? _).
  - intros a' s'. intros (b & s1 & [Hl ->]%load8_inv & Hr)%bind_inv.
    destruct (_ =? _); [|done]. injection Hr as <- <-. split_and!; [simpl; lia|by eexists|done].
Qed.

Lemma atol_spaces_state fuel p m q m' : atol_spaces fuel p m = Ret q m' → m' = m.
Proof.
  apply (loop_state _ (λ m1, m1 = m)); [|done]. intros a s r s' ->.
  intros (b & s1 & [_ ->]%load8_inv & Hr)%bind_inv. destruct (_ =? _); by injection Hr as <- <-.
Qed.

Lemma atol_digits_terminates m p acc : terminates (atol_digits (scan_fuel m) p acc m).
Proof.
  apply (scan_terminates id fst). intros [a r] s. split.
  - tbind. intros b s' _. by destruct (truthy b).
  - intros [a' r'] s'. intros (b & s1 & [Hl ->]%load8_inv & Hr)%bind_inv.
    destruct (truthy b); [|done]. injection Hr as <- <- <-. split_and!; [simpl; lia|by eexists|done].
Qed.

Lemma strcmp_terminates m p q : terminates (strcmp p q m).
Proof.
  unfold strcmp, gets. apply terminates_bind; [done|]. intros ? ? [= <- <-].
  apply strcmp_loop_terminates.
Qed.
Lemma strcmp_reads p q : reads (strcmp p q).
Proof.
  intros P. apply keeps_bind; [apply keeps_gets|]. intros fuel. apply keeps_loop.
  intros [s1 s2]. apply keeps_bind; [apply load8_reads|]. intros c1.
  apply keeps_bind; [apply load8_reads|]. intros c2. destruct (_ && _); apply keeps_ret.
Qed.

(** C40. The scans of the library terminate on every memory: each reads a fresh mapped address in
    every round, so it meets a NUL (a difference for [strcmp]) or faults at the end of the mapped
    range, well-formed strings or not. *)
Theorem scans_terminate m p q :
  terminates (strlen p m) ∧ terminates (strcmp p q m) ∧ terminates (strcpy p q m) ∧
  terminates (atol p m).
Proof.
  unfold strlen, strcmp, strcpy, atol, gets.
  split_and!; (apply terminates_bind; [done|]); intros ? ? [= <- <-].
  - apply terminates_bind; [apply strlen_loop_terminates|done].
  - apply strcmp_loop_terminates.
  - apply terminates_bind; [apply strcpy_loop_terminates|done].
  - apply terminates_bind; [apply atol_spaces_terminates|].
    intros str m1 ->%atol_spaces_state. tbind. intros b m2 [_ ->]%load8_inv.
    destruct (_ || _); (apply terminates_bind; [apply atol_digits_terminates|done]).
Qed.
