(* ===== verification/Snprintf.v ===== *)
(** Formatted output, util/snprintf.c: [vsnprintf], and its abstract specifications
    [render] and [render_at].

    The [out] argument of [vsnprintf] points to an array object of the caller's own, so it is the
    state of the monad here, a list of bytes; an access outside it is a fault.  The format and the
    [%s] arguments are read-only: they lie in memory, or are string literals of the program. *)
From S2P Require Import Prelude Mem CString.

(** * C values that are passed as variadic arguments *)

(** A number or an address, or the address of a string literal with the given bytes. *)
Inductive cval := Num (z : Z) | Lit (bs : list Z).

(** The [i]-th [char] a [const char*] value points to. *)
Definition cread (m : mem) (v : cval) (i : Z) : option Z :=
  match v with
  | Num p => m !! (p + i)
  | Lit bs => if i <? 0 then None else (bs ++ [0]) !! Z.to_nat i
  end.
(** A bound on the length of a string scan that starts at the value. *)
Definition cread_fuel (m : mem) (v : cval) : nat :=
  match v with Num _ => scan_fuel m | Lit bs => S (length bs) end.

(** [va_arg] on a list of the arguments that are left; reading past its end is undefined. *)
Definition va_int (vl : list cval) : option (Z * list cval) :=
  match vl with Num z :: vl' => Some (s32 z, vl') | _ => None end.
Definition va_long (vl : list cval) : option (Z * list cval) :=
  match vl with Num z :: vl' => Some (s64 z, vl') | _ => None end.
Definition va_num (longarg : bool) (vl : list cval) : option (Z * list cval) :=
  if longarg then va_long vl else va_int vl.
Definition va_str (vl : list cval) : option (cval * list cval) :=
  match vl with v :: vl' => Some (v, vl') | [] => None end.

(** * vsnprintf *)

(** [out[i] = c], and [if (++pos < n) out[pos - 1] = c]. *)
Definition out_set (i c : Z) : M (list Z) () := λ out,
  if (0 <=? i) && (i <? Z.of_nat (length out))
  then Ret tt (<[Z.to_nat i := u8 c]> out) else Fault.
Definition put (n c pos : Z) : M (list Z) Z :=
  when (pos + 1 <? n) (out_set pos c);;
  mret (pos + 1).

(** [for (i = k - 1; i >= 0; i--)] over the nibbles of [num]. *)
Definition hex_char (d : Z) : Z := if d <? 10 then 48 + d else 97 + d - 10.
Fixpoint put_hex (n num : Z) (k : nat) (pos : Z) : M (list Z) Z :=
  match k with
  | O => mret pos
  | S i =>
      let d := Z.land (Z.shiftr num (4 * Z.of_nat i)) 15 in
      pos ← put n (hex_char d) pos;
      put_hex n num i pos
  end.

(** [for (long nn = num; nn /= 10; digits++);] *)
Definition count_loop (fuel : nat) (nn digits : Z) : M (list Z) Z :=
  loop fuel (λ '(nn, digits),
    let nn := Z.quot nn 10 in
    if truthy nn then mret (inl (nn, digits + 1)) else mret (inr digits)) (nn, digits).
Definition count_digits (num : Z) : M (list Z) Z := count_loop 20 num 1.

(** [for (int i = digits - 1; i >= 0; i--)], the digits from the last to the first. *)
Fixpoint put_digits (n pos num : Z) (digits : nat) : M (list Z) () :=
  match digits with
  | O => mret tt
  | S i =>
      when (pos + Z.of_nat i + 1 <? n) (out_set (pos + Z.of_nat i) (48 + Z.rem num 10));;
      put_digits n pos (Z.quot num 10) i
  end.

(** [while ( *s2 ) { put *s2; s2++ }] *)
Definition put_str_loop (fuel : nat) (m : mem) (n : Z) (s2 : cval) (j pos : Z) : M (list Z) Z :=
  loop fuel (λ '(j, pos),
    c ← of_option (cread m s2 j);
    if truthy c then pos ← put n c pos; mret (inl (j + 1, pos)) else mret (inr pos)) (j, pos).
Definition put_str (m : mem) (n : Z) (s2 : cval) (pos : Z) : M (list Z) Z :=
  put_str_loop (cread_fuel m s2) m n s2 0 pos.

(** The variables of the loop over the format. *)
Record fmt_state := FmtState {
  fs_format : bool; fs_longarg : bool; fs_pos : Z; fs_vl : list cval }.

(** [case 'x'], into which [case 'p'] falls through. *)
Definition case_x (n : Z) (longarg : bool) (pos : Z) (vl : list cval) : M (list Z) fmt_state :=
  '(num, vl) ← of_option (va_num longarg vl);
  pos ← put_hex n num (if longarg then 16 else 8) pos;
  mret (FmtState false false pos vl).

Definition case_d (n : Z) (longarg : bool) (pos : Z) (vl : list cval) : M (list Z) fmt_state :=
  '(num, vl) ← of_option (va_num longarg vl);
  '(num, pos) ← (if num <? 0 then pos ← put n 45 pos; mret (s64 (- num), pos)
                 else mret (num, pos));
  digits ← count_digits num;
  put_digits n pos num (Z.to_nat digits);;
  mret (FmtState false false (pos + digits) vl).

Definition case_s (m : mem) (n pos : Z) (vl : list cval) : M (list Z) fmt_state :=
  '(s2, vl) ← of_option (va_str vl);
  pos ← put_str m n s2 pos;
  mret (FmtState false false pos vl).

(** The argument is only taken when the character is stored. *)
Definition case_c (n pos : Z) (vl : list cval) : M (list Z) fmt_state :=
  vl ← (if pos + 1 <? n then '(c, vl) ← of_option (va_int vl); out_set pos c;; mret vl else mret vl);
  mret (FmtState false false (pos + 1) vl).

(** The body of the loop over the format, for the character [c]. *)
Definition fmt_char (m : mem) (n c : Z) (st : fmt_state) : M (list Z) fmt_state :=
  let 'FmtState format longarg pos vl := st in
  if format then
    if c =? 108 (* l *) then mret (FmtState true true pos vl)
    else if c =? 112 (* p *) then
      pos ← put n 48 pos; pos ← put n 120 pos; case_x n true pos vl
    else if c =? 120 (* x *) then case_x n longarg pos vl
    else if c =? 100 (* d *) then case_d n longarg pos vl
    else if c =? 115 (* s *) then case_s m n pos vl
    else if c =? 99 (* c *) then case_c n pos vl
    else mret st
  else if c =? 37 (* % *) then mret (FmtState true longarg pos vl)
  else pos ← put n c pos; mret (FmtState false longarg pos vl).

Definition fmt_loop (fuel : nat) (m : mem) (n : Z) (s : cval) (i : Z) (st : fmt_state)
    : M (list Z) Z :=
  loop fuel (λ '(i, st),
    c ← of_option (cread m s i);
    if truthy c then st ← fmt_char m n c st; mret (inl (i + 1, st))
    else mret (inr (fs_pos st))) (i, st).
Definition vsnprintf (m : mem) (n : Z) (s : cval) (vl : list cval) : M (list Z) Z :=
  pos ← fmt_loop (cread_fuel m s) m n s 0 (FmtState false false 0 vl);
  (if pos <? n then out_set pos 0
   else when (truthy n) (out_set (n - 1) 0));;
  mret (s32 pos).

(** * The abstract specification

    [render] is the text a format and its arguments stand for, with no buffer and no bound.
    [render_at] is the text [vsnprintf] makes of them under the bound [n]: a [%c] whose character
    is not stored takes no argument, so the conversions behind it get the arguments before theirs.
    The two agree on a text that fits, and on a format without [%c]. *)

(** The string a value points to. *)
Fixpoint scan_str (fuel : nat) (m : mem) (v : cval) (i : Z) : option (list Z) :=
  match fuel with
  | O => None
  | S fuel' =>
      c ← cread m v i;
      if truthy c then s ← scan_str fuel' m v (i + 1); Some (c :: s) else Some []
  end.
Definition cstring (m : mem) (v : cval) : option (list Z) := scan_str (cread_fuel m v) m v 0.

(** [k] hexadecimal digits of [num], the most significant first. *)
Definition hex (k : nat) (num : Z) : list Z :=
  map (λ i, hex_char ((num / 16 ^ Z.of_nat i) `mod` 16)) (rev (seq 0 k)).

(** Decimal notation of a natural number, without leading zeros. *)
Fixpoint dec_digits (fuel : nat) (v : Z) : list Z :=
  match fuel with
  | O => [48 + v]
  | S fuel' => if v <? 10 then [48 + v] else dec_digits fuel' (v / 10) ++ [48 + v `mod` 10]
  end.
Definition dec (v : Z) : list Z :=
  if v <? 0 then 45 :: dec_digits 19 (- v) else dec_digits 19 v.

Fixpoint render (m : mem) (fmt : list Z) (format longarg : bool) (vl : list cval)
    : option (list Z) :=
  match fmt with
  | [] => Some []
  | c :: fmt =>
      if format then
        if c =? 108 then render m fmt true true vl
        else if c =? 112 then
          '(num, vl) ← va_long vl; r ← render m fmt false false vl; Some (48 :: 120 :: hex 16 num ++ r)
        else if c =? 120 then
          '(num, vl) ← va_num longarg vl; r ← render m fmt false false vl;
          Some (hex (if longarg then 16 else 8) num ++ r)
        else if c =? 100 then
          '(num, vl) ← va_num longarg vl; guard (num ≠ - 2 ^ 63);;
          r ← render m fmt false false vl; Some (dec num ++ r)
        else if c =? 115 then
          '(v, vl) ← va_str vl; s ← cstring m v;
          r ← render m fmt false false vl; Some (s ++ r)
        else if c =? 99 then
          '(z, vl) ← va_int vl; r ← render m fmt false false vl; Some (z :: r)
        else render m fmt true longarg vl
      else if c =? 37 then render m fmt true longarg vl
      else r ← render m fmt false longarg vl; Some (c :: r)
  end.

(** From the position [pos] on; 0 stands for a character that is not stored. *)
Fixpoint render_at (m : mem) (n : Z) (fmt : list Z) (format longarg : bool) (vl : list cval) (pos : Z)
    : option (list Z) :=
  match fmt with
  | [] => Some []
  | c :: fmt =>
      let rest t vl := r ← render_at m n fmt false false vl (pos + Z.of_nat (length t)); Some (t ++ r) in
      if format then
        if c =? 108 then render_at m n fmt true true vl pos
        else if c =? 112 then '(num, vl) ← va_long vl; rest (48 :: 120 :: hex 16 num) vl
        else if c =? 120 then
          '(num, vl) ← va_num longarg vl; rest (hex (if longarg then 16 else 8) num) vl
        else if c =? 100 then
          '(num, vl) ← va_num longarg vl; guard (num ≠ - 2 ^ 63);; rest (dec num) vl
        else if c =? 115 then '(v, vl) ← va_str vl; s ← cstring m v; rest s vl
        else if c =? 99 then
          if pos + 1 <? n then '(z, vl) ← va_int vl; rest [z] vl else rest [0] vl
        else render_at m n fmt true longarg vl pos
      else if c =? 37 then render_at m n fmt true longarg vl pos
      else r ← render_at m n fmt false longarg vl (pos + 1); Some (c :: r)
  end.

(** A format without a [%c] conversion. *)
Fixpoint no_char (fmt : list Z) (format : bool) : bool :=
  match fmt with
  | [] => true
  | c :: fmt =>
      if format then
        if c =? 99 then false else no_char fmt (negb (bool_decide (c ∈ [112; 120; 100; 115])))
      else no_char fmt (c =? 37)
  end.

(** What a buffer holds once the text [r] has been put in it under the bound [n], before and
    after the final NUL is written. *)
Definition fill (n : Z) (r out : list Z) : list Z :=
  let k := Z.to_nat (Z.min (Z.of_nat (length r)) (n - 1)) in
  map u8 (take k r) ++ drop k out.
Definition snprintf_result (n : Z) (r out : list Z) : list Z :=
  if n =? 0 then out
  else
    let k := Z.to_nat (Z.min (Z.of_nat (length r)) (n - 1)) in
    map u8 (take k r) ++ [0] ++ drop (S k) out.

(** * The buffer *)
Lemma fill_nil n out : fill n [] out = out.
Proof.
  unfold fill. rewrite take_nil. by replace (Z.to_nat _) with O by (cbn [length]; lia).
Qed.

Lemma fill_length n r out : n ≤ Z.of_nat (length out) → length (fill n r out) = length out.
Proof. intros Hn. unfold fill. rewrite length_app, length_map, length_take, length_drop. lia. Qed.

Lemma lookup_fill n r out i :
  n ≤ Z.of_nat (length out) →
  fill n r out !! i =
    if decide ((i < length r)%nat ∧ Z.of_nat i < n - 1) then u8 <$> r !! i else out !! i.
Proof.
  intros Hn. unfold fill. set (k := Z.to_nat _).
  assert (length (map u8 (take k r)) = k) as Hk by (rewrite length_map, length_take; lia).
  case_decide as Hd.
  - rewrite lookup_app_l by lia. rewrite list_lookup_fmap, lookup_take_lt by lia. done.
  - rewrite lookup_app_r, lookup_drop by lia. f_equal. lia.
Qed.

Lemma fill_eq n r out out' :
  n ≤ Z.of_nat (length out) →
  (∀ i, out' !! i =
     if decide ((i < length r)%nat ∧ Z.of_nat i < n - 1) then u8 <$> r !! i else out !! i) →
  out' = fill n r out.
Proof. intros Hn He. apply list_eq. intros i. by rewrite He, lookup_fill. Qed.

(** Appending one character, whether or not it still fits. *)
Lemma put_fill n c r out pos :
  n ≤ Z.of_nat (length out) → pos = Z.of_nat (length r) →
  put n c pos (fill n r out) = Ret (pos + 1) (fill n (r ++ [c]) out).
Proof.
  intros Hn ->. unfold put, when.
  assert (∀ i, (r ++ [c]) !! i = if decide (i = length r) then Some c else r !! i) as Hl.
  { intros i. case_decide as Hi; [subst; by rewrite lookup_app_r, Nat.sub_diag by lia|].
    destruct (decide (i < length r)%nat); [by rewrite lookup_app_l|].
    rewrite !lookup_ge_None_2; [done|lia|rewrite length_app; simpl; lia]. }
  destruct (Z.ltb_spec (Z.of_nat (length r) + 1) n) as [Hlt|Hge].
  - erewrite bind_Ret.
    2:{ unfold out_set. rewrite fill_length by done.
        rewrite (proj2 (Z.leb_le _ _)), (proj2 (Z.ltb_lt _ _)) by lia. done. }
    unfold mret, M_ret. f_equal. apply fill_eq; [done|]. intros i. rewrite Nat2Z.id, length_app.
    simpl. rewrite Hl. destruct (decide (i = length r)) as [->|Hne].
    + rewrite list_lookup_insert_eq by (rewrite fill_length; lia). by rewrite decide_True by lia.
    + rewrite list_lookup_insert_ne by done. rewrite lookup_fill by done.
      repeat case_decide; (done || lia).
  - rewrite mret_bind. unfold mret, M_ret. f_equal. apply fill_eq; [done|]. intros i.
    rewrite lookup_fill, length_app, Hl by done. simpl.
    repeat case_decide; (done || lia).
Qed.

(** ** Hexadecimal *)
Lemma hex_S k num :
  hex (S k) num = hex_char ((num / 16 ^ Z.of_nat k) `mod` 16) :: hex k num.
Proof. unfold hex. rewrite seq_S, rev_app_distr. done. Qed.

Lemma nibble num i : Z.land (Z.shiftr num (4 * Z.of_nat i)) 15 = (num / 16 ^ Z.of_nat i) `mod` 16.
Proof.
  change 15 with (Z.ones 4). rewrite Z.land_ones, Z.shiftr_div_pow2 by lia.
  by rewrite Z.pow_mul_r by lia.
Qed.

Lemma put_hex_fill n num k r out pos :
  n ≤ Z.of_nat (length out) → pos = Z.of_nat (length r) →
  put_hex n num k pos (fill n r out) = Ret (pos + Z.of_nat k) (fill n (r ++ hex k num) out).
Proof.
  intros Hn. revert r pos. induction k as [|k IH]; intros r pos Hpos; cbn [put_hex].
  - unfold hex. simpl. by rewrite Z.add_0_r, app_nil_r.
  - mrun (put_fill n (hex_char (Z.land (Z.shiftr num (4 * Z.of_nat k)) 15)) r out pos Hn Hpos).
    rewrite IH by (rewrite length_app; simpl; lia).
    rewrite nibble, hex_S, <- app_assoc. simpl. f_equal. lia.
Qed.

(** ** Decimal *)
Fixpoint dec_k (k : nat) (v : Z) : list Z :=
  match k with O => [] | S k => dec_k k (v / 10) ++ [48 + v `mod` 10] end.

Lemma length_dec_k k v : length (dec_k k v) = k.
Proof. revert v. induction k as [|k IH]; intros v; simpl; [done|]. rewrite length_app, IH. simpl. lia. Qed.

Lemma put_digits_spec n pos num k out :
  n ≤ Z.of_nat (length out) → 0 ≤ num →
  ∃ out', put_digits n (Z.of_nat pos) num k out = Ret tt out' ∧
    ∀ i, out' !! i =
      if decide ((pos ≤ i < pos + k)%nat ∧ Z.of_nat i < n - 1)
      then u8 <$> dec_k k num !! (i - pos)%nat else out !! i.
Proof.
  intros Hn. revert num out Hn. induction k as [|k IH]; intros num out Hn Hnum; cbn [put_digits].
  { exists out. split; [done|]. intros i. by rewrite decide_False by lia. }
  rewrite Z.quot_div_nonneg, Z.rem_mod_nonneg by lia. unfold when.
  assert (0 ≤ num / 10) as Hq by (apply Z.div_pos; lia). cbn [dec_k].
  pose proof (length_dec_k k (num / 10)) as Hlk.
  destruct (Z.ltb_spec (Z.of_nat pos + Z.of_nat k + 1) n) as [Hlt|Hge].
  - erewrite bind_Ret.
    2:{ unfold out_set. rewrite (proj2 (Z.leb_le _ _)), (proj2 (Z.ltb_lt _ _)) by lia. done. }
    rewrite <- Nat2Z.inj_add, Nat2Z.id.
    destruct (IH (num / 10) (<[(pos + k)%nat := u8 (48 + num `mod` 10)]> out))
      as (out' & -> & He); [by rewrite length_insert|done|].
    exists out'. split; [done|]. intros i. rewrite He.
    destruct (decide (i = pos + k)%nat) as [->|Hne].
    + rewrite decide_False, decide_True by lia. rewrite list_lookup_insert_eq by lia.
      rewrite lookup_app_r, Hlk by lia. by replace (pos + k - pos - k)%nat with O by lia.
    + rewrite list_lookup_insert_ne by done. destruct (decide ((pos ≤ i < pos + k)%nat ∧ _)).
      * rewrite decide_True by lia. by rewrite lookup_app_l by lia.
      * by rewrite decide_False by lia.
  - rewrite mret_bind. destruct (IH (num / 10) out Hn Hq) as (out' & -> & He).
    exists out'. split; [done|]. intros i. rewrite He.
    destruct (decide ((pos ≤ i < pos + k)%nat ∧ _)).
    + rewrite decide_True by lia. by rewrite lookup_app_l by lia.
    + by rewrite decide_False by lia.
Qed.

Lemma put_digits_fill n r out num k :
  n ≤ Z.of_nat (length out) → 0 ≤ num →
  put_digits n (Z.of_nat (length r)) num k (fill n r out) = Ret tt (fill n (r ++ dec_k k num) out).
Proof.
  intros Hn Hnum.
  destruct (put_digits_spec n (length r) num k (fill n r out)) as (out' & -> & He);
    [by rewrite fill_length|done|].
  f_equal. apply fill_eq; [done|]. intros i. rewrite He, lookup_fill, length_app, length_dec_k by done.
  destruct (decide (i < length r)%nat).
  - rewrite lookup_app_l by done. rewrite decide_False by lia. repeat case_decide; done || lia.
  - rewrite lookup_app_r by lia. repeat case_decide; done || lia.
Qed.

Lemma dec_digits_length_pos f v : (0 < length (dec_digits f v))%nat.
Proof. destruct f; simpl; [lia|]. case_Z; rewrite ?length_app; simpl; lia. Qed.

(** The digits written and the digits counted agree. *)
Lemma dec_digits_dec_k f v :
  0 ≤ v < 10 ^ (Z.of_nat f + 1) → dec_k (length (dec_digits f v)) v = dec_digits f v.
Proof.
  revert v. induction f as [|f IH]; intros v Hv; cbn [dec_digits].
  - simpl in *. rewrite Z.mod_small by lia. done.
  - destruct (Z.ltb_spec v 10); [simpl; by rewrite Z.mod_small by lia|].
    rewrite length_app, Nat.add_comm. cbn [length Nat.add dec_k]. rewrite IH; [done|].
    split; [apply Z.div_pos; lia|]. apply Z.div_lt_upper_bound; [lia|].
    rewrite <- Z.pow_succ_r by lia. replace (Z.succ (Z.of_nat f + 1)) with (Z.of_nat (S f) + 1) by lia. lia.
Qed.

Lemma count_loop_dec f fuel v d out :
  0 ≤ v < 10 ^ (Z.of_nat f + 1) → (f < fuel)%nat →
  count_loop fuel v d out = Ret (d + Z.of_nat (length (dec_digits f v)) - 1) out.
Proof.
  unfold count_loop.
  revert v d fuel. induction f as [|f IH]; intros v d [|fuel] Hv Hf; try lia; cbn [dec_digits].
  - rewrite (loop_exit _ _ _ _ d out); [f_equal; simpl; lia|]. rewrite Z.quot_div_nonneg by lia.
    by rewrite Z.div_small by (simpl in Hv; lia).
  - destruct (Z.ltb_spec v 10).
    + rewrite (loop_exit _ _ _ _ d out); [f_equal; simpl; lia|]. rewrite Z.quot_div_nonneg by lia.
      by rewrite Z.div_small by lia.
    + erewrite (loop_step _ _ _ _ (v / 10, d + 1)).
      2:{ cbn beta iota zeta. rewrite Z.quot_div_nonneg by lia. unfold truthy.
          rewrite (proj2 (Z.eqb_neq _ _)); [done|].
          assert (1 ≤ v / 10) by (apply Z.div_le_lower_bound; lia). lia. }
      rewrite IH; [f_equal; rewrite length_app; simpl; lia| |lia].
      split; [apply Z.div_pos; lia|]. apply Z.div_lt_upper_bound; [lia|].
      rewrite <- Z.pow_succ_r by lia. replace (Z.succ (Z.of_nat f + 1)) with (Z.of_nat (S f) + 1) by lia. lia.
Qed.

Lemma count_digits_dec v out :
  0 ≤ v < 2 ^ 63 → count_digits v out = Ret (Z.of_nat (length (dec_digits 19 v))) out.
Proof.
  intros Hv. unfold count_digits. rewrite (count_loop_dec 19) by lia. f_equal. lia.
Qed.

Lemma va_num_range lng vl z vl' : va_num lng vl = Some (z, vl') → - 2 ^ 63 ≤ z < 2 ^ 63.
Proof.
  destruct lng, vl as [|[z0|] vl]; cbn; try done; intros [= <- <-];
    [apply s64_range|pose proof (s32_range z0); lia].
Qed.

(** ** Each conversion appends its text *)
Section conversions.
Context (m : mem) (n : Z) (out : list Z).
Hypothesis Hn : n ≤ Z.of_nat (length out).

Lemma case_x_fill lng vl num vl' r pos :
  va_num lng vl = Some (num, vl') → pos = Z.of_nat (length r) →
  let r' := r ++ hex (if lng then 16 else 8) num in
  case_x n lng pos vl (fill n r out) =
    Ret (FmtState false false (Z.of_nat (length r')) vl') (fill n r' out).
Proof using Hn.
  intros Hva Hpos r'. unfold case_x. rewrite Hva. cbn [of_option].
  rewrite mret_bind. cbn beta iota.
  mrun (put_hex_fill n num (if lng then 16%nat else 8%nat) r out pos Hn Hpos).
  unfold mret, M_ret. f_equal. f_equal. subst r' pos. rewrite length_app.
  unfold hex. rewrite length_map, length_rev, length_seq. lia.
Qed.

Lemma case_d_fill lng vl num vl' r pos :
  va_num lng vl = Some (num, vl') → num ≠ - 2 ^ 63 → pos = Z.of_nat (length r) →
  let r' := r ++ dec num in
  case_d n lng pos vl (fill n r out) =
    Ret (FmtState false false (Z.of_nat (length r')) vl') (fill n r' out).
Proof using Hn.
  intros Hva Hmin Hpos r'. pose proof (va_num_range _ _ _ _ Hva) as Hr.
  unfold case_d. rewrite Hva. cbn [of_option]. rewrite mret_bind. cbn beta iota.
  subst r'. unfold dec. destruct (Z.ltb_spec num 0) as [Hneg|Hpos0].
  - erewrite bind_Ret; [|by mrun (put_fill n 45 r out pos Hn Hpos)]. cbn beta iota.
    rewrite s64_id by lia. mrun (count_digits_dec (- num) (fill n (r ++ [45]) out) ltac:(lia)).
    rewrite Nat2Z.id. replace (pos + 1) with (Z.of_nat (length (r ++ [45]))) by (rewrite length_app; simpl; lia).
    mrun (put_digits_fill n (r ++ [45]) out (- num) (length (dec_digits 19 (- num))) Hn ltac:(lia)).
    rewrite dec_digits_dec_k by lia. unfold mret, M_ret. rewrite <- app_assoc.
    f_equal. f_equal. rewrite !length_app. cbn [length]. lia.
  - rewrite mret_bind. cbn beta iota.
    mrun (count_digits_dec num (fill n r out) ltac:(lia)). rewrite Nat2Z.id. subst pos.
    mrun (put_digits_fill n r out num (length (dec_digits 19 num)) Hn ltac:(lia)).
    rewrite dec_digits_dec_k by lia. unfold mret, M_ret.
    f_equal. f_equal. rewrite !length_app. cbn [length]. lia.
Qed.

Lemma put_str_loop_fill fuel fuel' v i s r pos :
  scan_str fuel m v i = Some s → (fuel ≤ fuel')%nat → pos = Z.of_nat (length r) →
  put_str_loop fuel' m n v i pos (fill n r out) = Ret (pos + Z.of_nat (length s)) (fill n (r ++ s) out).
Proof using Hn.
  unfold put_str_loop. revert fuel' i s r pos.
  induction fuel as [|fuel IH]; intros [|fuel'] i s r pos Hs Hle Hpos; cbn [scan_str] in Hs;
    [done|done|lia|].
  destruct (cread m v i) as [c|] eqn:Ec; simpl in Hs; [|done].
  destruct (truthy c) eqn:Et.
  - destruct (scan_str fuel m v (i + 1)) as [s'|] eqn:Es; simpl in Hs; [|done].
    injection Hs as <-. erewrite (loop_step _ _ _ _ (i + 1, pos + 1)).
    2:{ rewrite Ec. cbn [of_option]. rewrite mret_bind, Et. by mrun (put_fill n c r out pos Hn Hpos). }
    rewrite (IH fuel' (i + 1) s' (r ++ [c]) (pos + 1) Es); [|lia|rewrite length_app; simpl; lia].
    rewrite <- app_assoc. f_equal. simpl. lia.
  - injection Hs as <-. erewrite loop_exit.
    2:{ rewrite Ec. cbn [of_option]. by rewrite mret_bind, Et. }
    by rewrite app_nil_r, Z.add_0_r.
Qed.

Lemma case_s_fill vl v vl' s r pos :
  va_str vl = Some (v, vl') → cstring m v = Some s → pos = Z.of_nat (length r) →
  case_s m n pos vl (fill n r out) =
    Ret (FmtState false false (Z.of_nat (length (r ++ s))) vl') (fill n (r ++ s) out).
Proof using Hn.
  intros Hva Hs Hpos. unfold case_s. rewrite Hva. cbn [of_option]. rewrite mret_bind.
  cbn beta iota. unfold put_str.
  mrun (put_str_loop_fill _ (cread_fuel m v) v 0 s r pos Hs (Nat.le_refl _) Hpos).
  unfold mret, M_ret. f_equal. f_equal. rewrite length_app. lia.
Qed.

Lemma case_c_fill vl z vl' r pos :
  pos + 1 < n → va_int vl = Some (z, vl') → pos = Z.of_nat (length r) →
  case_c n pos vl (fill n r out) = Ret (FmtState false false (pos + 1) vl') (fill n (r ++ [z]) out).
Proof using Hn.
  intros Hlt Hva Hpos. pose proof (put_fill n z r out pos Hn Hpos) as Hp. unfold case_c, put, when in *.
  rewrite (proj2 (Z.ltb_lt _ _) Hlt) in *. rewrite Hva. cbn [of_option]. rewrite bind_assoc, mret_bind.
  cbn beta iota. apply bind_inv in Hp as (u & o & Hs & Ho). injection Ho as <-.
  rewrite bind_assoc. by mrun Hs.
Qed.
Lemma case_c_none vl r pos :
  n ≤ pos + 1 → pos = Z.of_nat (length r) →
  case_c n pos vl (fill n r out) = Ret (FmtState false false (pos + 1) vl) (fill n (r ++ [0]) out).
Proof using Hn.
  intros Hge Hpos. pose proof (put_fill n 0 r out pos Hn Hpos) as Hp. unfold case_c, put, when in *.
  rewrite (proj2 (Z.ltb_ge _ _) Hge) in *. rewrite mret_bind in *. injection Hp as <-. done.
Qed.
End conversions.

(** One character of the format, against one step of [render_at]. *)
Lemma fmt_char_fill m n out c fmt format lng vl r r' :
  n ≤ Z.of_nat (length out) →
  render_at m n (c :: fmt) format lng vl (Z.of_nat (length r)) = Some r' →
  ∃ x format' lng' vl' r'', r' = x ++ r'' ∧
    render_at m n fmt format' lng' vl' (Z.of_nat (length r) + Z.of_nat (length x)) = Some r'' ∧
    fmt_char m n c (FmtState format lng (Z.of_nat (length r)) vl) (fill n r out) =
      Ret (FmtState format' lng' (Z.of_nat (length (r ++ x))) vl') (fill n (r ++ x) out).
Proof.
  intros Hn Hr. cbn [render_at] in Hr. unfold fmt_char. set (pos := Z.of_nat (length r)) in *.
  assert (∀ f l v, render_at m n fmt f l v pos = Some r' → ∃ x format' lng' vl' r'', r' = x ++ r'' ∧
    render_at m n fmt format' lng' vl' (pos + Z.of_nat (length x)) = Some r'' ∧
    Ret (FmtState f l pos v) (fill n r out) =
      Ret (FmtState format' lng' (Z.of_nat (length (r ++ x))) vl') (fill n (r ++ x) out)) as Hskip.
  { intros f l v Hv. exists [], f, l, v, r'. rewrite app_nil_r, Z.add_0_r. by split_and!. }
  assert (∀ t l v (e : M (list Z) fmt_state),
    (q ← render_at m n fmt false l v (pos + Z.of_nat (length t)); Some (t ++ q)) = Some r' →
    e (fill n r out) = Ret (FmtState false l (Z.of_nat (length (r ++ t))) v) (fill n (r ++ t) out) →
    ∃ x format' lng' vl' r'', r' = x ++ r'' ∧
      render_at m n fmt format' lng' vl' (pos + Z.of_nat (length x)) = Some r'' ∧
      e (fill n r out) = Ret (FmtState format' lng' (Z.of_nat (length (r ++ x))) vl') (fill n (r ++ x) out))
    as Hrest.
  { intros t l v e Hv He. destruct (render_at m n fmt false l v _) as [r''|] eqn:Er; simpl in Hv; [|done].
    injection Hv as <-. by exists t, false, l, v, r''. }
  assert (∀ t, Z.of_nat (length (r ++ t)) = pos + Z.of_nat (length t)) as Hlen
    by (intros t; rewrite length_app; unfold pos; lia).
  destruct format; [|destruct (c =? 37); [by apply Hskip|]].
  2:{ apply (Hrest [c] lng vl); [exact Hr|]. mrun (put_fill n c r out _ Hn eq_refl). by rewrite Hlen. }
  destruct (c =? 108); [by apply Hskip|]. destruct (c =? 112); [|destruct (c =? 120);
    [|destruct (c =? 100); [|destruct (c =? 115); [|destruct (c =? 99); [|by apply Hskip]]]]].
  - destruct (va_long vl) as [[num vl']|] eqn:Ev; simpl in Hr; [|done].
    apply (Hrest (48 :: 120 :: hex 16 num) false vl'); [exact Hr|].
    mrun (put_fill n 48 r out _ Hn eq_refl).
    mrun (put_fill n 120 (r ++ [48]) out (pos + 1) Hn ltac:(rewrite Hlen; done)).
    rewrite (case_x_fill n out Hn true vl num vl' ((r ++ [48]) ++ [120])); [|done|].
    + by rewrite <- !app_assoc.
    + rewrite !length_app. unfold pos. simpl. lia.
  - destruct (va_num lng vl) as [[num vl']|] eqn:Ev; simpl in Hr; [|done].
    apply (Hrest (hex (if lng then 16%nat else 8%nat) num) false vl'); [exact Hr|]. by apply case_x_fill.
  - destruct (va_num lng vl) as [[num vl']|] eqn:Ev; simpl in Hr; [|done].
    case_guard; simpl in Hr; [|done]. apply (Hrest (dec num) false vl'); [exact Hr|]. by apply case_d_fill.
  - destruct (va_str vl) as [[v vl']|] eqn:Ev; simpl in Hr; [|done].
    destruct (cstring m v) as [s|] eqn:Es; simpl in Hr; [|done].
    apply (Hrest s false vl'); [exact Hr|]. by eapply case_s_fill.
  - destruct (Z.ltb_spec (pos + 1) n).
    + destruct (va_int vl) as [[z vl']|] eqn:Ev; simpl in Hr; [|done].
      apply (Hrest [z] false vl'); [exact Hr|]. rewrite Hlen. by apply case_c_fill.
    + apply (Hrest [0] false vl); [exact Hr|]. rewrite Hlen. by apply case_c_none.
Qed.

Lemma fmt_loop_fill m n out s fuel fuel' i fmt format lng vl r r' :
  n ≤ Z.of_nat (length out) →
  scan_str fuel m s i = Some fmt → (fuel ≤ fuel')%nat →
  render_at m n fmt format lng vl (Z.of_nat (length r)) = Some r' →
  fmt_loop fuel' m n s i (FmtState format lng (Z.of_nat (length r)) vl) (fill n r out) =
    Ret (Z.of_nat (length (r ++ r'))) (fill n (r ++ r') out).
Proof.
  intros Hn. unfold fmt_loop. revert fuel' i fmt format lng vl r r'.
  induction fuel as [|fuel IH]; intros [|fuel'] i fmt format lng vl r r' Hs Hle Hr;
    cbn [scan_str] in Hs; [done|done|lia|].
  destruct (cread m s i) as [c|] eqn:Ec; simpl in Hs; [|done].
  destruct (truthy c) eqn:Et.
  - destruct (scan_str fuel m s (i + 1)) as [fmt'|] eqn:Es; simpl in Hs; [|done].
    injection Hs as <-.
    destruct (fmt_char_fill m n out c fmt' format lng vl r r' Hn Hr)
      as (x & f' & l' & vl' & r'' & -> & Hr'' & Hc).
    rewrite <- Nat2Z.inj_add, <- length_app in Hr''.
    erewrite loop_step.
    2:{ rewrite Ec. cbn [of_option]. rewrite mret_bind, Et. by mrun Hc. }
    rewrite (IH fuel' (i + 1) fmt' f' l' vl' (r ++ x) r'' Es ltac:(lia) Hr'').
    by rewrite app_assoc.
  - injection Hs as <-. cbn in Hr. injection Hr as <-. erewrite loop_exit.
    2:{ rewrite Ec. cbn [of_option]. by rewrite mret_bind, Et. }
    by rewrite app_nil_r.
Qed.

(** ** Where the two renderings agree *)
Lemma render_at_render m n fmt format lng vl pos r :
  render m fmt format lng vl = Some r → pos + Z.of_nat (length r) < n ∨ no_char fmt format = true →
  render_at m n fmt format lng vl pos = Some r.
Proof.
  revert format lng vl pos r. induction fmt as [|c fmt IH]; intros format lng vl pos r; [done|].
  cbn [render render_at no_char]. destruct format; [|destruct (c =? 37); [apply IH|]].
  2:{ destruct (render m fmt false lng vl) as [q|] eqn:Eq; [|done]. intros [= <-] Ho. cbn [length] in Ho.
      by rewrite (IH _ _ _ (pos + 1) _ Eq) by (destruct Ho; [left; lia|by right]). }
  assert (∀ t v q, render m fmt false false v = Some q →
    pos + Z.of_nat (length (t ++ q)) < n ∨ no_char fmt false = true →
    (p ← render_at m n fmt false false v (pos + Z.of_nat (length t)); Some (t ++ p)) = Some (t ++ q)) as Hrest.
  { intros t v q Hq Ho. rewrite length_app in Ho.
    by rewrite (IH _ _ _ (pos + Z.of_nat (length t)) _ Hq) by (destruct Ho; [left; lia|by right]). }
  destruct (Z.eqb_spec c 108) as [->|]; [apply IH|].
  destruct (Z.eqb_spec c 112) as [->|]; [|destruct (Z.eqb_spec c 120) as [->|];
    [|destruct (Z.eqb_spec c 100) as [->|]; [|destruct (Z.eqb_spec c 115) as [->|];
    [|destruct (Z.eqb_spec c 99) as [->|Hc99]]]]].
  - destruct (va_long vl) as [[num vl']|]; simpl; [|done].
    destruct (render m fmt false false vl') as [q|] eqn:Eq; simpl; [|done].
    intros [= <-] Ho. exact (Hrest (48 :: 120 :: hex 16 num) vl' q Eq Ho).
  - destruct (va_num lng vl) as [[num vl']|]; simpl; [|done].
    destruct (render m fmt false false vl') as [q|] eqn:Eq; simpl; [|done].
    intros [= <-] Ho. exact (Hrest _ vl' q Eq Ho).
  - destruct (va_num lng vl) as [[num vl']|]; simpl; [|done]. case_guard; simpl; [|done].
    destruct (render m fmt false false vl') as [q|] eqn:Eq; simpl; [|done].
    intros [= <-] Ho. exact (Hrest _ vl' q Eq Ho).
  - destruct (va_str vl) as [[v vl']|]; simpl; [|done]. destruct (cstring m v) as [t|]; simpl; [|done].
    destruct (render m fmt false false vl') as [q|] eqn:Eq; simpl; [|done].
    intros [= <-] Ho. exact (Hrest _ vl' q Eq Ho).
  - destruct (va_int vl) as [[z vl']|]; simpl; [|done].
    destruct (render m fmt false false vl') as [q|] eqn:Eq; simpl; [|done].
    intros [= <-] [Ho|[=]]. cbn [length] in Ho. rewrite (proj2 (Z.ltb_lt _ _)) by lia.
    apply (Hrest [z] vl' q Eq). left. cbn [app length]. lia.
  - intros Hr Ho. apply IH; [exact Hr|]. destruct Ho as [?|Ho]; [by left|right].
    rewrite bool_decide_eq_false_2 in Ho; [exact Ho|]. rewrite !elem_of_cons, elem_of_nil. tauto.
Qed.

(** ** The final NUL *)
Lemma terminate_fill n r out :
  0 ≤ n ≤ Z.of_nat (length out) →
  (if Z.of_nat (length r) <? n then out_set (Z.of_nat (length r)) 0
   else when (truthy n) (out_set (n - 1) 0)) (fill n r out) =
    Ret tt (snprintf_result n r out).
Proof.
  intros Hn. unfold snprintf_result.
  assert (∀ k, k = Z.min (Z.of_nat (length r)) (n - 1) → 0 < n →
    out_set k 0 (fill n r out) = Ret tt (map u8 (take (Z.to_nat k) r) ++ [0] ++ drop (S (Z.to_nat k)) out)) as Hset.
  { intros k Hk H0. unfold out_set. rewrite fill_length by lia.
    rewrite (proj2 (Z.leb_le _ _)), (proj2 (Z.ltb_lt _ _)) by lia. cbn [andb]. f_equal.
    unfold fill. rewrite <- Hk.
    assert (length (map u8 (take (Z.to_nat k) r)) = Z.to_nat k) as Hl
      by (rewrite length_map, length_take; lia).
    rewrite insert_app_r_alt by lia. rewrite Hl, Nat.sub_diag. f_equal.
    destruct (drop (Z.to_nat k) out) as [|o l] eqn:Ed.
    { apply (f_equal length) in Ed. rewrite length_drop in Ed. simpl in Ed. lia. }
    cbn. f_equal. change l with (drop 1 (o :: l)). rewrite <- Ed, drop_drop. f_equal. lia. }
  destruct (Z.eqb_spec n 0) as [->|Hne].
  - rewrite (proj2 (Z.ltb_ge _ _)) by lia. simpl. unfold mret, M_ret. f_equal.
    unfold fill. by replace (Z.to_nat _) with O by lia.
  - destruct (Z.ltb_spec (Z.of_nat (length r)) n).
    + rewrite (Hset (Z.of_nat (length r))) by lia. do 2 f_equal; [|do 2 f_equal]; repeat f_equal; lia.
    + unfold when, truthy. rewrite (proj2 (Z.eqb_neq _ _)) by done. cbn [negb].
      rewrite (Hset (n - 1)) by lia. do 2 f_equal; repeat f_equal; lia.
Qed.

(** ** What the code does on every format: the frame of the buffer *)

(** [out'] differs from [out] only below index [n]. *)
Definition same_above (n : Z) (out out' : list Z) : Prop :=
  length out' = length out ∧ ∀ i, n ≤ Z.of_nat i → out' !! i = out !! i.

#[export] Instance same_above_preorder n : PreOrder (same_above n).
Proof.
  split; [done|]. intros o1 o2 o3 [H1 H1'] [H2 H2']. split; [congruence|].
  intros i Hi. rewrite H2', H1'; done.
Qed.

Lemma out_set_frame n i c out u out' :
  i < n → out_set i c out = Ret u out' → same_above n out out' ∧ 0 ≤ i ∧ out' !! Z.to_nat i = Some (u8 c).
Proof.
  intros Hi. unfold out_set. destruct (Z.leb_spec 0 i); simpl; [|done].
  destruct (Z.ltb_spec i (Z.of_nat (length out))); [|done]. intros [= <- <-].
  split_and!; [|done|apply list_lookup_insert_eq; lia].
  split; [apply length_insert|]. intros j Hj. apply list_lookup_insert_ne. lia.
Qed.

Lemma put_frame n c pos out pos' out' : put n c pos out = Ret pos' out' → same_above n out out'.
Proof.
  unfold put, when. intros (u & o1 & H1 & [= <- <-])%bind_inv.
  destruct (Z.ltb_spec (pos + 1) n); [eapply out_set_frame; [|done]; lia|by injection H1 as <- <-].
Qed.

Lemma put_hex_frame n num k pos out pos' out' :
  put_hex n num k pos out = Ret pos' out' → same_above n out out'.
Proof.
  revert pos out. induction k as [|k IH]; intros pos out; cbn [put_hex]; [by intros [= <- <-]|].
  intros (p1 & o1 & H1%put_frame & H2%IH)%bind_inv. by etrans.
Qed.

Lemma put_digits_frame n pos num k out u out' :
  put_digits n pos num k out = Ret u out' → same_above n out out'.
Proof.
  revert num out. induction k as [|k IH]; intros num out; cbn [put_digits]; [by intros [= <- <-]|].
  unfold when. intros (p1 & o1 & H1 & H2%IH)%bind_inv. etrans; [|exact H2].
  destruct (Z.ltb_spec (pos + Z.of_nat k + 1) n);
    [eapply out_set_frame; [|done]; lia|by injection H1 as <- <-].
Qed.

Lemma put_str_frame m n v pos out pos' out' :
  put_str m n v pos out = Ret pos' out' → same_above n out out'.
Proof.
  unfold put_str, put_str_loop. apply (loop_state _ (same_above n out)); [|done].
  intros [j p] o r o' HP (c & o1 & Hc & H)%bind_inv.
  destruct (cread m v j); [injection Hc as <- <-|done]. destruct (truthy z).
  - apply bind_inv in H as (p1 & o2 & H1%put_frame & [= <- <-]). by etrans.
  - by injection H as <- <-.
Qed.

Lemma count_digits_state num out d out' : count_digits num out = Ret d out' → out' = out.
Proof.
  unfold count_digits, count_loop. apply (loop_state _ (λ o, o = out)); [|done].
  intros [nn d'] o r o' ->. cbn beta iota zeta. destruct (truthy _); by intros [= <- <-].
Qed.

Lemma fmt_char_frame m n c st out st' out' :
  fmt_char m n c st out = Ret st' out' → same_above n out out'.
Proof.
  destruct st as [format lng pos vl]. unfold fmt_char, case_d, case_s, case_c.
  assert (∀ l p v o r o', case_x n l p v o = Ret r o' → same_above n o o') as Hx.
  { intros l p v o r o'. unfold case_x. intros ([num v'] & o1 & Hv & H)%bind_inv.
    destruct (va_num l v); [injection Hv as -> <-|done].
    by apply bind_inv in H as (p1 & o2 & H1%put_hex_frame & [= <- <-]). }
  destruct format; [|destruct (c =? 37); [by intros [= <- <-]|]].
  2:{ by intros (p & o1 & H1%put_frame & [= <- <-])%bind_inv. }
  destruct (c =? 108); [by intros [= <- <-]|]. destruct (c =? 112).
  { intros (p1 & o1 & H1%put_frame & (p2 & o2 & H2%put_frame & H3%Hx)%bind_inv)%bind_inv.
    by etrans; [|etrans]. }
  destruct (c =? 120); [apply Hx|]. destruct (c =? 100).
  { intros ([num v'] & o1 & Hv & H)%bind_inv.
    destruct (va_num lng vl); [injection Hv as -> <-|done].
    apply bind_inv in H as ([num' p] & o2 & H1 & H).
    apply bind_inv in H as (d & o3 & ->%count_digits_state & H).
    apply bind_inv in H as (u & o4 & H2%put_digits_frame & [= <- <-]). etrans; [|exact H2].
    destruct (_ <? 0); [|by injection H1 as <- <- <-].
    by apply bind_inv in H1 as (p1 & o5 & H1%put_frame & [= <- <- <-]). }
  destruct (c =? 115); [|destruct (c =? 99); [|by intros [= <- <-]]].
  - intros ([v v'] & o1 & Hv & H)%bind_inv. destruct (va_str vl); [injection Hv as -> <-|done].
    by apply bind_inv in H as (p1 & o2 & H1%put_str_frame & [= <- <-]).
  - intros (v' & o1 & H & [= <- <-])%bind_inv. destruct (Z.ltb_spec (pos + 1) n); [|by injection H as <- <-].
    apply bind_inv in H as ([z v2] & o2 & Hv & H). destruct (va_int vl); [injection Hv as -> <-|done].
    apply bind_inv in H as (u & o3 & H1 & [= <- <-]). eapply out_set_frame; [|exact H1]. lia.
Qed.

(** ** Termination on every format *)
Lemma cread_loop_terminates {A B} m v (body : Z * A → M (list Z) (Z * A + B)) a out :
  (∀ i a o, terminates (body (i, a) o) ∧ ∀ i' a' o', body (i, a) o = Ret (inl (i', a')) o' →
     i' = i + 1 ∧ ∃ c, cread m v i = Some c ∧ truthy c = true) →
  terminates (loop (cread_fuel m v) body (0, a) out).
Proof.
  intros Hb. destruct v as [p|bs]; unfold cread_fuel.
  - apply (scan_terminates (λ _ : list Z, m) (λ x, p + x.1) body (0, a) out).
    intros [i a1] o. destruct (Hb i a1 o) as [Ht Hs]. split; [done|].
    intros [i' a'] o' Hr. destruct (Hs _ _ _ Hr) as (-> & c & Hc & _). simpl in *.
    split_and!; [lia|by eexists|done].
  - apply (loop_terminates body (λ x _, 0 ≤ x.1)
      (λ x _, Z.to_nat (Z.of_nat (length bs) - x.1))); simpl; [|lia|lia].
    intros [i a1] o Hi. destruct (Hb i a1 o) as [Ht Hs]. split; [done|].
    intros [i' a'] o' Hr. destruct (Hs _ _ _ Hr) as (-> & c & Hc & Htr). simpl in *. clear Hr.
    rewrite (proj2 (Z.ltb_ge i 0)) in Hc by done.
    destruct (decide (i < Z.of_nat (length bs))); [lia|]. exfalso.
    rewrite lookup_app_r in Hc by lia. destruct (Z.to_nat i - length bs)%nat as [|[]]; simpl in Hc; [|done..].
    by injection Hc as <-.
Qed.

Lemma count_loop_terminates fuel nn d out :
  (0 < fuel)%nat → Z.abs nn < 10 ^ Z.of_nat fuel → terminates (count_loop fuel nn d out).
Proof.
  unfold count_loop. revert nn d. induction fuel as [|fuel IH]; intros nn d H0 Hnn; [lia|].
  cbn [loop]. apply terminates_bind; [by destruct (truthy _)|].
  rewrite Nat2Z.inj_succ, Z.pow_succ_r in Hnn by lia.
  assert (Z.abs (Z.quot nn 10) < 10 ^ Z.of_nat fuel) as Hq.
  { rewrite <- Z.quot_abs, Z.quot_div_nonneg by lia. apply Z.div_lt_upper_bound; lia. }
  cbn beta iota zeta. intros r s'. unfold truthy.
  destruct (Z.eqb_spec (Z.quot nn 10) 0); cbn [negb]; intros [= <- <-]; [done|].
  apply IH; [|done]. destruct fuel; [simpl in Hq; lia|lia].
Qed.

Lemma put_terminates n c pos out : terminates (put n c pos out).
Proof.
  unfold put, when, out_set. apply terminates_bind; [|done].
  destruct (_ <? _); [|done]. by destruct (_ && _).
Qed.
Lemma put_hex_terminates n num k pos out : terminates (put_hex n num k pos out).
Proof.
  revert pos out. induction k as [|k IH]; intros pos out; [done|]. cbn [put_hex].
  apply terminates_bind; [apply put_terminates|auto].
Qed.
Lemma put_digits_terminates n pos num k out : terminates (put_digits n pos num k out).
Proof.
  revert num out. induction k as [|k IH]; intros num out; [done|]. cbn [put_digits].
  apply terminates_bind; [|auto]. unfold when, out_set. destruct (_ <? _); [|done].
  by destruct (_ && _).
Qed.
Lemma put_str_terminates m n v pos out : terminates (put_str m n v pos out).
Proof.
  apply cread_loop_terminates. intros i p o. split.
  - apply terminates_bind; [apply terminates_of_option|]. intros c o' _.
    destruct (truthy c); [|done]. apply terminates_bind; [apply put_terminates|done].
  - intros i' p' o'. intros (c & o1 & Hc & H)%bind_inv.
    destruct (cread m v i) as [c0|]; [injection Hc as <- <-|done].
    destruct (truthy c0) eqn:Et; [|done]. apply bind_inv in H as (p1 & o2 & _ & [= <- <- <-]). eauto.
Qed.
#[export] Hint Resolve put_terminates put_hex_terminates put_digits_terminates
  put_str_terminates terminates_of_option : terminates.

Lemma fmt_char_terminates m n c st out : terminates (fmt_char m n c st out).
Proof.
  destruct st as [format lng pos vl]. unfold fmt_char, case_s, case_c.
  assert (∀ l p v o, terminates (case_x n l p v o)) as Hx.
  { intros l p v o. unfold case_x. tbind. intros [] ? _. by tbind. }
  destruct format; [|destruct (c =? 37); [done|by tbind]].
  destruct (c =? 108); [done|]. destruct (c =? 112).
  { tbind. intros p1 o1 _. tbind. intros p2 o2 _. apply Hx. }
  destruct (c =? 120); [apply Hx|]. destruct (c =? 100).
  { unfold case_d. tbind. intros [num v'] o1 Hv.
    destruct (va_num lng vl) as [[num0 v0]|] eqn:Ev; [injection Hv as -> -> <-|done].
    pose proof (va_num_range _ _ _ _ Ev) as Hr.
    apply terminates_bind; [destruct (_ <? _); [by tbind|done]|].
    intros [num' p] o2 H1. assert (- 2 ^ 63 ≤ num' < 2 ^ 63) as Hr'.
    { destruct (num <? 0); [|by injection H1 as <- <- <-].
      apply bind_inv in H1 as (? & ? & _ & [= <- _ _]). apply s64_range. }
    apply terminates_bind; [apply count_loop_terminates; lia|]. intros d o3 _. by tbind. }
  destruct (c =? 115); [|destruct (c =? 99); [|done]].
  - tbind. intros [] ? _. by tbind.
  - apply terminates_bind; [|done]. destruct (_ <? _); [|done]. tbind. intros [] ? _.
    apply terminates_bind; [|done]. unfold out_set. by destruct (_ && _).
Qed.

(** * The properties of [vsnprintf] *)

Lemma vsnprintf_render_at m n s fmt vl r out :
  0 ≤ n ≤ Z.of_nat (length out) → cstring m s = Some fmt →
  render_at m n fmt false false vl 0 = Some r → Z.of_nat (length r) < 2 ^ 31 →
  vsnprintf m n s vl out = Ret (Z.of_nat (length r)) (snprintf_result n r out).
Proof.
  intros Hn Hs Hr Hlen. unfold vsnprintf.
  pose proof (fmt_loop_fill m n out s _ (cread_fuel m s) 0 fmt false false vl [] r (proj2 Hn) Hs
    (Nat.le_refl _) Hr) as Hl.
  rewrite fill_nil in Hl. cbn [app length] in Hl. mrun Hl. mrun (terminate_fill n r out Hn).
  unfold mret, M_ret. f_equal. apply s32_id. lia.
Qed.
Lemma vsnprintf_render m n s fmt vl r out :
  0 ≤ n ≤ Z.of_nat (length out) → cstring m s = Some fmt →
  render m fmt false false vl = Some r → Z.of_nat (length r) < n ∨ no_char fmt false = true →
  Z.of_nat (length r) < 2 ^ 31 →
  vsnprintf m n s vl out = Ret (Z.of_nat (length r)) (snprintf_result n r out).
Proof.
  intros Hn Hs Hr Hfit Hlen. apply vsnprintf_render_at with fmt; try done. by apply render_at_render.
Qed.

(** C21. [vsnprintf] implements its rendering: the return value is the length of the full text, and
    the buffer holds its longest prefix that fits in [n - 1] bytes, a NUL, and its old contents from
    there on.  The full text is the plain rendering of the format and its arguments when it fits, or
    when the format has no [%c]; otherwise every [%c] behind the end of the buffer leaves its
    argument to the conversions after it. *)
Theorem vsnprintf_refines_render m n s fmt vl out :
  0 ≤ n ≤ Z.of_nat (length out) → cstring m s = Some fmt →
  (∀ r, render_at m n fmt false false vl 0 = Some r → Z.of_nat (length r) < 2 ^ 31 →
    vsnprintf m n s vl out = Ret (Z.of_nat (length r)) (snprintf_result n r out)) ∧
  (∀ r, render m fmt false false vl = Some r →
    Z.of_nat (length r) < n ∨ no_char fmt false = true →
    render_at m n fmt false false vl 0 = Some r).
Proof.
  intros Hn Hs. split; intros r Hr.
  - by apply (vsnprintf_render_at m n s fmt).
  - by apply (render_at_render m n fmt false false vl 0 r).
Qed.

(** A text that does not fit, and a [%c] that does not: [%d] prints the argument meant for [%c]. *)
Lemma vsnprintf_refines_render_witness :
  (vsnprintf ∅ 16 (Lit (bytes "pid %d: 0x%x")) [Num (-7); Num 255] (replicate 20 1) =
    Ret 18 (snprintf_result 16 (bytes "pid -7: 0x000000ff") (replicate 20 1))) ∧
  (vsnprintf ∅ 1 (Lit (bytes "%c%d")) [Num 65; Num 5] (replicate 2 1) = Ret 3 [0; 1]).
Proof.
  split.
  - assert (∀ r, render_at ∅ 16 (bytes "pid %d: 0x%x") false false [Num (-7); Num 255] 0 = Some r →
      Z.of_nat (length r) < 2 ^ 31 → vsnprintf ∅ 16 (Lit (bytes "pid %d: 0x%x")) [Num (-7); Num 255]
        (replicate 20 1) = Ret (Z.of_nat (length r)) (snprintf_result 16 r (replicate 20 1))) as Hat.
    { apply vsnprintf_refines_render; vm_compute; [split; discriminate|reflexivity]. }
    apply (Hat (bytes "pid -7: 0x000000ff")); [|by vm_compute].
    apply (vsnprintf_refines_render ∅ 16 (Lit (bytes "pid %d: 0x%x")) _ _ (replicate 20 1));
      [vm_compute; split; discriminate|vm_compute; reflexivity..|right; vm_compute; reflexivity].
  - refine (proj1 (vsnprintf_refines_render ∅ 1 (Lit (bytes "%c%d")) (bytes "%c%d") [Num 65; Num 5]
      (replicate 2 1) _ _) [0; 54; 53] _ _); vm_compute; [split; discriminate|reflexivity..].
Defined.

Lemma vsnprintf_terminates m n s vl out : terminates (vsnprintf m n s vl out).
Proof.
  unfold vsnprintf, fmt_loop. apply terminates_bind.
  - apply cread_loop_terminates. intros i st o. split.
    * tbind. intros c o' _. destruct (truthy c); [|done].
      apply terminates_bind; [apply fmt_char_terminates|done].
    * intros i' st' o'. intros (c & o1 & Hc & H)%bind_inv.
      destruct (cread m s i) as [c0|]; [injection Hc as <- <-|done].
      destruct (truthy c0) eqn:Et; [|done].
      apply bind_inv in H as (p1 & o2 & _ & [= <- <- <-]). eauto.
  - intros pos o _. apply terminates_bind; [|done]. unfold when, out_set.
    destruct (_ <? _); [|destruct (truthy n); [|done]]; by destruct (_ && _).
Qed.

(** C38. Whatever the format and the arguments, [vsnprintf] is over after finitely many steps,
    writes no byte of the buffer at or above [n], and for [n > 0] leaves a NUL below [n]. *)
Theorem vsnprintf_safe m n s vl out :
  0 ≤ n →
  terminates (vsnprintf m n s vl out) ∧
  ∀ r out', vsnprintf m n s vl out = Ret r out' →
    same_above n out out' ∧ (0 < n → ∃ i, Z.of_nat i < n ∧ out' !! i = Some 0).
Proof.
  intros Hn. unfold vsnprintf, fmt_loop. split.
  - apply vsnprintf_terminates.
  - intros r out' (pos & o1 & H1 & (u & o2 & H2 & [= <- <-])%bind_inv)%bind_inv.
    assert (same_above n out o1) as Hsame.
    { revert H1. apply (loop_state _ (same_above n out)); [|done].
      intros [i st] o x o' HP (c & o3 & Hc & H)%bind_inv.
      destruct (cread m s i) as [c0|]; [injection Hc as <- <-|done]. destruct (truthy c0).
      - apply bind_inv in H as (p1 & o4 & H%fmt_char_frame & [= <- <-]). by etrans.
      - by injection H as <- <-. }
    unfold when, truthy in H2. destruct (Z.ltb_spec pos n); [|destruct (Z.eqb_spec n 0)].
    + apply (out_set_frame n) in H2 as (? & ? & H0); [|done]. split; [by etrans|].
      intros _. exists (Z.to_nat pos). split; [lia|done].
    + injection H2 as <- <-. split; [done|lia].
    + apply (out_set_frame n) in H2 as (? & ? & H0); [|lia]. split; [by etrans|].
      intros _. exists (Z.to_nat (n - 1)). split; [lia|done].
Qed.

Lemma vsnprintf_safe_witness :
  terminates (vsnprintf ∅ 4 (Lit (bytes "%ld")) [Num (-2 ^ 63)] (replicate 6 1)) ∧
  ∀ r out', vsnprintf ∅ 4 (Lit (bytes "%ld")) [Num (-2 ^ 63)] (replicate 6 1) = Ret r out' →
    same_above 4 (replicate 6 1) out' ∧ (0 < 4 → ∃ i, Z.of_nat i < 4 ∧ out' !! i = Some 0).
Proof. apply vsnprintf_safe. lia. Defined.

(** ** Decimal text reads back *)
Lemma dec_value_app acc a b : dec_value acc (a ++ b) = dec_value (dec_value acc a) b.
Proof. unfold dec_value. by rewrite foldl_app. Qed.

Lemma dec_digits_value f v :
  0 ≤ v < 10 ^ (Z.of_nat f + 1) →
  dec_value 0 (dec_digits f v) = v ∧ Forall is_digit (dec_digits f v).
Proof.
  revert v. induction f as [|f IH]; intros v Hv; cbn [dec_digits].
  - simpl in Hv. unfold dec_value, is_digit. cbn [foldl]. split; [lia|]. constructor; [lia|done].
  - destruct (Z.ltb_spec v 10).
    + unfold dec_value, is_digit. cbn [foldl]. split; [lia|]. constructor; [lia|done].
    + destruct (IH (v / 10)) as [IHv IHd].
      { split; [apply Z.div_pos; lia|]. apply Z.div_lt_upper_bound; [lia|].
        rewrite <- Z.pow_succ_r by lia.
        replace (Z.succ (Z.of_nat f + 1)) with (Z.of_nat (S f) + 1) by lia. lia. }
      pose proof (Z.mod_pos_bound v 10). rewrite dec_value_app, IHv. split.
      * unfold dec_value. cbn [foldl]. pose proof (Z.div_mod v 10). lia.
      * apply Forall_app. split; [done|]. constructor; [unfold is_digit; lia|done].
Qed.

Lemma dec_digits_length f v : (length (dec_digits f v) ≤ S f)%nat.
Proof.
  revert v. induction f as [|f IH]; intros v; cbn [dec_digits]; [done|].
  destruct (v <? 10); [simpl; lia|]. rewrite length_app. specialize (IH (v / 10)). simpl. lia.
Qed.

#[local] Arguments dec_digits : simpl never.

(** The text of [%ld] is one [atol] accepts. *)
Lemma dec_text v :
  - 2 ^ 63 < v < 2 ^ 63 →
  ∃ sign ds, dec v = atol_text 0 sign ds ∧ sign ∈ [[]; [43]; [45]] ∧ Forall is_digit ds ∧
    dec_value 0 ds < 2 ^ 63 ∧ sign_value sign (dec_value 0 ds) = v ∧ (length (dec v) ≤ 21)%nat.
Proof.
  intros Hv. unfold dec. destruct (Z.ltb_spec v 0).
  - destruct (dec_digits_value 19 (- v) ltac:(lia)) as [Hval Hd].
    exists [45], (dec_digits 19 (- v)). pose proof (dec_digits_length 19 (- v)).
    split_and!; [done|apply list_elem_of_In; simpl; tauto|done|lia|rewrite Hval; simpl; lia|cbn [length]; lia].
  - destruct (dec_digits_value 19 v ltac:(lia)) as [Hval Hd].
    exists [], (dec_digits 19 v). pose proof (dec_digits_length 19 v).
    split_and!; [done|apply list_elem_of_In; simpl; tauto|done|lia|by rewrite Hval|lia].
Qed.

Lemma map_u8_id r : Forall (λ b, 0 ≤ b < 256) r → map u8 r = r.
Proof. induction 1 as [|b r Hb _ IH]; [done|]. simpl. by rewrite u8_id, IH. Qed.

(** Reading a C string only looks at the bytes up to its NUL. *)
Lemma cstr_write_prefix m p s rest :
  Forall (λ b, b ≠ 0) s → cstr (write_bytes m p (s ++ 0 :: rest)) p s.
Proof.
  intros Hnz. change (0 :: rest) with ([0] ++ rest). rewrite app_assoc, write_bytes_app.
  apply (cstr_ext (write_bytes m p (s ++ [0]))); [|by apply cstr_write_bytes].
  intros i Hi. apply lookup_write_bytes_ne. rewrite length_app. simpl. lia.
Qed.

(** C39. [%ld] and [atol] are inverse: a [long] other than the least one, printed by
    [vsnprintf] with [%ld] into a buffer of 22 bytes or more, is read back by [atol] from that
    buffer, wherever the buffer lies in memory. *)
Theorem print_atol_roundtrip m p v out :
  - 2 ^ 63 < v < 2 ^ 63 → (22 ≤ length out)%nat →
  ∃ r out', vsnprintf m (Z.of_nat (length out)) (Lit (bytes "%ld")) [Num v] out = Ret r out' ∧
    atol p (write_bytes m p out') = Ret v (write_bytes m p out').
Proof.
  intros Hv Hout.
  destruct (dec_text v Hv) as (sign & ds & Hdec & Hsign & Hd & Hval & Hsv & Hlen).
  do 2 eexists. split.
  - apply (vsnprintf_render _ _ _ (bytes "%ld") _ (dec v)); [lia|by vm_compute| |right; by vm_compute|lia].
    change (render m (bytes "%ld") false false [Num v]) with
      ('(num, vl) ← va_num true [Num v]; guard (num ≠ - 2 ^ 63);;
       r ← render m [] false false vl; Some (dec num ++ r)).
    cbn [va_num va_long]. rewrite s64_id by lia. cbn [mbind option_bind].
    rewrite option_guard_True by lia. cbn. by rewrite app_nil_r.
  - assert (Forall (λ b, 0 ≤ b < 256 ∧ b ≠ 0) (dec v)) as Hb.
    { rewrite Hdec. unfold atol_text. simpl. apply Forall_app. split.
      - set_unfold in Hsign. destruct Hsign as [->|[->|[->|[]]]]; repeat constructor; lia.
      - eapply Forall_impl; [exact Hd|]. unfold is_digit. intros; simpl in *. lia. }
    unfold snprintf_result. rewrite (proj2 (Z.eqb_neq _ _)) by lia.
    replace (Z.to_nat _) with (length (dec v)) by lia. rewrite firstn_all, map_u8_id
      by (eapply Forall_impl; [exact Hb|]; by intros ? []).
    rewrite <- Hsv at 3. apply (atol_Ret _ p 0 sign ds); [|done..]. rewrite <- Hdec.
    apply cstr_write_prefix. eapply Forall_impl; [exact Hb|]. by intros ? [].
Qed.

Lemma print_atol_roundtrip_witness :
  ∃ r out', vsnprintf ∅ 22 (Lit (bytes "%ld")) [Num (-42)] (replicate 22 1) = Ret r out' ∧
    atol 4096 (write_bytes ∅ 4096 out') = Ret (-42) (write_bytes ∅ 4096 out').
Proof. apply (print_atol_roundtrip ∅ 4096 (-42) (replicate 22 1)); vm_compute; [done|lia]. Defined.

(** The least [long] is not printed as a number: negating it overflows back to itself, so
    the digit loop stores '0' plus a negative remainder. *)
Theorem vsnprintf_long_min m :
  ∃ out', vsnprintf m 22 (Lit (bytes "%ld")) [Num (- 2 ^ 63)] (replicate 22 1) = Ret 20 out' ∧
    ¬ Forall (λ c, c = 45 ∨ is_digit c) (take 20 out').
Proof.
  eexists. split; [vm_compute; reflexivity|].
  intros [_ H]%Forall_cons. apply Forall_cons in H as [H _]. unfold is_digit in H. lia.
Qed.

(** * Rendering the messages of the kernel *)

(** A text without conversions and NULs renders to itself. *)
Definition plain (c : Z) : Prop := c ≠ 0 ∧ c ≠ 37.
Lemma render_plain m s lng vl : Forall plain s → render m s false lng vl = Some s.
Proof.
  induction 1 as [|c s [_ Hc] _ IH]; [done|]. cbn [render].
  rewrite (proj2 (Z.eqb_neq _ _)) by done. by rewrite IH.
Qed.
Lemma scan_str_lit m bs i fuel :
  (i ≤ length bs)%nat → Forall (λ c, c ≠ 0) bs → (length bs - i < fuel)%nat →
  scan_str fuel m (Lit bs) (Z.of_nat i) = Some (drop i bs).
Proof.
  intros Hi Hnz. revert i Hi. induction fuel as [|fuel IH]; intros i Hi Hf; [lia|].
  cbn [scan_str cread]. rewrite (proj2 (Z.ltb_ge _ _)), Nat2Z.id by lia.
  destruct (decide (i = length bs)) as [->|Hne].
  - rewrite lookup_app_r, Nat.sub_diag by lia. simpl. by rewrite drop_all.
  - destruct (lookup_lt_is_Some_2 bs i) as [c Hc]; [lia|].
    rewrite (lookup_app_l_Some _ _ _ _ Hc). simpl. unfold truthy.
    rewrite (proj2 (Z.eqb_neq _ _)) by (by eapply (Forall_lookup_1 _ _ _ _ Hnz)). simpl.
    replace (Z.of_nat i + 1) with (Z.of_nat (S i)) by lia. rewrite IH by lia.
    simpl. by rewrite (drop_S _ _ _ Hc).
Qed.
Lemma cstring_lit m bs : Forall (λ c, c ≠ 0) bs → cstring m (Lit bs) = Some bs.
Proof.
  intros Hnz. unfold cstring. rewrite <- (drop_0 bs) at 3.
  apply (scan_str_lit m bs 0); [lia|done|simpl; lia].
Qed.
Lemma plain_nonzero s : Forall plain s → Forall (λ c, c ≠ 0) s.
Proof. intros Hs. eapply Forall_impl; [exact Hs|]. by intros c []. Qed.
Lemma bytes_app s s' : bytes (s +:+ s') = bytes s ++ bytes s'.
Proof.
  induction s as [|c s IH]; [done|].
  change (bytes (String c s +:+ s')) with (Z.of_N (Ascii.N_of_ascii c) :: bytes (s +:+ s')).
  by rewrite IH.
Qed.

Lemma dec_length v : - 2 ^ 63 < v < 2 ^ 63 → (length (dec v) ≤ 21)%nat.
Proof. intros Hv. by destruct (dec_text v Hv) as (? & ? & _ & _ & _ & _ & _ & ?). Qed.

Lemma render_text m s fmt lng vl :
  Forall plain s → render m (s ++ fmt) false lng vl = app s <$> render m fmt false lng vl.
Proof.
  induction 1 as [|c s [_ Hc] _ IH]; cbn [app render].
  - by destruct (render m fmt false lng vl).
  - rewrite (proj2 (Z.eqb_neq _ _)), IH by done. by destruct (render m fmt false lng vl).
Qed.
Lemma no_char_text s fmt : Forall plain s → no_char (s ++ fmt) false = no_char fmt false.
Proof.
  induction 1 as [|c s [_ Hc] _ IH]; [done|]. cbn [app no_char]. by rewrite (proj2 (Z.eqb_neq _ _)).
Qed.
Lemma no_char_plain s : Forall plain s → no_char s false = true.
Proof. intros Hs. rewrite <- (app_nil_r s). by rewrite no_char_text. Qed.
(** Without arguments there is no [%c] to render. *)
Lemma render_nil_no_char m fmt format lng r :
  render m fmt format lng [] = Some r → no_char fmt format = true.
Proof.
  revert format lng r. induction fmt as [|c fmt IH]; intros format lng r; [done|].
  cbn [render no_char]. destruct format.
  - destruct (Z.eqb_spec c 108) as [->|]; [apply IH|].
    destruct (Z.eqb_spec c 112); [done|]. destruct (Z.eqb_spec c 120); [by destruct lng|].
    destruct (Z.eqb_spec c 100); [by destruct lng|]. destruct (Z.eqb_spec c 115); [done|].
    destruct (c =? 99); [done|]. rewrite bool_decide_eq_false_2; [apply IH|].
    rewrite !elem_of_cons, elem_of_nil. tauto.
  - destruct (c =? 37); [apply IH|].
    destruct (render m fmt false lng []) as [q|] eqn:Eq; [|done]. intros _. by eapply IH.
Qed.
Lemma render_percent m fmt lng vl : render m (37 :: fmt) false lng vl = render m fmt true lng vl.
Proof. done. Qed.
Lemma render_l m fmt lng vl : render m (108 :: fmt) true lng vl = render m fmt true true vl.
Proof. done. Qed.
Lemma render_d m fmt lng z v vl :
  va_num lng [Num z] = Some (v, []) → v ≠ - 2 ^ 63 →
  render m (100 :: fmt) true lng (Num z :: vl) = app (dec v) <$> render m fmt false false vl.
Proof.
  intros Hv Hmin.
  change (render m (100 :: fmt) true lng (Num z :: vl)) with
    ('(num, vl) ← va_num lng (Num z :: vl); guard (num ≠ - 2 ^ 63);;
     r ← render m fmt false false vl; Some (dec num ++ r)).
  assert (va_num lng (Num z :: vl) = Some (v, vl)) as -> by (destruct lng; by injection Hv as <-).
  cbn [mbind option_bind]. rewrite option_guard_True by done.
  by destruct (render m fmt false false vl).
Qed.
Lemma render_s m fmt lng v vl s :
  cstring m v = Some s →
  render m (115 :: fmt) true lng (v :: vl) = app s <$> render m fmt false false vl.
Proof.
  intros Hs.
  change (render m (115 :: fmt) true lng (v :: vl)) with
    (s ← cstring m v; r ← render m fmt false false vl; Some (s ++ r)).
  rewrite Hs. by destruct (render m fmt false false vl).
Qed.
Lemma render_x m fmt lng z v vl :
  va_num lng [Num z] = Some (v, []) →
  render m (120 :: fmt) true lng (Num z :: vl) =
    app (hex (if lng then 16%nat else 8%nat) v) <$> render m fmt false false vl.
Proof.
  intros Hv.
  change (render m (120 :: fmt) true lng (Num z :: vl)) with
    ('(num, vl) ← va_num lng (Num z :: vl); r ← render m fmt false false vl;
     Some (hex (if lng then 16%nat else 8%nat) num ++ r)).
  assert (va_num lng (Num z :: vl) = Some (v, vl)) as -> by (destruct lng; by injection Hv as <-).
  cbn [mbind option_bind]. by destruct (render m fmt false false vl).
Qed.

Lemma render_p m fmt lng z vl :
  render m (112 :: fmt) true lng (Num z :: vl) =
    app (bytes "0x" ++ hex 16 (s64 z)) <$> render m fmt false false vl.
Proof.
  change (render m (112 :: fmt) true lng (Num z :: vl)) with
    (r ← render m fmt false false vl; Some (48 :: 120 :: hex 16 (s64 z) ++ r)).
  by destruct (render m fmt false false vl).
Qed.

(** [plain_tac] proves that a literal of the source is free of conversions. *)
Ltac plain_tac := vm_compute; repeat constructor; done.
