(* ===== verification/World.v ===== *)
(** The state the kernel's C code runs on, and the interfaces to what is not in the repository.

    [world H] holds the memory, the CSRs of the hart and the kernel's own global variables; [H]
    is the state of the host behind the front-end (Spike), reached through the class [Host].
    [Platform] collects the few facts about the machine the code depends on.  The constants are
    those of kernel/config.h, kernel/riscv.h and kernel/process.h. *)
From S2P Require Import Prelude Mem.

(** * kernel/config.h *)
Definition NCPU : Z := 1.
Definition TIMER_INTERVAL : Z := 1000000.
Definition DRAM_BASE : Z := 0x80000000.
Definition USER_STACK : Z := 0x81100000.
Definition USER_KSTACK : Z := 0x81200000.
Definition USER_TRAP_FRAME : Z := 0x81300000.

(** * Control and status registers *)
Inductive csr :=
| satp | stvec | sepc | scause | stval | sstatus | sip | sie | sscratch
| mstatus | mepc | mtvec | mtval | mcause | mie | mscratch | mideleg | medeleg | misa | mhartid.
#[export] Instance csr_eq_dec : EqDecision csr.
Proof. solve_decision. Defined.

(** ** kernel/riscv.h: fields and causes *)
Definition MSTATUS_MPP_MASK : Z := Z.shiftl 3 11.
Definition MSTATUS_MPP_M : Z := Z.shiftl 3 11.
Definition MSTATUS_MPP_S : Z := Z.shiftl 1 11.
Definition MSTATUS_MPP_U : Z := Z.shiftl 0 11.
Definition MSTATUS_MIE : Z := Z.shiftl 1 3.
Definition MSTATUS_MPIE : Z := Z.shiftl 1 7.
Definition IRQ_S_EXT : Z := 9.
Definition IRQ_S_TIMER : Z := 5.
Definition IRQ_S_SOFT : Z := 1.
Definition IRQ_M_SOFT : Z := 3.
Definition MIP_SEIP : Z := Z.shiftl 1 IRQ_S_EXT.
Definition MIP_SSIP : Z := Z.shiftl 1 IRQ_S_SOFT.
Definition MIP_STIP : Z := Z.shiftl 1 IRQ_S_TIMER.
Definition MIP_MSIP : Z := Z.shiftl 1 IRQ_M_SOFT.
Definition PMP_R : Z := 0x01.
Definition PMP_W : Z := 0x02.
Definition PMP_X : Z := 0x04.
Definition PMP_A : Z := 0x18.
Definition PMP_L : Z := 0x80.
Definition PMP_SHIFT : Z := 2.
Definition PMP_TOR : Z := 0x08.
Definition PMP_NA4 : Z := 0x10.
Definition PMP_NAPOT : Z := 0x18.
Definition CAUSE_MISALIGNED_FETCH : Z := 0x0.
Definition CAUSE_FETCH_ACCESS : Z := 0x1.
Definition CAUSE_ILLEGAL_INSTRUCTION : Z := 0x2.
Definition CAUSE_BREAKPOINT : Z := 0x3.
Definition CAUSE_MISALIGNED_LOAD : Z := 0x4.
Definition CAUSE_LOAD_ACCESS : Z := 0x5.
Definition CAUSE_MISALIGNED_STORE : Z := 0x6.
Definition CAUSE_STORE_ACCESS : Z := 0x7.
Definition CAUSE_USER_ECALL : Z := 0x8.
Definition CAUSE_SUPERVISOR_ECALL : Z := 0x9.
Definition CAUSE_MACHINE_ECALL : Z := 0xb.
Definition CAUSE_FETCH_PAGE_FAULT : Z := 0xc.
Definition CAUSE_LOAD_PAGE_FAULT : Z := 0xd.
Definition CAUSE_STORE_PAGE_FAULT : Z := 0xf.
Definition CAUSE_MTIMER : Z := 0x8000000000000007.
Definition CAUSE_MTIMER_S_TRAP : Z := 0x8000000000000001.
Definition SIP_SSIP : Z := Z.shiftl 1 1.
Definition CLINT : Z := 0x2000000.
Definition CLINT_MTIMECMP (hartid : Z) : Z := CLINT + 0x4000 + 8 * hartid.
Definition CLINT_MTIME : Z := CLINT + 0xBFF8.
Definition SSTATUS_SPP : Z := Z.shiftl 1 8.
Definition SSTATUS_SPIE : Z := Z.shiftl 1 5.
Definition SSTATUS_UPIE : Z := Z.shiftl 1 4.
Definition SSTATUS_SIE : Z := Z.shiftl 1 1.
Definition SSTATUS_UIE : Z := Z.shiftl 1 0.
Definition SSTATUS_SUM : Z := 0x00040000.
Definition SSTATUS_FS : Z := 0x00006000.
Definition SIE_SEIE : Z := Z.shiftl 1 9.
Definition SIE_STIE : Z := Z.shiftl 1 5.
Definition SIE_SSIE : Z := Z.shiftl 1 1.
Definition MIE_MEIE : Z := Z.shiftl 1 11.
Definition MIE_MTIE : Z := Z.shiftl 1 7.
Definition MIE_MSIE : Z := Z.shiftl 1 3.

(** The causes are pairwise different, so that each is handled by its own branch. *)
Definition causes : list Z :=
  [CAUSE_MISALIGNED_FETCH; CAUSE_FETCH_ACCESS; CAUSE_ILLEGAL_INSTRUCTION; CAUSE_BREAKPOINT;
   CAUSE_MISALIGNED_LOAD; CAUSE_LOAD_ACCESS; CAUSE_MISALIGNED_STORE; CAUSE_STORE_ACCESS; CAUSE_USER_ECALL;
   CAUSE_SUPERVISOR_ECALL; CAUSE_MACHINE_ECALL; CAUSE_FETCH_PAGE_FAULT; CAUSE_LOAD_PAGE_FAULT;
   CAUSE_STORE_PAGE_FAULT; CAUSE_MTIMER; CAUSE_MTIMER_S_TRAP].
Lemma causes_distinct : NoDup causes.
Proof. apply (bool_decide_unpack _). vm_compute. exact I. Qed.

(** C's [~x] on a 64-bit unsigned value. *)
Definition not64 (x : Z) : Z := u64 (Z.lnot x).

(** * The registers of [struct riscv_regs] and their offsets *)
Inductive reg :=
| Ra | Sp | Gp | Tp | T0 | T1 | T2 | S0 | S1 | A0 | A1 | A2 | A3 | A4 | A5 | A6 | A7
| S2 | S3 | S4 | S5 | S6 | S7 | S8 | S9 | S10 | S11 | T3 | T4 | T5 | T6.
#[export] Instance reg_eq_dec : EqDecision reg.
Proof. solve_decision. Defined.

(** The fields of the struct in their order; each is a [uint64]. *)
Definition riscv_regs : list reg :=
  [Ra; Sp; Gp; Tp; T0; T1; T2; S0; S1; A0; A1; A2; A3; A4; A5; A6; A7;
   S2; S3; S4; S5; S6; S7; S8; S9; S10; S11; T3; T4; T5; T6].
Definition reg_index (r : reg) : Z :=
  match r with
  | Ra => 0 | Sp => 1 | Gp => 2 | Tp => 3 | T0 => 4 | T1 => 5 | T2 => 6 | S0 => 7 | S1 => 8
  | A0 => 9 | A1 => 10 | A2 => 11 | A3 => 12 | A4 => 13 | A5 => 14 | A6 => 15 | A7 => 16
  | S2 => 17 | S3 => 18 | S4 => 19 | S5 => 20 | S6 => 21 | S7 => 22 | S8 => 23 | S9 => 24
  | S10 => 25 | S11 => 26 | T3 => 27 | T4 => 28 | T5 => 29 | T6 => 30
  end.
Definition reg_offset (r : reg) : Z := 8 * reg_index r.

(** ** [struct trapframe]: the registers, then three words *)
Definition tf_kernel_sp : Z := 248.
Definition tf_kernel_trap : Z := 256.
Definition tf_epc : Z := 264.
Definition sizeof_trapframe : Z := 272.

(** ** [struct process] and [struct elf_symbol] *)
Definition MAX_USER_SYMS : Z := 512.
Definition MAX_USER_STRTAB : Z := 8 * 1024.
Definition sizeof_elf_symbol : Z := 24.
Definition proc_kstack : Z := 0.
Definition proc_trapframe : Z := 8.
Definition proc_symtab : Z := 16.
Definition proc_sym_count : Z := proc_symtab + MAX_USER_SYMS * sizeof_elf_symbol.
Definition proc_strtab : Z := proc_sym_count + 8.
Definition proc_strtab_sz : Z := proc_strtab + MAX_USER_STRTAB.
Definition sizeof_process : Z := proc_strtab_sz + 8.
Definition sym_name : Z := 0.
Definition sym_info : Z := 4.
Definition sym_value : Z := 8.
Definition sym_size : Z := 16.

(** * The host behind the front-end

    One constructor per proxied call the repository issues, with the contents of the buffers the
    host reads; the reply carries the value of [magic_mem[0]] and the bytes the host stores in
    the caller's buffer. *)
Inductive fe_call :=
| FeWrite (kfd : Z) (data : list Z)
| FeRead (kfd size : Z)
| FePread (kfd size off : Z)
| FeOpenat (dirfd : Z) (fn : list Z) (flags mode : Z)
| FeClose (kfd : Z)
| FeLseek (kfd ptr dir : Z)
| FeFstat (kfd : Z)
| FeExit (code : Z)
| FeGetmainvars (buf size : Z).
Record fe_reply := FeReply { fe_ret : Z; fe_data : list Z }.
Class Host (H : Type) := host_call : fe_call → H → fe_reply * H.

(** Facts of the machine the kernel is linked for.  [csr_written c old v] is what the CSR holds
    after [v] is written over [old]: fields of a CSR may be read-only or legalise the value.
    [va_area] is the address [va_start] yields, [arg_area] that
    of the local [arg_bug_msg] the command line is read into, [smode_trap_vector], [smode_trap_handler] and the
    like are the link-time addresses of those symbols; [addr_lit] is where the compiler put a string literal that
    the code compares against. *)
Class Platform := {
  csr_written : csr → Z → Z → Z;
  va_area : Z;
  arg_area : Z;
  addr_smode_trap_vector : Z;
  addr_smode_trap_handler : Z;
  addr_s_start : Z;
  addr_mtrapvec : Z;
  addr_g_itrframe : Z;
  addr_mem_done : Z;
  addr_user_app : Z;
  addr_lit : string → Z;  (* where a string literal of the C code lies *)
}.

(** What the privileged specification says of the CSRs the kernel writes: the scratch registers
    hold any value, an exception pc any aligned one, a vector base any 4-aligned one (direct
    mode), and the fields named are writable. *)
Class RiscvCsrs `{Platform} : Prop := {
  csr_scratch c old v :
    c = sscratch ∨ c = mscratch → 0 ≤ v < 2 ^ 64 → csr_written c old v = v;
  csr_epc c old v :
    c = sepc ∨ c = mepc → 0 ≤ v < 2 ^ 64 → v `mod` 4 = 0 → csr_written c old v = v;
  csr_tvec c old v :
    c = stvec ∨ c = mtvec → 0 ≤ v < 2 ^ 64 → v `mod` 4 = 0 → csr_written c old v = v;
  csr_sstatus k old v :
    k = 8 ∨ k = 5 ∨ k = 1 → Z.testbit (csr_written sstatus old v) k = Z.testbit v k;
  csr_sip old v : Z.testbit (csr_written sip old v) 1 = Z.testbit v 1;
  csr_mstatus k old v :
    k = 3 ∨ k = 11 ∨ k = 12 → Z.testbit v 12 = false ∨ Z.testbit v 11 = true →
    Z.testbit (csr_written mstatus old v) k = Z.testbit v k;
}.

(** And of the enables of interrupts: supervisor software interrupts in [sie], machine timer
    interrupts in [mie], and [mstatus.MPIE]. *)
Class InterruptCsrs `{Platform} : Prop := {
  csr_sie old v : Z.testbit (csr_written sie old v) 1 = Z.testbit v 1;
  csr_mie old v : Z.testbit (csr_written mie old v) 7 = Z.testbit v 7;
  csr_mpie old v : Z.testbit (csr_written mstatus old v) 7 = Z.testbit v 7;
}.

(** The linker places code at 4-aligned addresses. *)
Definition code_addr (a : Z) : Prop := 0 ≤ a < 2 ^ 64 ∧ a `mod` 4 = 0.
Class Linked `{Platform} : Prop := {
  lk_vector : code_addr addr_smode_trap_vector;
  lk_handler : code_addr addr_smode_trap_handler;
  lk_s_start : code_addr addr_s_start;
  lk_mtrapvec : code_addr addr_mtrapvec;
}.

(** * The state *)
Record spike_file := SpikeFile { kfd : Z; refcnt : Z }.

Record world {H : Type} := World {
  w_mem : mem;
  w_csr : csr → Z;
  w_files : list spike_file;      (* spike_files *)
  w_fds : list (option nat);      (* spike_fds, a pointer into spike_files or NULL *)
  w_htif : Z;                     (* htif *)
  w_mem_size : Z;                 (* g_mem_size *)
  w_current : Z;                  (* current *)
  w_ticks : Z;                    (* g_ticks *)
  w_host : H;
}.
Arguments world H : clear implicits.

Section setters.
Context {H : Type}.
Implicit Types w : world H.
Definition set_mem (m : mem) w : world H :=
  World _ m (w_csr w) (w_files w) (w_fds w) (w_htif w) (w_mem_size w) (w_current w) (w_ticks w) (w_host w).
Definition set_csr (c : csr → Z) w : world H :=
  World _ (w_mem w) c (w_files w) (w_fds w) (w_htif w) (w_mem_size w) (w_current w) (w_ticks w) (w_host w).
Definition set_files (f : list spike_file) w : world H :=
  World _ (w_mem w) (w_csr w) f (w_fds w) (w_htif w) (w_mem_size w) (w_current w) (w_ticks w) (w_host w).
Definition set_fds (f : list (option nat)) w : world H :=
  World _ (w_mem w) (w_csr w) (w_files w) f (w_htif w) (w_mem_size w) (w_current w) (w_ticks w) (w_host w).
Definition set_htif (x : Z) w : world H :=
  World _ (w_mem w) (w_csr w) (w_files w) (w_fds w) x (w_mem_size w) (w_current w) (w_ticks w) (w_host w).
Definition set_mem_size (x : Z) w : world H :=
  World _ (w_mem w) (w_csr w) (w_files w) (w_fds w) (w_htif w) x (w_current w) (w_ticks w) (w_host w).
Definition set_current (x : Z) w : world H :=
  World _ (w_mem w) (w_csr w) (w_files w) (w_fds w) (w_htif w) (w_mem_size w) x (w_ticks w) (w_host w).
Definition set_ticks (x : Z) w : world H :=
  World _ (w_mem w) (w_csr w) (w_files w) (w_fds w) (w_htif w) (w_mem_size w) (w_current w) x (w_host w).
Definition set_host (h : H) w : world H :=
  World _ (w_mem w) (w_csr w) (w_files w) (w_fds w) (w_htif w) (w_mem_size w) (w_current w) (w_ticks w) h.
End setters.

#[export] Program Instance world_mem {H} : Lens (world H) mem :=
  {| lget := w_mem; lset := set_mem |}.
Next Obligation. done. Qed.
Next Obligation. by intros H []. Qed.
Next Obligation. done. Qed.

(** * CSR accesses and front-end calls *)
Section ops.
Context {H : Type} `{Platform}.
Definition read_csr (c : csr) : M (world H) Z := gets (λ w, w_csr w c).
(** The same access, for registers the compiler may take to be constant. *)
Definition read_const_csr (c : csr) : M (world H) Z := gets (λ w, w_csr w c).
(** The world after [v] is written to [c]. *)
Definition csr_set (c : csr) (v : Z) (w : world H) : world H :=
  set_csr (λ c', if decide (c' = c) then csr_written c (w_csr w c) v else w_csr w c') w.
Definition write_csr (c : csr) (v : Z) : M (world H) () := modify (csr_set c v).

(** [intr_on], [intr_off] and [is_intr_enable] of kernel/riscv.h. *)
Definition intr_on : M (world H) () := s ← read_csr sstatus; write_csr sstatus (Z.lor s SSTATUS_SIE).
Definition intr_off : M (world H) () :=
  s ← read_csr sstatus; write_csr sstatus (Z.land s (not64 SSTATUS_SIE)).
Definition is_intr_enable : M (world H) Z :=
  x ← read_csr sstatus; mret (if Z.land x SSTATUS_SIE =? 0 then 0 else 1).
(** The macros [swap_csr] ([csrrw]) and [set_csr] ([csrrs]). *)
Definition swap_csr (c : csr) (v : Z) : M (world H) Z := x ← read_csr c; write_csr c v;; mret x.
Definition set_csr_bits (c : csr) (bits : Z) : M (world H) Z :=
  x ← read_csr c; write_csr c (Z.lor x bits);; mret x.
End ops.

Definition frontend {H} `{Host H} (c : fe_call) : M (world H) fe_reply := λ w,
  let '(r, h) := host_call c (w_host w) in Ret r (set_host h w).

(** The host's state after a sequence of calls. *)
Definition host_calls {H} `{Host H} (cs : list fe_call) (h : H) : H :=
  foldl (λ h c, (host_call c h).2) h cs.

(** Memory operations in the world. *)
Abbreviation on_mem m := (zoom (T := mem) m) (only parsing).

(** * Lemmas *)
Lemma set_mem_id {H} (w : world H) : set_mem (w_mem w) w = w.
Proof. by destruct w. Qed.

Lemma on_mem_Ret {H A} (m : M mem A) (w : world H) a m' :
  m (w_mem w) = Ret a m' → (on_mem m : M (world H) A) w = Ret a (set_mem m' w).
Proof. intros Hm. by rewrite (zoom_Ret _ w a m'). Qed.

(** A read leaves the world alone. *)
Lemma on_mem_read {H A} (m : M mem A) (w : world H) a :
  m (w_mem w) = Ret a (w_mem w) → (on_mem m : M (world H) A) w = Ret a w.
Proof. intros Hm%on_mem_Ret. by rewrite Hm, set_mem_id. Qed.

Lemma host_calls_app {H} `{Host H} cs cs' (h : H) :
  host_calls (cs ++ cs') h = host_calls cs' (host_calls cs h).
Proof. apply foldl_app. Qed.

Lemma frontend_Ret {H} `{Host H} c (w : world H) :
  frontend c w = Ret (host_call c (w_host w)).1 (set_host (host_calls [c] (w_host w)) w).
Proof. unfold frontend, host_calls. simpl. by destruct (host_call c (w_host w)). Qed.

Lemma set_host_set_host {H} h h' (w : world H) : set_host h (set_host h' w) = set_host h w.
Proof. done. Qed.
Lemma set_host_id {H} (w : world H) : set_host (w_host w) w = w.
Proof. by destruct w. Qed.

(** Predicates of the world that the host's state does not matter to: the front-end keeps them. *)
Definition host_blind {H} (P : world H → Prop) : Prop := ∀ h w, P w → P (set_host h w).
Lemma frontend_keeps {H} `{Host H} (P : world H → Prop) c : host_blind P → keeps P (frontend c).
Proof. intros HP w Hw. rewrite frontend_Ret. by apply HP. Qed.

(** ** Single bits *)
Lemma land_bit v k : 0 ≤ k → Z.land v (Z.shiftl 1 k) = if Z.testbit v k then Z.shiftl 1 k else 0.
Proof.
  intros Hk. apply Z.bits_inj'. intros n Hn.
  rewrite Z.land_spec, Z.shiftl_1_l, Z.pow2_bits_eqb by lia.
  destruct (Z.eqb_spec k n) as [->|Hne].
  - destruct (Z.testbit v n); [|by rewrite Z.bits_0]. by rewrite Z.pow2_bits_true.
  - destruct (Z.testbit v k); rewrite ?Z.bits_0, ?Z.pow2_bits_false by done; by rewrite andb_false_r.
Qed.
Lemma testbit_shiftl1 k n : 0 ≤ k → Z.testbit (Z.shiftl 1 k) n = (k =? n).
Proof. intros Hk. by rewrite Z.shiftl_1_l, Z.pow2_bits_eqb. Qed.
Lemma testbit_not64 x k : 0 ≤ k < 64 → Z.testbit (not64 x) k = negb (Z.testbit x k).
Proof.
  intros Hk. unfold not64, u64. rewrite Z.mod_pow2_bits_low by lia. apply Z.lnot_spec. lia.
Qed.
