(* ===== verification/Sample.v ===== *)
(** A concrete host and a concrete platform, for the examples that instantiate the theorems.

    The host logs the calls it gets and serves one file: [openat] yields descriptor 3, unless it is
    open, and while it is open [pread] on descriptor 3 returns the bytes of the file; every other
    descriptor is refused.  Every CSR of the platform holds what is written to it. *)
From S2P Require Import Prelude Mem World.

Record sample_host := SampleHost { sh_log : list fe_call; sh_file : list Z }.

(** Whether descriptor 3 is open after the calls of the log, the first one first: [openat] opens
    it and [close] closes it. *)
Definition sample_opened (log : list fe_call) : bool :=
  fold_left (λ o c, match c with FeOpenat _ _ _ _ => true | FeClose k => o && negb (k =? 3) | _ => o end)
    log false.

Definition sample_reply (c : fe_call) (h : sample_host) : fe_reply :=
  match c with
  | FePread k size off =>
      if (k =? 3) && sample_opened (sh_log h) then
        let data := take (Z.to_nat size) (drop (Z.to_nat off) (sh_file h)) in
        FeReply (Z.of_nat (length data)) data
      else FeReply (-9) []
  | FeGetmainvars buf _ =>
      (* two arguments, the kernel and the application, both named "app" *)
      FeReply 0 (le_bytes 8 2 ++ le_bytes 8 (buf + 24) ++ le_bytes 8 (buf + 24) ++ [97; 112; 112; 0])
  | FeOpenat _ _ _ _ => FeReply (if sample_opened (sh_log h) then -24 else 3) []
  | FeClose k => FeReply (if (k =? 3) && sample_opened (sh_log h) then 0 else -9) []
  | FeWrite _ data => FeReply (Z.of_nat (length data)) []
  | _ => FeReply 0 []
  end.

(** The host's states before the file is opened, and while it is. *)
Definition sample_closed (file : list Z) (h : sample_host) : Prop :=
  sh_file h = file ∧ sample_opened (sh_log h) = false.
Definition sample_open (file : list Z) (h : sample_host) : Prop :=
  sh_file h = file ∧ sample_opened (sh_log h) = true.

(** Where the string literals that are compared with lie. *)
Definition sample_lits : list (string * Z) :=
  [("main", 0x80018000); ("print_backtrace", 0x80018010); ("#address-cells", 0x80018100);
   ("#size-cells", 0x80018120); ("device_type", 0x80018140); ("memory", 0x80018160);
   ("reg", 0x80018180); ("compatible", 0x800181a0); ("ucb,htif0", 0x800181c0)]%string.

Module SampleMachine.
#[export] Instance host : Host sample_host := λ c h,
  (sample_reply c h, SampleHost (sh_log h ++ [c]) (sh_file h)).
#[export] Instance platform : Platform := {|
  csr_written _ _ v := v;
  va_area := 0x811fff00;
  arg_area := 0x811ffa00;
  addr_smode_trap_vector := 0x80001000;
  addr_smode_trap_handler := 0x80000100;
  addr_s_start := 0x80000200;
  addr_mtrapvec := 0x80000300;
  addr_g_itrframe := 0x80010000;
  addr_mem_done := 0x80000400;
  addr_user_app := 0x80020000;
  addr_lit s :=
    match list_find (λ p, p.1 = s) sample_lits with Some (_, (_, a)) => a | None => 0x80018800 end;
|}.
#[export] Instance riscv_csrs : RiscvCsrs.
Proof. by split. Qed.
#[export] Instance interrupt_csrs : InterruptCsrs.
Proof. by split. Qed.
#[export] Instance linked : Linked.
Proof. repeat split; discriminate. Qed.
End SampleMachine.

(** The world after [spike_file_init]: the three standard streams open, the other slots free. *)
Definition sample_files : list spike_file :=
  [SpikeFile 0 4; SpikeFile 1 4; SpikeFile 2 4] ++ replicate 125 (SpikeFile (-1) 0).
Definition sample_fds : list (option nat) :=
  [Some 0%nat; Some 1%nat; Some 2%nat] ++ replicate 125 None.
Definition sample_world (m : mem) (file : list Z) : world sample_host :=
  World _ m (λ _, 0) sample_files sample_fds 1 0 0 0 (SampleHost [] file).

Lemma sample_opened_snoc log c :
  sample_opened (log ++ [c]) =
    match c with
    | FeOpenat _ _ _ _ => true
    | FeClose k => sample_opened log && negb (k =? 3)
    | _ => sample_opened log
    end.
Proof. unfold sample_opened. by rewrite fold_left_app. Qed.
