(* ===== verification/SpikeUtils.v ===== *)
(** Console output, termination and panics: spike_interface/spike_utils.c, with the
    [spike_file_write] of spike_interface/spike_file.c they print through.

    The text goes to the host as a [FeWrite] call; what the host does with it is the business of
    the [Host] instance.  The endless loops of [shutdown] and [poweroff] are [Halted]. *)
From S2P Require Import Prelude Mem CString Snprintf World Sample.

(** The numbers of the calls the repository issues (spike_htif.h). *)
Definition HTIFSYS_exit : Z := 93.
Definition HTIFSYS_read : Z := 63.
Definition HTIFSYS_write : Z := 64.
Definition HTIFSYS_openat : Z := 56.
Definition HTIFSYS_close : Z := 57.
Definition HTIFSYS_lseek : Z := 62.
Definition HTIFSYS_fstat : Z := 80.
Definition HTIFSYS_pread : Z := 67.
Definition HTIFSYS_getmainvars : Z := 2011.
Definition fe_number (c : fe_call) : Z :=
  match c with
  | FeWrite _ _ => HTIFSYS_write | FeRead _ _ => HTIFSYS_read | FePread _ _ _ => HTIFSYS_pread
  | FeOpenat _ _ _ _ => HTIFSYS_openat | FeClose _ => HTIFSYS_close
  | FeLseek _ _ _ => HTIFSYS_lseek | FeFstat _ => HTIFSYS_fstat | FeExit _ => HTIFSYS_exit
  | FeGetmainvars _ _ => HTIFSYS_getmainvars
  end.

(** [sizeof(out)] in [vprintk]. *)
Definition printk_size : Z := 256.
(** [#define stderr (spike_files + 2)], and the other two *)
Definition stdin : nat := 0.
Definition stdout : nat := 1.
Definition stderr : nat := 2.

Section utils.
Context {H : Type} `{Host H} `{Platform}.

(** [f->kfd] and [f->refcnt] for a pointer into [spike_files]. *)
Definition get_file (f : nat) : M (world H) spike_file := λ w,
  match w_files w !! f with Some x => Ret x w | None => Fault end.
Definition set_file (f : nat) (x : spike_file) : M (world H) () :=
  modify (λ w, set_files (<[f := x]> (w_files w)) w).

(** [buf] is an object of the caller; the host reads its first [size] bytes. *)
Definition spike_file_write (f : nat) (buf : list Z) (size : Z) : M (world H) Z :=
  x ← get_file f;
  (if size <=? Z.of_nat (length buf) then mret tt else fault);;
  r ← frontend (FeWrite (kfd x) (take (Z.to_nat size) buf));
  mret (fe_ret r).

(** The local array [out] is not initialised; [vsnprintf] writes every byte that is sent, so
    its first contents, zeros here, do not matter. *)
Definition vprintk (s : cval) (vl : list cval) : M (world H) () := λ w,
  match vsnprintf (w_mem w) printk_size s vl (replicate (Z.to_nat printk_size) 0) with
  | Ret res out =>
      (spike_file_write stderr out (if u64 res <? printk_size then res else printk_size);;
       mret tt) w
  | Halted _ => Halted w
  | Fault => Fault
  | NoFuel => NoFuel
  end.
Definition printk := vprintk.
Definition sprint := vprintk.

(** [while (1);] *)
Definition spin {A} : M (world H) A := halt.

Definition shutdown {A} (code : Z) : M (world H) A :=
  sprint (Lit (bytes ("System is shutting down with exit code %d." +:+ newline))) [Num code];;
  frontend (FeExit code);;
  spin.

(** The variadic arguments of [do_panic] do not reach [sprint]: the [va_list] itself is passed
    in their place. *)
Definition do_panic {A} (s : string) (args : list cval) : M (world H) A :=
  sprint (Lit (bytes s)) [Num va_area];;
  shutdown (-1).
Definition panic {A} (s : string) (args : list cval) : M (world H) A :=
  do_panic (s +:+ newline) args.

(** [ra] is the register's content, which the code only passes on. *)
Definition kassert_fail {A} (ra : Z) (s : string) : M (world H) A :=
  do_panic (A := ()) ("assertion failed @ %p: %s" +:+ newline) [Num ra; Lit (bytes s)];;
  shutdown (-1).
Definition kassert (cond : bool) (ra : Z) (s : string) : M (world H) () :=
  if cond then mret tt else kassert_fail ra s.

(** [assert(htif)] in [poweroff] expands to [die], which calls [poweroff]; [depth] bounds the
    nesting of those calls by the stack, and running off the stack is a fault. *)
Fixpoint poweroff {A} (depth : nat) (code : Z) : M (world H) A :=
  match depth with
  | O => fault
  | S depth' =>
      htif ← gets w_htif;
      (if truthy htif then mret tt
       else
         sprint (Lit (bytes ("%s:%d: assertion failed: %s" +:+ newline)))
           [Lit (bytes "spike_interface/spike_utils.c"); Num 84; Lit (bytes "htif")];;
         poweroff depth' (-1));;
      sprint (Lit (bytes ("Power off" +:+ carriage +:+ newline))) [];;
      spin
  end.
(** Nested calls the 4096-byte stacks have room for, generously. *)
Definition stack_frames : nat := 64.

(** [assert(x)], that is [die] with the file, the line and the text of [x]. *)
Definition assert_at (file : string) (line : Z) (cond : bool) (x : string) : M (world H) () :=
  if cond then mret tt
  else
    sprint (Lit (bytes ("%s:%d: assertion failed: %s" +:+ newline)))
      [Lit (bytes file); Num line; Lit (bytes x)];;
    poweroff stack_frames (-1).
End utils.

(** The bytes [vprintk] sends for a text: the text itself when it fits in 255 bytes, else its
    first 255 bytes and the NUL after them. *)
Definition printk_bytes (r : list Z) : list Z :=
  if Z.of_nat (length r) <? printk_size then map u8 r
  else map u8 (take 255 r) ++ [0].

Section specs.
Context {H : Type} `{Host H} `{Platform}.
Implicit Types w : world H.

(** The console is file 2 and its host descriptor is [k]. *)
Definition console w (k : Z) : Prop := ∃ x, w_files w !! stderr = Some x ∧ kfd x = k.

(** The world after the console received the text [r]. *)
Definition printed (k : Z) (r : list Z) w : world H :=
  set_host (host_calls [FeWrite k (printk_bytes r)] (w_host w)) w.

Lemma spike_file_write_Ret f x buf size w :
  w_files w !! f = Some x → 0 ≤ size ≤ Z.of_nat (length buf) →
  spike_file_write f buf size w =
    Ret (fe_ret (host_call (FeWrite (kfd x) (take (Z.to_nat size) buf)) (w_host w)).1)
      (set_host (host_calls [FeWrite (kfd x) (take (Z.to_nat size) buf)] (w_host w)) w).
Proof.
  intros Hf Hs. unfold spike_file_write.
  assert (get_file f w = Ret x w) as Hg by (unfold get_file; by rewrite Hf).
  mrun Hg. rewrite (proj2 (Z.leb_le _ _)), mret_bind by lia.
  by mrun (frontend_Ret (FeWrite (kfd x) (take (Z.to_nat size) buf)) w).
Qed.

(** A message whose rendering is defined goes to the console, truncated to the buffer. *)
Lemma sprint_Ret w k s vl fmt r :
  console w k → cstring (w_mem w) s = Some fmt →
  render (w_mem w) fmt false false vl = Some r → Z.of_nat (length r) < 2 ^ 31 →
  Z.of_nat (length r) < printk_size ∨ no_char fmt false = true →
  sprint s vl w = Ret tt (printed k r w).
Proof.
  intros (x & Hx & <-) Hs Hr Hlen Hfit. unfold sprint, vprintk, printk_size.
  set (out := replicate _ _).
  assert (length out = 256%nat) as Hl by apply length_replicate.
  rewrite (vsnprintf_render (w_mem w) 256 s fmt vl r out ltac:(lia) Hs Hr Hfit Hlen).
  rewrite u64_id by lia. unfold printed, printk_bytes, snprintf_result, printk_size.
  replace (256 =? 0) with false by done.
  destruct (Z.ltb_spec (Z.of_nat (length r)) 256) as [Hlt|Hge].
  - replace (Z.to_nat _) with (length r) by lia. rewrite firstn_all.
    mrun (spike_file_write_Ret stderr x
      (map u8 r ++ [0] ++ drop (S (length r)) out) (Z.of_nat (length r)) w Hx
      ltac:(rewrite !length_app, length_map; lia)).
    rewrite Nat2Z.id, take_app_le by (by rewrite length_map).
    by rewrite firstn_all2 by (by rewrite length_map).
  - replace (Z.to_nat (Z.min _ _)) with 255%nat by lia. rewrite drop_ge by lia.
    mrun (spike_file_write_Ret stderr x (map u8 (take 255 r) ++ [0] ++ []) 256 w Hx
      ltac:(rewrite !length_app, length_map, length_take; cbn [length]; lia)).
    rewrite firstn_all2 by (rewrite !length_app, length_map, length_take; cbn [length]; lia). done.
Qed.

Lemma console_printed w k r k' : console (printed k' r w) k ↔ console w k.
Proof. done. Qed.

Lemma printed_printed k r r' w :
  printed k r' (printed k r w) =
    set_host (host_calls [FeWrite k (printk_bytes r); FeWrite k (printk_bytes r')] (w_host w)) w.
Proof. done. Qed.

Lemma sprint_plain w k s vl :
  console w k → Forall plain s → Z.of_nat (length s) < 2 ^ 31 →
  sprint (Lit s) vl w = Ret tt (printed k s w).
Proof.
  intros Hk Hs Hl. eapply sprint_Ret; [done|by apply cstring_lit, plain_nonzero| |done|right; by apply no_char_plain].
  by apply render_plain.
Qed.

(** Texts with one decimal number, an [int] or a [long]. *)
Lemma sprint_d w k pre post z :
  console w k → Forall plain pre → Forall plain post →
  Z.of_nat (length pre) + Z.of_nat (length post) < 2 ^ 30 →
  sprint (Lit (pre ++ 37 :: 100 :: post)) [Num z] w =
    Ret tt (printed k (pre ++ dec (s32 z) ++ post) w).
Proof.
  intros Hk Hpre Hpost Hl. pose proof (s32_range z). apply (sprint_Ret w k _ _ (pre ++ 37 :: 100 :: post)).
  - done.
  - apply cstring_lit, Forall_app. split; [by apply plain_nonzero|].
    do 2 (constructor; [done|]). by apply plain_nonzero.
  - rewrite render_text by done. rewrite render_percent, (render_d _ _ _ _ (s32 z)) by (done || lia).
    by rewrite render_plain.
  - rewrite !length_app. pose proof (dec_length (s32 z) ltac:(lia)). lia.
  - right. rewrite no_char_text by done. exact (no_char_plain post Hpost).
Qed.
Lemma sprint_ld w k pre post z :
  console w k → Forall plain pre → Forall plain post → - 2 ^ 63 < s64 z →
  Z.of_nat (length pre) + Z.of_nat (length post) < 2 ^ 30 →
  sprint (Lit (pre ++ 37 :: 108 :: 100 :: post)) [Num z] w =
    Ret tt (printed k (pre ++ dec (s64 z) ++ post) w).
Proof.
  intros Hk Hpre Hpost Hz Hl. pose proof (s64_range z).
  apply (sprint_Ret w k _ _ (pre ++ 37 :: 108 :: 100 :: post)).
  - done.
  - apply cstring_lit, Forall_app. split; [by apply plain_nonzero|].
    do 3 (constructor; [done|]). by apply plain_nonzero.
  - rewrite render_text by done. rewrite render_percent, render_l, (render_d _ _ _ _ (s64 z)) by (done || lia).
    by rewrite render_plain.
  - rewrite !length_app. pose proof (dec_length (s64 z) ltac:(lia)). lia.
  - right. rewrite no_char_text by done. exact (no_char_plain post Hpost).
Qed.

(** The message of [shutdown]. *)
Definition shutdown_msg (code : Z) : list Z :=
  bytes "System is shutting down with exit code " ++ dec (s32 code) ++ bytes ("." +:+ newline).

Lemma render_shutdown m code :
  render m (bytes ("System is shutting down with exit code %d." +:+ newline)) false false
    [Num code] = Some (shutdown_msg code).
Proof.
  pose proof (s32_range code). unfold shutdown_msg.
  change (bytes ("System is shutting down with exit code %d." +:+ newline)) with
    (bytes "System is shutting down with exit code " ++ 37 :: 100 :: bytes ("." +:+ newline)).
  rewrite render_text by plain_tac. rewrite render_percent, (render_d _ _ _ _ (s32 code)) by (done || lia).
  by rewrite render_plain by plain_tac.
Qed.

Lemma shutdown_Halted {A} w k code :
  console w k →
  shutdown (A := A) code w =
    Halted (set_host (host_calls [FeWrite k (printk_bytes (shutdown_msg code)); FeExit code]
                        (w_host w)) w).
Proof.
  intros Hk. unfold shutdown.
  rewrite (bind_Ret _ _ _ tt (printed k (shutdown_msg code) w)).
  2:{ eapply sprint_Ret; [done|apply cstring_lit; vm_compute; repeat constructor; done|
        by apply render_shutdown| |right; by vm_compute].
      unfold shutdown_msg. rewrite !length_app. pose proof (s32_range code).
      pose proof (dec_length (s32 code) ltac:(lia)). cbn [length bytes]. simpl length. lia. }
  by mrun (frontend_Ret (FeExit code) (printed k (shutdown_msg code) w)).
Qed.

Lemma panic_plain {A} w k s args :
  console w k → Forall plain (bytes s) → Z.of_nat (length (bytes s)) < 2 ^ 30 →
  panic (A := A) s args w =
    Halted (set_host (host_calls
      [FeWrite k (printk_bytes (bytes (s +:+ newline)));
       FeWrite k (printk_bytes (shutdown_msg (-1))); FeExit (-1)] (w_host w)) w).
Proof.
  intros Hk Hs Hl. unfold panic, do_panic.
  rewrite (bind_Ret _ _ _ tt (printed k (bytes (s +:+ newline)) w)).
  - by rewrite (shutdown_Halted _ k).
  - rewrite bytes_app. apply sprint_plain; [done| |rewrite length_app; simpl; lia].
    apply Forall_app. split; [done|]. repeat constructor; done.
Qed.

(** [panic] with a message free of conversions prints the message, prints the shutdown
    notice, asks the host to exit with code -1 and never returns, whatever arguments the caller
    passed. *)
Theorem panic_Halted {A} w k s args :
  console w k → Forall plain (bytes s) → Z.of_nat (length (bytes s)) < 2 ^ 30 →
  panic (A := A) s args w =
    Halted (set_host (host_calls
      [FeWrite k (printk_bytes (bytes (s +:+ newline)));
       FeWrite k (printk_bytes (shutdown_msg (-1))); FeExit (-1)] (w_host w)) w).
Proof. apply panic_plain. Qed.

Lemma unknown_syscall_Halted {A} w k n :
  console w k → 0 ≤ va_area < 2 ^ 63 →
  panic (A := A) ("Unknown syscall %ld " +:+ newline) [Num n] w =
    Halted (set_host (host_calls
      [FeWrite k (printk_bytes (bytes "Unknown syscall " ++ dec va_area ++ bytes (" " +:+ newline +:+ newline)));
       FeWrite k (printk_bytes (shutdown_msg (-1))); FeExit (-1)] (w_host w)) w).
Proof.
  intros Hk Hva. unfold panic, do_panic.
  pose proof (dec_length va_area) as Hdl.
  erewrite bind_Ret.
  2:{ apply (sprint_Ret w k _ _ (bytes ("Unknown syscall %ld " +:+ newline +:+ newline))
        (bytes "Unknown syscall " ++ dec va_area ++ bytes (" " +:+ newline +:+ newline))).
      - done.
      - apply cstring_lit. vm_compute. repeat constructor; done.
      - change (bytes ("Unknown syscall %ld " +:+ newline +:+ newline)) with
          (bytes "Unknown syscall " ++ 37 :: 108 :: 100 :: bytes (" " +:+ newline +:+ newline)).
        rewrite render_text by plain_tac.
        rewrite render_percent, render_l, (render_d _ _ _ _ va_area) by (simpl; rewrite ?s64_id by lia; done || lia).
        by rewrite render_plain by plain_tac.
      - rewrite !length_app.
        replace (length (bytes "Unknown syscall ")) with 16%nat by done.
        replace (length (bytes (" " +:+ newline +:+ newline))) with 3%nat by done. lia.
      - right. by vm_compute. }
  by rewrite (shutdown_Halted _ k).
Qed.

(** The variadic arguments of [panic] are lost: the outcome does not depend on them, and
    where the message has a conversion, what is printed in its place is the address of the
    argument list.  (The default case of [do_syscall] is the caller that has one.) *)
Theorem panic_drops_arguments {A} w k s args args' n :
  console w k → 0 ≤ va_area < 2 ^ 63 →
  panic (A := A) s args w = panic (A := A) s args' w ∧
  panic (A := A) ("Unknown syscall %ld " +:+ newline) [Num n] w =
    Halted (set_host (host_calls
      [FeWrite k (printk_bytes (bytes "Unknown syscall " ++ dec va_area ++ bytes (" " +:+ newline +:+ newline)));
       FeWrite k (printk_bytes (shutdown_msg (-1))); FeExit (-1)] (w_host w)) w).
Proof. intros Hk Hva. split; [done|]. by apply unknown_syscall_Halted. Qed.

(** [poweroff] asserts [htif] by way of [die], which calls [poweroff] again: when no HTIF
    was found the calls nest until the stack is exhausted, whatever its depth, and the machine
    is never powered off; otherwise it says so and stops. *)
Theorem poweroff_spec {A} w k depth code :
  console w k →
  (w_htif w = 0 → poweroff (A := A) depth code w = Fault) ∧
  (w_htif w ≠ 0 → depth ≠ O →
   poweroff (A := A) depth code w =
     Halted (printed k (bytes ("Power off" +:+ carriage +:+ newline)) w)).
Proof.
  intros Hk. split.
  - intros Hh. revert w code Hk Hh. generalize A. induction depth as [|depth IH]; [done|].
    intros B w code Hk Hh. cbn [poweroff]. unfold gets.
    rewrite (bind_Ret _ _ w (w_htif w) w) by done. rewrite Hh. cbn [truthy Z.eqb negb].
    apply bind_Fault. erewrite bind_Ret.
    2:{ eapply sprint_Ret; [exact Hk|apply cstring_lit; vm_compute; repeat constructor; done|
          by vm_compute|by vm_compute|right; by vm_compute]. }
    by apply IH.
  - intros Hh Hd. destruct depth as [|depth]; [done|]. cbn [poweroff]. unfold gets.
    rewrite (bind_Ret _ _ w (w_htif w) w) by done. unfold truthy.
    rewrite (proj2 (Z.eqb_neq _ _)) by done. cbn [negb]. rewrite mret_bind.
    erewrite bind_Ret; [|apply sprint_plain; [exact Hk|vm_compute; repeat constructor; done|by vm_compute]].
    done.
Qed.
End specs.

(** ** What printing and stopping leave alone *)
Section keeps.
Context {H : Type} `{HH : Host H} `{PP : Platform} (P : world H → Prop) (HP : host_blind P).

Lemma get_file_keeps f : keeps P (get_file f).
Proof. intros w Hw. unfold get_file. by destruct (w_files w !! f). Qed.
Lemma spike_file_write_keeps f buf size : keeps P (spike_file_write f buf size).
Proof.
  apply keeps_bind; [apply get_file_keeps|]. intros x. apply keeps_bind; [keeps_tac|].
  intros _. apply keeps_bind; [by apply frontend_keeps|keeps_tac].
Qed.
Lemma vprintk_keeps s vl : keeps P (vprintk s vl).
Proof.
  intros w Hw. unfold vprintk. destruct (vsnprintf _ _ _ _ _) as [res out|out| |]; try done.
  revert w Hw. apply keeps_bind; [apply spike_file_write_keeps|keeps_tac].
Qed.
Lemma shutdown_keeps {A} code : keeps P (shutdown (A := A) code).
Proof.
  apply keeps_bind; [apply vprintk_keeps|]. intros _.
  apply keeps_bind; [by apply frontend_keeps|]. intros _. apply keeps_halt.
Qed.
Lemma panic_keeps {A} s args : keeps P (panic (A := A) s args).
Proof. apply keeps_bind; [apply vprintk_keeps|]. intros _. apply shutdown_keeps. Qed.
Lemma kassert_keeps cond ra s : keeps P (kassert cond ra s).
Proof.
  destruct cond; [apply keeps_ret|]. apply keeps_bind; [|intros; apply shutdown_keeps].
  apply keeps_bind; [apply vprintk_keeps|]. intros _. apply shutdown_keeps.
Qed.
Lemma poweroff_keeps {A} depth code : keeps P (poweroff (A := A) depth code).
Proof.
  revert code. generalize A. induction depth as [|depth IH]; intros B code; [apply keeps_fault|].
  apply keeps_bind; [apply keeps_gets|]. intros htif. apply keeps_bind.
  - apply keeps_if; [apply keeps_ret|]. apply keeps_bind; [apply vprintk_keeps|]. intros _.
    apply IH.
  - intros _. apply keeps_bind; [apply vprintk_keeps|]. intros _. apply keeps_halt.
Qed.
Lemma assert_at_keeps file line cond x : keeps P (assert_at file line cond x).
Proof.
  destruct cond; [apply keeps_ret|]. apply keeps_bind; [apply vprintk_keeps|].
  intros _. apply poweroff_keeps.
Qed.
End keeps.
#[export] Hint Resolve get_file_keeps spike_file_write_keeps vprintk_keeps shutdown_keeps
  panic_keeps kassert_keeps poweroff_keeps assert_at_keeps frontend_keeps : keeps.

Lemma panic_never {H} `{Host H} `{Platform} {A} s args : never (panic (H := H) (A := A) s args).
Proof. do 3 (apply never_bind; intros _). by intros w a w'. Qed.

(** ** Printing and stopping take finitely many steps *)
Section terminates.
Context {H : Type} `{HH : Host H} `{PP : Platform}.
Implicit Types w : world H.

Lemma frontend_terminates c w : terminates (frontend c w).
Proof. by rewrite frontend_Ret. Qed.
Lemma get_file_terminates f w : terminates (get_file f w).
Proof. unfold get_file. by destruct (w_files w !! f). Qed.
Lemma vprintk_terminates s vl w : terminates (vprintk s vl w).
Proof.
  unfold vprintk. pose proof (vsnprintf_terminates (w_mem w) printk_size s vl
    (replicate (Z.to_nat printk_size) 0)) as Ht.
  destruct (vsnprintf _ _ _ _ _) as [res out|out| |]; try done.
  apply terminates_bind; [|done]. apply terminates_bind; [apply get_file_terminates|].
  intros x w1 _. apply terminates_bind; [by destruct (_ <=? _)|]. intros _ w2 _.
  apply terminates_bind; [apply frontend_terminates|done].
Qed.
Lemma shutdown_terminates {A} code w : terminates (shutdown (A := A) code w).
Proof.
  apply terminates_bind; [apply vprintk_terminates|]. intros _ w1 _.
  apply terminates_bind; [apply frontend_terminates|done].
Qed.
Lemma panic_terminates {A} s args w : terminates (panic (A := A) s args w).
Proof.
  apply terminates_bind; [apply vprintk_terminates|]. intros _ w1 _. apply shutdown_terminates.
Qed.
End terminates.
#[export] Hint Resolve frontend_terminates vprintk_terminates shutdown_terminates
  panic_terminates : terminates.

(** * Instances *)
Import SampleMachine.

Lemma sample_console m file : console (sample_world m file) 2.
Proof. eexists. split; reflexivity. Qed.

Lemma panic_Halted_witness :
  panic (A := ()) "Load access fault!" [] (sample_world ∅ []) =
    Halted (set_host (host_calls
      [FeWrite 2 (printk_bytes (bytes ("Load access fault!" +:+ newline)));
       FeWrite 2 (printk_bytes (shutdown_msg (-1))); FeExit (-1)] (SampleHost [] []))
      (sample_world ∅ [])).
Proof.
  apply (panic_Halted (A := ()) (sample_world ∅ []) 2); [apply sample_console|plain_tac|by vm_compute].
Defined.

Lemma panic_drops_arguments_witness :
  panic (A := ()) "Too many symbols" [] (sample_world ∅ []) =
    panic (A := ()) "Too many symbols" [Num 7] (sample_world ∅ []) ∧
  panic (A := ()) ("Unknown syscall %ld " +:+ newline) [Num 99] (sample_world ∅ []) =
    Halted (set_host (host_calls
      [FeWrite 2 (printk_bytes (bytes "Unknown syscall " ++ dec va_area ++ bytes (" " +:+ newline +:+ newline)));
       FeWrite 2 (printk_bytes (shutdown_msg (-1))); FeExit (-1)] (SampleHost [] []))
      (sample_world ∅ [])).
Proof.
  apply (panic_drops_arguments (A := ()) (sample_world ∅ []) 2 "Too many symbols" [] [Num 7] 99);
    [apply sample_console|split; by vm_compute].
Defined.

Lemma poweroff_spec_witness :
  (w_htif (set_htif 0 (sample_world ∅ [])) = 0 →
   poweroff (A := ()) 64 (-1) (set_htif 0 (sample_world ∅ [])) = Fault) ∧
  (w_htif (set_htif 0 (sample_world ∅ [])) ≠ 0 → 64%nat ≠ O →
   poweroff (A := ()) 64 (-1) (set_htif 0 (sample_world ∅ [])) =
     Halted (printed 2 (bytes ("Power off" +:+ carriage +:+ newline)) (set_htif 0 (sample_world ∅ [])))).
Proof.
  apply (poweroff_spec (A := ()) (set_htif 0 (sample_world ∅ [])) 2 64 (-1)). eexists. split; reflexivity.
Defined.
