(* ===== verification/Spinlock.v ===== *)
(** The spinlocks of spike_interface/atomic.h: the code, as one hart runs it, and what becomes of the
    lock when several harts interleave their accesses to it.

    config.h has one hart ([NCPU] is 1), and there the locks do what they are for; the second half of
    the file is about the promise the names make for more. *)
From S2P Require Import Prelude.

(** The field [lock] of a new lock. *)
Definition SPINLOCK_INIT : Z := 0.

(** * The code: the field [lock], reached through a lens *)
Section spinlock.
Context {S : Type} (lk : Lens S Z).
(** Neither does anything: interrupts are taken to be off in machine mode. *)
Definition disable_irqsave : M S Z := mret 0.
Definition enable_irqrestore (flags : Z) : M S () := mret tt.
(** The fence orders the accesses of a hart, which are in order here. *)
Definition mb : M S () := mret tt.
Definition atomic_read : M S Z := gets (lget (Lens := lk)).
Definition atomic_set (v : Z) : M S () := modify (lset (Lens := lk) v).
(** The read-modify-write macros yield the old value. *)
Definition atomic_binop (op : Z → Z) : M S Z :=
  flags ← disable_irqsave;
  res ← atomic_read;
  atomic_set (op res);;
  enable_irqrestore flags;;
  mret res.
Definition atomic_add (inc : Z) : M S Z := atomic_binop (λ res, s32 (res + inc)).
Definition atomic_or (inc : Z) : M S Z := atomic_binop (λ res, Z.lor res inc).
Definition atomic_swap (inc : Z) : M S Z := atomic_binop (λ _, inc).
Definition spinlock_trylock : M S Z := res ← atomic_swap (-1); mb;; mret res.
Definition spinlock_lock (fuel : nat) : M S () :=
  loop fuel (λ _,
    loop fuel (λ _, v ← atomic_read; mret (if truthy v then inl tt else inr tt)) tt;;
    res ← spinlock_trylock;
    mret (if truthy res then inl tt else inr tt)) tt.
Definition spinlock_unlock : M S () := mb;; atomic_set 0.
Definition spinlock_lock_irqsave (fuel : nat) : M S Z :=
  flags ← disable_irqsave; spinlock_lock fuel;; mret flags.
Definition spinlock_unlock_irqrestore (flags : Z) : M S () :=
  spinlock_unlock;; enable_irqrestore flags.
End spinlock.

Section locks.
Context {S : Type} (lk : Lens S Z).
Implicit Types s : S.

(** A free lock is taken in one round. *)
Lemma spinlock_lock_free fuel s :
  lget (Lens := lk) s = 0 → (0 < fuel)%nat →
  spinlock_lock lk fuel s = Ret tt (lset (Lens := lk) (-1) s).
Proof.
  intros Hs Hf. destruct fuel as [|fuel]; [lia|]. unfold spinlock_lock, atomic_read, gets.
  apply loop_exit. rewrite (bind_Ret _ _ s tt s).
  - unfold spinlock_trylock, atomic_swap, atomic_binop, disable_irqsave, enable_irqrestore, mb, atomic_read, gets.
    rewrite !bind_assoc, mret_bind, !bind_assoc, (bind_Ret _ _ s 0 s) by by rewrite Hs.
    done.
  - apply loop_exit. by rewrite (bind_Ret _ _ s 0 s) by by rewrite Hs.
Qed.

(** A lock that is held is waited for for ever: nobody else runs. *)
Lemma spinlock_lock_held fuel s : lget (Lens := lk) s ≠ 0 → spinlock_lock lk fuel s = NoFuel.
Proof.
  intros Hs. apply loop_NoFuel, bind_NoFuel, loop_stuck. unfold atomic_read, gets.
  rewrite (bind_Ret _ _ s (lget (Lens := lk) s) s) by done. unfold truthy.
  by rewrite (proj2 (Z.eqb_neq _ _)).
Qed.
End locks.

(** * Several harts *)

(** Where a hart is in [spinlock_lock] and [spinlock_unlock], between two accesses to the word: not
    using the lock, in the inner loop, before and between the two accesses of [atomic_swap], or with
    the lock. *)
Inductive lock_place := Outside | Testing | Swapping | Swapped (res : Z) | Inside.
#[export] Instance lock_place_eq_dec : EqDecision lock_place.
Proof. solve_decision. Defined.
(** What a hart does next: where it is then, and the word. A hart outside begins to lock, a hart
    inside unlocks. *)
Definition access (p : lock_place) (word : Z) : lock_place * Z :=
  match p with
  | Outside => (Testing, word)
  | Testing => (if truthy word then Testing else Swapping, word)
  | Swapping => (Swapped word, word)
  | Swapped res => (if truthy res then Testing else Inside, -1)
  | Inside => (Outside, 0)
  end.

(** The lock word, and the harts. *)
Record lock_state := LockState { word : Z; places : list lock_place }.
Definition hart_step (s : lock_state) (i : nat) : lock_state :=
  match places s !! i with
  | Some p => let '(p', v) := access p (word s) in LockState v (<[i := p']> (places s))
  | None => s
  end.
(** The harts that move, in the order in which they do. *)
Definition schedule (l : list nat) (s : lock_state) : lock_state := foldl hart_step s l.
(** How often a hart moves. *)
Definition moves (i : nat) (l : list nat) : nat := length (filter (λ j, j = i) l).
Definition all_outside (n : nat) : lock_state := LockState SPINLOCK_INIT (replicate n Outside).
Definition inside (s : lock_state) (i : nat) : Prop := places s !! i = Some Inside.

(** ** One hart alone: the steps are those of the code *)
#[local] Program Instance self_lens : Lens Z Z := {| lget v := v; lset v _ := v |}.
Solve Obligations with done.
Definition alone (n : nat) (p : lock_place) (v : Z) : lock_place * Z := Nat.iter n (uncurry access) (p, v).

Lemma alone_held n v : v ≠ 0 → alone n Testing v = (Testing, v).
Proof.
  intros Hv. induction n as [|n IH]; [done|]. change (uncurry access (alone n Testing v) = (Testing, v)).
  rewrite IH. cbn. unfold truthy. by rewrite (proj2 (Z.eqb_neq _ _)).
Qed.

(** When the code takes the lock, the steps do, with the same word; when it waits for ever, so do
    they. *)
Lemma alone_locks fuel v :
  (0 < fuel)%nat →
  match spinlock_lock self_lens fuel v with
  | Ret _ v' => ∃ n, alone n Testing v = (Inside, v')
  | _ => ∀ n, alone n Testing v = (Testing, v)
  end.
Proof.
  intros Hf. destruct (decide (v = 0)) as [->|Hv].
  - rewrite spinlock_lock_free by done. by exists 3%nat.
  - rewrite spinlock_lock_held by done. intros n. by apply alone_held.
Qed.
Lemma alone_unlocks v : spinlock_unlock self_lens v = Ret tt (access Inside v).2.
Proof. done. Qed.

(** ** Interleaved as they come *)

Lemma schedule_snoc l i s : schedule (l ++ [i]) s = hart_step (schedule l s) i.
Proof. unfold schedule. by rewrite foldl_app. Qed.
Lemma moves_snoc i j l : moves i (l ++ [j]) = (moves i l + if decide (j = i) then 1 else 0)%nat.
Proof. unfold moves. rewrite filter_app, length_app, filter_cons, filter_nil. by case_decide. Qed.

(** Where a hart is after some moves from outside, when it finds the lock free, as long as none of
    these is a write. *)
Definition reading (k : nat) : lock_place :=
  match k with 0%nat => Outside | 1%nat => Testing | 2%nat => Swapping | _ => Swapped 0 end.
Lemma all_read n l :
  (∀ i, (i < n)%nat → (moves i l ≤ 3)%nat) →
  let s := schedule l (all_outside n) in
  word s = 0 ∧ length (places s) = n ∧ ∀ i, (i < n)%nat → places s !! i = Some (reading (moves i l)).
Proof.
  intros Hl. induction l as [|j l IH] using rev_ind.
  - cbn. split; [done|]. split; [apply length_replicate|]. intros i Hi. by apply lookup_replicate_2.
  - cbv zeta. rewrite schedule_snoc. destruct IH as (Hw & Hlen & Hat).
    { intros i Hi. specialize (Hl i Hi). rewrite moves_snoc in Hl. lia. }
    set (s := schedule l (all_outside n)) in *. destruct (decide (j < n)%nat) as [Hj|Hj].
    + pose proof (Hl j Hj) as Hm. rewrite moves_snoc, decide_True in Hm by done.
      pose proof (Hat j Hj) as Hp. unfold hart_step. rewrite Hp, Hw.
      assert (access (reading (moves j l)) 0 = (reading (moves j l + 1), 0)) as ->
        by (destruct (moves j l) as [|[|[|]]]; [done..|lia]).
      cbn [word places]. split; [done|]. split; [by rewrite length_insert|]. intros i Hi. rewrite moves_snoc.
      destruct (decide (j = i)) as [->|Hne]; [by apply list_lookup_insert_eq; rewrite Hlen|].
      rewrite list_lookup_insert_ne, Nat.add_0_r by done. by apply Hat.
    + unfold hart_step. rewrite lookup_ge_None_2 by lia. split; [done|]. split; [done|]. intros i Hi.
      rewrite moves_snoc, decide_False, Nat.add_0_r by lia. by apply Hat.
Qed.

(** The writes that follow. *)
Lemma all_written n l s :
  length (places s) = n → (∀ i, (i < n)%nat → places s !! i = Some (Swapped 0)) →
  (∀ i, (i < n)%nat → (moves i l ≤ 1)%nat) →
  length (places (schedule l s)) = n ∧
  ∀ i, (i < n)%nat → places (schedule l s) !! i = Some (if decide (moves i l = 0%nat) then Swapped 0 else Inside).
Proof.
  intros Hlen Hs Hl. induction l as [|j l IH] using rev_ind; [by split|].
  rewrite schedule_snoc. destruct IH as (Hlen' & Hat).
  { intros i Hi. specialize (Hl i Hi). rewrite moves_snoc in Hl. lia. }
  set (s' := schedule l s) in *. destruct (decide (j < n)%nat) as [Hj|Hj].
  - pose proof (Hl j Hj) as Hm. rewrite moves_snoc, decide_True in Hm by done.
    pose proof (Hat j Hj) as Hp. rewrite decide_True in Hp by lia. unfold hart_step. rewrite Hp.
    cbn [access truthy Z.eqb negb word places]. split; [by rewrite length_insert|]. intros i Hi. rewrite moves_snoc.
    destruct (decide (j = i)) as [->|Hne].
    + rewrite list_lookup_insert_eq by lia. by rewrite decide_False by lia.
    + rewrite list_lookup_insert_ne, Nat.add_0_r by done. by apply Hat.
  - unfold hart_step. rewrite lookup_ge_None_2 by lia. split; [done|]. intros i Hi.
    rewrite moves_snoc, (decide_False (P := j = i)), Nat.add_0_r by lia. by apply Hat.
Qed.

Lemma schedule_app l l' s : schedule (l ++ l') s = schedule l' (schedule l s).
Proof. apply foldl_app. Qed.

(** C27. [atomic_swap] is a read and then a write: in every schedule in which each hart, of any number
    of them, makes three moves - it comes to the lock, finds it free in the inner loop, and reads it
    in [atomic_swap] - before the first of them writes to it, none is turned away: when each has made
    its next move, all of them hold the lock. *)
Theorem all_get_in n l1 l2 :
  (∀ i, (i < n)%nat → moves i l1 = 3%nat) → (∀ i, (i < n)%nat → moves i l2 = 1%nat) →
  (∀ i, (i < n)%nat → places (schedule l1 (all_outside n)) !! i = Some (Swapped 0)) ∧
  ∀ i, (i < n)%nat → inside (schedule (l1 ++ l2) (all_outside n)) i.
Proof.
  intros H1 H2. destruct (all_read n l1) as (_ & Hlen & Hat); [intros i Hi; by rewrite H1|].
  assert (∀ i, (i < n)%nat → places (schedule l1 (all_outside n)) !! i = Some (Swapped 0)) as Hs
    by (intros i Hi; by rewrite Hat, H1).
  split; [exact Hs|]. intros i Hi. rewrite schedule_app.
  destruct (all_written n l2 _ Hlen Hs) as (_ & Hin); [intros j Hj; by rewrite H2|].
  unfold inside. rewrite Hin by done. by rewrite decide_False by (rewrite H2; lia).
Qed.

(** ** When [atomic_swap] is not disturbed *)

(** No other hart moves while one is between the two accesses of its [atomic_swap]. *)
Fixpoint undisturbed (l : list nat) (s : lock_state) : Prop :=
  match l with
  | [] => True
  | i :: l => (∀ j r, places s !! j = Some (Swapped r) → j = i) ∧ undisturbed l (hart_step s i)
  end.

(** The lock is held by one hart at most, the word tells, and what was read is still so. *)
Record lock_ok (s : lock_state) : Prop := {
  lo_one i j : inside s i → inside s j → i = j;
  lo_word : word s = 0 ∧ (∀ i, ¬ inside s i) ∨ word s = -1 ∧ (∃ i, inside s i);
  lo_read i r : places s !! i = Some (Swapped r) → r = word s;
}.

Lemma all_outside_ok n : lock_ok (all_outside n).
Proof.
  assert (∀ i p, places (all_outside n) !! i = Some p → p = Outside) as Hout.
  { intros i p [? _]%lookup_replicate. done. }
  split.
  - by intros i j Hi%Hout.
  - left. split; [done|]. by intros i Hi%Hout.
  - by intros i r Hi%Hout.
Qed.

(** What one access changes. *)
Lemma hart_step_at s i p :
  places s !! i = Some p →
  word (hart_step s i) = (access p (word s)).2 ∧
  places (hart_step s i) !! i = Some (access p (word s)).1 ∧
  (∀ j, j ≠ i → places (hart_step s i) !! j = places s !! j).
Proof.
  intros Hp. unfold hart_step. rewrite Hp. destruct (access p (word s)) as [p' v]. cbn [word places fst snd].
  split; [done|]. split; [|intros j Hj; by apply list_lookup_insert_ne].
  apply list_lookup_insert_eq. by eapply lookup_lt_Some.
Qed.

Lemma hart_step_ok s i :
  lock_ok s → (∀ j r, places s !! j = Some (Swapped r) → j = i) → lock_ok (hart_step s i).
Proof.
  intros [Hone Hword Hread] Hquiet. destruct (places s !! i) as [p|] eqn:Hp.
  2:{ unfold hart_step. rewrite Hp. by split. }
  destruct (hart_step_at s i p Hp) as (Hv & Hi & Hj).
  assert (∀ j, inside (hart_step s i) j ↔ if decide (j = i) then (access p (word s)).1 = Inside else inside s j) as Hin.
  { intros j. unfold inside. case_decide as Hd; [subst j; rewrite Hi|by rewrite Hj].
    split; [by intros [=]|by intros ->]. }
  assert (∀ j, inside s j → p = Inside ∨ j ≠ i) as Hother.
  { intros j Hs. destruct (decide (j = i)) as [->|?]; [left|by right]. unfold inside in Hs. congruence. }
  split.
  - intros j k. rewrite !Hin. destruct p as [| | |res|]; cbn [access fst]; repeat case_decide; subst; try done; auto.
    all: destruct (truthy _) eqn:Ht; try done; rewrite (Hread _ _ Hp) in Ht; unfold truthy in Ht.
    all: destruct Hword as [[Hw Hno]|[Hw _]]; [|by rewrite Hw in Ht]; firstorder.
  - rewrite Hv. setoid_rewrite Hin. destruct p as [| | |res|]; cbn [access fst snd].
    1-3: destruct Hword as [[Hw Hno]|[Hw [j Hs]]]; [left|right]; (split; [done|]).
    all: try (intros k; case_decide; [by repeat case_match|by auto]).
    all: try (exists j; destruct (Hother j Hs) as [?|?]; [done|by rewrite decide_False]).
    + right. split; [done|]. destruct (truthy res) eqn:Ht; [|exists i; by rewrite decide_True].
      rewrite (Hread _ _ Hp) in Ht. destruct Hword as [[Hw _]|[_ [j Hs]]]; [by rewrite Hw in Ht|].
      exists j. destruct (Hother j Hs) as [?|?]; [done|by rewrite decide_False].
    + left. split; [done|]. intros k. case_decide; [done|]. intros Hs. by pose proof (Hone _ _ Hs Hp).
  - intros j r Hr. destruct (decide (j = i)) as [->|Hne].
    + rewrite Hi in Hr. injection Hr as Hr. rewrite Hv. destruct p as [| | |res|]; cbn [access fst snd] in *.
      all: repeat case_match; congruence.
    + rewrite Hj in Hr by done. by apply Hquiet in Hr.
Qed.

Lemma undisturbed_ok l s : lock_ok s → undisturbed l s → lock_ok (schedule l s).
Proof.
  revert s. induction l as [|i l IH]; intros s Hs Hl; [done|]. destruct Hl as [Hq Hl].
  by apply IH; [apply hart_step_ok|].
Qed.

(** A waiting hart takes a free lock in three accesses. *)
Lemma takes_free s i :
  lock_ok s → (∀ j, ¬ inside s j) → (∀ j r, places s !! j ≠ Some (Swapped r)) → places s !! i = Some Testing →
  undisturbed [i; i; i] s ∧ inside (schedule [i; i; i] s) i.
Proof.
  intros [_ Hword _] Hno Hq Hi. destruct Hword as [[Hw _]|[_ [j Hj]]]; [|by destruct (Hno j)].
  destruct (hart_step_at s i _ Hi) as (Hw1 & Hi1 & Hj1). rewrite Hw in Hw1, Hi1. cbn in Hw1, Hi1.
  destruct (hart_step_at _ i _ Hi1) as (Hw2 & Hi2 & Hj2). rewrite Hw1 in Hw2, Hi2. cbn in Hw2, Hi2.
  destruct (hart_step_at _ i _ Hi2) as (Hw3 & Hi3 & Hj3). rewrite Hw2 in Hi3. cbn in Hi3.
  split; [|exact Hi3]. cbn [undisturbed]. split_and!; [|..|done].
  - intros j r Hr. by destruct (Hq j r).
  - intros j r Hr. destruct (decide (j = i)) as [->|?]; [done|]. rewrite Hj1 in Hr by done. by destruct (Hq j r).
  - intros j r Hr. destruct (decide (j = i)) as [->|?]; [done|]. rewrite Hj2, Hj1 in Hr by done. by destruct (Hq j r).
Qed.

(** C18. What the locks promise, under the condition [disable_irqsave] is there for - that nothing gets
    between the two accesses of [atomic_swap]: for any number of harts that lock and unlock in any
    order, at most one holds the lock; the word is -1 exactly when one does, and 0 otherwise; and a
    lock nobody holds is there for any hart that waits for it to take. *)
Theorem mutual_exclusion n l :
  undisturbed l (all_outside n) →
  let s := schedule l (all_outside n) in
  (∀ i j, inside s i → inside s j → i = j) ∧
  (word s = 0 ∧ (∀ i, ¬ inside s i) ∨ word s = -1 ∧ (∃ i, inside s i)) ∧
  (∀ i, (∀ j, ¬ inside s j) → (∀ j r, places s !! j ≠ Some (Swapped r)) → places s !! i = Some Testing →
    undisturbed [i; i; i] s ∧ inside (schedule [i; i; i] s) i).
Proof.
  intros Hl s. pose proof (undisturbed_ok _ _ (all_outside_ok n) Hl) as Hok.
  split; [apply Hok|]. split; [apply Hok|]. intros i Hno Hq Hi. by apply takes_free.
Qed.

(** * Instances *)

(** Two harts: the second is at the lock while the first has it, and gets it afterwards. *)
Definition handover : list nat := [0; 0; 1; 0; 0; 1; 1; 0; 1; 1; 1]%nat.
Lemma mutual_exclusion_witness :
  let s := schedule handover (all_outside 2) in
  inside s 1 ∧ word s = -1 ∧
  (∀ i j, inside s i → inside s j → i = j) ∧
  (word s = 0 ∧ (∀ i, ¬ inside s i) ∨ word s = -1 ∧ (∃ i, inside s i)) ∧
  (∀ i, (∀ j, ¬ inside s j) → (∀ j r, places s !! j ≠ Some (Swapped r)) → places s !! i = Some Testing →
    undisturbed [i; i; i] s ∧ inside (schedule [i; i; i] s) i).
Proof.
  split; [reflexivity|]. split; [reflexivity|].
  apply (mutual_exclusion 2 handover).
  repeat split; intros [|[|j]] r Hr; vm_compute in Hr; done.
Defined.

(** Two harts that read the free lock in turns, and then write. *)
Lemma all_get_in_witness :
  (∀ i, (i < 2)%nat → places (schedule [0; 1; 1; 0; 0; 1]%nat (all_outside 2)) !! i = Some (Swapped 0)) ∧
  ∀ i, (i < 2)%nat → inside (schedule ([0; 1; 1; 0; 0; 1] ++ [1; 0])%nat (all_outside 2)) i.
Proof.
  apply (all_get_in 2 [0; 1; 1; 0; 0; 1]%nat [1; 0]%nat); intros [|[|i]] Hi; (reflexivity || lia).
Defined.
