(* ===== verification/SpikeFile.v ===== *)
(** The table of host files: spike_interface/spike_file.c.

    A [spike_file_t*] into the static array [spike_files] is an index of [w_files]; the pointers
    [spike_file_open] returns can also be an encoded error.  The macros of spike_interface/atomic.h
    are sequential here, as on the single hart the kernel runs on. *)
From S2P Require Import Prelude Mem CString Snprintf World SpikeUtils Sample.

Definition MAX_FILES : nat := 128.
Definition MAX_FDS : nat := 128.
Definition INIT_FILE_REF : Z := 3.
Definition ENOMEM : Z := 12.
Definition AT_FDCWD : Z := -100.
Definition O_RDONLY : Z := 0.
Definition O_WRONLY : Z := 1.
Definition O_RDWR : Z := 2.

(** A [spike_file_t*] value: a slot of the table, or [ERR_PTR(x)]. *)
Inductive file_ptr := FilePtr (f : nat) | ErrPtr (x : Z).
(** The slots of the table lie in the kernel image, far below the last page. *)
Definition is_err_value (p : file_ptr) : bool :=
  match p with ErrPtr x => u64 x >=? u64 (-4096) | FilePtr _ => false end.
Definition file_of (p : file_ptr) : option nat :=
  match p with FilePtr f => Some f | ErrPtr _ => None end.

(** The static initialisers of [spike_files] and [spike_fds]. *)
Definition spike_files_init : list spike_file := replicate MAX_FILES (SpikeFile (-1) 0).
Definition spike_fds_init : list (option nat) := replicate MAX_FDS None.

Section file.
Context {H : Type} `{Host H} `{Platform}.

(** ** spike_interface/atomic.h on the two shared objects *)

(** [atomic_add(&f->refcnt, inc)], the old value. *)
Definition atomic_add_refcnt (f : nat) (inc : Z) : M (world H) Z :=
  x ← get_file f;
  set_file f (SpikeFile (kfd x) (u32 (refcnt x + inc)));;
  mret (refcnt x).
(** [atomic_cas(&f->refcnt, cmp, swp)], the old value. *)
Definition atomic_cas_refcnt (f : nat) (cmp swp : Z) : M (world H) Z :=
  x ← get_file f;
  when (refcnt x =? cmp) (set_file f (SpikeFile (kfd x) swp));;
  mret (refcnt x).
Definition atomic_set_refcnt (f : nat) (v : Z) : M (world H) () :=
  x ← get_file f; set_file f (SpikeFile (kfd x) v).
(** [atomic_cas(&spike_fds[i], cmp, swp)], the old value; [i] is an [int] index. *)
Definition atomic_cas_fd (i : Z) (cmp swp : option nat) : M (world H) (option nat) := λ w,
  if i <? 0 then Fault
  else match w_fds w !! Z.to_nat i with
       | Some old =>
           Ret old (if decide (old = cmp) then set_fds (<[Z.to_nat i := swp]> (w_fds w)) w else w)
       | None => Fault
       end.

(** ** The functions of spike_file.c *)
Definition spike_file_decref (f : nat) : M (world H) () :=
  prev ← atomic_add_refcnt f (-1);
  when (prev =? 2)
    (x ← get_file f;
     atomic_set_refcnt f 0;;
     frontend (FeClose (kfd x));;
     mret tt).

Definition spike_file_incref (f : nat) : M (world H) () :=
  prev ← atomic_add_refcnt f 1;
  kassert (prev >? 0) 0 "prev > 0".

Definition spike_file_close (f : option nat) : M (world H) Z :=
  match f with
  | None => mret (-1)
  | Some f =>
      x ← get_file f;
      old ← atomic_cas_fd (kfd x) (Some f) None;
      spike_file_decref f;;
      if decide (old = Some f) then spike_file_decref f;; mret 0
      else mret (-1)
  end.

(** [for (f = spike_files; f < spike_files + MAX_FILES; f++)], [k] slots before the end. *)
Fixpoint get_free_from (k : nat) : M (world H) (option nat) :=
  match k with
  | O => mret None
  | S k' =>
      let f := (MAX_FILES - k)%nat in
      x ← get_file f;
      if refcnt x =? 0 then
        old ← atomic_cas_refcnt f 0 INIT_FILE_REF;
        if old =? 0 then mret (Some f) else get_free_from k'
      else get_free_from k'
  end.
Definition spike_file_get_free : M (world H) (option nat) := get_free_from MAX_FILES.

(** [for (int i = 0; i < MAX_FDS; i++)], [k] descriptors before the end. *)
Fixpoint dup_from (f k : nat) : M (world H) Z :=
  match k with
  | O => mret (-1)
  | S k' =>
      let i := Z.of_nat (MAX_FDS - k) in
      old ← atomic_cas_fd i None (Some f);
      if decide (old = None) then spike_file_incref f;; mret i else dup_from f k'
  end.
Definition spike_file_dup (f : nat) : M (world H) Z := dup_from f MAX_FDS.

Definition set_kfd (f : option nat) (k : Z) : M (world H) () :=
  match f with
  | Some f => x ← get_file f; set_file f (SpikeFile k (refcnt x))
  | None => fault
  end.

(** The three rounds of [for (int i = 0; i < 3; i++)]. *)
Definition init_stream (i : Z) : M (world H) () :=
  f ← spike_file_get_free;
  set_kfd f i;;
  match f with Some f => spike_file_dup f;; mret tt | None => fault end.
Definition spike_file_init : M (world H) () :=
  init_stream 0;; init_stream 1;; init_stream 2.

Definition spike_file_openat (dirfd fn flags mode : Z) : M (world H) file_ptr :=
  f ← spike_file_get_free;
  match f with
  | None => mret (ErrPtr (- ENOMEM))
  | Some f =>
      len ← on_mem (strlen fn);
      let fn_size := len + 1 in
      path ← (λ w, of_option (read_bytes (w_mem w) fn (Z.to_nat fn_size)) w);
      r ← frontend (FeOpenat dirfd path flags mode);
      if fe_ret r >=? 0 then set_kfd (Some f) (s32 (fe_ret r));; mret (FilePtr f)
      else spike_file_decref f;; mret (ErrPtr (fe_ret r))
  end.
Definition spike_file_open (fn flags mode : Z) : M (world H) file_ptr :=
  spike_file_openat AT_FDCWD fn flags mode.

(** [pread] into memory at [buf]; the host stores the bytes it read there. *)
Definition spike_file_pread (f : nat) (buf size offset : Z) : M (world H) Z :=
  x ← get_file f;
  r ← frontend (FePread (kfd x) size offset);
  on_mem (store_block buf (fe_data r));;
  mret (fe_ret r).
(** [pread] into a local object of the caller: the value returned and the bytes stored. *)
Definition spike_file_pread_local (f : nat) (size offset : Z) : M (world H) (Z * list Z) :=
  x ← get_file f;
  r ← frontend (FePread (kfd x) size offset);
  mret (fe_ret r, fe_data r).
Definition spike_file_read (f : nat) (buf size : Z) : M (world H) Z :=
  x ← get_file f;
  r ← frontend (FeRead (kfd x) size);
  on_mem (store_block buf (fe_data r));;
  mret (fe_ret r).
Definition spike_file_lseek (f : nat) (ptr dir : Z) : M (world H) Z :=
  x ← get_file f;
  r ← frontend (FeLseek (kfd x) ptr dir);
  mret (fe_ret r).
End file.

(** * The table *)

(** The slots [spike_file_get_free] can still hand out. *)
Definition is_free (x : spike_file) : bool := refcnt x =? 0.
Definition free_slots (l : list spike_file) : nat := length (List.filter is_free l).

(** The references left by a [spike_file_decref], and what it asks of the host: the count 2
    stands for the last reference of the table. *)
Definition refs_left (n : Z) : Z := if n =? 2 then 0 else u32 (n - 1).
Definition closing (k n : Z) : list fe_call := if n =? 2 then [FeClose k] else [].

(** * Lemmas on the table *)
Section lemmas.
Context {H : Type} `{HH : Host H} `{PP : Platform}.
Implicit Types w : world H.

Lemma get_file_Ret w f x : w_files w !! f = Some x → get_file f w = Ret x w.
Proof. intros Hx. unfold get_file. by rewrite Hx. Qed.
Lemma get_file_inv w f x w' : get_file f w = Ret x w' → w_files w !! f = Some x ∧ w' = w.
Proof. unfold get_file. destruct (w_files w !! f); naive_solver. Qed.

Lemma atomic_add_Ret w f x inc :
  w_files w !! f = Some x →
  atomic_add_refcnt f inc w =
    Ret (refcnt x) (set_files (<[f := SpikeFile (kfd x) (u32 (refcnt x + inc))]> (w_files w)) w).
Proof. intros Hx. unfold atomic_add_refcnt. by mrun (get_file_Ret w f x Hx). Qed.

(** One reference less; the host descriptor is closed when two were left. *)
Lemma spike_file_decref_Ret w f x :
  w_files w !! f = Some x → 0 ≤ refcnt x < 2 ^ 32 →
  spike_file_decref f w =
    if refcnt x =? 2 then
      Ret tt (set_host (host_calls [FeClose (kfd x)] (w_host w))
               (set_files (<[f := SpikeFile (kfd x) 0]> (w_files w)) w))
    else Ret tt (set_files (<[f := SpikeFile (kfd x) (u32 (refcnt x - 1))]> (w_files w)) w).
Proof.
  intros Hx Hr. unfold spike_file_decref. mrun (atomic_add_Ret w f x (-1) Hx).
  assert (f < length (w_files w))%nat as Hf by (by eapply lookup_lt_Some).
  destruct (Z.eqb_spec (refcnt x) 2) as [Heq|Hne]; [|done].
  cbn [when]. rewrite Heq. change (u32 (2 + -1)) with 1.
  set (w1 := set_files _ w). assert (w_files w1 !! f = Some (SpikeFile (kfd x) 1)) as H1.
  { by apply list_lookup_insert_eq. }
  mrun (get_file_Ret _ _ _ H1). unfold atomic_set_refcnt. rewrite bind_assoc.
  mrun (get_file_Ret _ _ _ H1). cbn [kfd refcnt].
  set (w2 := set_files (<[f := SpikeFile (kfd x) 0]> (w_files w)) w).
  assert (set_file f (SpikeFile (kfd x) 0) w1 = Ret tt w2) as Hs.
  { unfold set_file, modify, w1, w2. cbn [w_files set_files]. by rewrite list_insert_insert_eq. }
  mrun Hs. by mrun (frontend_Ret (FeClose (kfd x)) w2).
Qed.

Lemma atomic_cas_fd_Ret w i cmp swp old :
  0 ≤ i → w_fds w !! Z.to_nat i = Some old →
  atomic_cas_fd i cmp swp w =
    Ret old (if decide (old = cmp) then set_fds (<[Z.to_nat i := swp]> (w_fds w)) w else w).
Proof. intros Hi Ho. unfold atomic_cas_fd. by rewrite (proj2 (Z.ltb_ge _ _)), Ho. Qed.

(** The slot the search would take: the first one at or after [MAX_FILES - k] with no
    reference. *)
Definition first_free (l : list spike_file) : option (nat * spike_file) :=
  list_find (λ x, is_free x = true) l.

Lemma get_free_from_Ret k w :
  length (w_files w) = MAX_FILES → (k ≤ MAX_FILES)%nat →
  get_free_from k w =
    match first_free (drop (MAX_FILES - k) (w_files w)) with
    | Some (i, x) =>
        let f := (MAX_FILES - k + i)%nat in
        Ret (Some f) (set_files (<[f := SpikeFile (kfd x) INIT_FILE_REF]> (w_files w)) w)
    | None => Ret None w
    end.
Proof.
  intros Hl. induction k as [|k IH]; intros Hk.
  { rewrite Nat.sub_0_r, drop_ge by lia. done. }
  remember (MAX_FILES - S k)%nat as f eqn:Hf.
  destruct (lookup_lt_is_Some_2 (w_files w) f ltac:(lia)) as [x Hx].
  cbn [get_free_from]. rewrite <- Hf. mrun (get_file_Ret w f x Hx).
  rewrite (drop_S _ _ _ Hx). unfold first_free. cbn [list_find].
  destruct (Z.eqb_spec (refcnt x) 0) as [H0|H0].
  - rewrite decide_True by (unfold is_free; by apply Z.eqb_eq). unfold atomic_cas_refcnt.
    rewrite bind_assoc. mrun (get_file_Ret w f x Hx). rewrite (Nat.add_0_r f). by rewrite H0.
  - rewrite decide_False by (unfold is_free; by rewrite Z.eqb_eq).
    rewrite IH by lia. replace (MAX_FILES - k)%nat with (S f) by lia.
    unfold first_free. destruct (list_find _ _) as [[i y]|]; [|done].
    cbn. by replace (f + S i)%nat with (S (f + i)) by lia.
Qed.
End lemmas.

Section theorems.
Context {H : Type} `{HH : Host H} `{PP : Platform}.
Implicit Types w : world H.

Lemma first_free_Some l i x :
  first_free l = Some (i, x) → l !! i = Some x ∧ refcnt x = 0.
Proof.
  intros (Hx & Hf & _)%list_find_Some. unfold is_free in Hf. split; [done|by apply Z.eqb_eq].
Qed.

Lemma free_slots_insert l i x y :
  l !! i = Some x → refcnt x = 0 → refcnt y ≠ 0 →
  free_slots l = S (free_slots (<[i := y]> l)).
Proof.
  unfold free_slots. revert i. induction l as [|z l IH]; intros i Hi Hx Hy; [done|].
  destruct i as [|i]; simpl in *.
  - injection Hi as ->. unfold is_free. rewrite (proj2 (Z.eqb_eq _ _) Hx).
    by rewrite (proj2 (Z.eqb_neq _ _) Hy).
  - destruct (is_free z); simpl; by rewrite (IH i Hi Hx Hy).
Qed.

(** The three streams: [spike_file_init] leaves descriptors 0 to 2 with the slots 0 to 2,
    which hold four references each. *)
Lemma spike_file_init_spec w :
  w_files w = spike_files_init → w_fds w = spike_fds_init →
  spike_file_init w = Ret tt (set_fds sample_fds (set_files sample_files w)).
Proof. destruct w. simpl. intros -> ->. vm_compute. reflexivity. Qed.

Lemma spike_file_get_free_Ret w :
  length (w_files w) = MAX_FILES →
  spike_file_get_free w =
    match first_free (w_files w) with
    | Some (i, x) =>
        Ret (Some i) (set_files (<[i := SpikeFile (kfd x) INIT_FILE_REF]> (w_files w)) w)
    | None => Ret None w
    end.
Proof.
  intros Hl. unfold spike_file_get_free. rewrite get_free_from_Ret by done.
  rewrite Nat.sub_diag. cbn [drop]. by destruct (first_free _) as [[i x]|].
Qed.

Lemma set_kfd_Ret w f x k :
  w_files w !! f = Some x →
  set_kfd (Some f) k w = Ret tt (set_files (<[f := SpikeFile k (refcnt x)]> (w_files w)) w).
Proof. intros Hx. unfold set_kfd. by mrun (get_file_Ret w f x Hx). Qed.

Lemma set_files_again w h l i y z :
  set_files (<[i := y]> (w_files (set_host h (set_files (<[i := z]> l) w))))
    (set_host h (set_files (<[i := z]> l) w)) = set_files (<[i := y]> l) (set_host h w).
Proof.
  change (set_files (<[i := y]> (<[i := z]> l)) (set_host h w) =
          set_files (<[i := y]> l) (set_host h w)).
  by rewrite list_insert_insert_eq.
Qed.

Lemma set_files_twice w l i y z :
  set_files (<[i := y]> (w_files (set_files (<[i := z]> l) w))) (set_files (<[i := z]> l) w) =
    set_files (<[i := y]> l) w.
Proof.
  change (set_files (<[i := y]> (<[i := z]> l)) w = set_files (<[i := y]> l) w).
  by rewrite list_insert_insert_eq.
Qed.

Definition openat_call (dirfd : Z) (path : list Z) (flags mode : Z) : fe_call :=
  FeOpenat dirfd (path ++ [0]) flags mode.

(** The result of an [openat] that got slot [i]. *)
Lemma spike_file_openat_Ret w dirfd fn path flags mode i x r h :
  length (w_files w) = MAX_FILES → cstr (w_mem w) fn path →
  first_free (w_files w) = Some (i, x) →
  host_call (openat_call dirfd path flags mode) (w_host w) = (r, h) →
  spike_file_openat dirfd fn flags mode w =
    if fe_ret r >=? 0 then
      Ret (FilePtr i)
        (set_files (<[i := SpikeFile (s32 (fe_ret r)) INIT_FILE_REF]> (w_files w)) (set_host h w))
    else
      Ret (ErrPtr (fe_ret r))
        (set_files (<[i := SpikeFile (kfd x) 2]> (w_files w)) (set_host h w)).
Proof.
  intros Hl Hs Hff Hr. destruct (first_free_Some _ _ _ Hff) as [Hx H0].
  assert (i < length (w_files w))%nat as Hi by (by eapply lookup_lt_Some).
  unfold spike_file_openat. pose proof (spike_file_get_free_Ret w Hl) as Hg.
  rewrite Hff in Hg. mrun Hg. cbn beta iota.
  set (w1 := set_files _ w).
  assert ((on_mem (strlen fn) : M (world H) Z) w1 = Ret (Z.of_nat (length path)) w1) as Hlen.
  { apply on_mem_read. by apply strlen_correct. }
  mrun Hlen.     replace (Z.to_nat (Z.of_nat (length path) + 1)) with (length (path ++ [0]))
    by (rewrite length_app; simpl; lia).
  rewrite (bind_Ret _ _ w1 (path ++ [0]) w1) by (by cbn; rewrite (cstr_read_nul _ _ _ Hs)).
  fold (openat_call dirfd path flags mode).
  rewrite (bind_Ret _ _ w1 r (set_host h w1)) by (unfold frontend, w1; cbn [w_host set_files]; by rewrite Hr).
  assert (w_files (set_host h w1) !! i = Some (SpikeFile (kfd x) INIT_FILE_REF)) as H1.
  { by apply list_lookup_insert_eq. }
  destruct (fe_ret r >=? 0).
  - mrun (set_kfd_Ret _ _ _ (s32 (fe_ret r)) H1). unfold w1. by rewrite set_files_again.
  - rewrite (bind_Ret _ _ _ _ _ (spike_file_decref_Ret _ _ _ H1 ltac:(split; by vm_compute))).
    unfold w1. cbn [refcnt kfd Z.eqb INIT_FILE_REF]. change (u32 (INIT_FILE_REF - 1)) with 2.
    by rewrite set_files_again.
Qed.

(** C36. [spike_file_openat] gives the first free slot to the file the host opened; when the
    host refuses, it returns the host's error.  In both cases the slot it took stays taken: a
    failed open leaves two references on it, so every call uses up one slot of the table. *)
Theorem spike_file_openat_spec w dirfd fn path flags mode i x r h :
  length (w_files w) = MAX_FILES → cstr (w_mem w) fn path →
  first_free (w_files w) = Some (i, x) →
  host_call (openat_call dirfd path flags mode) (w_host w) = (r, h) →
  ∃ p w', spike_file_openat dirfd fn flags mode w = Ret p w' ∧
    w_host w' = h ∧ w_mem w' = w_mem w ∧ w_fds w' = w_fds w ∧
    free_slots (w_files w) = S (free_slots (w_files w')) ∧
    (∀ j, j ≠ i → w_files w' !! j = w_files w !! j) ∧
    if 0 <=? fe_ret r
    then p = FilePtr i ∧ w_files w' !! i = Some (SpikeFile (s32 (fe_ret r)) 3)
    else p = ErrPtr (fe_ret r) ∧ w_files w' !! i = Some (SpikeFile (kfd x) 2).
Proof.
  intros Hl Hs Hff Hr. destruct (first_free_Some _ _ _ Hff) as [Hx H0].
  assert (i < length (w_files w))%nat as Hi by (by eapply lookup_lt_Some).
  rewrite (spike_file_openat_Ret w dirfd fn path flags mode i x r h Hl Hs Hff Hr).
  rewrite Z.geb_leb. destruct (0 <=? fe_ret r);
    (eexists _, _; split; [reflexivity|]; do 3 (split; [done|]); split;
       [by apply (free_slots_insert _ _ _ _ Hx H0)|]; split;
       [intros j Hj; by apply list_lookup_insert_ne|];
       split; [done|]; by apply list_lookup_insert_eq).
Qed.

Lemma spike_file_close_Ret w f k n old :
  w_files w !! f = Some (SpikeFile k n) → 3 ≤ n < 2 ^ 32 →
  0 ≤ k → w_fds w !! Z.to_nat k = Some old →
  spike_file_close (Some f) w =
    if decide (old = Some f) then
      let w' := set_fds (<[Z.to_nat k := None]> (w_fds w)) w in
      if n =? 3
      then Ret 0 (set_files (<[f := SpikeFile k 0]> (w_files w))
                    (set_host (host_calls [FeClose k] (w_host w)) w'))
      else Ret 0 (set_files (<[f := SpikeFile k (n - 2)]> (w_files w)) w')
    else Ret (-1) (set_files (<[f := SpikeFile k (n - 1)]> (w_files w)) w).
Proof.
  intros Hf Hn Hk Ho. assert (f < length (w_files w))%nat as Hi by (by eapply lookup_lt_Some).
  unfold spike_file_close. mrun (get_file_Ret w f _ Hf). cbn [kfd].
  mrun (atomic_cas_fd_Ret w k (Some f) None old Hk Ho).
  set (w1 := if decide (old = Some f) then set_fds (<[Z.to_nat k := None]> (w_fds w)) w else w).
  assert (w_files w1 = w_files w) as Hw1 by (unfold w1; by case_decide).
  assert (spike_file_decref f w1 = Ret tt (set_files (<[f := SpikeFile k (n - 1)]> (w_files w)) w1))
    as Hd1.
  { rewrite (spike_file_decref_Ret w1 f (SpikeFile k n)) by (rewrite ?Hw1; done || (simpl; lia)).
    cbn [refcnt kfd]. rewrite (proj2 (Z.eqb_neq _ _)), u32_id by lia. by rewrite Hw1. }
  mrun Hd1. unfold w1. clear Hd1 Hw1. case_decide as Hold; [|done].
  set (w2 := set_files _ _).
  assert (w_files w2 !! f = Some (SpikeFile k (n - 1))) as Hw2 by by apply list_lookup_insert_eq.
  pose proof (spike_file_decref_Ret w2 f _ Hw2 ltac:(simpl; lia)) as Hd2. cbn [refcnt kfd] in Hd2.
  assert (∀ y, <[f := y]> (w_files w2) = <[f := y]> (w_files w)) as Hins
    by (intros y; apply list_insert_insert_eq).
  rewrite Hins in Hd2. destruct (Z.eqb_spec n 3) as [->|Hne].
  - by mrun Hd2.
  - rewrite (proj2 (Z.eqb_neq _ _)), u32_id, Hins in Hd2 by lia. mrun Hd2.
    by replace (n - 1 - 1) with (n - 2) by lia.
Qed.

Lemma spike_file_decref_left w f k n :
  w_files w !! f = Some (SpikeFile k n) → 0 ≤ n < 2 ^ 32 →
  spike_file_decref f w =
    Ret tt (set_host (host_calls (closing k n) (w_host w))
              (set_files (<[f := SpikeFile k (refs_left n)]> (w_files w)) w)).
Proof.
  intros Hf Hn. rewrite (spike_file_decref_Ret w f _ Hf Hn). cbn [kfd refcnt].
  unfold closing, refs_left. by destruct (n =? 2).
Qed.
Lemma refs_left_range n : 0 ≤ refs_left n < 2 ^ 32.
Proof. unfold refs_left. destruct (n =? 2); [lia|apply u32_range]. Qed.

Lemma spike_file_incref_Ret w f x :
  w_files w !! f = Some x → 0 < refcnt x →
  spike_file_incref f w =
    Ret tt (set_files (<[f := SpikeFile (kfd x) (u32 (refcnt x + 1))]> (w_files w)) w).
Proof.
  intros Hx Hr. unfold spike_file_incref. mrun (atomic_add_Ret w f x 1 Hx).
  unfold kassert. by rewrite Z.gtb_ltb, (proj2 (Z.ltb_lt _ _)) by lia.
Qed.

(** The descriptor the search of [spike_file_dup] takes: the first one at or after
    [MAX_FDS - k] that is null. *)
Definition first_null (l : list (option nat)) : option (nat * option nat) :=
  list_find (λ o, o = None) l.
Lemma dup_from_Ret w f x k :
  length (w_fds w) = MAX_FDS → (k ≤ MAX_FDS)%nat →
  w_files w !! f = Some x → 0 < refcnt x →
  dup_from f k w =
    match first_null (drop (MAX_FDS - k) (w_fds w)) with
    | Some (i, _) =>
        let d := (MAX_FDS - k + i)%nat in
        Ret (Z.of_nat d) (set_files (<[f := SpikeFile (kfd x) (u32 (refcnt x + 1))]> (w_files w))
                            (set_fds (<[d := Some f]> (w_fds w)) w))
    | None => Ret (-1) w
    end.
Proof.
  intros Hl Hk Hx Hr. induction k as [|k IH]; [by rewrite Nat.sub_0_r, drop_ge by lia|].
  remember (MAX_FDS - S k)%nat as d eqn:Hd.
  destruct (lookup_lt_is_Some_2 (w_fds w) d ltac:(lia)) as [o Ho].
  cbn [dup_from]. rewrite <- Hd. rewrite (drop_S _ _ _ Ho). unfold first_null. cbn [list_find].
  pose proof (atomic_cas_fd_Ret w (Z.of_nat d) None (Some f) o ltac:(lia) ltac:(by rewrite Nat2Z.id))
    as Hc.
  rewrite Nat2Z.id in Hc. mrun Hc. case_decide as Hn.
  - rewrite !decide_True, (Nat.add_0_r d) by done. by mrun (spike_file_incref_Ret (set_fds (<[d := Some f]> (w_fds w)) w) f x Hx Hr).
  - rewrite !decide_False, IH by (done || lia). replace (MAX_FDS - k)%nat with (S d) by lia.
    unfold first_null. destruct (list_find _ _) as [[i y]|]; [|done].
    cbn. by replace (d + S i)%nat with (S (d + i)) by lia.
Qed.

(** C35. The references of a file.  [spike_file_dup] enters the file at the first null
    descriptor, which it returns, and counts one reference more; with no null descriptor it
    returns -1 and changes nothing.  [spike_file_close] drops a reference and, when the
    descriptor table maps the file's {i host} descriptor number to it, clears that entry, drops
    a second one and returns 0; otherwise it returns -1 and leaves the descriptors alone.
    Dropping the count from 2 resets it to 0 and is the only time the host is told to close
    its descriptor; the count wraps around as a [uint32]. *)
Theorem spike_file_refs_spec w f k n old :
  w_files w !! f = Some (SpikeFile k n) → 1 ≤ n < 2 ^ 32 →
  length (w_fds w) = MAX_FDS → 0 ≤ k → w_fds w !! Z.to_nat k = Some old →
  spike_file_dup f w =
    match first_null (w_fds w) with
    | Some (i, _) =>
        Ret (Z.of_nat i) (set_files (<[f := SpikeFile k (u32 (n + 1))]> (w_files w))
                            (set_fds (<[i := Some f]> (w_fds w)) w))
    | None => Ret (-1) w
    end ∧
  spike_file_close (Some f) w =
    if decide (old = Some f) then
      Ret 0 (set_host (host_calls (closing k n ++ closing k (refs_left n)) (w_host w))
               (set_files (<[f := SpikeFile k (refs_left (refs_left n))]> (w_files w))
                  (set_fds (<[Z.to_nat k := None]> (w_fds w)) w)))
    else
      Ret (-1) (set_host (host_calls (closing k n) (w_host w))
                  (set_files (<[f := SpikeFile k (refs_left n)]> (w_files w)) w)).
Proof.
  intros Hf Hn Hl Hk Ho. assert (f < length (w_files w))%nat as Hi by (by eapply lookup_lt_Some).
  split.
  { unfold spike_file_dup. rewrite (dup_from_Ret w f _ MAX_FDS Hl ltac:(done) Hf) by (simpl; lia).
    rewrite Nat.sub_diag. cbn [drop kfd refcnt]. by destruct (first_null _) as [[i o]|]. }
  unfold spike_file_close. mrun (get_file_Ret w f _ Hf). cbn [kfd].
  mrun (atomic_cas_fd_Ret w k (Some f) None old Hk Ho). case_decide; [|].
  - set (w1 := set_fds _ w). mrun (spike_file_decref_left w1 f k n Hf ltac:(lia)).
    set (w2 := set_host _ _).
    assert (w_files w2 !! f = Some (SpikeFile k (refs_left n))) as Hw2 by by apply list_lookup_insert_eq.
    mrun (spike_file_decref_left w2 f k _ Hw2 (refs_left_range n)).
    unfold w2. cbn [w_host w_files set_host set_files]. by rewrite host_calls_app, list_insert_insert_eq.
  - by mrun (spike_file_decref_left w f k n Hf ltac:(lia)).
Qed.

(** A file opened by [spike_file_openat] is never closed: unless the descriptor table
    already maps the host's number to its slot, the [spike_file_close] that follows returns -1,
    asks nothing of the host and leaves two references on the slot. *)
Theorem open_close_leaks w dirfd fn path flags mode i x k h old :
  length (w_files w) = MAX_FILES → cstr (w_mem w) fn path →
  first_free (w_files w) = Some (i, x) →
  host_call (openat_call dirfd path flags mode) (w_host w) = (k, h) →
  0 ≤ fe_ret k < 2 ^ 31 → w_fds w !! Z.to_nat (fe_ret k) = Some old → old ≠ Some i →
  (spike_file_openat dirfd fn flags mode ≫= λ p, spike_file_close (file_of p)) w =
    Ret (-1) (set_files (<[i := SpikeFile (fe_ret k) 2]> (w_files w)) (set_host h w)).
Proof.
  intros Hl Hs Hff Hr Hk Ho Hne. destruct (first_free_Some _ _ _ Hff) as [Hx _].
  assert (i < length (w_files w))%nat as Hi by (by eapply lookup_lt_Some).
  pose proof (spike_file_openat_Ret w dirfd fn path flags mode i x k h Hl Hs Hff Hr) as He.
  rewrite Z.geb_leb, (proj2 (Z.leb_le _ _)), s32_id in He by lia. mrun He. cbn [file_of].
  set (w1 := set_files _ _).
  rewrite (spike_file_close_Ret w1 i (fe_ret k) INIT_FILE_REF old)
    by (first [by apply list_lookup_insert_eq|done|unfold INIT_FILE_REF; lia]).
  rewrite decide_False by done. unfold w1. by rewrite set_files_twice.
Qed.

End theorems.

(** * Instances *)
Import SampleMachine.

(** A memory with the path "a.elf" at 4096, and a machine that opens it. *)
Definition path_mem : mem := write_bytes ∅ 4096 (bytes "a.elf" ++ [0]).
Definition path_world : world sample_host := sample_world path_mem [].
Definition path_call : fe_call := openat_call AT_FDCWD (bytes "a.elf") 0 0.

Lemma spike_file_openat_spec_witness :
  ∃ p w', spike_file_openat AT_FDCWD 4096 0 0 path_world = Ret p w' ∧
    w_host w' = SampleHost [path_call] [] ∧ w_mem w' = path_mem ∧ w_fds w' = sample_fds ∧
    free_slots sample_files = S (free_slots (w_files w')) ∧
    (∀ j, j ≠ 3%nat → w_files w' !! j = sample_files !! j) ∧
    (if 0 <=? fe_ret (FeReply 3 []) then p = FilePtr 3 ∧ w_files w' !! 3%nat = Some (SpikeFile (s32 3) 3)
     else p = ErrPtr 3 ∧ w_files w' !! 3%nat = Some (SpikeFile (kfd (SpikeFile (-1) 0)) 2)).
Proof.
  apply (spike_file_openat_spec path_world AT_FDCWD 4096 (bytes "a.elf") 0 0 3 (SpikeFile (-1) 0)
           (FeReply 3 []) (SampleHost [path_call] [])); [by vm_compute| |by vm_compute|by vm_compute].
  vm_compute. repeat split; discriminate.
Defined.

(** Standard output, whose four references are those of the start, duplicated and closed. *)
Lemma spike_file_refs_spec_witness :
  spike_file_dup 1 (sample_world ∅ []) =
    Ret 3 (set_files (<[1%nat := SpikeFile 1 5]> sample_files)
             (set_fds (<[3%nat := Some 1%nat]> sample_fds) (sample_world ∅ []))) ∧
  spike_file_close (Some 1%nat) (sample_world ∅ []) =
    Ret 0 (set_files (<[1%nat := SpikeFile 1 2]> sample_files)
             (set_fds (<[1%nat := None]> sample_fds) (sample_world ∅ []))).
Proof.
  apply (spike_file_refs_spec (sample_world ∅ []) 1 1 4 (Some 1%nat)); [done|lia|done|lia|done].
Defined.

Lemma open_close_leaks_witness :
  (spike_file_openat AT_FDCWD 4096 0 0 ≫= λ p, spike_file_close (file_of p)) path_world =
    Ret (-1) (set_files (<[3%nat := SpikeFile 3 2]> sample_files)
                (set_host (SampleHost [path_call] []) path_world)).
Proof.
  apply (open_close_leaks path_world AT_FDCWD 4096 (bytes "a.elf") 0 0 3 (SpikeFile (-1) 0)
           (FeReply 3 []) (SampleHost [path_call] []) None);
    [by vm_compute| |by vm_compute|by vm_compute|simpl; lia|by vm_compute|done].
  vm_compute. repeat split; discriminate.
Defined.
