(* ===== verification/SpikeStat.v ===== *)
(** The status of a host file: [copy_stat] and [spike_file_stat] of spike_interface/spike_file.c.

    [struct frontend_stat] is the one of spike_file.h.  [struct stat] is the C library's, which is
    not part of the repository: where its fields lie, and how wide they are, is the class
    [StatLayout]. *)
From S2P Require Import Prelude Mem World Sample SpikeUtils SpikeFile.

(** The fields both structures have, in the order they are copied. *)
Inductive stat_field :=
| St_dev | St_ino | St_mode | St_nlink | St_uid | St_gid | St_rdev | St_size | St_blksize | St_blocks
| St_atime | St_mtime | St_ctime.
#[export] Instance stat_field_eq_dec : EqDecision stat_field.
Proof. solve_decision. Defined.
Definition stat_fields : list stat_field :=
  [St_dev; St_ino; St_mode; St_nlink; St_uid; St_gid; St_rdev; St_size; St_blksize; St_blocks;
   St_atime; St_mtime; St_ctime].

(** Offset and size of a field of [struct frontend_stat]. *)
Definition frontend_stat (f : stat_field) : nat * nat :=
  match f with
  | St_dev => (0, 8) | St_ino => (8, 8) | St_mode => (16, 4) | St_nlink => (20, 4) | St_uid => (24, 4)
  | St_gid => (28, 4) | St_rdev => (32, 8) | St_size => (48, 8) | St_blksize => (56, 4)
  | St_blocks => (64, 8) | St_atime => (72, 8) | St_mtime => (88, 8) | St_ctime => (104, 8)
  end%nat.
Definition sizeof_frontend_stat : nat := 128.
Definition fe_field (src : list Z) (f : stat_field) : Z :=
  let '(off, n) := frontend_stat f in le_val (take n (drop off src)).

(** Offset and size of a field of the C library's [struct stat]. *)
Class StatLayout := stat_at : stat_field → Z * nat.

Section stat.
Context {H : Type} `{HH : Host H} `{PP : Platform} `{SL : StatLayout}.

Fixpoint copy_fields (fs : list stat_field) (dest : Z) (src : list Z) : M (world H) () :=
  match fs with
  | [] => mret tt
  | f :: fs =>
      on_mem (store_le (stat_at f).2 (dest + (stat_at f).1) (fe_field src f));; copy_fields fs dest src
  end.
Definition copy_stat (dest : Z) (src : list Z) : M (world H) () := copy_fields stat_fields dest src.

(** [garbage] is what the local [buf] holds before the host fills it in. *)
Definition spike_file_stat (garbage : list Z) (f : nat) (s : Z) : M (world H) Z :=
  x ← get_file f;
  r ← frontend (FeFstat (kfd x));
  let buf := take sizeof_frontend_stat (map u8 (fe_data r) ++ drop (length (fe_data r)) garbage) in
  copy_stat s buf;;
  mret (s32 (fe_ret r)).
End stat.

(** The bytes of a field do not belong to another one. *)
Class StatFields `{StatLayout} : Prop := {
  stat_apart f g : f ≠ g →
    (stat_at f).1 + Z.of_nat (stat_at f).2 ≤ (stat_at g).1 ∨
    (stat_at g).1 + Z.of_nat (stat_at g).2 ≤ (stat_at f).1;
}.
Definition stat_mapped `{StatLayout} (m : mem) (dest : Z) : Prop :=
  ∀ f, mapped m (dest + (stat_at f).1) (stat_at f).2.
(** An address of none of the fields [fs]. *)
Definition off_fields `{StatLayout} (fs : list stat_field) (dest a : Z) : Prop :=
  ∀ f, f ∈ fs → a < dest + (stat_at f).1 ∨ dest + (stat_at f).1 + Z.of_nat (stat_at f).2 ≤ a.

Section specs.
Context {H : Type} `{HH : Host H} `{PP : Platform} `{SL : StatLayout}.
Implicit Types w : world H.

Fixpoint put_fields (fs : list stat_field) (dest : Z) (src : list Z) (m : mem) : mem :=
  match fs with
  | [] => m
  | f :: fs =>
      put_fields fs dest src
        (write_bytes m (dest + (stat_at f).1) (le_bytes (stat_at f).2 (fe_field src f)))
  end.

Lemma copy_fields_Ret fs dest src w :
  stat_mapped (w_mem w) dest →
  copy_fields fs dest src w = Ret tt (set_mem (put_fields fs dest src (w_mem w)) w).
Proof.
  revert w. induction fs as [|f fs IH]; intros w Hm; cbn [copy_fields put_fields].
  - by rewrite set_mem_id.
  - pose proof (store_le_mapped _ _ (fe_field src f) _ (Hm f)) as Hst.
    mrun (on_mem_Ret _ w tt _ Hst). rewrite IH; [done|].
    intros g. cbn [w_mem set_mem]. by apply mapped_write_bytes.
Qed.

Lemma put_fields_off fs dest src m a :
  off_fields fs dest a → put_fields fs dest src m !! a = m !! a.
Proof.
  revert m. induction fs as [|f fs IH]; intros m Ha; cbn [put_fields]; [done|].
  rewrite IH by (intros g Hg; apply Ha; by right).
  apply lookup_write_bytes_ne. rewrite length_le_bytes.
  pose proof (Ha f ltac:(by left)). lia.
Qed.

Lemma put_fields_at `{!StatFields} fs dest src m f :
  NoDup fs → f ∈ fs →
  read_bytes (put_fields fs dest src m) (dest + (stat_at f).1) (stat_at f).2 =
    Some (le_bytes (stat_at f).2 (fe_field src f)).
Proof.
  intros Hnd. revert m. induction Hnd as [|g fs Hg Hnd IH]; intros m Hin; [by apply elem_of_nil in Hin|].
  cbn [put_fields]. apply elem_of_cons in Hin as [->|Hin]; [|by apply IH].
  set (m1 := write_bytes m _ _).
  rewrite (read_bytes_ext m1).
  - pose proof (read_write_bytes m (dest + (stat_at g).1) (le_bytes (stat_at g).2 (fe_field src g))) as Hr.
    by rewrite length_le_bytes in Hr.
  - intros i Hi. apply put_fields_off. intros h Hh.
    assert (g ≠ h) as Hne by (by intros ->). destruct (stat_apart g h Hne); lia.
Qed.

Lemma spike_file_stat_Ret `{!StatFields} garbage f s w x :
  w_files w !! f = Some x → stat_mapped (w_mem w) s →
  let r := (host_call (FeFstat (kfd x)) (w_host w)).1 in
  let buf := take sizeof_frontend_stat (map u8 (fe_data r) ++ drop (length (fe_data r)) garbage) in
  ∃ m, spike_file_stat garbage f s w =
      Ret (s32 (fe_ret r)) (set_mem m (set_host (host_calls [FeFstat (kfd x)] (w_host w)) w)) ∧
    (∀ g, le_val <$> read_bytes m (s + (stat_at g).1) (stat_at g).2 =
      Some (fe_field buf g `mod` 256 ^ Z.of_nat (stat_at g).2)) ∧
    (∀ a, off_fields stat_fields s a → m !! a = w_mem w !! a).
Proof.
  intros Hf Hm r buf. exists (put_fields stat_fields s buf (w_mem w)). split_and!.
  - unfold spike_file_stat. rewrite (bind_Ret _ _ w x w) by (unfold get_file; by rewrite Hf).
    mrun (frontend_Ret (FeFstat (kfd x)) w). fold r. cbv zeta. fold buf.
    set (w1 := set_host _ w). by mrun (copy_fields_Ret stat_fields s buf w1 Hm).
  - intros g. rewrite put_fields_at.
    + cbn [fmap option_fmap option_map]. by rewrite le_val_le_bytes.
    + by apply (bool_decide_unpack _).
    + destruct g; by apply (bool_decide_unpack _).
  - intros a Ha. by apply put_fields_off.
Qed.

(** [spike_file_stat] asks the host for the status of the file and stores each field of the
    answer in the caller's [struct stat], truncated to the width the C library gives it, whatever
    the layout of that structure; it returns the host's result as an [int], and changes no other
    memory.  (It does not look at the result: after an error the fields hold what was on the
    stack.) *)
Theorem spike_file_stat_spec `{!StatFields} garbage f s w x :
  w_files w !! f = Some x → stat_mapped (w_mem w) s →
  let r := (host_call (FeFstat (kfd x)) (w_host w)).1 in
  let buf := take sizeof_frontend_stat (map u8 (fe_data r) ++ drop (length (fe_data r)) garbage) in
  ∃ m, spike_file_stat garbage f s w =
      Ret (s32 (fe_ret r)) (set_mem m (set_host (host_calls [FeFstat (kfd x)] (w_host w)) w)) ∧
    (∀ g, le_val <$> read_bytes m (s + (stat_at g).1) (stat_at g).2 =
      Some (fe_field buf g `mod` 256 ^ Z.of_nat (stat_at g).2)) ∧
    (∀ a, off_fields stat_fields s a → m !! a = w_mem w !! a).
Proof. apply spike_file_stat_Ret. Qed.
End specs.

(** * Instances *)
Import SampleMachine.

(** A [struct stat] with 8-byte fields in the order of the list, but a 4-byte mode. *)
#[export] Instance sample_stat : StatLayout := λ f,
  match f with
  | St_dev => (0, 8%nat) | St_ino => (8, 8%nat) | St_mode => (16, 4%nat) | St_nlink => (20, 4%nat)
  | St_uid => (24, 4%nat) | St_gid => (28, 4%nat) | St_rdev => (32, 8%nat) | St_size => (40, 8%nat)
  | St_blksize => (48, 8%nat) | St_blocks => (56, 8%nat) | St_atime => (64, 8%nat)
  | St_mtime => (72, 8%nat) | St_ctime => (80, 8%nat)
  end.
#[export] Instance sample_stat_fields : StatFields.
Proof. split. intros [] []; simpl; intros Hne; try (by destruct Hne); lia. Qed.
(** A host that knows the size of the file. *)
Definition stat_host : Host sample_host := λ c h,
  match c with
  | FeFstat _ => (FeReply 0 (replicate 48 1 ++ le_bytes 8 4096 ++ replicate 72 2), h)
  | _ => host c h
  end.
Definition stat_world : world sample_host := sample_world (write_bytes ∅ 4096 (replicate 88 0)) [].

Lemma spike_file_stat_spec_witness :
  let hst := stat_host in
  let r := (host_call (FeFstat 1) (w_host stat_world)).1 in
  let buf := take sizeof_frontend_stat (map u8 (fe_data r) ++ drop (length (fe_data r)) (replicate 128 9)) in
  ∃ m, spike_file_stat (HH := stat_host) (replicate 128 9) 1 4096 stat_world =
      Ret 0 (set_mem m (set_host (host_calls [FeFstat 1] (w_host stat_world)) stat_world)) ∧
    (∀ g, le_val <$> read_bytes m (4096 + (stat_at g).1) (stat_at g).2 =
      Some (fe_field buf g `mod` 256 ^ Z.of_nat (stat_at g).2)) ∧
    (∀ a, off_fields stat_fields 4096 a → m !! a = w_mem stat_world !! a).
Proof.
  apply (spike_file_stat_spec (HH := stat_host) (replicate 128 9) 1 4096 stat_world (SpikeFile 1 4));
    [reflexivity|].
  intros f. apply (mapped_sub _ 4096 88); [destruct f; simpl; lia|destruct f; simpl; lia|].
  change 88%nat with (length (replicate 88 0)). apply mapped_written.
Defined.
