(* ===== verification/Asm.v ===== *)
(** The assembly of the kernel: util/load_store.S, kernel/strap_vector.S,
    kernel/machine/mtrap_vector.S and mentry.S, with [struct trapframe] as the memory they work on.

    The instructions these files use are interpreted one by one over the general registers and
    the [world]; a jump, [sret] and [mret] end a fragment and yield where control goes.  Accesses
    are not checked for alignment: the frames are aligned. *)
From S2P Require Import Prelude Mem World Sample.

(** * Instructions *)
Inductive instr :=
| Sd (rs : reg) (off : Z) (rb : reg)
| Ld (rd : reg) (off : Z) (rb : reg)
| Addi (rd rs : reg) (imm : Z)
| Add (rd rs1 rs2 : reg)
| Mul (rd rs1 rs2 : reg)
| Li (rd : reg) (imm : Z)
| Csrrw (rd : reg) (c : csr) (rs : reg)
| Csrr (rd : reg) (c : csr)
| Csrw (c : csr) (rs : reg).

(** A hart: the general registers and everything else. *)
Record cpu {H : Type} := Cpu { c_regs : reg → Z; c_world : world H }.
Arguments cpu H : clear implicits.

Definition upd (f : reg → Z) (r : reg) (v : Z) : reg → Z :=
  λ r', if decide (r' = r) then v else f r'.

#[export] Program Instance cpu_world {H} : Lens (cpu H) (world H) :=
  {| lget := c_world; lset w c := Cpu _ (c_regs c) w |}.
Next Obligation. done. Qed.
Next Obligation. by intros H []. Qed.
Next Obligation. done. Qed.

Section exec.
Context {H : Type} `{PP : Platform}.

Definition get_reg (r : reg) : M (cpu H) Z := gets (λ c, c_regs c r).
Definition set_reg (r : reg) (v : Z) : M (cpu H) () :=
  modify (λ c, Cpu _ (upd (c_regs c) r (u64 v)) (c_world c)).

(** [read_sp], [read_tp] and [write_tp] of kernel/riscv.h. *)
Definition read_sp : M (cpu H) Z := get_reg Sp.
Definition read_tp : M (cpu H) Z := get_reg Tp.
Definition write_tp (x : Z) : M (cpu H) () := set_reg Tp x.

Definition exec (i : instr) : M (cpu H) () :=
  match i with
  | Sd rs off rb =>
      b ← get_reg rb; v ← get_reg rs; zoom (on_mem (store64 (u64 (b + off)) v) : M (world H) ())
  | Ld rd off rb =>
      b ← get_reg rb; v ← zoom (on_mem (load64 (u64 (b + off))) : M (world H) Z); set_reg rd v
  | Addi rd rs imm => v ← get_reg rs; set_reg rd (v + imm)
  | Add rd rs1 rs2 => a ← get_reg rs1; b ← get_reg rs2; set_reg rd (a + b)
  | Mul rd rs1 rs2 => a ← get_reg rs1; b ← get_reg rs2; set_reg rd (a * b)
  | Li rd imm => set_reg rd imm
  | Csrrw rd c rs =>
      v ← get_reg rs; old ← zoom (read_csr c : M (world H) Z);
      zoom (write_csr c v : M (world H) ());; set_reg rd old
  | Csrr rd c => v ← zoom (read_csr c : M (world H) Z); set_reg rd v
  | Csrw c rs => v ← get_reg rs; zoom (write_csr c v : M (world H) ())
  end.

Fixpoint exec_all (l : list instr) : M (cpu H) () :=
  match l with [] => mret tt | i :: l' => exec i;; exec_all l' end.

(** ** util/load_store.S *)
Definition store_all_registers : list instr :=
  [Sd Ra 0 T6; Sd Sp 8 T6; Sd Gp 16 T6; Sd Tp 24 T6; Sd T0 32 T6; Sd T1 40 T6; Sd T2 48 T6;
   Sd S0 56 T6; Sd S1 64 T6; Sd A0 72 T6; Sd A1 80 T6; Sd A2 88 T6; Sd A3 96 T6; Sd A4 104 T6;
   Sd A5 112 T6; Sd A6 120 T6; Sd A7 128 T6; Sd S2 136 T6; Sd S3 144 T6; Sd S4 152 T6;
   Sd S5 160 T6; Sd S6 168 T6; Sd S7 176 T6; Sd S8 184 T6; Sd S9 192 T6; Sd S10 200 T6;
   Sd S11 208 T6; Sd T3 216 T6; Sd T4 224 T6; Sd T5 232 T6; Sd T6 240 T6].
Definition restore_all_registers : list instr :=
  [Ld Ra 0 T6; Ld Sp 8 T6; Ld Gp 16 T6; Ld Tp 24 T6; Ld T0 32 T6; Ld T1 40 T6; Ld T2 48 T6;
   Ld S0 56 T6; Ld S1 64 T6; Ld A0 72 T6; Ld A1 80 T6; Ld A2 88 T6; Ld A3 96 T6; Ld A4 104 T6;
   Ld A5 112 T6; Ld A6 120 T6; Ld A7 128 T6; Ld S2 136 T6; Ld S3 144 T6; Ld S4 152 T6;
   Ld S5 160 T6; Ld S6 168 T6; Ld S7 176 T6; Ld S8 184 T6; Ld S9 192 T6; Ld S10 200 T6;
   Ld S11 208 T6; Ld T3 216 T6; Ld T4 224 T6; Ld T5 232 T6; Ld T6 240 T6].

(** ** kernel/strap_vector.S *)

(** Up to [jr t0]; yields the address jumped to. *)
Definition smode_trap_vector : M (cpu H) Z :=
  exec (Csrrw A0 sscratch A0);;
  exec (Addi T6 A0 0);;
  exec_all store_all_registers;;
  exec (Csrr T0 sscratch);;
  exec (Sd T0 72 A0);;
  exec (Ld Sp 248 A0);;
  exec (Ld T0 256 A0);;
  get_reg T0.

(** Where [sret] goes: the mode in [sstatus.SPP], the address in [sepc]. *)
Inductive mode := UserMode | SupervisorMode | MachineMode.
#[export] Instance mode_eq_dec : EqDecision mode.
Proof. solve_decision. Defined.
Definition sret_target (w : world H) : mode * Z :=
  (if Z.land (w_csr w sstatus) SSTATUS_SPP =? 0 then UserMode else SupervisorMode, w_csr w sepc).
Definition sret : M (cpu H) (mode * Z) := gets (λ c, sret_target (c_world c)).

(** The parameter is in [a0]. *)
Definition return_to_user : M (cpu H) (mode * Z) :=
  exec (Csrw sscratch A0);;
  exec (Addi T6 A0 0);;
  exec_all restore_all_registers;;
  sret.

(** ** kernel/machine/mtrap_vector.S *)

(** Where [mret] goes: the mode in [mstatus.MPP], the address in [mepc]. *)
Definition mret_target (w : world H) : mode * Z :=
  (match Z.shiftr (Z.land (w_csr w mstatus) MSTATUS_MPP_MASK) 11 with
   | 0 => UserMode | 1 => SupervisorMode | _ => MachineMode end, w_csr w mepc).
(** What it makes of [mstatus]: MPIE goes to MIE and is set, MPP becomes the user mode, and MPRV is
    cleared unless the machine stays in machine mode. *)
Definition mret_mstatus (x : Z) : Z :=
  let y := if Z.testbit x 7 then Z.setbit x 3 else Z.clearbit x 3 in
  let y := if Z.shiftr (Z.land x MSTATUS_MPP_MASK) 11 =? 3 then y else Z.clearbit y 17 in
  Z.setbit (Z.clearbit (Z.clearbit y 11) 12) 7.
Definition mret_effect (w : world H) : world H :=
  set_csr (λ c, if decide (c = mstatus) then mret_mstatus (w_csr w mstatus) else w_csr w c) w.
(** The [mret] at the end of [mtrapvec], of which the target is all that is modelled: the entry of a
    trap has saved MIE and the mode in MPIE and MPP, this [mret] puts them back, and no code reads
    MIE or MPIE in between.  The [mret] that ends the boot, which no trap precedes, is in
    Minit.v with its effect. *)
Definition mret_instr : M (cpu H) (mode * Z) := gets (λ c, mret_target (c_world c)).

(** [handle_mtrap] is C code; [clobbered] is what it leaves in the registers, which the calling
    convention does not fix. *)
Definition mtrapvec (stack0 : Z) (handle_mtrap : M (world H) ()) (clobbered : reg → Z) :
    M (cpu H) (mode * Z) :=
  exec (Csrrw A0 mscratch A0);;
  exec (Addi T6 A0 0);;
  exec_all store_all_registers;;
  exec (Csrr T0 mscratch);;
  exec (Sd T0 72 A0);;
  exec (Li Sp stack0);;
  exec (Li A3 4096);;
  exec (Csrr A4 mhartid);;
  exec (Addi A4 A4 1);;
  exec (Mul A3 A3 A4);;
  exec (Add Sp Sp A3);;
  exec (Csrw mscratch A0);;
  zoom handle_mtrap;;
  modify (λ c, Cpu _ clobbered (c_world c));;
  exec (Csrr T6 mscratch);;
  exec_all restore_all_registers;;
  mret_instr.

(** ** kernel/machine/mentry.S: yields the arguments of [m_start] and its stack pointer *)
Definition mentry (stack0 : Z) : M (cpu H) (Z * Z * Z) :=
  zoom (write_csr mscratch 0 : M (world H) ());;
  exec (Li Sp stack0);;
  exec (Li A3 4096);;
  exec (Csrr A4 mhartid);;
  exec (Addi A4 A4 1);;
  exec (Mul A3 A3 A4);;
  exec (Add Sp Sp A3);;
  a0 ← get_reg A0; a1 ← get_reg A1; sp ← get_reg Sp;
  mret (a0, a1, sp).
End exec.

(** * Frames *)

(** The registers [f] of the list [l] saved in the frame at [p]. *)
Definition saved (m : mem) (p : Z) (f : reg → Z) (l : list reg) : Prop :=
  Forall (λ r, word_at m (p + reg_offset r) = Some (f r)) l.

Definition save_regs (m : mem) (p : Z) (f : reg → Z) (l : list reg) : mem :=
  foldl (λ m r, write_word m (p + reg_offset r) (f r)) m l.

(** A frame of [n] bytes at [p], inside the address space. *)
Definition frame (m : mem) (p : Z) (n : nat) : Prop :=
  0 ≤ p ∧ p + Z.of_nat n ≤ 2 ^ 64 ∧ mapped m p n.

Lemma store_all_eq : store_all_registers = map (λ r, Sd r (reg_offset r) T6) riscv_regs.
Proof. reflexivity. Qed.
Lemma restore_all_eq : restore_all_registers = map (λ r, Ld r (reg_offset r) T6) riscv_regs.
Proof. reflexivity. Qed.

Lemma reg_offset_range r : 0 ≤ reg_offset r ≤ 240.
Proof. destruct r; vm_compute; split; discriminate. Qed.
Lemma reg_offset_ne r r' : r ≠ r' → reg_offset r + 8 ≤ reg_offset r' ∨ reg_offset r' + 8 ≤ reg_offset r.
Proof.
  unfold reg_offset. intros Hne.
  assert (reg_index r ≠ reg_index r') by (by destruct r, r'). lia.
Qed.
Lemma riscv_regs_all r : r ∈ riscv_regs.
Proof. apply (bool_decide_unpack _). by destruct r. Qed.

Lemma frame_le m p n n' : (n' ≤ n)%nat → frame m p n → frame m p n'.
Proof. intros Hn (H0 & H1 & Hm). split_and!; [done|lia|by eapply mapped_le]. Qed.
Lemma frame_write_word m p n q v : frame m p n → frame (write_word m q v) p n.
Proof. intros (H0 & H1 & Hm). split_and!; [done..|by apply mapped_write_word]. Qed.
(** A word of the frame. *)
Lemma frame_word m p n off :
  frame m p n → 0 ≤ off → off + 8 ≤ Z.of_nat n →
  u64 (p + off) = p + off ∧ is_Some (word_at m (p + off)).
Proof.
  intros (H0 & H1 & Hm) Ho Hle. split; [apply u64_id; lia|].
  apply word_at_mapped. eapply mapped_sub; [| |exact Hm]; lia.
Qed.

Section save_regs.
Implicit Types (m : mem) (p : Z) (f : reg → Z) (l : list reg).

Lemma save_regs_lookup m p f l a :
  a < p ∨ p + 248 ≤ a → save_regs m p f l !! a = m !! a.
Proof.
  intros Ha. revert m. induction l as [|r l IH]; intros m; [done|].
  cbn [save_regs foldl]. fold (save_regs (write_word m (p + reg_offset r) (f r)) p f l).
  rewrite IH. pose proof (reg_offset_range r). apply lookup_write_word_ne. lia.
Qed.
Lemma save_regs_word_ne m p f l r :
  r ∉ l → word_at (save_regs m p f l) (p + reg_offset r) = word_at m (p + reg_offset r).
Proof.
  revert m. induction l as [|r' l IH]; intros m Hr; [done|].
  apply not_elem_of_cons in Hr as [Hne Hr].
  cbn [save_regs foldl]. fold (save_regs (write_word m (p + reg_offset r') (f r')) p f l).
  rewrite IH by done. pose proof (reg_offset_ne r r' Hne). apply word_at_write_ne. lia.
Qed.
Lemma save_regs_saved m p f l :
  NoDup l → (∀ r, r ∈ l → 0 ≤ f r < 2 ^ 64) → saved (save_regs m p f l) p f l.
Proof.
  intros Hnd. revert m. induction Hnd as [|r l Hr Hnd IH]; intros m Hf; [constructor|].
  cbn [save_regs foldl]. fold (save_regs (write_word m (p + reg_offset r) (f r)) p f l).
  constructor; [|apply IH; intros; apply Hf; by right].
  rewrite save_regs_word_ne, word_at_write by done. f_equal. apply u64_id, Hf. by left.
Qed.
Lemma save_regs_frame m p f l q n : frame m q n → frame (save_regs m p f l) q n.
Proof.
  revert m. induction l as [|r l IH]; intros m Hm; [done|]. by apply IH, frame_write_word.
Qed.
Lemma save_regs_wf m p f l : mem_wf m → mem_wf (save_regs m p f l).
Proof.
  revert m. induction l as [|r l IH]; intros m Hm; [done|]. by apply IH, mem_wf_write_word.
Qed.
Lemma riscv_regs_NoDup : NoDup riscv_regs.
Proof. apply (bool_decide_unpack _). reflexivity. Qed.
End save_regs.

Section frames.
Context {H : Type} `{PP : Platform}.
Implicit Types (c : cpu H) (w : world H) (p : Z).

Lemma get_reg_Ret c r : get_reg r c = Ret (c_regs c r) c.
Proof. done. Qed.
Lemma cpu_mem_Ret {A} (m : M mem A) c a m' :
  m (w_mem (c_world c)) = Ret a m' →
  zoom (on_mem m : M (world H) A) c = Ret a (Cpu _ (c_regs c) (set_mem m' (c_world c))).
Proof.
  intros Hm. pose proof (on_mem_Ret m (c_world c) a m' Hm) as Hw.
  exact (zoom_Ret (S := cpu H) _ c a _ Hw).
Qed.
Lemma exec_Sd c rs off rb p :
  u64 (c_regs c rb + off) = p → is_Some (word_at (w_mem (c_world c)) p) →
  exec (Sd rs off rb) c =
    Ret tt (Cpu _ (c_regs c) (set_mem (write_word (w_mem (c_world c)) p (c_regs c rs)) (c_world c))).
Proof.
  intros <- Hw. unfold exec. mrun (get_reg_Ret c rb). mrun (get_reg_Ret c rs). by apply cpu_mem_Ret, store64_word.
Qed.
Lemma exec_Ld c rd off rb p v :
  u64 (c_regs c rb + off) = p → word_at (w_mem (c_world c)) p = Some v →
  exec (Ld rd off rb) c = Ret tt (Cpu _ (upd (c_regs c) rd (u64 v)) (c_world c)).
Proof.
  intros <- Hw. unfold exec. mrun (get_reg_Ret c rb). rewrite (bind_Ret _ _ c v c); [done|].
  rewrite (cpu_mem_Ret _ c v _ (load64_word _ _ _ Hw)). rewrite set_mem_id. by destruct c.
Qed.

(** Saving and restoring a list of registers through [t6]. *)
Lemma exec_saves f w p l :
  f T6 = p → frame (w_mem w) p 248 →
  exec_all (map (λ r, Sd r (reg_offset r) T6) l) (Cpu _ f w) =
    Ret tt (Cpu _ f (set_mem (save_regs (w_mem w) p f l) w)).
Proof.
  intros Hp. revert w. induction l as [|r l IH]; intros w Hfr; cbn [map exec_all].
  - cbn [save_regs foldl]. by rewrite set_mem_id.
  - pose proof (reg_offset_range r) as Hr.
    destruct (frame_word _ _ _ (reg_offset r) Hfr ltac:(lia) ltac:(lia)) as [Hu Hw].
    mrun (exec_Sd (Cpu _ f w) r (reg_offset r) T6 (p + reg_offset r)
            ltac:(cbn; by rewrite Hp) Hw).
    cbn [c_regs c_world]. rewrite IH; [done|]. by apply frame_write_word.
Qed.

Lemma exec_restores g f w p l :
  f T6 = p → frame (w_mem w) p 248 → T6 ∉ l → saved (w_mem w) p g l →
  (∀ r, r ∈ l → 0 ≤ g r < 2 ^ 64) →
  ∃ f', exec_all (map (λ r, Ld r (reg_offset r) T6) l) (Cpu _ f w) = Ret tt (Cpu _ f' w) ∧
    ∀ r, f' r = if decide (r ∈ l) then g r else f r.
Proof.
  intros Hp Hfr Ht6 Hs Hg. revert f Hp. induction l as [|r l IH]; intros f Hp; cbn [map exec_all].
  { exists f. split; [done|]. intros r. by rewrite decide_False by apply not_elem_of_nil. }
  apply not_elem_of_cons in Ht6 as [Hne Ht6]. inversion Hs as [|? ? Hr Hl]; subst.
  pose proof (reg_offset_range r) as Hrr.
  destruct (frame_word _ _ _ (reg_offset r) Hfr ltac:(lia) ltac:(lia)) as [Hu _].
  mrun (exec_Ld (Cpu _ f w) r (reg_offset r) T6 (f T6 + reg_offset r) (g r) ltac:(cbn; done) Hr).
  cbn [c_regs c_world]. rewrite u64_id by (apply Hg; by left).
  destruct (IH Ht6 Hl ltac:(intros; apply Hg; by right) (upd f r (g r))) as (f' & He & Hf').
  { unfold upd. by rewrite decide_False. }
  exists f'. split; [done|]. intros r'. rewrite Hf'. unfold upd.
  destruct (decide (r' ∈ l)) as [Hin|Hin], (decide (r' = r)) as [->|Hn].
  - by rewrite decide_True by (by left).
  - by rewrite decide_True by (by right).
  - by rewrite decide_True by (by left).
  - rewrite decide_False; [done|]. by rewrite not_elem_of_cons.
Qed.
End frames.

(** * Trap entry and exit *)

(** The memory after the context [f] was saved in the frame at [p]: [t6] holds the frame's
    address by the time it is saved, [a0] is saved again from the scratch CSR. *)
Definition trap_mem (m : mem) (p : Z) (f : reg → Z) : mem :=
  write_word (save_regs m p (upd (upd f A0 p) T6 p) riscv_regs) (p + reg_offset A0) (f A0).

Definition regs_ok (f : reg → Z) : Prop := ∀ r, 0 ≤ f r < 2 ^ 64.

Lemma upd_eq f r v : upd f r v r = v.
Proof. unfold upd. by rewrite decide_True. Qed.
Lemma upd_ne f r r' v : r' ≠ r → upd f r v r' = f r'.
Proof. intros Hne. unfold upd. by rewrite decide_False. Qed.
Lemma regs_ok_upd f r v : regs_ok f → 0 ≤ v < 2 ^ 64 → regs_ok (upd f r v).
Proof. intros Hf Hv r'. unfold upd. by case_decide. Qed.

Lemma trap_mem_word m p f r :
  0 ≤ p < 2 ^ 64 → regs_ok f →
  word_at (trap_mem m p f) (p + reg_offset r) = Some (if decide (r = T6) then p else f r).
Proof.
  intros Hp Hf. unfold trap_mem. destruct (decide (r = A0)) as [->|Hne].
  - rewrite word_at_write, u64_id by apply Hf. by rewrite decide_False.
  - pose proof (reg_offset_ne r A0 Hne). rewrite word_at_write_ne by lia.
    assert (saved (save_regs m p (upd (upd f A0 p) T6 p) riscv_regs) p
              (upd (upd f A0 p) T6 p) riscv_regs) as Hs.
    { apply save_regs_saved; [apply riscv_regs_NoDup|]. intros r' _. by repeat apply regs_ok_upd. }
    unfold saved in Hs. rewrite Forall_forall in Hs. rewrite (Hs r (riscv_regs_all r)).
    unfold upd at 1. case_decide; [done|]. by rewrite upd_ne.
Qed.
Lemma trap_mem_lookup m p f a : a < p ∨ p + 248 ≤ a → trap_mem m p f !! a = m !! a.
Proof.
  intros Ha. unfold trap_mem. pose proof (reg_offset_range A0).
  rewrite lookup_write_word_ne by lia. by apply save_regs_lookup.
Qed.
Lemma trap_mem_frame m p f q n : frame m q n → frame (trap_mem m p f) q n.
Proof. intros Hm. by apply frame_write_word, save_regs_frame. Qed.
Lemma trap_mem_wf m p f : mem_wf m → mem_wf (trap_mem m p f).
Proof. intros Hm. by apply mem_wf_write_word, save_regs_wf. Qed.

Section traps.
Context {H : Type} `{PP : Platform}.
Implicit Types (c : cpu H) (w : world H) (p : Z).

Lemma exec_Csrrw f w rd r rs :
  exec (Csrrw rd r rs) (Cpu _ f w) = Ret tt (Cpu _ (upd f rd (u64 (w_csr w r))) (csr_set r (f rs) w)).
Proof. reflexivity. Qed.
Lemma exec_Csrr f w rd r :
  exec (Csrr rd r) (Cpu _ f w) = Ret tt (Cpu _ (upd f rd (u64 (w_csr w r))) w).
Proof. by destruct w. Qed.
Lemma exec_Csrw f w r rs :
  exec (Csrw r rs) (Cpu _ f w) = Ret tt (Cpu _ f (csr_set r (f rs) w)).
Proof. reflexivity. Qed.
Lemma exec_Addi f w rd rs imm :
  exec (Addi rd rs imm) (Cpu _ f w) = Ret tt (Cpu _ (upd f rd (u64 (f rs + imm))) w).
Proof. reflexivity. Qed.
Lemma exec_Li f w rd imm : exec (Li rd imm) (Cpu _ f w) = Ret tt (Cpu _ (upd f rd (u64 imm)) w).
Proof. reflexivity. Qed.
Lemma exec_Add f w rd x y :
  exec (Add rd x y) (Cpu _ f w) = Ret tt (Cpu _ (upd f rd (u64 (f x + f y))) w).
Proof. reflexivity. Qed.
Lemma exec_Mul f w rd x y :
  exec (Mul rd x y) (Cpu _ f w) = Ret tt (Cpu _ (upd f rd (u64 (f x * f y))) w).
Proof. reflexivity. Qed.
Lemma csr_set_eq w r v : w_csr (csr_set r v w) r = csr_written r (w_csr w r) v.
Proof. unfold csr_set. cbn. by rewrite decide_True. Qed.
Lemma csr_set_ne w r r' v : r' ≠ r → w_csr (csr_set r v w) r' = w_csr w r'.
Proof. intros Hne. unfold csr_set. cbn. by rewrite decide_False. Qed.

(** The five steps both trap entries start with. *)
Lemma trap_save {A} scr f w p (k : M (cpu H) A) :
  w_csr w scr = p → frame (w_mem w) p 248 → regs_ok f → csr_written scr p (f A0) = f A0 →
  0 ≤ p < 2 ^ 64 →
  (exec (Csrrw A0 scr A0);; exec (Addi T6 A0 0);; exec_all store_all_registers;;
   exec (Csrr T0 scr);; exec (Sd T0 72 A0);; k) (Cpu _ f w) =
  k (Cpu _ (upd (upd (upd f A0 p) T6 p) T0 (f A0))
       (set_mem (trap_mem (w_mem w) p f) (csr_set scr (f A0) w))).
Proof.
  intros Hscr Hfr Hf Hcsr Hp.
  mrun (exec_Csrrw f w A0 scr A0). rewrite Hscr, u64_id by done.
  mrun (exec_Addi (upd f A0 p) (csr_set scr (f A0) w) T6 A0 0).
  rewrite upd_eq, Z.add_0_r, u64_id by done. rewrite store_all_eq.
  mrun (exec_saves (upd (upd f A0 p) T6 p) (csr_set scr (f A0) w) p riscv_regs (upd_eq _ _ _) Hfr).
  set (m1 := save_regs _ _ _ _). set (w1 := set_mem m1 _).
  set (f3 := upd (upd (upd f A0 p) T6 p) T0 (f A0)).
  mrun (exec_Csrr (upd (upd f A0 p) T6 p) w1 T0 scr).
  assert (w_csr w1 scr = f A0) as -> by (unfold w1; cbn [w_csr set_mem]; by rewrite csr_set_eq, Hscr).
  rewrite u64_id by apply Hf. fold f3.
  assert (frame m1 p 248) as Hfr1 by by apply save_regs_frame.
  destruct (frame_word _ _ _ 72 Hfr1 ltac:(lia) ltac:(lia)) as [Hu Hw].
  mrun (exec_Sd (Cpu _ f3 w1) T0 72 A0 (p + 72) Hu Hw).
  done.
Qed.

Lemma exec_all_app l l' c : exec_all (l ++ l') c = ((exec_all l ≫= (λ _, exec_all (H := H) l')) c).
Proof.
  revert c. induction l as [|i l IH]; intros c; [done|].
  cbn [app exec_all]. rewrite bind_assoc. unfold mbind, M_bind.
  destruct (exec i c); [apply IH|done..].
Qed.
Lemma regs_split : ∃ l, riscv_regs = l ++ [T6] ∧ (T6 ∉ l) ∧ ∀ r, r ≠ T6 → r ∈ l.
Proof.
  exists (removelast riscv_regs). split; [done|]. split.
  - apply (bool_decide_unpack _). reflexivity.
  - intros r Hr. destruct r; try done; apply (bool_decide_unpack _); reflexivity.
Qed.

(** Restoring every register through [t6]: the registers are those of the frame. *)
Lemma restore_context g f w p :
  f T6 = p → frame (w_mem w) p 248 → saved (w_mem w) p g riscv_regs → regs_ok g →
  ∃ f', exec_all restore_all_registers (Cpu _ f w) = Ret tt (Cpu _ f' w) ∧ ∀ r, f' r = g r.
Proof.
  intros Hp Hfr Hs Hg. rewrite restore_all_eq.
  destruct regs_split as (l & Hl & Ht6 & Hall). unfold saved in Hs. rewrite Hl in Hs |- *.
  apply Forall_app in Hs as [Hs Hs6]. inversion Hs6 as [|? ? H6 _]; subst.
  rewrite map_app, exec_all_app.
  destruct (exec_restores g f w (f T6) l eq_refl Hfr Ht6 Hs ltac:(intros; apply Hg)) as (f1 & He & Hf1).
  mrun He. cbn [map exec_all].
  assert (f1 T6 = f T6) as Hf6 by by rewrite Hf1, decide_False.
  destruct (frame_word _ _ _ 240 Hfr ltac:(lia) ltac:(lia)) as [Hu _].
  mrun (exec_Ld (Cpu _ f1 w) T6 240 T6 (f T6 + 240) (g T6) ltac:(cbn [c_regs]; by rewrite Hf6) H6).
  eexists. split; [reflexivity|]. intros r. cbn [c_regs]. unfold upd. case_decide as Hr.
  - subst r. apply u64_id, Hg.
  - by rewrite Hf1, decide_True by by apply Hall.
Qed.

Lemma smode_trap_vector_Ret f w p ksp ktrap :
  w_csr w sscratch = p → frame (w_mem w) p 272 → 0 ≤ p → regs_ok f →
  csr_written sscratch p (f A0) = f A0 → mem_wf (w_mem w) →
  word_at (w_mem w) (p + tf_kernel_sp) = Some ksp →
  word_at (w_mem w) (p + tf_kernel_trap) = Some ktrap →
  let m' := trap_mem (w_mem w) p f in
  ∃ f', smode_trap_vector (Cpu _ f w) =
      Ret ktrap (Cpu _ f' (set_mem m' (csr_set sscratch (f A0) w))) ∧
    f' Sp = ksp ∧ f' A0 = p ∧
    (∀ r, word_at m' (p + reg_offset r) = Some (if decide (r = T6) then p else f r)) ∧
    (∀ a, a < p ∨ p + 248 ≤ a → m' !! a = w_mem w !! a).
Proof.
  intros Hscr Hfr Hp Hf Hcsr Hwf Hsp Htrap m'. destruct (id Hfr) as (_ & Htop & _).
  assert (frame (w_mem w) p 248) as Hfr1 by (eapply frame_le; [|exact Hfr]; lia).
  assert (∀ off, 248 ≤ off → word_at m' (p + off) = word_at (w_mem w) (p + off)) as Hout.
  { intros off Hoff. apply word_at_ext. intros a Ha. apply trap_mem_lookup. lia. }
  eexists. split; [|split_and!].
  - unfold smode_trap_vector. rewrite (trap_save sscratch f w p) by (done || lia).
    fold m'. set (w1 := set_mem m' _).
    assert (frame (w_mem w1) p 272) as Hfr' by by apply trap_mem_frame.
    destruct (frame_word _ _ _ 248 Hfr' ltac:(lia) ltac:(lia)) as [Hu1 _].
    destruct (frame_word _ _ _ 256 Hfr' ltac:(lia) ltac:(lia)) as [Hu2 _].
    set (f3 := upd _ _ _).
    mrun (exec_Ld (Cpu _ f3 w1) Sp 248 A0 (p + 248) ksp Hu1
            ltac:(cbn [c_world]; by rewrite <- Hsp, <- Hout by done)).
    cbn [c_regs c_world].
    mrun (exec_Ld (Cpu _ (upd f3 Sp (u64 ksp)) w1) T0 256 A0 (p + 256) ktrap Hu2
            ltac:(cbn [c_world]; by rewrite <- Htrap, <- Hout by done)).
    rewrite get_reg_Ret. cbn [c_regs c_world]. rewrite upd_eq, (u64_id ktrap), (u64_id ksp); [reflexivity| |].
    all: by eapply word_at_range.
  - by rewrite upd_ne, upd_eq.
  - reflexivity.
  - intros r. apply trap_mem_word; [lia|done].
  - intros a Ha. by apply trap_mem_lookup.
Qed.

(** C29. The supervisor trap entry, from a user context [f] with [sscratch] at the trap frame:
    it stores every register but [t6] in its slot of the frame, switches to the kernel stack and
    jumps to the handler the frame names; memory outside the register slots and the rest of the
    world are as before, and [sscratch] keeps the user's [a0].  The slot of [t6] receives the
    address of the frame, not [t6]. *)
Theorem smode_trap_vector_spec f w p ksp ktrap :
  w_csr w sscratch = p → frame (w_mem w) p 272 → 0 ≤ p → regs_ok f →
  csr_written sscratch p (f A0) = f A0 → mem_wf (w_mem w) →
  word_at (w_mem w) (p + tf_kernel_sp) = Some ksp →
  word_at (w_mem w) (p + tf_kernel_trap) = Some ktrap →
  let m' := trap_mem (w_mem w) p f in
  ∃ f', smode_trap_vector (Cpu _ f w) =
      Ret ktrap (Cpu _ f' (set_mem m' (csr_set sscratch (f A0) w))) ∧
    f' Sp = ksp ∧ f' A0 = p ∧
    (∀ r, word_at m' (p + reg_offset r) = Some (if decide (r = T6) then p else f r)) ∧
    (∀ a, a < p ∨ p + 248 ≤ a → m' !! a = w_mem w !! a).
Proof. apply smode_trap_vector_Ret. Qed.

Lemma return_to_user_Ret f g w p :
  f A0 = p → frame (w_mem w) p 248 → saved (w_mem w) p g riscv_regs → regs_ok g →
  p < 2 ^ 64 →
  ∃ f', return_to_user (Cpu _ f w) =
      Ret (sret_target (csr_set sscratch p w)) (Cpu _ f' (csr_set sscratch p w)) ∧
    ∀ r, f' r = g r.
Proof.
  intros Ha0 Hfr Hs Hg Hp. destruct (id Hfr) as (Hp0 & _).
  destruct (restore_context g (upd f T6 p) (csr_set sscratch p w) p (upd_eq _ _ _) Hfr Hs Hg)
    as (f' & He & Hf').
  exists f'. split; [|done]. unfold return_to_user.
  mrun (exec_Csrw f w sscratch A0). rewrite Ha0.
  mrun (exec_Addi f (csr_set sscratch p w) T6 A0 0). rewrite Ha0, Z.add_0_r, u64_id by lia.
  by mrun He.
Qed.

(** [return_to_user] on a frame at [p] loads every register from its slot, leaves the
    address of the frame in [sscratch] for the next trap, changes no memory, and goes where
    [sret] takes it; the registers it was entered with, but [a0], do not matter. *)
Theorem return_to_user_spec f g w p :
  f A0 = p → frame (w_mem w) p 248 → saved (w_mem w) p g riscv_regs → regs_ok g →
  p < 2 ^ 64 →
  ∃ f', return_to_user (Cpu _ f w) =
      Ret (sret_target (csr_set sscratch p w)) (Cpu _ f' (csr_set sscratch p w)) ∧
    ∀ r, f' r = g r.
Proof. apply return_to_user_Ret. Qed.

(** Up to the handler: the context is saved, the stack switched, [mscratch] set back. *)
Lemma mtrapvec_enters f w p stack0 handler clobbered :
  w_csr w mscratch = p → frame (w_mem w) p 248 → 0 ≤ p < 2 ^ 64 → regs_ok f →
  (∀ v, csr_written mscratch v (f A0) = f A0) →
  ∃ f9, mtrapvec stack0 handler clobbered (Cpu _ f w) =
    (zoom handler;; modify (λ c, Cpu _ clobbered (c_world c));; exec (Csrr T6 mscratch);;
     exec_all restore_all_registers;; mret_instr)
    (Cpu _ f9 (csr_set mscratch p (set_mem (trap_mem (w_mem w) p f) (csr_set mscratch (f A0) w)))).
Proof.
  intros Hscr Hfr Hp Hf Hcsr. unfold mtrapvec.
  rewrite (trap_save mscratch f w p) by (done || lia). set (w' := set_mem _ _).
  set (f3 := upd _ T0 _).
  mrun (exec_Li f3 w' Sp stack0). set (f4 := upd f3 _ _).
  mrun (exec_Li f4 w' A3 4096). set (f5 := upd f4 _ _).
  mrun (exec_Csrr f5 w' A4 mhartid). set (f6 := upd f5 _ _).
  mrun (exec_Addi f6 w' A4 A4 1). set (f7 := upd f6 _ _).
  mrun (exec_Mul f7 w' A3 A3 A4). set (f8 := upd f7 _ _).
  mrun (exec_Add f8 w' Sp Sp A3). set (f9 := upd f8 _ _).
  mrun (exec_Csrw f9 w' mscratch A0). replace (f9 A0) with p by done. by exists f9.
Qed.

Lemma mtrapvec_Ret f w p stack0 handler clobbered w1 w2 :
  w_csr w mscratch = p → frame (w_mem w) p 248 → 0 ≤ p < 2 ^ 64 → regs_ok f →
  (∀ v, csr_written mscratch v (f A0) = f A0) → csr_written mscratch (f A0) p = p →
  w1 = csr_set mscratch p (set_mem (trap_mem (w_mem w) p f) (csr_set mscratch (f A0) w)) →
  handler w1 = Ret tt w2 → w_csr w2 mscratch = p → frame (w_mem w2) p 248 →
  (∀ a, p ≤ a < p + 248 → w_mem w2 !! a = w_mem w1 !! a) →
  ∃ f', mtrapvec stack0 handler clobbered (Cpu _ f w) = Ret (mret_target w2) (Cpu _ f' w2) ∧
    ∀ r, f' r = if decide (r = T6) then p else f r.
Proof.
  intros Hscr Hfr Hp Hf Hcsr Hcsr' -> Hh Hscr2 Hfr2 Hm2.
  set (m' := trap_mem (w_mem w) p f) in *. set (w' := set_mem m' _) in *.
  assert (saved (w_mem w2) p (λ r, if decide (r = T6) then p else f r) riscv_regs) as Hs.
  { apply Forall_forall. intros r _. pose proof (reg_offset_range r).
    rewrite (word_at_ext (w_mem (csr_set mscratch p w'))).
    - by apply trap_mem_word.
    - intros a Ha. apply Hm2. lia. }
  destruct (restore_context _ (upd clobbered T6 p) w2 p (upd_eq _ _ _) Hfr2 Hs) as (f' & He & Hf').
  { intros r. case_decide; [done|apply Hf]. }
  exists f'. split; [|done].
  destruct (mtrapvec_enters f w p stack0 handler clobbered) as [f9 ->]; try done. fold m'. fold w'.
  rewrite (bind_Ret _ _ _ tt (Cpu _ f9 w2)) by exact (zoom_Ret (S := cpu H) _ (Cpu _ f9 _) _ _ Hh).
  rewrite (bind_Ret _ _ _ tt (Cpu _ clobbered w2)) by done.
  mrun (exec_Csrr clobbered w2 T6 mscratch). rewrite Hscr2, u64_id by done.
  by mrun He.
Qed.

(** A handler that stops the machine. *)
Lemma mtrapvec_Halted f w p stack0 handler clobbered w2 :
  w_csr w mscratch = p → frame (w_mem w) p 248 → 0 ≤ p < 2 ^ 64 → regs_ok f →
  (∀ v, csr_written mscratch v (f A0) = f A0) →
  handler (csr_set mscratch p (set_mem (trap_mem (w_mem w) p f) (csr_set mscratch (f A0) w))) = Halted w2 →
  ∃ f', mtrapvec stack0 handler clobbered (Cpu _ f w) = Halted (Cpu _ f' w2).
Proof.
  intros Hscr Hfr Hp Hf Hcsr Hh.
  destruct (mtrapvec_enters f w p stack0 handler clobbered Hscr Hfr Hp Hf Hcsr) as [f9 ->].
  exists f9. apply bind_Halted. exact (zoom_Halted (S := cpu H) _ (Cpu _ f9 _) _ Hh).
Qed.

(** C28. The machine trap entry and exit around a handler that returns: whatever the handler
    leaves in the registers, every register comes back, but [t6], which comes back as the address
    of [g_itrframe]; control resumes at [mepc], and [mscratch] points to [g_itrframe] again. *)
Theorem mtrapvec_restores f w p stack0 handler clobbered w1 w2 :
  w_csr w mscratch = p → frame (w_mem w) p 248 → 0 ≤ p < 2 ^ 64 → regs_ok f →
  (∀ v, csr_written mscratch v (f A0) = f A0) → csr_written mscratch (f A0) p = p →
  w1 = csr_set mscratch p (set_mem (trap_mem (w_mem w) p f) (csr_set mscratch (f A0) w)) →
  handler w1 = Ret tt w2 → w_csr w2 mscratch = p → frame (w_mem w2) p 248 →
  (∀ a, p ≤ a < p + 248 → w_mem w2 !! a = w_mem w1 !! a) →
  ∃ f', mtrapvec stack0 handler clobbered (Cpu _ f w) = Ret (mret_target w2) (Cpu _ f' w2) ∧
    ∀ r, f' r = if decide (r = T6) then p else f r.
Proof. apply mtrapvec_Ret. Qed.
End traps.

(** * Instances *)
Import SampleMachine.

(** A trap frame of zeros at 4096 but for the two kernel words, and a user context. *)
Definition frame_mem : mem :=
  write_word (write_word (write_bytes ∅ 4096 (replicate 272 0)) (4096 + 248) 0x81200000)
    (4096 + 256) 0x80000100.
Definition user_regs : reg → Z := λ r, 1000 + reg_index r.
Definition trap_world : world sample_host := csr_set mscratch 4096 (csr_set sscratch 4096 (sample_world frame_mem [])).

Lemma frame_mem_frame n : (n ≤ 272)%nat → frame frame_mem 4096 n.
Proof.
  intros Hn. split_and!; [lia|lia|]. eapply mapped_le; [exact Hn|].
  do 2 apply mapped_write_word. apply (mapped_written ∅ 4096 (replicate 272 0)).
Qed.
Lemma frame_mem_wf : mem_wf frame_mem.
Proof.
  do 2 apply mem_wf_write_word. apply mem_wf_write_bytes; [apply map_Forall_empty|].
  apply Forall_replicate. lia.
Qed.
Lemma user_regs_ok : regs_ok user_regs.
Proof. intros r. unfold user_regs. destruct r; simpl; lia. Qed.

Lemma smode_trap_vector_spec_witness :
  ∃ f', smode_trap_vector (Cpu _ user_regs trap_world) =
      Ret 0x80000100 (Cpu _ f' (set_mem (trap_mem frame_mem 4096 user_regs)
                                  (csr_set sscratch (user_regs A0) trap_world))) ∧
    f' Sp = 0x81200000 ∧ f' A0 = 4096 ∧
    (∀ r, word_at (trap_mem frame_mem 4096 user_regs) (4096 + reg_offset r) =
            Some (if decide (r = T6) then 4096 else user_regs r)) ∧
    (∀ a, a < 4096 ∨ 4096 + 248 ≤ a →
       trap_mem frame_mem 4096 user_regs !! a = frame_mem !! a).
Proof.
  apply (smode_trap_vector_spec user_regs trap_world 4096 0x81200000 0x80000100);
    [reflexivity|by apply frame_mem_frame|lia|apply user_regs_ok|reflexivity|apply frame_mem_wf
    |by vm_compute|by vm_compute].
Defined.

Lemma return_to_user_spec_witness :
  ∃ f', return_to_user (Cpu _ (upd user_regs A0 4096) trap_world) =
      Ret (sret_target (csr_set sscratch 4096 trap_world)) (Cpu _ f' (csr_set sscratch 4096 trap_world)) ∧
    ∀ r, f' r = (λ _, 0) r.
Proof.
  apply (return_to_user_spec (upd user_regs A0 4096) (λ _, 0) trap_world 4096);
    [reflexivity|apply frame_mem_frame; lia| |intros r; lia|lia].
  apply Forall_forall. intros r _. destruct r; by vm_compute.
Defined.

Lemma mtrapvec_restores_witness :
  let w1 := csr_set mscratch 4096 (set_mem (trap_mem frame_mem 4096 user_regs)
              (csr_set mscratch (user_regs A0) trap_world)) in
  ∃ f', mtrapvec 0x80003000 (mret tt) (λ _, 7) (Cpu _ user_regs trap_world) =
      Ret (mret_target w1) (Cpu _ f' w1) ∧
    ∀ r, f' r = if decide (r = T6) then 4096 else user_regs r.
Proof.
  intros w1.
  apply (mtrapvec_restores user_regs trap_world 4096 0x80003000 (mret tt) (λ _, 7) w1 w1);
    [reflexivity|apply frame_mem_frame; lia|lia|apply user_regs_ok|reflexivity|reflexivity
    |reflexivity|reflexivity|reflexivity|apply trap_mem_frame, frame_mem_frame; lia|reflexivity].
Defined.
