(* ===== verification/Process.v ===== *)
(** Switching to a user process: kernel/process.c, with the [struct process] of kernel/process.h.

    A process and its trap frame are records in memory, at addresses the code passes around;
    [layout] says where they lie.  [switch_to] ends in the [return_to_user] of Asm.v, so its
    result is the state the user program starts in: its mode and pc, and its registers. *)
From S2P Require Import Prelude Mem CString Snprintf World Sample SpikeUtils Asm.

(** Where a user program is entered: mode, pc and registers. *)
Record entry := Entry { e_mode : mode; e_pc : Z; e_regs : reg → Z }.

Section process.
Context {H : Type} `{HH : Host H} `{PP : Platform}.

(** [p->field] for a 64-bit field at [off]. *)
Definition load_field (p off : Z) : M (world H) Z := on_mem (load64 (p + off)).
Definition store_field (p off v : Z) : M (world H) () := on_mem (store64 (p + off) v).

(** [return_to_user(tf)]: the call puts [tf] in [a0]; the other registers hold whatever the C
    code left there, and every one of them is overwritten. *)
Definition call_return_to_user (tf : Z) : M (world H) entry := λ w,
  match return_to_user (Cpu _ (upd (λ _, 0) A0 tf) w) with
  | Ret (md, pc) c => Ret (Entry md pc (c_regs c)) (c_world c)
  | Halted c => Halted (c_world c)
  | Fault => Fault
  | NoFuel => NoFuel
  end.

Definition switch_to (proc : Z) : M (world H) entry :=
  assert_at "kernel/process.c" 29 (truthy proc) "proc";;
  modify (set_current proc);;
  write_csr stvec addr_smode_trap_vector;;
  tf ← load_field proc proc_trapframe;
  k ← load_field proc proc_kstack;
  store_field tf tf_kernel_sp k;;
  tf ← load_field proc proc_trapframe;
  store_field tf tf_kernel_trap addr_smode_trap_handler;;
  x ← read_csr sstatus;
  let x := Z.land x (not64 SSTATUS_SPP) in
  let x := Z.lor x SSTATUS_SPIE in
  write_csr sstatus x;;
  tf ← load_field proc proc_trapframe;
  epc ← load_field tf tf_epc;
  write_csr sepc epc;;
  tf ← load_field proc proc_trapframe;
  call_return_to_user tf.
End process.

(** * Where a process lies in memory *)

(** The process at [proc] has its trap frame at [tf]; the two records do not overlap. *)
Record layout (m : mem) (proc tf : Z) : Prop := {
  lay_wf : mem_wf m;
  lay_proc : frame m proc (Z.to_nat sizeof_process);
  lay_nonnull : 0 < proc;
  lay_tf : word_at m (proc + proc_trapframe) = Some tf;
  lay_frame : frame m tf (Z.to_nat sizeof_trapframe);
  lay_disj : tf + sizeof_trapframe ≤ proc ∨ proc + sizeof_process ≤ tf;
}.

(** The value of a register in the frame at [tf]. *)
Definition frame_reg (m : mem) (tf : Z) (r : reg) : Z := default 0 (word_at m (tf + reg_offset r)).

(** Two memories that agree outside the frame at [tf]. *)
Definition same_outside (tf : Z) (m m' : mem) : Prop :=
  ∀ a, a < tf ∨ tf + sizeof_trapframe ≤ a → m' !! a = m !! a.
#[export] Instance same_outside_equiv tf : Equivalence (same_outside tf).
Proof.
  split.
  - by intros m a _.
  - intros m m' Hm a Ha. by rewrite Hm.
  - intros m m' m'' Hm Hm' a Ha. by rewrite Hm', Hm.
Qed.

Lemma same_outside_write tf m off v :
  0 ≤ off → off + 8 ≤ sizeof_trapframe → same_outside tf m (write_word m (tf + off) v).
Proof. intros Ho Hs a Ha. apply lookup_write_word_ne. lia. Qed.

Lemma same_outside_word tf m m' p :
  same_outside tf m m' → p + 8 ≤ tf ∨ tf + sizeof_trapframe ≤ p → word_at m' p = word_at m p.
Proof. intros Hs Hp. apply word_at_ext. intros a Ha. apply Hs. lia. Qed.

(** Writing a word of the frame keeps the layout. *)
Lemma layout_frame_write m proc tf off v :
  layout m proc tf → 0 ≤ off → off + 8 ≤ sizeof_trapframe →
  layout (write_word m (tf + off) v) proc tf.
Proof.
  intros [Hwf Hp Hn Ht Hf Hd] Ho Hs. split; try assumption.
  - by apply mem_wf_write_word.
  - apply frame_write_word; assumption.
  - rewrite <- Ht. eapply same_outside_word; [by apply same_outside_write|].
    unfold sizeof_process, proc_strtab_sz, proc_strtab, proc_sym_count, proc_symtab, proc_trapframe,
      MAX_USER_STRTAB, MAX_USER_SYMS, sizeof_elf_symbol in *. lia.
  - by apply frame_write_word.
Qed.

Section layout.
Context {H : Type} `{HH : Host H} `{PP : Platform}.
Implicit Types w : world H.

Lemma load_field_Ret w p off v :
  word_at (w_mem w) (p + off) = Some v → load_field p off w = Ret v w.
Proof. intros Hv. apply on_mem_read. by apply load64_word. Qed.
Lemma store_field_Ret w p off v :
  is_Some (word_at (w_mem w) (p + off)) →
  store_field p off v w = Ret tt (set_mem (write_word (w_mem w) (p + off) v) w).
Proof. intros Hv. by apply on_mem_Ret, store64_word. Qed.

Lemma layout_frame_word m proc tf off :
  layout m proc tf → 0 ≤ off → off + 8 ≤ sizeof_trapframe → is_Some (word_at m (tf + off)).
Proof.
  intros Hl Ho Hs. eapply (frame_word _ _ _ off (lay_frame _ _ _ Hl)); [done|].
  by rewrite Z2Nat.id.
Qed.
Lemma layout_proc_word m proc tf off :
  layout m proc tf → 0 ≤ off → off + 8 ≤ sizeof_process → is_Some (word_at m (proc + off)).
Proof.
  intros Hl Ho Hs. eapply (frame_word _ _ _ off (lay_proc _ _ _ Hl)); [done|].
  by rewrite Z2Nat.id.
Qed.
Lemma layout_saved m proc tf : layout m proc tf → saved m tf (frame_reg m tf) riscv_regs.
Proof.
  intros Hl. apply Forall_forall. intros r _. pose proof (reg_offset_range r).
  destruct (layout_frame_word m proc tf (reg_offset r) Hl) as [v Hv]; [lia|unfold sizeof_trapframe; lia|].
  unfold frame_reg. by rewrite Hv.
Qed.
Lemma frame_reg_ok m tf : mem_wf m → regs_ok (frame_reg m tf).
Proof.
  intros Hwf r. unfold frame_reg. destruct (word_at m _) as [v|] eqn:Hv; simpl; [|lia].
  by eapply word_at_range.
Qed.

(** The registers with which [return_to_user] leaves. *)
Lemma call_return_to_user_Ret w proc tf :
  layout (w_mem w) proc tf →
  ∃ f, call_return_to_user tf w =
      Ret (Entry (sret_target (csr_set sscratch tf w)).1 (sret_target (csr_set sscratch tf w)).2 f)
        (csr_set sscratch tf w) ∧
    ∀ r, f r = frame_reg (w_mem w) tf r.
Proof.
  intros Hl. pose proof (lay_frame _ _ _ Hl) as Hf. destruct (id Hf) as (H0 & H1 & _).
  destruct (return_to_user_Ret (upd (λ _, 0) A0 tf) (frame_reg (w_mem w) tf) w tf) as (f & He & Hfr).
  - done.
  - eapply frame_le; [|exact Hf]. unfold sizeof_trapframe. lia.
  - by eapply layout_saved.
  - by apply frame_reg_ok, (lay_wf _ _ _ Hl).
  - rewrite Z2Nat.id in H1 by done. unfold sizeof_trapframe in H1. lia.
  - exists f. split; [|done]. unfold call_return_to_user. rewrite He.
    by destruct (sret_target _).
Qed.
End layout.

(** * The contract of [switch_to] *)

(** The kernel is set up for a trap from the user process at [proc]. *)
Record ready {H} `{Platform} (w : world H) (proc tf : Z) : Prop := {
  rd_layout : layout (w_mem w) proc tf;
  rd_current : w_current w = proc;
  rd_stvec : w_csr w stvec = addr_smode_trap_vector;
  rd_sscratch : w_csr w sscratch = tf;
  rd_kernel_sp : word_at (w_mem w) (tf + tf_kernel_sp) = word_at (w_mem w) (proc + proc_kstack);
  rd_kernel_trap : word_at (w_mem w) (tf + tf_kernel_trap) = Some addr_smode_trap_handler;
}.

(** Memory outside the process and its frame, and the other registers, do not matter. *)
Lemma layout_ext m m' proc tf :
  layout m proc tf → mem_wf m' →
  (∀ a, tf ≤ a < tf + sizeof_trapframe ∨ proc ≤ a < proc + sizeof_process → m' !! a = m !! a) →
  layout m' proc tf.
Proof.
  intros [Hwf (Hp0 & Hp1 & Hp) Hn Htf (Ht0 & Ht1 & Ht) Hd] Hwf' He.
  assert (0 ≤ sizeof_process) as Hsp by (apply Z.leb_le; reflexivity).
  assert (proc_trapframe + 8 ≤ sizeof_process) as Hpt by (apply Z.leb_le; reflexivity).
  rewrite Z2Nat.id in Hp1 by exact Hsp. rewrite Z2Nat.id in Ht1 by done.
  split; [exact Hwf'| |exact Hn| | |exact Hd].
  - split_and!; [exact Hp0|rewrite Z2Nat.id by exact Hsp; exact Hp1|].
    apply (mapped_ext m); [|exact Hp]. intros a Ha. rewrite Z2Nat.id in Ha by exact Hsp. apply He. by right.
  - rewrite (word_at_ext m); [exact Htf|]. intros a Ha. apply He. right. unfold proc_trapframe in *. lia.
  - split_and!; [exact Ht0|rewrite Z2Nat.id by done; exact Ht1|].
    apply (mapped_ext m); [|exact Ht]. intros a Ha. rewrite Z2Nat.id in Ha by done. apply He. by left.
Qed.

Lemma ready_ext {H} `{Platform} (w w' : world H) proc tf :
  ready w proc tf → mem_wf (w_mem w') → w_current w' = w_current w →
  w_csr w' stvec = w_csr w stvec → w_csr w' sscratch = w_csr w sscratch →
  (∀ a, tf ≤ a < tf + sizeof_trapframe ∨ proc ≤ a < proc + sizeof_process →
    w_mem w' !! a = w_mem w !! a) →
  ready w' proc tf.
Proof.
  intros [Hl Hc Hv Hs Hsp Htr] Hwf Hc' Hv' Hs' He.
  assert (∀ off, 0 ≤ off → off + 8 ≤ sizeof_trapframe →
    word_at (w_mem w') (tf + off) = word_at (w_mem w) (tf + off)) as Hwt.
  { intros off H1 H2. apply word_at_ext. intros a Ha. apply He. lia. }
  split.
  - by eapply layout_ext.
  - by rewrite Hc'.
  - by rewrite Hv'.
  - by rewrite Hs'.
  - rewrite Hwt by done. rewrite Hsp. symmetry. apply word_at_ext. intros a Ha. apply He. right.
    assert (proc_kstack + 8 ≤ sizeof_process) by (apply Z.leb_le; reflexivity).
    unfold proc_kstack in *. lia.
  - by rewrite Hwt.
Qed.

(** The globals and the CSRs a switch does not touch. *)
Definition switch_csrs : list csr := [sepc; sstatus; stvec; sscratch].
Definition same_globals {H} (w w' : world H) : Prop :=
  w_files w' = w_files w ∧ w_fds w' = w_fds w ∧ w_htif w' = w_htif w ∧
  w_mem_size w' = w_mem_size w ∧ w_ticks w' = w_ticks w ∧
  ∀ c, c ∉ switch_csrs → w_csr w' c = w_csr w c.
#[export] Instance same_globals_preorder {H} : PreOrder (same_globals (H := H)).
Proof.
  split.
  - by intros w.
  - intros w1 w2 w3 (F1 & D1 & T1 & M1 & K1 & C1) (F2 & D2 & T2 & M2 & K2 & C2).
    split_and!; [by etrans..|]. intros c Hc. by rewrite C2, C1.
Qed.

Section switch.
Context {H : Type} `{HH : Host H} `{PP : Platform} `{!RiscvCsrs} `{!Linked}.
Implicit Types w : world H.

Lemma frame_reg_write m tf off v r :
  248 ≤ off → frame_reg (write_word m (tf + off) v) tf r = frame_reg m tf r.
Proof.
  intros Ho. unfold frame_reg. pose proof (reg_offset_range r).
  by rewrite word_at_write_ne by lia.
Qed.

Lemma spp_cleared x :
  Z.testbit (Z.lor (Z.land x (not64 SSTATUS_SPP)) SSTATUS_SPIE) 8 = false ∧
  Z.testbit (Z.lor (Z.land x (not64 SSTATUS_SPP)) SSTATUS_SPIE) 5 = true.
Proof.
  unfold SSTATUS_SPP, SSTATUS_SPIE.
  split; rewrite Z.lor_spec, Z.land_spec, testbit_not64, !testbit_shiftl1 by lia; simpl;
    [by rewrite andb_false_r|by rewrite orb_true_r].
Qed.

(** The world [switch_to] hands to [return_to_user], for the kernel stack [k] and the pc [epc]. *)
Definition switch_mem (m : mem) (tf k : Z) : mem :=
  write_word (write_word m (tf + tf_kernel_sp) k) (tf + tf_kernel_trap) addr_smode_trap_handler.
Definition switch_sstatus (x : Z) : Z := Z.lor (Z.land x (not64 SSTATUS_SPP)) SSTATUS_SPIE.
Definition switched w (proc tf k epc : Z) : world H :=
  csr_set sepc epc (csr_set sstatus (switch_sstatus (w_csr w sstatus))
    (set_mem (switch_mem (w_mem w) tf k)
       (csr_set stvec addr_smode_trap_vector (set_current proc w)))).

Lemma switch_mem_layout m proc tf k : layout m proc tf → layout (switch_mem m tf k) proc tf.
Proof. intros Hl. by do 2 (apply layout_frame_write; [|done|done]). Qed.
Lemma switch_mem_epc m tf k : word_at (switch_mem m tf k) (tf + tf_epc) = word_at m (tf + tf_epc).
Proof.
  unfold switch_mem. rewrite !word_at_write_ne; [done|right..];
    unfold tf_epc, tf_kernel_sp, tf_kernel_trap; lia.
Qed.

Lemma switch_to_Ret w proc tf k epc :
  layout (w_mem w) proc tf → word_at (w_mem w) (tf + tf_epc) = Some epc →
  word_at (w_mem w) (proc + proc_kstack) = Some k →
  switch_to proc w = call_return_to_user tf (switched w proc tf k epc).
Proof.
  intros Hl He Hk. pose proof (lay_nonnull _ _ _ Hl). unfold switch_to.
  set (w1 := csr_set stvec addr_smode_trap_vector (set_current proc w)).
  set (m1 := write_word (w_mem w) (tf + tf_kernel_sp) k).
  assert (layout m1 proc tf) as Hl1 by by apply layout_frame_write.
  pose proof (switch_mem_layout _ _ _ k Hl) as Hl2.
  replace (truthy proc) with true by (unfold truthy; by rewrite (proj2 (Z.eqb_neq _ _)) by lia).
  rewrite (bind_Ret _ _ w tt w) by done.
  rewrite (bind_Ret _ _ _ tt (set_current proc w)) by done.
  rewrite (bind_Ret _ _ _ tt w1) by done.
  mrun (load_field_Ret w1 proc proc_trapframe tf (lay_tf _ _ _ Hl)).
  mrun (load_field_Ret w1 proc proc_kstack k Hk).
  mrun (store_field_Ret w1 tf tf_kernel_sp k ltac:(by eapply layout_frame_word)).
  mrun (load_field_Ret (set_mem m1 w1) proc proc_trapframe tf (lay_tf _ _ _ Hl1)).
  mrun (store_field_Ret (set_mem m1 w1) tf tf_kernel_trap addr_smode_trap_handler
          ltac:(by eapply (layout_frame_word m1))).
  set (w2 := set_mem (switch_mem (w_mem w) tf k) w1).
  change (set_mem (write_word _ _ _) (set_mem m1 w1)) with w2.
  rewrite (bind_Ret _ _ w2 (w_csr w sstatus) w2) by done.
  set (w3 := csr_set sstatus (switch_sstatus (w_csr w sstatus)) w2).
  cbv zeta. rewrite (bind_Ret _ _ _ tt w3) by done.
  mrun (load_field_Ret w3 proc proc_trapframe tf (lay_tf _ _ _ Hl2)).
  mrun (load_field_Ret w3 tf tf_epc epc (eq_trans (switch_mem_epc _ _ _) He)).
  rewrite (bind_Ret _ _ _ tt (switched w proc tf k epc)) by done.
  by mrun (load_field_Ret (switched w proc tf k epc) proc proc_trapframe tf (lay_tf _ _ _ Hl2)).
Qed.

Lemma switch_to_user w proc tf epc :
  layout (w_mem w) proc tf → word_at (w_mem w) (tf + tf_epc) = Some epc → epc `mod` 4 = 0 →
  ∃ f w', switch_to proc w = Ret (Entry UserMode epc f) w' ∧
    (∀ r, f r = frame_reg (w_mem w) tf r) ∧
    ready w' proc tf ∧ same_outside tf (w_mem w) (w_mem w') ∧
    Z.testbit (w_csr w' sstatus) 5 = true ∧ w_csr w' sepc = epc ∧
    same_globals w w' ∧ w_host w' = w_host w.
Proof.
  intros Hl He Ha. destruct (layout_proc_word _ _ _ proc_kstack Hl) as [k Hk]; [done..|].
  assert (0 ≤ epc < 2 ^ 64) as Her by (eapply word_at_range; [apply Hl|done]).
  destruct lk_vector as [Hv Hv4]. destruct lk_handler as [Hh _].
  pose proof (switch_mem_layout _ _ _ k Hl) as Hl2. pose proof (lay_disj _ _ _ Hl) as Hd.
  set (w2 := switched w proc tf k epc).
  destruct (call_return_to_user_Ret w2 proc tf Hl2) as (f & Hcall & Hfr).
  destruct (spp_cleared (w_csr w sstatus)) as [Hspp Hspie].
  assert (w_csr w2 sepc = epc) as Hsepc by (unfold w2, switched; rewrite csr_set_eq; by apply csr_epc; [left|..]).
  assert (∀ k, k = 8 ∨ k = 5 ∨ k = 1 → Z.testbit (w_csr w2 sstatus) k =
            Z.testbit (switch_sstatus (w_csr w sstatus)) k) as Hst.
  { intros j Hj. unfold w2, switched. rewrite csr_set_ne, csr_set_eq by done. by apply csr_sstatus. }
  assert (w_mem w2 = switch_mem (w_mem w) tf k) as Hm by done.
  exists f, (csr_set sscratch tf w2). split_and!.
  - rewrite (switch_to_Ret _ _ _ k epc Hl He Hk). fold w2. rewrite Hcall. unfold sret_target, SSTATUS_SPP.
    rewrite !csr_set_ne, land_bit, Hst, Hsepc by (done || lia || by left).
    unfold switch_sstatus. by rewrite Hspp.
  - intros r. rewrite Hfr, Hm. unfold switch_mem. by rewrite !frame_reg_write.
  - split; cbn [w_mem csr_set set_csr].
    + done.
    + done.
    + rewrite csr_set_ne by done. unfold w2, switched. rewrite !csr_set_ne by done. cbn [set_mem w_csr].
      rewrite csr_set_eq. by apply csr_tvec; [left|..].
    + rewrite csr_set_eq. apply csr_scratch; [by left|]. eapply word_at_range; [apply Hl|apply Hl].
    + rewrite Hm. unfold switch_mem. rewrite word_at_write_ne, word_at_write by (left; unfold tf_kernel_sp, tf_kernel_trap; lia).
      rewrite !word_at_write_ne; [|unfold tf_kernel_sp, tf_kernel_trap, proc_kstack, sizeof_trapframe in *; change sizeof_process with 20512 in *; lia..].
      rewrite Hk. f_equal. apply u64_id. eapply word_at_range; [apply Hl|done].
    + rewrite Hm. unfold switch_mem. rewrite word_at_write. f_equal. by apply u64_id.
  - change (same_outside tf (w_mem w) (switch_mem (w_mem w) tf k)). unfold switch_mem. etrans; by apply same_outside_write.
  - rewrite csr_set_ne, Hst by auto. done.
  - by rewrite csr_set_ne.
  - split_and!; try done. intros c Hc. unfold switch_csrs in Hc. rewrite !not_elem_of_cons in Hc.
    destruct Hc as (? & ? & ? & ? & _). rewrite csr_set_ne by done.
    unfold w2, switched. rewrite !csr_set_ne by done. cbn [w_csr set_mem]. by rewrite csr_set_ne.
  - done.
Qed.

(** C19. [switch_to] on a laid-out process enters user mode at the [epc] of its trap frame with
    every register loaded from the frame, with interrupts to be enabled by the [sret], and leaves
    the kernel ready for the next trap of this process; memory changes in the trap frame only. *)
Theorem switch_to_spec w proc tf epc :
  layout (w_mem w) proc tf → word_at (w_mem w) (tf + tf_epc) = Some epc → epc `mod` 4 = 0 →
  ∃ f w', switch_to proc w = Ret (Entry UserMode epc f) w' ∧
    (∀ r, f r = frame_reg (w_mem w) tf r) ∧
    ready w' proc tf ∧ same_outside tf (w_mem w) (w_mem w') ∧
    Z.testbit (w_csr w' sstatus) 5 = true ∧ w_csr w' sepc = epc ∧
    same_globals w w' ∧ w_host w' = w_host w.
Proof. apply switch_to_user. Qed.
End switch.

(** * Instances *)
Import SampleMachine.

(** A process at [sample_proc] and its trap frame, all zeros but for the pointers between them,
    the kernel stack and the pc [epc], over a memory [m]. *)
Definition sample_proc : Z := 0x80020000.
Definition sample_process (m : mem) (epc : Z) : mem :=
  write_word (write_word (write_word
    (write_bytes (write_bytes m sample_proc (replicate (Z.to_nat sizeof_process) 0))
       USER_TRAP_FRAME (replicate (Z.to_nat sizeof_trapframe) 0))
    (sample_proc + proc_trapframe) USER_TRAP_FRAME)
    (sample_proc + proc_kstack) USER_KSTACK) (USER_TRAP_FRAME + tf_epc) epc.

Lemma sample_process_layout m epc :
  mem_wf m → layout (sample_process m epc) sample_proc USER_TRAP_FRAME.
Proof.
  intros Hm. unfold sample_process, sample_proc, USER_TRAP_FRAME. split.
  - do 3 apply mem_wf_write_word. do 2 (apply mem_wf_write_bytes; [|apply Forall_replicate; lia]).
    done.
  - split_and!; [discriminate|apply Z.leb_le; reflexivity|]. do 3 apply mapped_write_word.
    apply mapped_write_bytes.
    rewrite <- (length_replicate (Z.to_nat sizeof_process) 0) at 2. apply mapped_written.
  - done.
  - rewrite !word_at_write_ne, word_at_write by (vm_compute; intuition discriminate). done.
  - split_and!; [done|done|]. do 3 apply mapped_write_word.
    rewrite <- (length_replicate (Z.to_nat sizeof_trapframe) 0) at 2. apply mapped_written.
  - right. done.
Qed.
Lemma sample_process_epc m epc :
  0 ≤ epc < 2 ^ 64 →
  word_at (sample_process m epc) (USER_TRAP_FRAME + tf_epc) = Some epc.
Proof. intros He. unfold sample_process. rewrite word_at_write. by rewrite u64_id. Qed.

Lemma switch_to_spec_witness :
  let w := sample_world (sample_process ∅ 0x81000000) [] in
  ∃ f w', switch_to sample_proc w = Ret (Entry UserMode 0x81000000 f) w' ∧
    (∀ r, f r = frame_reg (w_mem w) USER_TRAP_FRAME r) ∧
    ready w' sample_proc USER_TRAP_FRAME ∧ same_outside USER_TRAP_FRAME (w_mem w) (w_mem w') ∧
    Z.testbit (w_csr w' sstatus) 5 = true ∧ w_csr w' sepc = 0x81000000 ∧
    same_globals w w' ∧ w_host w' = w_host w.
Proof.
  intros w. apply (switch_to_spec w sample_proc USER_TRAP_FRAME 0x81000000).
  - apply sample_process_layout, map_Forall_empty.
  - apply sample_process_epc. lia.
  - reflexivity.
Defined.
