(* ===== verification/Syscall.v ===== *)
(** The system calls: kernel/syscall.c.

    [find_symbol_name] searches the symbol table [load_user_symbols] filled, [sys_user_backtrace]
    follows the chain of saved frame pointers on the user stack.  The specifications: [look_up]
    on a list of symbols, and [bt_lines], the lines a backtrace prints for the list of return
    addresses that [unwinds] reads off the stack. *)
From S2P Require Import Prelude Mem CString Snprintf World Sample SpikeUtils SpikeFile Asm Process.

Definition SYS_user_base : Z := 64.
Definition SYS_user_print : Z := SYS_user_base + 0.
Definition SYS_user_exit : Z := SYS_user_base + 1.
Definition SYS_user_backtrace : Z := SYS_user_base + 2.
Definition ELF64_ST_TYPE (i : Z) : Z := Z.land i 0xf.
Definition STT_FUNC : Z := 2.

Section syscall.
Context {H : Type} `{HH : Host H} `{PP : Platform}.

(** [n] is ignored, and [buf] is the format string of [sprint]. *)
Definition sys_user_print (buf n : Z) : M (world H) Z :=
  sprint (Num buf) [];;
  mret 0.

Definition sys_user_exit (code : Z) : M (world H) Z :=
  sprint (Lit (bytes ("User exit with code:%d." +:+ newline))) [Num code];;
  shutdown (s32 code).

(** One round of the search; [inr] is a [return]. *)
Definition find_symbol_round (p vaddr end_ cursor : Z) : M (world H) (Z + option Z) :=
  if negb (cursor <? end_) then mret (inr None)
  else
    info ← on_mem (load8 (cursor + sym_info));
    if negb (ELF64_ST_TYPE info =? STT_FUNC) then mret (inl (cursor + sizeof_elf_symbol))
    else
      value ← load_field cursor sym_value;
      if value =? 0 then mret (inl (cursor + sizeof_elf_symbol))
      else
        let base_addr := value in
        size ← load_field cursor sym_size;
        let limit_addr := u64 (base_addr + (if truthy size then size else 4)) in
        if (vaddr >=? base_addr) && (vaddr <? limit_addr) then
          name ← on_mem (load32 (cursor + sym_name));
          strtab_sz ← load_field p proc_strtab_sz;
          if name <? strtab_sz then mret (inr (Some (p + proc_strtab + name)))
          else mret (inl (cursor + sizeof_elf_symbol))
        else mret (inl (cursor + sizeof_elf_symbol)).

(** The address of the name, or NULL. *)
Definition find_symbol_name (p vaddr : Z) : M (world H) (option Z) :=
  sym_count ← load_field p proc_sym_count;
  if sym_count =? 0 then mret None
  else
    strtab_sz ← load_field p proc_strtab_sz;
    if strtab_sz =? 0 then mret None
    else
      let cursor := p + proc_symtab in
      let end_ := p + proc_symtab + sym_count * sizeof_elf_symbol in
      loop (S (Z.to_nat sym_count)) (find_symbol_round p vaddr end_) cursor.

(** [sym_name && strcmp(sym_name, lit) == 0] *)
Definition named (sym_name : option Z) (lit : string) : M (world H) bool :=
  match sym_name with
  | None => mret false
  | Some a => c ← on_mem (strcmp a (addr_lit lit)); mret (c =? 0)
  end.

(** Lines 109 to 120: 1 when something was printed. *)
Definition print_frame (sym_name : option Z) (ret_addr : Z) : M (world H) bool :=
  match sym_name with
  | Some a =>
      pb ← named sym_name "print_backtrace";
      if (pb : bool) then mret false
      else
        uc ← named sym_name "do_user_call";
        if (uc : bool) then mret false
        else sprint (Lit (bytes ("%s" +:+ newline))) [Num a];; mret true
  | None => sprint (Lit (bytes ("0x%lx" +:+ newline))) [Num ret_addr];; mret true
  end.

(** One round of the walk over the frames; [inr] is a [break]. *)
Definition backtrace_round (max_depth current_sp : Z) (v : Z * Z) : M (world H) (Z * Z + Z) :=
  let '(current_fp, count) := v in
  if negb (truthy current_fp && (count <? max_depth)) then mret (inr count)
  else if (current_fp <=? current_sp) || (current_fp >=? USER_STACK) then mret (inr count)
  else if u64 (current_fp - 8) <=? current_sp then mret (inr count)
  else
    ret_addr ← on_mem (load64 (u64 (current_fp - 8)));
    if ret_addr =? 0 then mret (inr count)
    else
      current ← gets w_current;
      sym_name ← find_symbol_name current ret_addr;
      is_main ← named sym_name "main";
      if (is_main : bool) then mret (inr count)
      else
        valid_print ← print_frame sym_name ret_addr;
        let count := if (valid_print : bool) then count + 1 else count in
        if u64 (current_fp - 16) <=? current_sp then mret (inr count)
        else
          old_fp ← on_mem (load64 (u64 (current_fp - 16)));
          if (old_fp =? 0) || (old_fp <=? current_fp) || (old_fp >=? USER_STACK)
          then mret (inr count)
          else mret (inl (old_fp, count)).

(** The frame pointer grows and each round reads below it: no more rounds than mapped bytes,
    plus the rounds of a frame pointer below 8. *)
Definition backtrace_fuel (m : mem) : nat := 8 + scan_fuel m.

Definition sys_user_backtrace (max_depth : Z) : M (world H) Z :=
  if max_depth =? 0 then mret 0
  else
    current ← gets w_current;
    tf ← load_field current proc_trapframe;
    current_sp ← load_field tf (reg_offset Sp);
    current_fp ← load_field tf (reg_offset S0);
    if (current_fp =? 0) || (current_fp <=? current_sp) || (current_fp >=? USER_STACK)
    then mret 0
    else if u64 (current_fp - 8) <=? current_sp then mret 0
    else
      next_fp ← on_mem (load64 (u64 (current_fp - 8)));
      if (next_fp =? 0) || (next_fp <=? current_fp) || (next_fp >=? USER_STACK) then mret 0
      else
        fuel ← gets (λ w, backtrace_fuel (w_mem w));
        loop fuel (backtrace_round max_depth current_sp) (next_fp, 0).

Definition do_syscall (a0 a1 a2 a3 a4 a5 a6 a7 : Z) : M (world H) Z :=
  if a0 =? SYS_user_print then sys_user_print a1 a2
  else if a0 =? SYS_user_exit then sys_user_exit a1
  else if a0 =? SYS_user_backtrace then sys_user_backtrace a1
  else panic ("Unknown syscall %ld " +:+ newline) [Num a0].
End syscall.

(** * The symbol table *)
Record symbol := Symbol { sy_name : Z; sy_info : Z; sy_value : Z; sy_size : Z }.

(** Does [vaddr] fall in the function [s]? *)
Definition covers (s : symbol) (vaddr : Z) : bool :=
  (ELF64_ST_TYPE (sy_info s) =? STT_FUNC) && negb (sy_value s =? 0) &&
  (sy_value s <=? vaddr) &&
  (vaddr <? u64 (sy_value s + (if truthy (sy_size s) then sy_size s else 4))).

(** The offset in the string table of the first function that covers the address. *)
Definition look_up (syms : list symbol) (strtab_sz vaddr : Z) : option Z :=
  (sy_name ∘ snd) <$> list_find (λ s, covers s vaddr && (sy_name s <? strtab_sz) = true) syms.

(** The symbols as they lie in memory at [q]. *)
Fixpoint symbols_at (m : mem) (q : Z) (syms : list symbol) : Prop :=
  match syms with
  | [] => True
  | s :: syms' =>
      word32_at m (q + sym_name) = Some (sy_name s) ∧ m !! (q + sym_info) = Some (sy_info s) ∧
      word_at m (q + sym_value) = Some (sy_value s) ∧ word_at m (q + sym_size) = Some (sy_size s) ∧
      symbols_at m (q + sizeof_elf_symbol) syms'
  end.

(** The symbol table and the size of the string table of the process at [p]. *)
Definition symtab_at (m : mem) (p : Z) (syms : list symbol) (strtab_sz : Z) : Prop :=
  word_at m (p + proc_sym_count) = Some (Z.of_nat (length syms)) ∧
  word_at m (p + proc_strtab_sz) = Some strtab_sz ∧
  0 ≤ strtab_sz ∧ symbols_at m (p + proc_symtab) syms.

Section find_symbol.
Context {H : Type} `{HH : Host H} `{PP : Platform}.
Implicit Types w : world H.

Lemma on_mem_load64 w p v :
  word_at (w_mem w) p = Some v → (on_mem (load64 p) : M (world H) Z) w = Ret v w.
Proof. intros Hv. apply on_mem_read. by apply load64_word. Qed.
Lemma on_mem_load8 w p b :
  w_mem w !! p = Some b → (on_mem (load8 p) : M (world H) Z) w = Ret b w.
Proof. intros Hv. apply on_mem_read. by apply load8_Some. Qed.

(** A round either returns the name or goes on to the next entry. *)
Lemma find_symbol_round_Ret w p vaddr strtab_sz end_ q s :
  q < end_ → word_at (w_mem w) (p + proc_strtab_sz) = Some strtab_sz →
  word32_at (w_mem w) (q + sym_name) = Some (sy_name s) →
  w_mem w !! (q + sym_info) = Some (sy_info s) →
  word_at (w_mem w) (q + sym_value) = Some (sy_value s) →
  word_at (w_mem w) (q + sym_size) = Some (sy_size s) →
  find_symbol_round p vaddr end_ q w =
    Ret (if covers s vaddr && (sy_name s <? strtab_sz)
         then inr (Some (p + proc_strtab + sy_name s)) else inl (q + sizeof_elf_symbol)) w.
Proof.
  intros Hq Hsz Hname Hinfo Hval Hsize. unfold find_symbol_round, covers.
  rewrite (proj2 (Z.ltb_lt _ _) Hq). cbn [negb].
  mrun (on_mem_load8 w _ _ Hinfo). destruct (ELF64_ST_TYPE _ =? STT_FUNC); [|done]. cbn [negb andb].
  mrun (load_field_Ret w q sym_value _ Hval). destruct (sy_value s =? 0); [done|]. cbn [negb andb].
  mrun (load_field_Ret w q sym_size _ Hsize). cbv zeta. rewrite Z.geb_leb.
  destruct (_ <=? _); [|done]. destruct (_ <? _); [|done]. cbn [andb].
  mrun (on_mem_read (load32 (q + sym_name)) w _ (load32_word _ _ _ Hname)).
  mrun (load_field_Ret w p proc_strtab_sz _ Hsz). by destruct (_ <? _).
Qed.

Lemma find_symbol_loop w p vaddr strtab_sz end_ syms q fuel :
  word_at (w_mem w) (p + proc_strtab_sz) = Some strtab_sz →
  symbols_at (w_mem w) q syms → end_ = q + Z.of_nat (length syms) * sizeof_elf_symbol →
  (length syms < fuel)%nat →
  loop fuel (find_symbol_round p vaddr end_) q w =
    Ret ((λ n, p + proc_strtab + n) <$> look_up syms strtab_sz vaddr) w.
Proof.
  intros Hsz. revert q fuel. induction syms as [|s syms IH]; intros q fuel Hs He Hf;
    (destruct fuel as [|fuel]; [simpl in Hf; lia|]).
  - rewrite (loop_exit _ _ _ _ None w); [done|]. unfold find_symbol_round.
    rewrite (proj2 (Z.ltb_ge q end_)); [done|]. simpl in He. lia.
  - destruct Hs as (Hname & Hinfo & Hval & Hsize & Hrest). cbn [length] in He, Hf.
    unfold sizeof_elf_symbol in *.
    pose proof (find_symbol_round_Ret w p vaddr strtab_sz end_ q s ltac:(lia)
      Hsz Hname Hinfo Hval Hsize) as Hr.
    unfold look_up. cbn [list_find]. destruct (covers s vaddr && (sy_name s <? strtab_sz)) eqn:Hc;
      rewrite ?Hc in Hr.
    + rewrite (loop_exit _ _ _ _ _ w Hr). by rewrite decide_True.
    + rewrite (loop_step _ _ _ _ _ _ Hr). rewrite decide_False by done.
      rewrite (IH _ _ Hrest) by lia. unfold look_up.
      by destruct (list_find _ syms) as [[i s']|].
Qed.

Lemma find_symbol_name_Ret w p vaddr syms strtab_sz :
  symtab_at (w_mem w) p syms strtab_sz →
  find_symbol_name p vaddr w =
    Ret ((λ n, p + proc_strtab + n) <$>
           (if strtab_sz =? 0 then None else look_up syms strtab_sz vaddr)) w.
Proof.
  intros (Hc & Hsz & Hpos & Hs). unfold find_symbol_name.
  mrun (load_field_Ret w p proc_sym_count _ Hc).
  destruct syms as [|s syms]; [by destruct (strtab_sz =? 0)|].
  rewrite (proj2 (Z.eqb_neq _ _)) by (simpl; lia).
  mrun (load_field_Ret w p proc_strtab_sz _ Hsz). destruct (strtab_sz =? 0); [done|].
  cbv zeta. apply find_symbol_loop; [done..|]. rewrite Nat2Z.id. lia.
Qed.

Lemma look_up_Some syms sz vaddr n :
  look_up syms sz vaddr = Some n →
  ∃ i s, syms !! i = Some s ∧ covers s vaddr = true ∧ sy_name s = n ∧ n < sz ∧
    ∀ j s', syms !! j = Some s' → (j < i)%nat → covers s' vaddr && (sy_name s' <? sz) = false.
Proof.
  unfold look_up. intros ([i s] & (Hi & Hc & Hmin)%list_find_Some & ->)%fmap_Some.
  exists i, s. apply andb_prop in Hc as [Hc Hn]. split_and!; [done..|by apply Z.ltb_lt|].
  intros j s' Hj Hlt. apply not_true_is_false. by eapply Hmin.
Qed.

(** [find_symbol_name] looks [vaddr] up in the symbol table of the process and changes
    nothing: the name it returns is that of the first entry that is a function at a non-zero
    address, covers [vaddr] (a function of size 0 counts four bytes) and has its name start
    inside the string table; it returns NULL exactly when there is no such entry or no string
    table. *)
Theorem find_symbol_name_spec w p vaddr syms strtab_sz :
  symtab_at (w_mem w) p syms strtab_sz →
  ∃ r, find_symbol_name p vaddr w = Ret r w ∧
    match r with
    | Some a => ∃ i s, syms !! i = Some s ∧ covers s vaddr = true ∧
        a = p + proc_strtab + sy_name s ∧ sy_name s < strtab_sz ∧
        ∀ j s', syms !! j = Some s' → (j < i)%nat →
          covers s' vaddr = false ∨ strtab_sz ≤ sy_name s'
    | None => strtab_sz = 0 ∨
        ∀ s, s ∈ syms → covers s vaddr = false ∨ strtab_sz ≤ sy_name s
    end.
Proof.
  intros Hs. eexists. split; [by eapply find_symbol_name_Ret|].
  assert (∀ s, covers s vaddr && (sy_name s <? strtab_sz) = false →
    covers s vaddr = false ∨ strtab_sz ≤ sy_name s) as Hno.
  { intros s [?|?%Z.ltb_ge]%andb_false_iff; auto. }
  destruct (Z.eqb_spec strtab_sz 0) as [?|_]; [by left|].
  destruct (look_up syms strtab_sz vaddr) as [n|] eqn:Hl; cbn.
  - destruct (look_up_Some _ _ _ _ Hl) as (i & s & Hi & Hc & <- & Hn & Hmin).
    exists i, s. split_and!; eauto.
  - right. intros s Hin. apply Hno, not_true_is_false. intros Hc.
    unfold look_up in Hl. apply fmap_None in Hl.
    eapply list_find_None in Hl. rewrite Forall_forall in Hl. by apply (Hl s).
Qed.
End find_symbol.

(** * Backtraces *)

(** A frame pointer whose two words below it can be read. *)
Definition in_stack (sp fp : Z) : Prop := 16 ≤ fp ∧ sp < fp - 8 ∧ fp < USER_STACK.

(** The return addresses met from the frame [fp] upwards. *)
Inductive unwinds (m : mem) (sp : Z) : Z → list Z → Prop :=
| unwinds_zero fp : in_stack sp fp → word_at m (fp - 8) = Some 0 → unwinds m sp fp []
| unwinds_edge fp : in_stack sp fp → ∀ ra, word_at m (fp - 8) = Some ra → ra ≠ 0 →
    fp - 16 ≤ sp → unwinds m sp fp [ra]
| unwinds_last fp ra old : in_stack sp fp → word_at m (fp - 8) = Some ra → ra ≠ 0 →
    sp < fp - 16 → word_at m (fp - 16) = Some old → (old ≤ fp ∨ USER_STACK ≤ old) →
    unwinds m sp fp [ra]
| unwinds_next fp ra old rest : in_stack sp fp → word_at m (fp - 8) = Some ra → ra ≠ 0 →
    sp < fp - 16 → word_at m (fp - 16) = Some old → fp < old < USER_STACK →
    unwinds m sp old rest → unwinds m sp fp (ra :: rest).

(** What is printed for one return address [ra] whose function is [name]; nothing at all from [main]
    on ([None]). *)
Definition frame_lines (name : option (list Z)) (ra : Z) : option (list (list Z)) :=
  match name with
  | Some n =>
      if decide (n = bytes "main") then None
      else if decide (n = bytes "print_backtrace" ∨ n = bytes "do_user_call") then Some []
      else Some [n ++ [10]]
  | None => Some [bytes "0x" ++ hex 16 (s64 ra) ++ [10]]
  end.

(** The lines a backtrace of at most [depth] entries prints: the functions of the list, but the
    two of the user library, up to [main]; an address outside every function as a number. *)
Fixpoint bt_lines (name_of : Z → option (list Z)) (depth : Z) (rets : list Z) : list (list Z) :=
  match rets with
  | [] => []
  | ra :: rets =>
      if depth <=? 0 then []
      else match frame_lines (name_of ra) ra with
           | None => []
           | Some ls => ls ++ bt_lines name_of (depth - Z.of_nat (length ls)) rets
           end
  end.

(** The three literals the code compares names with. *)
Definition literals_at `{Platform} (m : mem) : Prop :=
  ∀ s, s ∈ ["main"; "print_backtrace"; "do_user_call"]%string → cstr m (addr_lit s) (bytes s).

(** [name_of] is what the symbol table says of the addresses in the list. *)
Definition names_at (m : mem) (p : Z) (syms : list symbol) (sz : Z)
    (name_of : Z → option (list Z)) (rets : list Z) : Prop :=
  Forall (λ ra, match (if sz =? 0 then None else look_up syms sz ra) with
                | Some off => ∃ n, name_of ra = Some n ∧ cstr m (p + proc_strtab + off) n ∧
                    Z.of_nat (length n) < 2 ^ 30
                | None => name_of ra = None
                end) rets.

(** The console after several texts. *)
Definition printed_all {H} `{Host H} (k : Z) (ls : list (list Z)) (w : world H) : world H :=
  set_host (host_calls (map (λ l, FeWrite k (printk_bytes l)) ls) (w_host w)) w.

Section backtrace.
Context {H : Type} `{HH : Host H} `{PP : Platform}.
Implicit Types w : world H.

Lemma printed_all_app k ls ls' w :
  printed_all k ls' (printed_all k ls w) = printed_all k (ls ++ ls') w.
Proof. unfold printed_all. cbn [w_host set_host]. by rewrite map_app, host_calls_app. Qed.
Lemma printed_all_nil k w : printed_all k [] w = w.
Proof. apply set_host_id. Qed.

Lemma scan_str_cstr m p s i fuel :
  cstr m (p + i) s → (length s < fuel)%nat → scan_str fuel m (Num p) i = Some s.
Proof.
  revert i fuel. induction s as [|b s IH]; intros i fuel Hs Hf;
    (destruct fuel as [|fuel]; [simpl in Hf; lia|]); cbn [scan_str cread]; cbn [cstr] in Hs.
  - by rewrite Hs.
  - destruct Hs as (Hb & Hne & Hs). rewrite Hb. simpl. unfold truthy.
    rewrite (proj2 (Z.eqb_neq _ _)) by done. simpl.
    rewrite IH; [done|by rewrite Z.add_assoc|simpl in Hf; lia].
Qed.
Lemma cstring_num m p s : cstr m p s → cstring m (Num p) = Some s.
Proof.
  intros Hs. pose proof (cstr_scan_fuel _ _ _ Hs). apply scan_str_cstr; [by rewrite Z.add_0_r|].
  unfold cread_fuel, scan_fuel. lia.
Qed.

Lemma named_Ret w a n lit :
  mem_wf (w_mem w) → cstr (w_mem w) a n → cstr (w_mem w) (addr_lit lit) (bytes lit) →
  named (Some a) lit w = Ret (bool_decide (n = bytes lit)) w.
Proof.
  intros Hwf Ha Hl. destruct (strcmp_Ret _ _ _ _ _ Hwf Ha Hl) as (c & Hc & Heq & _).
  unfold named. mrun (on_mem_read (strcmp a (addr_lit lit)) w c Hc). unfold mret, M_ret. f_equal.
  destruct (Z.eqb_spec c 0) as [H0|H0].
  - symmetry. apply bool_decide_eq_true. by apply Heq.
  - symmetry. apply bool_decide_eq_false. by rewrite <- Heq.
Qed.

(** Printing one frame: [a] is the address of the name [n] found for it. *)
Lemma print_frame_Ret w k (a : option Z) (n : option (list Z)) ra :
  console w k → mem_wf (w_mem w) → literals_at (w_mem w) →
  match a, n with
  | Some a, Some n => cstr (w_mem w) a n ∧ Z.of_nat (length n) < 2 ^ 30 ∧ n ≠ bytes "main"
  | None, None => True
  | _, _ => False
  end →
  ∃ ls, frame_lines n ra = Some ls ∧
    print_frame a ra w = Ret (negb (bool_decide (ls = []))) (printed_all k ls w).
Proof.
  intros Hk Hwf Hlit Han. unfold frame_lines, print_frame.
  destruct a as [a|], n as [n|]; try done.
  - destruct Han as (Hn & Hlen & Hmain). rewrite decide_False by done.
    mrun (named_Ret w a n "print_backtrace" Hwf Hn ltac:(apply Hlit; set_solver)).
    case_bool_decide as H1.
    { exists []. rewrite decide_True by auto. by rewrite printed_all_nil. }
    mrun (named_Ret w a n "do_user_call" Hwf Hn ltac:(apply Hlit; set_solver)).
    case_bool_decide as H2.
    { exists []. rewrite decide_True by auto. by rewrite printed_all_nil. }
    exists [n ++ [10]]. rewrite decide_False by tauto. split; [done|].
    rewrite (bind_Ret _ _ w tt (printed k (n ++ [10]) w)); [done|].
    eapply (sprint_Ret w k _ _ (37 :: 115 :: [10])); [done|by vm_compute| | |right; by vm_compute].
    + rewrite render_percent, (render_s _ _ _ _ _ n) by by apply cstring_num. done.
    + rewrite length_app. simpl length. lia.
  - exists [bytes "0x" ++ hex 16 (s64 ra) ++ [10]]. split; [done|].
    rewrite (bind_Ret _ _ w tt (printed k (bytes "0x" ++ hex 16 (s64 ra) ++ [10]) w)); [done|].
    eapply (sprint_Ret w k _ _ (bytes "0x" ++ 37 :: 108 :: 120 :: [10])); [done|by vm_compute| | |right; by vm_compute].
    + rewrite render_text by plain_tac.
      by rewrite render_percent, render_l, (render_x _ _ _ _ (s64 ra)).
    + by rewrite !length_app.
Qed.

(** What a walk needs of the machine: a console, sound memory, the literals and the symbols. *)
Record bt_context w (k p : Z) (syms : list symbol) (sz : Z) : Prop := {
  bt_console : console w k;
  bt_wf : mem_wf (w_mem w);
  bt_lits : literals_at (w_mem w);
  bt_current : w_current w = p;
  bt_symtab : symtab_at (w_mem w) p syms sz;
}.
Lemma bt_context_printed w k p syms sz ls :
  bt_context w k p syms sz → bt_context (printed_all k ls w) k p syms sz.
Proof. by intros []. Qed.

Lemma frame_lines_length n ra ls :
  frame_lines n ra = Some ls → Z.of_nat (length ls) = if bool_decide (ls = []) then 0 else 1.
Proof.
  unfold frame_lines. intros Hl.
  repeat (case_decide || case_match); try done; injection Hl as <-; done.
Qed.

(** One frame of the walk. *)
Lemma backtrace_round_Ret w k p syms sz name_of depth sp fp count ra :
  bt_context w k p syms sz → names_at (w_mem w) p syms sz name_of [ra] →
  in_stack sp fp → 0 ≤ sp → word_at (w_mem w) (fp - 8) = Some ra → ra ≠ 0 → count < depth →
  backtrace_round depth sp (fp, count) w =
    match frame_lines (name_of ra) ra with
    | None => Ret (inr count) w
    | Some ls =>
        let count' := count + Z.of_nat (length ls) in
        (if fp - 16 <=? sp then mret (inr count')
         else
           old_fp ← on_mem (load64 (fp - 16));
           if (old_fp =? 0) || (old_fp <=? fp) || (old_fp >=? USER_STACK)
           then mret (inr count') else mret (inl (old_fp, count'))) (printed_all k ls w)
    end.
Proof.
  intros [Hk Hwf Hlit Hcur Hst] Hn (H16 & H8 & Htop) Hsp Hra Hra0 Hcount.
  assert (USER_STACK < 2 ^ 63) by done. unfold backtrace_round, truthy.
  rewrite (proj2 (Z.eqb_neq fp 0)), (proj2 (Z.ltb_lt _ _) Hcount) by lia. cbn [negb andb].
  rewrite (Z.geb_leb fp), (proj2 (Z.leb_gt fp sp)), (proj2 (Z.leb_gt USER_STACK fp)) by lia. cbn [orb].
  rewrite !u64_id, (proj2 (Z.leb_gt (fp - 8) sp)) by lia.
  mrun (on_mem_load64 w _ _ Hra). rewrite (proj2 (Z.eqb_neq ra 0)) by done.
  unfold gets at 1. rewrite (bind_Ret _ _ w (w_current w) w) by done. rewrite Hcur.
  mrun (find_symbol_name_Ret w p ra syms sz Hst).
  inversion Hn as [|? ? Hna _]; subst. clear Hn.
  set (res := if sz =? 0 then None else look_up syms sz ra) in *.
  assert (∀ (a : option Z), (∀ n, name_of ra = Some n → n ≠ bytes "main") →
    match a, name_of ra with
    | Some a, Some n => cstr (w_mem w) a n ∧ Z.of_nat (length n) < 2 ^ 30 ∧ n ≠ bytes "main"
    | None, None => True | _, _ => False end →
    ∃ ls, frame_lines (name_of ra) ra = Some ls ∧
    (valid_print ← print_frame a ra;
     let count0 := if (valid_print : bool) then count + 1 else count in
     if fp - 16 <=? sp then mret (inr count0)
     else old_fp ← on_mem (load64 (fp - 16));
       if (old_fp =? 0) || (old_fp <=? fp) || (old_fp >=? USER_STACK)
       then mret (inr count0) else mret (inl (old_fp, count0))) w =
    (let count' := count + Z.of_nat (length ls) in
     if fp - 16 <=? sp then mret (inr count')
     else old_fp ← on_mem (load64 (fp - 16));
       if (old_fp =? 0) || (old_fp <=? fp) || (old_fp >=? USER_STACK)
       then mret (inr count') else mret (inl (old_fp, count'))) (printed_all k ls w)) as Hprint.
  { intros a Hm Han. destruct (print_frame_Ret w k a (name_of ra) ra Hk Hwf Hlit Han) as (ls & Hls & Hp).
    exists ls. split; [done|]. mrun Hp. rewrite (frame_lines_length _ _ _ Hls).
    cbv zeta. destruct (bool_decide _); cbn [negb]; by rewrite ?Z.add_0_r. }
  destruct res as [off|]; cbn [fmap option_fmap option_map].
  - destruct Hna as (n & Hname & Hcs & Hlen). rewrite Hname in Hprint |- *.
    mrun (named_Ret w _ n "main" Hwf Hcs ltac:(apply Hlit; set_solver)).
    case_bool_decide as Hmain.
    + unfold frame_lines. by rewrite decide_True.
    + destruct (Hprint (Some (w_current w + proc_strtab + off))) as (ls & -> & Hp);
        [by intros ? [= <-]|done|exact Hp].
  - rewrite Hna in Hprint |- *. rewrite (bind_Ret _ _ w false w) by done.
    destruct (Hprint None) as (ls & -> & Hp); [done|done|exact Hp].
Qed.

(** The two ways a round stops before it looks at a return address. *)
Lemma backtrace_round_full w depth sp fp count :
  depth ≤ count → backtrace_round depth sp (fp, count) w = Ret (inr count) w.
Proof.
  intros Hd. unfold backtrace_round. rewrite (proj2 (Z.ltb_ge count depth)) by lia.
  by rewrite andb_false_r.
Qed.
Lemma backtrace_round_zero w depth sp fp count :
  in_stack sp fp → 0 ≤ sp → word_at (w_mem w) (fp - 8) = Some 0 →
  backtrace_round depth sp (fp, count) w = Ret (inr count) w.
Proof.
  intros (H16 & H8 & Htop) Hsp H0. assert (USER_STACK < 2 ^ 63) by done. unfold backtrace_round.
  destruct (negb _); [done|]. destruct (_ || _); [done|]. rewrite !u64_id by lia.
  destruct (_ <=? _); [done|]. by mrun (on_mem_load64 w _ _ H0).
Qed.

(** The lines of a walk whose first frame is [ra]. *)
Lemma bt_lines_cons name_of depth count ra rets :
  count < depth →
  bt_lines name_of (depth - count) (ra :: rets) =
    match frame_lines (name_of ra) ra with
    | None => []
    | Some ls => ls ++ bt_lines name_of (depth - (count + Z.of_nat (length ls))) rets
    end.
Proof.
  intros Hd. cbn [bt_lines]. rewrite (proj2 (Z.leb_gt _ _)) by lia.
  destruct (frame_lines _ _) as [ls|]; [|done]. by rewrite Z.sub_add_distr.
Qed.

(** The walk prints the lines of the return addresses it meets and counts them. *)
Lemma backtrace_loop_Ret m k p syms sz name_of depth sp fp rets :
  unwinds m sp fp rets → 0 ≤ sp → ∀ fuel count w, (length rets < fuel)%nat →
  bt_context w k p syms sz → w_mem w = m → names_at m p syms sz name_of rets →
  loop fuel (backtrace_round depth sp) (fp, count) w =
    Ret (count + Z.of_nat (length (bt_lines name_of (depth - count) rets)))
      (printed_all k (bt_lines name_of (depth - count) rets) w).
Proof.
  intros Hun Hsp. induction Hun as
    [fp Hin H0|fp Hin ra Hra Hne Hedge|fp ra old Hin Hra Hne Hedge Hold Hstop
    |fp ra old rest Hin Hra Hne Hedge Hold Hnext Hun IH]; intros fuel count w Hf Hctx Hm Hnames;
    (destruct fuel as [|fuel]; [simpl in Hf; lia|]); subst m.
  { rewrite (loop_exit _ _ _ _ count w); [by rewrite printed_all_nil, Z.add_0_r|].
    by apply backtrace_round_zero. }
  all: destruct (decide (depth ≤ count)) as [Hd|Hd];
    [rewrite (loop_exit _ _ _ _ count w) by (by apply backtrace_round_full); cbn [bt_lines];
     rewrite (proj2 (Z.leb_le _ 0)) by lia; by rewrite printed_all_nil, Z.add_0_r|].
  all: rewrite bt_lines_cons by lia; inversion Hnames as [|? ? Hna Hrest]; subst.
  all: pose proof (backtrace_round_Ret w k p syms sz name_of depth sp fp count ra Hctx
    ltac:(by constructor) Hin Hsp Hra Hne ltac:(lia)) as Hr.
  all: destruct (frame_lines (name_of ra) ra) as [ls|];
    [|by rewrite (loop_exit _ _ _ _ count w Hr), printed_all_nil, Z.add_0_r]; cbv zeta in Hr.
  - rewrite (proj2 (Z.leb_le _ _) Hedge) in Hr. rewrite (loop_exit _ _ _ _ _ _ Hr).
    cbn [bt_lines]. by rewrite app_nil_r.
  - rewrite (proj2 (Z.leb_gt _ _) Hedge) in Hr. cbn [bt_lines]. rewrite app_nil_r.
    rewrite (bind_Ret _ _ _ old _ (on_mem_load64 (printed_all k ls w) _ _ Hold)) in Hr.
    rewrite Z.geb_leb in Hr. assert ((old <=? fp) = true ∨ (USER_STACK <=? old) = true) as Hb.
    { rewrite !Z.leb_le. done. }
    destruct (_ || _) eqn:E in Hr; [by rewrite (loop_exit _ _ _ _ _ _ Hr)|].
    exfalso. destruct Hb as [Hb|Hb]; rewrite Hb, ?orb_true_r in E; done.
  - rewrite (proj2 (Z.leb_gt _ _) Hedge) in Hr.
    rewrite (bind_Ret _ _ _ old _ (on_mem_load64 (printed_all k ls w) _ _ Hold)) in Hr.
    destruct Hin as (H16 & _).
    rewrite Z.geb_leb, (proj2 (Z.eqb_neq _ _)), (proj2 (Z.leb_gt old fp)),
      (proj2 (Z.leb_gt USER_STACK old)) in Hr by lia.
    rewrite (loop_step _ _ _ _ _ _ Hr), IH; [|simpl in Hf; lia|by apply bt_context_printed|done..].
    rewrite printed_all_app, length_app. f_equal. lia.
Qed.

(** The frames of a walk lie at growing addresses, so there are no more of them than words. *)
Lemma unwinds_length m sp fp rets :
  unwinds m sp fp rets → (length rets ≤ size (filter (λ a, fp - 8 ≤ a)%Z (dom m : gset Z)))%nat.
Proof.
  assert (∀ fp, is_Some (word_at m (fp - 8)) → (fp - 8) ∈ (dom m : gset Z)) as Hdom.
  { intros fp' Hw%word_at_inv. apply elem_of_dom. rewrite <- (Z.add_0_r (fp' - 8)). apply Hw. lia. }
  assert (∀ fp, is_Some (word_at m (fp - 8)) →
    (1 ≤ size (filter (λ a, fp - 8 ≤ a)%Z (dom m : gset Z)))%nat) as Hone.
  { intros fp' Hw. rewrite <- (size_singleton (C := gset Z) (fp' - 8)). apply subseteq_size.
    intros a ->%elem_of_singleton. apply elem_of_filter. split; [lia|by apply Hdom]. }
  induction 1 as [|fp ? ra Hra|fp ra old ? Hra|fp ra old rest Hin Hra Hne Hedge Hold Hnext Hun IH];
    [simpl; lia|apply Hone; by rewrite Hra..|].
  cbn [length]. etrans; [apply le_n_S, IH|]. apply subset_size. split.
  - intros a. rewrite !elem_of_filter. intros [? ?]. split; [lia|done].
  - intros Hsub. assert (fp - 8 ∈ filter (λ a, old - 8 ≤ a) (dom m : gset Z)) as Hx.
    { apply Hsub, elem_of_filter. split; [lia|]. apply Hdom. by rewrite Hra. }
    apply elem_of_filter in Hx as [? _]. lia.
Qed.

Lemma sys_user_backtrace_Ret w k p tf syms sz name_of sp fp next rets depth :
  bt_context w k p syms sz → layout (w_mem w) p tf →
  word_at (w_mem w) (tf + reg_offset Sp) = Some sp →
  word_at (w_mem w) (tf + reg_offset S0) = Some fp →
  in_stack sp fp → word_at (w_mem w) (fp - 8) = Some next → fp < next < USER_STACK →
  unwinds (w_mem w) sp next rets → names_at (w_mem w) p syms sz name_of rets → 0 ≤ depth →
  let lines := bt_lines name_of depth rets in
  sys_user_backtrace depth w = Ret (Z.of_nat (length lines)) (printed_all k lines w).
Proof.
  intros Hctx Hl Hsp Hfp (H16 & H8 & Htop) Hnext Hn Hun Hnames Hd lines.
  assert (USER_STACK < 2 ^ 63) by done. unfold sys_user_backtrace.
  destruct (Z.eqb_spec depth 0) as [->|Hd0].
  { unfold lines. destruct rets as [|ra rets]; cbn [bt_lines];
      by rewrite ?Z.leb_refl, printed_all_nil. }
  unfold gets at 1. rewrite (bind_Ret _ _ w (w_current w) w) by done.
  rewrite (bt_current _ _ _ _ _ Hctx).
  mrun (load_field_Ret w p proc_trapframe tf (lay_tf _ _ _ Hl)).
  mrun (load_field_Ret w tf (reg_offset Sp) sp Hsp). mrun (load_field_Ret w tf (reg_offset S0) fp Hfp).
  assert (0 ≤ sp) by (eapply (word_at_range _ _ _ (lay_wf _ _ _ Hl)); exact Hsp).
  rewrite !Z.geb_leb, (proj2 (Z.eqb_neq fp 0)), (proj2 (Z.leb_gt fp sp)),
    (proj2 (Z.leb_gt USER_STACK fp)) by lia. cbn [orb].
  rewrite u64_id, (proj2 (Z.leb_gt (fp - 8) sp)) by lia. mrun (on_mem_load64 w _ _ Hnext).
  rewrite !Z.geb_leb, (proj2 (Z.eqb_neq next 0)), (proj2 (Z.leb_gt next fp)),
    (proj2 (Z.leb_gt USER_STACK next)) by lia. cbn [orb].
  rewrite (bind_Ret _ _ w (backtrace_fuel (w_mem w)) w) by done.
  rewrite (backtrace_loop_Ret (w_mem w) k p syms sz name_of depth sp next rets Hun);
    [by rewrite Z.sub_0_r|done| |done..].
  pose proof (unwinds_length _ _ _ _ Hun) as Hlen. unfold backtrace_fuel, scan_fuel.
  assert (size (filter (λ a, next - 8 ≤ a)%Z (dom (w_mem w) : gset Z)) ≤ size (w_mem w))%nat; [|lia].
  rewrite <- size_dom. apply subseteq_size. intros a [_ Ha]%elem_of_filter. done.
Qed.

(** C15. [sys_user_backtrace] with a frame pointer inside the user stack skips the frame of
    [do_user_call] and prints, one per line, the functions of the callers found by following the
    saved frame pointers: at most [depth] of them, without the two functions of the user library,
    and none from [main] on; an address no symbol covers is printed as a number.  It returns how
    many lines it printed, and changes nothing but the console. *)
Theorem sys_user_backtrace_spec w k p tf syms sz name_of sp fp next rets depth :
  bt_context w k p syms sz → layout (w_mem w) p tf →
  word_at (w_mem w) (tf + reg_offset Sp) = Some sp →
  word_at (w_mem w) (tf + reg_offset S0) = Some fp →
  in_stack sp fp → word_at (w_mem w) (fp - 8) = Some next → fp < next < USER_STACK →
  unwinds (w_mem w) sp next rets → names_at (w_mem w) p syms sz name_of rets → 0 ≤ depth →
  let lines := bt_lines name_of depth rets in
  sys_user_backtrace depth w = Ret (Z.of_nat (length lines)) (printed_all k lines w).
Proof. apply sys_user_backtrace_Ret. Qed.
End backtrace.

(** * What every system call leaves alone, and that every call ends *)
Section frame.
Context {H : Type} `{HH : Host H} `{PP : Platform}.
Implicit Types w : world H.

Lemma load_field_reads p off : reads (S := world H) (load_field p off).
Proof. apply reads_zoom, load64_reads. Qed.
Lemma named_reads a lit : reads (S := world H) (named a lit).
Proof.
  intros P. destruct a; [|apply keeps_ret]. apply keeps_bind; [|keeps_tac].
  apply reads_zoom, strcmp_reads.
Qed.
Lemma find_symbol_round_reads p vaddr e q : reads (S := world H) (find_symbol_round p vaddr e q).
Proof.
  intros P. unfold find_symbol_round.
  pose proof (λ q off, load_field_reads q off P). pose proof (λ q, reads_zoom (S := world H) _ (load8_reads q) P).
  pose proof (λ q, reads_zoom (S := world H) _ (load32_reads q) P). keeps_tac.
Qed.
Lemma find_symbol_name_reads p vaddr : reads (S := world H) (find_symbol_name p vaddr).
Proof.
  intros P. pose proof (λ q off, load_field_reads q off P). unfold find_symbol_name.
  pose proof (λ e q, find_symbol_round_reads p vaddr e q P). keeps_tac.
Qed.

Section keeps.
Context (P : world H → Prop) (HP : host_blind P).

Lemma print_frame_keeps a ra : keeps P (print_frame a ra).
Proof using HP.
  pose proof (λ a lit, named_reads a lit P). destruct a; unfold print_frame; keeps_tac.
Qed.
Lemma backtrace_round_keeps depth sp v : keeps P (backtrace_round depth sp v).
Proof using HP.
  pose proof (λ a lit, named_reads a lit P). pose proof (λ p a, find_symbol_name_reads p a P).
  pose proof (λ q, reads_zoom (S := world H) _ (load64_reads q) P). pose proof print_frame_keeps.
  destruct v as [fp count]. unfold backtrace_round. keeps_tac.
Qed.
Lemma sys_user_backtrace_keeps depth : keeps P (sys_user_backtrace depth).
Proof using HP.
  pose proof (λ q off, load_field_reads q off P).
  pose proof (λ q, reads_zoom (S := world H) _ (load64_reads q) P).
  pose proof backtrace_round_keeps. unfold sys_user_backtrace. keeps_tac.
Qed.
Lemma do_syscall_keeps a0 a1 a2 a3 a4 a5 a6 a7 : keeps P (do_syscall a0 a1 a2 a3 a4 a5 a6 a7).
Proof using HP.
  pose proof sys_user_backtrace_keeps. unfold do_syscall, sys_user_print, sys_user_exit. keeps_tac.
Qed.
End keeps.

Lemma on_mem_terminates {A} (m : M mem A) w :
  terminates (m (w_mem w)) → terminates ((on_mem m : M (world H) A) w).
Proof. intros Hm. exact (terminates_zoom (S := world H) (T := mem) m w Hm). Qed.
Lemma load_field_terminates p off w : terminates (load_field p off w).
Proof. apply on_mem_terminates, load_le_terminates. Qed.
Lemma named_terminates a lit w : terminates (named a lit w).
Proof.
  destruct a; [|done]. apply terminates_bind; [|done]. apply on_mem_terminates, strcmp_terminates.
Qed.
Lemma find_symbol_round_terminates p vaddr e q w : terminates (find_symbol_round p vaddr e q w).
Proof.
  pose proof load_field_terminates. unfold find_symbol_round. destruct (negb _); [done|].
  apply terminates_bind; [apply on_mem_terminates, load8_terminates|]. intros info w1 _.
  destruct (negb _); [done|]. apply terminates_bind; [done|]. intros value w2 _.
  destruct (_ =? _); [done|]. apply terminates_bind; [done|]. intros size w3 _. cbv zeta.
  destruct (_ && _); [|done].
  apply terminates_bind; [apply on_mem_terminates, load_le_terminates|]. intros name w4 _.
  apply terminates_bind; [done|]. intros sz w5 _. by destruct (_ <? _).
Qed.
Lemma find_symbol_round_next p vaddr e q w q' w' :
  find_symbol_round p vaddr e q w = Ret (inl q') w' → q < e ∧ q' = q + sizeof_elf_symbol.
Proof.
  unfold find_symbol_round. destruct (Z.ltb_spec q e); cbn [negb]; [|done].
  intros (info & w1 & _ & H1)%bind_inv. split; [done|]. destruct (negb _); [by injection H1 as <- <-|].
  apply bind_inv in H1 as (value & w2 & _ & H2). destruct (_ =? _); [by injection H2 as <- <-|].
  apply bind_inv in H2 as (size & w3 & _ & H3). cbv zeta in H3. destruct (_ && _); [|by injection H3 as <- <-].
  apply bind_inv in H3 as (name & w4 & _ & H4). apply bind_inv in H4 as (sz & w5 & _ & H5).
  destruct (_ <? _); [done|by injection H5 as <- <-].
Qed.
Lemma find_symbol_name_terminates p vaddr w : terminates (find_symbol_name p vaddr w).
Proof.
  pose proof load_field_terminates. apply terminates_bind; [done|]. intros n w1 _.
  destruct (_ =? _); [done|]. apply terminates_bind; [done|]. intros sz w2 _.
  destruct (_ =? _); [done|]. cbv zeta. set (e := p + proc_symtab + n * sizeof_elf_symbol).
  apply (loop_terminates _ (λ _ _, True) (λ q _, Z.to_nat ((e - q + 23) / 24))); [|done|].
  - intros q w3 _. split; [apply find_symbol_round_terminates|].
    intros q' w4 [Hq ->]%find_symbol_round_next. split; [done|]. unfold sizeof_elf_symbol.
    replace (e - q + 23) with (e - (q + 24) + 23 + 1 * 24) by lia. rewrite Z.div_add by lia.
    pose proof (Z.div_le_lower_bound (e - (q + 24) + 23) 24 0). lia.
  - unfold e, sizeof_elf_symbol.
    replace (p + proc_symtab + n * 24 - (p + proc_symtab) + 23) with (23 + n * 24) by lia.
    rewrite Z.div_add by lia. change (23 / 24) with 0. lia.
Qed.

Lemma on_mem_load64_inv p w v w' :
  (on_mem (load64 p) : M (world H) Z) w = Ret v w' → word_at (w_mem w) p = Some v ∧ w' = w.
Proof.
  unfold zoom, load64, load_le, word_at. cbn [lget world_mem]. destruct (read_bytes _ _ _); [|done].
  intros [= <- <-]. split; [done|apply set_mem_id].
Qed.
Lemma print_frame_terminates a ra w : terminates (print_frame a ra w).
Proof.
  pose proof named_terminates. unfold print_frame. destruct a.
  - apply terminates_bind; [done|]. intros b w1 _. destruct b; [done|].
    apply terminates_bind; [done|]. intros b' w2 _. destruct b'; [done|].
    apply terminates_bind; [apply vprintk_terminates|done].
  - apply terminates_bind; [apply vprintk_terminates|done].
Qed.
Lemma backtrace_round_terminates depth sp v w : terminates (backtrace_round depth sp v w).
Proof.
  destruct v as [fp count]. unfold backtrace_round.
  destruct (negb _); [done|]. destruct (_ || _); [done|]. destruct (_ <=? _); [done|].
  apply terminates_bind; [apply on_mem_terminates, load_le_terminates|]. intros ra w1 _.
  destruct (_ =? _); [done|]. apply terminates_bind; [done|]. intros cur w2 _.
  apply terminates_bind; [apply find_symbol_name_terminates|]. intros a w3 _.
  apply terminates_bind; [apply named_terminates|]. intros b w4 _. destruct b; [done|].
  apply terminates_bind; [apply print_frame_terminates|]. intros b w5 _. cbv zeta.
  destruct (_ <=? _); [done|].
  apply terminates_bind; [apply on_mem_terminates, load_le_terminates|]. intros old w6 _.
  by destruct (_ || _).
Qed.
Lemma backtrace_round_next depth sp fp count w fp' count' w' :
  backtrace_round depth sp (fp, count) w = Ret (inl (fp', count')) w' →
  fp < fp' ∧ fp < USER_STACK ∧ is_Some (word_at (w_mem w) (u64 (fp - 8))) ∧ w_mem w' = w_mem w.
Proof.
  intros Hr. assert (w_mem w' = w_mem w) as Hm.
  { eapply (keeps_Ret (λ w', w_mem w' = w_mem w)); [|reflexivity|exact Hr].
    apply backtrace_round_keeps. intros h v Hv. exact Hv. }
  revert Hr. unfold backtrace_round.
  destruct (negb _); [done|]. destruct (_ || _) eqn:Hrange; [done|]. destruct (u64 _ <=? _); [done|].
  apply orb_false_iff in Hrange as [_ Htop]. rewrite Z.geb_leb in Htop. apply Z.leb_gt in Htop.
  intros (ra & w1 & [Hra ->]%on_mem_load64_inv & Hr)%bind_inv. destruct (_ =? _); [done|].
  apply bind_inv in Hr as (cur & w2 & _ & Hr). apply bind_inv in Hr as (a & w3 & _ & Hr).
  apply bind_inv in Hr as (b & w4 & _ & Hr). destruct b; [done|].
  apply bind_inv in Hr as (b & w5 & _ & Hr). cbv zeta in Hr. destruct (u64 _ <=? _); [done|].
  apply bind_inv in Hr as (old & w6 & _ & Hr). destruct (_ || _) eqn:Hold in Hr; [done|].
  injection Hr as -> _ _. apply orb_false_iff in Hold as [Hold _].
  apply orb_false_iff in Hold as [_ Hold]. apply Z.leb_gt in Hold. rewrite Hra. eauto.
Qed.

(** The measure of the walk: what is left below 8, and the mapped bytes above the frame. *)
Definition bt_measure (m : mem) (fp : Z) : nat :=
  Z.to_nat (8 - fp) + size (filter (λ a, fp - 8 ≤ a)%Z (dom m : gset Z)).
Lemma bt_measure_bound m fp : 0 ≤ fp → (bt_measure m fp < backtrace_fuel m)%nat.
Proof.
  intros Hfp. unfold bt_measure, backtrace_fuel, scan_fuel.
  assert (size (filter (λ a, fp - 8 ≤ a)%Z (dom m : gset Z)) ≤ size m)%nat; [|lia].
  rewrite <- size_dom. apply subseteq_size. by intros a [_ Ha]%elem_of_filter.
Qed.
Lemma bt_measure_lt m fp fp' :
  0 ≤ fp < USER_STACK → fp < fp' → is_Some (word_at m (u64 (fp - 8))) →
  (bt_measure m fp' < bt_measure m fp)%nat.
Proof.
  intros Hfp Hlt Hw. assert (USER_STACK < 2 ^ 63) by done. unfold bt_measure.
  assert (filter (λ a, fp' - 8 ≤ a)%Z (dom m : gset Z) ⊆ filter (λ a, fp - 8 ≤ a)%Z (dom m : gset Z)) as Hsub.
  { intros a. rewrite !elem_of_filter. intros [? ?]. split; [lia|done]. }
  destruct (decide (fp < 8)).
  - apply subseteq_size in Hsub. lia.
  - rewrite u64_id in Hw by lia. apply word_at_inv in Hw.
    enough (size (filter (λ a, fp' - 8 ≤ a)%Z (dom m : gset Z)) <
            size (filter (λ a, fp - 8 ≤ a)%Z (dom m : gset Z)))%nat by lia.
    apply subset_size. split; [done|]. intros Hsub'.
    assert (fp - 8 ∈ filter (λ a, fp' - 8 ≤ a)%Z (dom m : gset Z)) as Hx; [|apply elem_of_filter in Hx; lia].
    apply Hsub', elem_of_filter. split; [lia|]. apply elem_of_dom.
    rewrite <- (Z.add_0_r (fp - 8)). apply Hw. lia.
Qed.

Lemma sys_user_backtrace_terminates depth w :
  mem_wf (w_mem w) → terminates (sys_user_backtrace depth w).
Proof.
  intros Hwf. pose proof load_field_terminates. unfold sys_user_backtrace.
  destruct (_ =? _); [done|]. apply terminates_bind; [done|]. intros cur w1 [= <- <-].
  apply terminates_bind; [done|]. intros tf w1 ->%(reads_Ret _ _ _ _ (load_field_reads _ _)).
  apply terminates_bind; [done|]. intros sp w1 ->%(reads_Ret _ _ _ _ (load_field_reads _ _)).
  apply terminates_bind; [done|]. intros fp w1 ->%(reads_Ret _ _ _ _ (load_field_reads _ _)).
  destruct (_ || _); [done|]. destruct (_ <=? _); [done|].
  apply terminates_bind; [apply on_mem_terminates, load_le_terminates|].
  intros next w1 [Hnext ->]%on_mem_load64_inv. destruct (_ || _); [done|].
  apply terminates_bind; [done|]. intros fuel w1 [= <- <-].
  apply (loop_terminates _ (λ v w', 0 ≤ v.1 ∧ w_mem w' = w_mem w)
    (λ v _, bt_measure (w_mem w) v.1)).
  - intros [f c] w2 [Hf Hm]. split; [apply backtrace_round_terminates|].
    intros [f' c'] w3 (Hlt & Htop & Hw & Hm')%backtrace_round_next. cbn [fst] in *.
    rewrite Hm in *. split; [split; [lia|congruence]|]. by apply bt_measure_lt.
  - split; [|done]. eapply word_at_range; [exact Hwf|exact Hnext].
  - apply bt_measure_bound. eapply word_at_range; [exact Hwf|exact Hnext].
Qed.

Lemma do_syscall_ends a0 a1 a2 a3 a4 a5 a6 a7 w :
  mem_wf (w_mem w) →
  terminates (do_syscall a0 a1 a2 a3 a4 a5 a6 a7 w) ∧
  (∀ r w', do_syscall a0 a1 a2 a3 a4 a5 a6 a7 w = Ret r w' → w' = set_host (w_host w') w) ∧
  (∀ w', do_syscall a0 a1 a2 a3 a4 a5 a6 a7 w = Halted w' → w' = set_host (w_host w') w).
Proof.
  intros Hwf. split.
  - unfold do_syscall, sys_user_print, sys_user_exit. destruct (_ =? _).
    { apply terminates_bind; [apply vprintk_terminates|done]. }
    destruct (_ =? _).
    { apply terminates_bind; [apply vprintk_terminates|]. intros [] w1 _. apply shutdown_terminates. }
    destruct (_ =? _); [by apply sys_user_backtrace_terminates|apply panic_terminates].
  - pose proof (do_syscall_keeps (λ w', w' = set_host (w_host w') w)) as Hk.
    assert (host_blind (λ w', w' = set_host (w_host w') w)) as Hb by (intros h w' ->; done).
    specialize (Hk Hb a0 a1 a2 a3 a4 a5 a6 a7 w ltac:(by destruct w)).
    split; [intros r w' Hr|intros w' Hr]; by rewrite Hr in Hk.
Qed.

(** C20. Every system call, whatever its number and its arguments and whatever the user program
    left on its stack, comes to an end without exhausting a loop bound, and changes neither the
    memory nor a CSR nor a variable of the kernel: the host is all it acts on. *)
Theorem do_syscall_frame a0 a1 a2 a3 a4 a5 a6 a7 w :
  mem_wf (w_mem w) →
  terminates (do_syscall a0 a1 a2 a3 a4 a5 a6 a7 w) ∧
  (∀ r w', do_syscall a0 a1 a2 a3 a4 a5 a6 a7 w = Ret r w' → w' = set_host (w_host w') w) ∧
  (∀ w', do_syscall a0 a1 a2 a3 a4 a5 a6 a7 w = Halted w' → w' = set_host (w_host w') w).
Proof. apply do_syscall_ends. Qed.
End frame.

Section dispatch.
Context {H : Type} `{HH : Host H} `{PP : Platform}.
Implicit Types w : world H.

(** The user's text is a format: a conversion at its start reads an argument nobody passed. *)
Lemma vsnprintf_missing m n p rest out :
  cstr m p (37 :: 100 :: rest) → vsnprintf m n (Num p) [] out = Fault.
Proof.
  intros Hs. pose proof (cstr_scan_fuel _ _ _ Hs) as Hf. cbn [length] in Hf.
  cbn [cstr] in Hs. destruct Hs as (H0 & _ & H1 & _).
  unfold vsnprintf, cread_fuel, scan_fuel. destruct (size m) as [|[|f]]; [lia..|].
  unfold fmt_loop. apply bind_Fault.
  erewrite (loop_step _ _ _ _ (0 + 1, FmtState true false 0 [])).
  2:{ cbn [cread]. rewrite Z.add_0_r, H0. reflexivity. }
  cbn [loop]. apply bind_Fault. cbn [cread]. rewrite Z.add_0_l, H1. reflexivity.
Qed.

Lemma do_syscall_print_Ret w k buf n a3 a4 a5 a6 a7 fmt r :
  console w k → cstr (w_mem w) buf fmt → render (w_mem w) fmt false false [] = Some r →
  Z.of_nat (length r) < 2 ^ 31 →
  do_syscall SYS_user_print buf n a3 a4 a5 a6 a7 w = Ret 0 (printed k r w) ∧
  (Forall plain fmt → r = fmt) ∧
  ∀ p rest, cstr (w_mem w) p (37 :: 100 :: rest) →
    do_syscall SYS_user_print p n a3 a4 a5 a6 a7 w = Fault.
Proof.
  intros Hk Hs Hr Hl. split_and!.
  - change (do_syscall _ _ _ _ _ _ _ _ w) with (sys_user_print (H := H) buf n w).
    unfold sys_user_print. rewrite (bind_Ret _ _ w tt (printed k r w)); [done|].
    eapply sprint_Ret; [done|by apply cstring_num|done|done|right; by eapply render_nil_no_char].
  - intros Hp. rewrite (render_plain _ _ _ _ Hp) in Hr. by injection Hr as ->.
  - intros p rest Hp.
    change (do_syscall _ _ _ _ _ _ _ _ w) with (sys_user_print (H := H) p n w).
    apply bind_Fault. unfold sprint, vprintk. by rewrite (vsnprintf_missing _ _ _ _ _ Hp).
Qed.

(** [SYS_user_print] sends the text at [buf] to the console, as [sprint] with the text as
    its format does, and returns 0.  The length the caller passes plays no part; a text that
    starts with a conversion has the kernel read an argument that does not exist. *)
Theorem do_syscall_print w k buf n a3 a4 a5 a6 a7 fmt r :
  console w k → cstr (w_mem w) buf fmt → render (w_mem w) fmt false false [] = Some r →
  Z.of_nat (length r) < 2 ^ 31 →
  do_syscall SYS_user_print buf n a3 a4 a5 a6 a7 w = Ret 0 (printed k r w) ∧
  (Forall plain fmt → r = fmt) ∧
  ∀ p rest, cstr (w_mem w) p (37 :: 100 :: rest) →
    do_syscall SYS_user_print p n a3 a4 a5 a6 a7 w = Fault.
Proof. apply do_syscall_print_Ret. Qed.

Definition exit_msg (code : Z) : list Z :=
  bytes "User exit with code:" ++ dec (s32 code) ++ bytes ("." +:+ newline).

Lemma do_syscall_stops_Halted w k a0 a1 a2 a3 a4 a5 a6 a7 :
  console w k → 0 ≤ va_area < 2 ^ 63 →
  do_syscall SYS_user_exit a1 a2 a3 a4 a5 a6 a7 w =
    Halted (set_host (host_calls [FeWrite k (printk_bytes (exit_msg a1));
      FeWrite k (printk_bytes (shutdown_msg (s32 a1))); FeExit (s32 a1)] (w_host w)) w) ∧
  (a0 ∉ [SYS_user_print; SYS_user_exit; SYS_user_backtrace] →
   do_syscall a0 a1 a2 a3 a4 a5 a6 a7 w =
     Halted (set_host (host_calls
       [FeWrite k (printk_bytes (bytes "Unknown syscall " ++ dec va_area ++
          bytes (" " +:+ newline +:+ newline)));
        FeWrite k (printk_bytes (shutdown_msg (-1))); FeExit (-1)] (w_host w)) w)).
Proof.
  intros Hk Hva. pose proof (s32_range a1). split.
  - change (do_syscall _ _ _ _ _ _ _ _ w) with (sys_user_exit (H := H) a1 w).
    unfold sys_user_exit. rewrite (bind_Ret _ _ w tt (printed k (exit_msg a1) w)).
    + by rewrite (shutdown_Halted _ k).
    + apply (sprint_Ret w k _ _ (bytes "User exit with code:" ++ 37 :: 100 :: bytes ("." +:+ newline)));
        [done|apply cstring_lit; vm_compute; repeat constructor; done| | |right; by vm_compute].
      * rewrite render_text by plain_tac.
        rewrite render_percent, (render_d _ _ _ _ (s32 a1)) by (done || lia).
        by rewrite render_plain by plain_tac.
      * unfold exit_msg. rewrite !length_app. pose proof (dec_length (s32 a1) ltac:(lia)).
        replace (length (bytes "User exit with code:")) with 20%nat by done.
        replace (length (bytes ("." +:+ newline))) with 2%nat by done. lia.
  - intros Hne. rewrite !not_elem_of_cons in Hne. destruct Hne as (H1 & H2 & H3 & _).
    unfold do_syscall. rewrite !(proj2 (Z.eqb_neq _ _)) by done.
    by apply unknown_syscall_Halted.
Qed.

(** [SYS_user_exit] never returns: it prints the exit code as a 32-bit number and shuts the
    machine down with it.  A number that is none of the three prints the panic message, in which
    the address of the kernel's argument list stands where the number should be, and shuts down
    with -1. *)
Theorem do_syscall_stops w k a0 a1 a2 a3 a4 a5 a6 a7 :
  console w k → 0 ≤ va_area < 2 ^ 63 →
  do_syscall SYS_user_exit a1 a2 a3 a4 a5 a6 a7 w =
    Halted (set_host (host_calls [FeWrite k (printk_bytes (exit_msg a1));
      FeWrite k (printk_bytes (shutdown_msg (s32 a1))); FeExit (s32 a1)] (w_host w)) w) ∧
  (a0 ∉ [SYS_user_print; SYS_user_exit; SYS_user_backtrace] →
   do_syscall a0 a1 a2 a3 a4 a5 a6 a7 w =
     Halted (set_host (host_calls
       [FeWrite k (printk_bytes (bytes "Unknown syscall " ++ dec va_area ++
          bytes (" " +:+ newline +:+ newline)));
        FeWrite k (printk_bytes (shutdown_msg (-1))); FeExit (-1)] (w_host w)) w)).
Proof. apply do_syscall_stops_Halted. Qed.
End dispatch.

(** * Instances *)
Import SampleMachine.

Definition write_words (m : mem) (l : list (Z * Z)) : mem :=
  foldl (λ m '(a, v), write_word m a v) m l.
Lemma write_words_frame m l p n : frame m p n → frame (write_words m l) p n.
Proof.
  revert m. induction l as [|[a v] l IH]; intros m Hm; [done|]. by apply IH, frame_write_word.
Qed.
Lemma write_words_wf m l : mem_wf m → mem_wf (write_words m l).
Proof.
  revert m. induction l as [|[a v] l IH]; intros m Hm; [done|]. by apply IH, mem_wf_write_word.
Qed.
Lemma write_words_word m l p :
  forallb (λ av, (p + 8 <=? av.1) || (av.1 + 8 <=? p)) l = true → word_at (write_words m l) p = word_at m p.
Proof.
  revert m. induction l as [|[a v] l IH]; intros m; [done|]. cbn [forallb fst]. intros [Ha Hl]%andb_prop.
  cbn [write_words foldl]. rewrite <- (word_at_write_ne m p a v) by lia. by apply IH.
Qed.
(** A program of three functions stopped in [do_user_call], called by [print_backtrace], called
    by [f8], called by [main]. *)
Definition bt_strtab : list Z :=
  [0] ++ bytes "main" ++ [0] ++ bytes "f8" ++ [0] ++ bytes "print_backtrace" ++ [0].
Definition bt_syms : list symbol :=
  [Symbol 1 2 0x81000000 0x40; Symbol 6 18 0x81000040 0x40; Symbol 9 18 0x81000080 0].
Definition bt_base : mem :=
  write_bytes (write_bytes (write_bytes (write_bytes ∅
    (addr_lit "main") (bytes "main" ++ [0]))
    (addr_lit "print_backtrace") (bytes "print_backtrace" ++ [0]))
    (addr_lit "do_user_call") (bytes "do_user_call" ++ [0]))
    0x810ff000 (replicate 128 0).
Definition bt_sym_words (p : Z) : list (Z * Z) :=
  [(p + proc_symtab, 1 + 2 * 2 ^ 32); (p + proc_symtab + 8, 0x81000000); (p + proc_symtab + 16, 0x40);
   (p + proc_symtab + 24, 6 + 18 * 2 ^ 32); (p + proc_symtab + 32, 0x81000040); (p + proc_symtab + 40, 0x40);
   (p + proc_symtab + 48, 9 + 18 * 2 ^ 32); (p + proc_symtab + 56, 0x81000080);
   (p + proc_sym_count, 3); (p + proc_strtab_sz, 25);
   (USER_TRAP_FRAME + reg_offset Sp, 0x810ff000); (USER_TRAP_FRAME + reg_offset S0, 0x810ff020);
   (0x810ff018, 0x810ff040); (0x810ff038, 0x81000050); (0x810ff030, 0x810ff060);
   (0x810ff058, 0x81000010); (0x810ff050, 0x810ff080)].
Definition bt_mem : mem :=
  write_words (write_bytes (sample_process bt_base 0x81000084) (sample_proc + proc_strtab) bt_strtab)
    (bt_sym_words sample_proc).
Definition bt_world : world sample_host := set_current sample_proc (sample_world bt_mem []).

Lemma bt_base_wf : mem_wf bt_base.
Proof.
  unfold bt_base. repeat apply mem_wf_write_bytes; try apply Forall_app_2; try apply bytes_range;
    [apply map_Forall_empty|repeat constructor; lia..|apply Forall_replicate; lia].
Qed.
Lemma bt_mem_layout : layout bt_mem sample_proc USER_TRAP_FRAME.
Proof.
  destruct (sample_process_layout bt_base 0x81000084 bt_base_wf) as [Hwf Hp Hn Ht Hf Hd].
  split; [| |done| | |done].
  - apply write_words_wf, mem_wf_write_bytes; [done|]. unfold bt_strtab.
    repeat (apply Forall_app_2; [first [apply bytes_range|repeat constructor; lia]|]).
    repeat constructor; lia.
  - apply write_words_frame. destruct Hp as (? & ? & ?). split_and!; [done..|by apply mapped_write_bytes].
  - unfold bt_mem. rewrite write_words_word by reflexivity. rewrite <- Ht. apply word_at_write_bytes_ne.
    left. apply Z.leb_le. reflexivity.
  - apply write_words_frame. destruct Hf as (? & ? & ?). split_and!; [done..|by apply mapped_write_bytes].
Qed.
Lemma bt_mem_symtab : symtab_at bt_mem sample_proc bt_syms 25.
Proof. vm_compute. repeat split; discriminate. Qed.

Lemma bt_context_sample : bt_context bt_world 2 sample_proc bt_syms 25.
Proof.
  split.
  - apply sample_console.
  - apply bt_mem_layout.
  - intros s Hs. rewrite !elem_of_cons in Hs. destruct Hs as [->|[->|[->|[]%elem_of_nil]]];
      vm_compute; repeat split; discriminate.
  - reflexivity.
  - apply bt_mem_symtab.
Qed.

Lemma find_symbol_name_spec_witness :
  symtab_at (w_mem bt_world) sample_proc bt_syms 25 ∧
  ∃ r, find_symbol_name sample_proc 0x81000050 bt_world = Ret r bt_world ∧
    match r with
    | Some a => ∃ i s, bt_syms !! i = Some s ∧ covers s 0x81000050 = true ∧
        a = sample_proc + proc_strtab + sy_name s ∧ sy_name s < 25 ∧
        ∀ j s', bt_syms !! j = Some s' → (j < i)%nat → covers s' 0x81000050 = false ∨ 25 ≤ sy_name s'
    | None => 25 = 0 ∨ ∀ s, s ∈ bt_syms → covers s 0x81000050 = false ∨ 25 ≤ sy_name s
    end.
Proof.
  split; [apply bt_mem_symtab|].
  apply (find_symbol_name_spec bt_world sample_proc 0x81000050 bt_syms 25). apply bt_mem_symtab.
Defined.

Definition bt_names (ra : Z) : option (list Z) :=
  if ra =? 0x81000050 then Some (bytes "f8") else Some (bytes "main").

(** The walk prints the line "f8" and returns 1. *)
Lemma sys_user_backtrace_spec_witness :
  let lines := bt_lines bt_names 7 [0x81000050; 0x81000010] in
  lines = [bytes "f8" ++ [10]] ∧
  sys_user_backtrace 7 bt_world =
    Ret (Z.of_nat (length lines)) (printed_all 2 lines bt_world).
Proof.
  split; [reflexivity|].
  apply (sys_user_backtrace_spec bt_world 2 sample_proc USER_TRAP_FRAME bt_syms 25 bt_names
           0x810ff000 0x810ff020 0x810ff040).
  - apply bt_context_sample.
  - apply bt_mem_layout.
  - by vm_compute.
  - by vm_compute.
  - by vm_compute.
  - by vm_compute.
  - done.
  - eapply (unwinds_next _ _ _ _ 0x810ff060); [done|by vm_compute|done|done|by vm_compute|done|].
    eapply (unwinds_next _ _ _ _ 0x810ff080); [done|by vm_compute|done|done|by vm_compute|done|].
    apply unwinds_zero; [done|by vm_compute].
  - repeat constructor; eexists; (split; [reflexivity|]); vm_compute; repeat split; discriminate.
  - done.
Defined.

Lemma do_syscall_frame_witness :
  terminates (do_syscall 66 7 0 0 0 0 0 0 bt_world) ∧
  (∀ r w', do_syscall 66 7 0 0 0 0 0 0 bt_world = Ret r w' → w' = set_host (w_host w') bt_world) ∧
  (∀ w', do_syscall 66 7 0 0 0 0 0 0 bt_world = Halted w' → w' = set_host (w_host w') bt_world).
Proof. apply (do_syscall_frame 66 7 0 0 0 0 0 0 bt_world). apply bt_mem_layout. Defined.

Definition print_mem : mem :=
  write_bytes (write_bytes ∅ 4096 (bytes "hello" ++ [0])) 8192 (bytes "%d" ++ [0]).

Lemma do_syscall_print_witness :
  let w := sample_world print_mem [] in
  do_syscall SYS_user_print 4096 0 0 0 0 0 0 w = Ret 0 (printed 2 (bytes "hello") w) ∧
  (Forall plain (bytes "hello") → bytes "hello" = bytes "hello") ∧
  ∀ p rest, cstr print_mem p (37 :: 100 :: rest) →
    do_syscall SYS_user_print p 0 0 0 0 0 0 w = Fault.
Proof.
  apply (do_syscall_print (sample_world print_mem []) 2 4096 0 0 0 0 0 0 (bytes "hello") (bytes "hello"));
    [apply sample_console|vm_compute; repeat split; discriminate|by vm_compute|by vm_compute].
Defined.

Lemma do_syscall_stops_witness :
  let w := sample_world ∅ [] in
  do_syscall SYS_user_exit 3 0 0 0 0 0 0 w =
    Halted (set_host (host_calls [FeWrite 2 (printk_bytes (exit_msg 3));
      FeWrite 2 (printk_bytes (shutdown_msg (s32 3))); FeExit (s32 3)] (w_host w)) w) ∧
  (99 ∉ [SYS_user_print; SYS_user_exit; SYS_user_backtrace] →
   do_syscall 99 3 0 0 0 0 0 0 w =
     Halted (set_host (host_calls
       [FeWrite 2 (printk_bytes (bytes "Unknown syscall " ++ dec va_area ++
          bytes (" " +:+ newline +:+ newline)));
        FeWrite 2 (printk_bytes (shutdown_msg (-1))); FeExit (-1)] (w_host w)) w)).
Proof.
  apply (do_syscall_stops (sample_world ∅ []) 2 99 3); [apply sample_console|split; by vm_compute].
Defined.
