(* ===== verification/Strap.v ===== *)
(** Supervisor traps: kernel/strap.c, composed with the trap entry of Asm.v and the [switch_to]
    of Process.v into the whole round a trap makes, from a user context back to a user context.

    The hardware's part (saving the pc in [sepc], the cause in [scause], the mode in [sstatus])
    is in the hypotheses on the CSRs of the world a round starts in. *)
From S2P Require Import Prelude Mem CString Snprintf World Sample SpikeUtils SpikeFile Asm Process Syscall.

Section strap.
Context {H : Type} `{HH : Host H} `{PP : Platform}.

Definition handle_syscall (tf : Z) : M (world H) () :=
  epc ← load_field tf tf_epc;
  store_field tf tf_epc (u64 (epc + 4));;
  a0 ← load_field tf (reg_offset A0); a1 ← load_field tf (reg_offset A1);
  a2 ← load_field tf (reg_offset A2); a3 ← load_field tf (reg_offset A3);
  a4 ← load_field tf (reg_offset A4); a5 ← load_field tf (reg_offset A5);
  a6 ← load_field tf (reg_offset A6); a7 ← load_field tf (reg_offset A7);
  ret ← do_syscall a0 a1 a2 a3 a4 a5 a6 a7;
  store_field tf (reg_offset A0) ret.

Definition handle_mtimer_trap : M (world H) () :=
  t ← gets w_ticks;
  sprint (Lit (bytes ("Ticks %d" +:+ newline))) [Num t];;
  modify (λ w, set_ticks (u64 (w_ticks w + 1)) w);;
  x ← read_csr sip;
  write_csr sip (Z.land x (not64 SIP_SSIP)).

(** The three branches on the cause, lines 69 to 77. *)
Definition handle_cause (current cause : Z) : M (world H) () :=
  if cause =? CAUSE_USER_ECALL then
    tf ← load_field current proc_trapframe; handle_syscall tf
  else if cause =? CAUSE_MTIMER_S_TRAP then handle_mtimer_trap
  else
    c ← read_csr scause;
    sprint (Lit (bytes ("smode_trap_handler(): unexpected scause %p" +:+ newline))) [Num c];;
    e ← read_csr sepc; v ← read_csr stval;
    sprint (Lit (bytes ("            sepc=%p stval=%p" +:+ newline))) [Num e; Num v];;
    panic ("unexpected exception happened." +:+ newline) [].

Definition smode_trap_handler : M (world H) entry :=
  s ← read_csr sstatus;
  when (truthy (Z.land s SSTATUS_SPP)) (panic "usertrap: not from user mode" []);;
  current ← gets w_current;
  assert_at "kernel/strap.c" 60 (truthy current) "current";;
  tf ← load_field current proc_trapframe;
  pc ← read_csr sepc;
  store_field tf tf_epc pc;;
  cause ← read_csr scause;
  handle_cause current cause;;
  current ← gets w_current;
  switch_to current.

(** A trap taken in the user context [f]: [smode_trap_vector] up to its jump, the handler it
    jumps to, and the return to user mode. *)
Definition trap_round (f : reg → Z) : M (world H) entry := λ w,
  match smode_trap_vector (Cpu _ f w) with
  | Ret target c =>
      if target =? addr_smode_trap_handler then smode_trap_handler (c_world c) else Fault
  | Halted c => Halted (c_world c)
  | Fault => Fault
  | NoFuel => NoFuel
  end.
End strap.

Section strap_lemmas.
Context {H : Type} `{HH : Host H} `{PP : Platform} `{!RiscvCsrs} `{!Linked}.
Implicit Types w : world H.

(** A word of the frame other than the one written. *)
Lemma frame_reg_write_ne m tf r r' v :
  r ≠ r' → frame_reg (write_word m (tf + reg_offset r') v) tf r = frame_reg m tf r.
Proof.
  intros Hne. unfold frame_reg. pose proof (reg_offset_ne r r' Hne).
  by rewrite word_at_write_ne by lia.
Qed.
Lemma frame_reg_write_eq m tf r v :
  0 ≤ v < 2 ^ 64 → frame_reg (write_word m (tf + reg_offset r) v) tf r = v.
Proof. intros Hv. unfold frame_reg. rewrite word_at_write. simpl. by apply u64_id. Qed.

Lemma load_reg_Ret w proc tf r :
  layout (w_mem w) proc tf →
  load_field tf (reg_offset r) w = Ret (frame_reg (w_mem w) tf r) w.
Proof.
  intros Hl. apply load_field_Ret. pose proof (reg_offset_range r).
  destruct (layout_frame_word _ proc tf (reg_offset r) Hl) as [v Hv];
    [lia|unfold sizeof_trapframe; lia|]. unfold frame_reg. by rewrite Hv.
Qed.

Lemma store_frame_Ret w proc tf off v :
  layout (w_mem w) proc tf → 0 ≤ off → off + 8 ≤ sizeof_trapframe →
  store_field tf off v w = Ret tt (set_mem (write_word (w_mem w) (tf + off) v) w).
Proof. intros Hl Ho Hs. apply store_field_Ret. by eapply layout_frame_word. Qed.

(** [handle_syscall] advances the pc past the [ecall], makes the call and stores the result. *)
Lemma handle_syscall_call w proc tf pc :
  layout (w_mem w) proc tf → word_at (w_mem w) (tf + tf_epc) = Some pc →
  let w1 := set_mem (write_word (w_mem w) (tf + tf_epc) (u64 (pc + 4))) w in
  let arg := frame_reg (w_mem w) tf in
  layout (w_mem w1) proc tf ∧
  handle_syscall tf w =
    (ret ← do_syscall (arg A0) (arg A1) (arg A2) (arg A3) (arg A4) (arg A5) (arg A6) (arg A7);
     store_field tf (reg_offset A0) ret) w1.
Proof.
  intros Hl Hpc w1 arg. assert (layout (w_mem w1) proc tf) as Hl1 by by apply layout_frame_write.
  split; [done|].
  assert (∀ r, load_field tf (reg_offset r) w1 = Ret (arg r) w1) as Harg.
  { intros r. rewrite (load_reg_Ret w1 proc tf r Hl1). f_equal. by apply frame_reg_write. }
  unfold handle_syscall. mrun (load_field_Ret w tf tf_epc pc Hpc).
  mrun (store_frame_Ret w proc tf tf_epc (u64 (pc + 4)) Hl ltac:(done) ltac:(done)). fold w1.
  mrun (Harg A0). mrun (Harg A1). mrun (Harg A2). mrun (Harg A3). mrun (Harg A4). mrun (Harg A5).
  mrun (Harg A6). mrun (Harg A7). done.
Qed.

Lemma handle_syscall_Ret w proc tf pc ret w2 :
  layout (w_mem w) proc tf → word_at (w_mem w) (tf + tf_epc) = Some pc →
  let w1 := set_mem (write_word (w_mem w) (tf + tf_epc) (u64 (pc + 4))) w in
  let arg := frame_reg (w_mem w) tf in
  do_syscall (arg A0) (arg A1) (arg A2) (arg A3) (arg A4) (arg A5) (arg A6) (arg A7) w1 =
    Ret ret w2 →
  handle_syscall tf w =
    Ret tt (set_mem (write_word (w_mem w1) (tf + reg_offset A0) ret) (set_host (w_host w2) w1)).
Proof.
  intros Hl Hpc w1 arg Hcall. destruct (handle_syscall_call w proc tf pc Hl Hpc) as (Hl1 & ->).
  fold w1 arg in Hl1 |- *. mrun Hcall.
  destruct (do_syscall_ends (arg A0) (arg A1) (arg A2) (arg A3) (arg A4) (arg A5) (arg A6) (arg A7)
              w1 (lay_wf _ _ _ Hl1)) as (_ & Hr & _).
  rewrite (Hr _ _ Hcall) at 1.
  by rewrite (store_frame_Ret (set_host (w_host w2) w1) proc tf (reg_offset A0) ret Hl1).
Qed.
Lemma handle_syscall_Halted w proc tf pc w2 :
  layout (w_mem w) proc tf → word_at (w_mem w) (tf + tf_epc) = Some pc →
  let w1 := set_mem (write_word (w_mem w) (tf + tf_epc) (u64 (pc + 4))) w in
  let arg := frame_reg (w_mem w) tf in
  do_syscall (arg A0) (arg A1) (arg A2) (arg A3) (arg A4) (arg A5) (arg A6) (arg A7) w1 = Halted w2 →
  handle_syscall tf w = Halted w2.
Proof.
  intros Hl Hpc w1 arg Hcall. destruct (handle_syscall_call w proc tf pc Hl Hpc) as (_ & ->).
  by apply bind_Halted.
Qed.

(** From user mode, with a process: the pc goes to the frame, then the cause is looked at. *)
Lemma smode_trap_handler_user w proc tf :
  layout (w_mem w) proc tf → w_current w = proc → Z.testbit (w_csr w sstatus) 8 = false →
  smode_trap_handler w =
    (handle_cause proc (w_csr w scause);; current ← gets w_current; switch_to current)
      (set_mem (write_word (w_mem w) (tf + tf_epc) (w_csr w sepc)) w).
Proof.
  intros Hl Hc Hspp. pose proof (lay_nonnull _ _ _ Hl). unfold smode_trap_handler.
  rewrite (bind_Ret _ _ w (w_csr w sstatus) w) by done.
  unfold SSTATUS_SPP. rewrite land_bit, Hspp by done. cbn [truthy Z.eqb negb when].
  rewrite mret_bind, (bind_Ret _ _ w proc w) by (unfold gets; by rewrite Hc).
  unfold truthy. rewrite (proj2 (Z.eqb_neq _ _)) by lia. cbn [negb assert_at]. rewrite mret_bind.
  mrun (load_field_Ret w proc proc_trapframe tf (lay_tf _ _ _ Hl)).
  rewrite (bind_Ret _ _ w (w_csr w sepc) w) by done.
  mrun (store_frame_Ret w proc tf tf_epc (w_csr w sepc) Hl ltac:(done) ltac:(done)).
  set (w1 := set_mem _ w). by rewrite (bind_Ret _ _ w1 (w_csr w scause) w1).
Qed.

(** The text of a tick. *)
Definition tick_msg (t : Z) : list Z := bytes "Ticks " ++ dec (s32 t) ++ [10].

Lemma sprint_ticks w k t :
  console w k →
  sprint (Lit (bytes ("Ticks %d" +:+ newline))) [Num t] w = Ret tt (printed k (tick_msg t) w).
Proof.
  intros Hk. pose proof (s32_range t).
  apply (sprint_Ret w k _ _ (bytes "Ticks " ++ 37 :: 100 :: [10]));
    [done|apply cstring_lit; vm_compute; repeat constructor; done| | |right; by vm_compute].
  - rewrite render_text by plain_tac.
    by rewrite render_percent, (render_d _ _ _ _ (s32 t)) by (done || lia).
  - unfold tick_msg. rewrite !length_app. pose proof (dec_length (s32 t) ltac:(lia)).
    replace (length (bytes "Ticks ")) with 6%nat by done. simpl length. lia.
Qed.
Lemma handle_mtimer_trap_Ret w k :
  console w k →
  handle_mtimer_trap w =
    Ret tt (csr_set sip (Z.land (w_csr w sip) (not64 SIP_SSIP))
      (set_ticks (u64 (w_ticks w + 1)) (printed k (tick_msg (w_ticks w)) w))).
Proof.
  intros Hk. unfold handle_mtimer_trap.
  rewrite (bind_Ret _ _ w (w_ticks w) w) by done.
  by rewrite (bind_Ret _ _ w tt (printed k (tick_msg (w_ticks w)) w)) by by apply sprint_ticks.
Qed.

(** What [trap_round] hands to the handler. *)
Definition trapped w (tf : Z) (f : reg → Z) : world H :=
  set_mem (trap_mem (w_mem w) tf f) (csr_set sscratch (f A0) w).

Lemma trap_mem_layout m proc tf f :
  layout m proc tf → layout (trap_mem m tf f) proc tf.
Proof.
  intros [Hwf Hp Hn Ht Hf Hd]. split; try assumption.
  - by apply trap_mem_wf.
  - apply trap_mem_frame; assumption.
  - rewrite <- Ht. apply word_at_ext. intros a Ha. apply trap_mem_lookup.
    unfold sizeof_trapframe in Hd. change sizeof_process with 20512 in Hd. unfold proc_trapframe in *. lia.
  - by apply trap_mem_frame.
Qed.
Lemma trap_mem_outside m tf f : same_outside tf m (trap_mem m tf f).
Proof. intros a Ha. apply trap_mem_lookup. unfold sizeof_trapframe in Ha. lia. Qed.

Lemma trap_round_handler w proc tf f :
  ready w proc tf → regs_ok f → trap_round f w = smode_trap_handler (trapped w tf f).
Proof.
  intros [Hl Hc Hv Hs Hsp Htr] Hf. destruct (id Hl) as [Hwf Hp Hn Ht Hfr Hd].
  destruct (layout_proc_word _ _ _ proc_kstack Hl) as [ksp Hk]; [done..|]. rewrite Hk in Hsp.
  destruct (smode_trap_vector_Ret f w tf ksp addr_smode_trap_handler) as (f' & He & _); try done.
  - apply Hfr.
  - apply csr_scratch; [by left|apply Hf].
  - unfold trap_round. rewrite He. by rewrite Z.eqb_refl.
Qed.

(** The registers in the frame after the trap entry: all but [t6]. *)
Lemma trap_mem_reg m tf f r :
  0 ≤ tf < 2 ^ 64 → regs_ok f → frame_reg (trap_mem m tf f) tf r = if decide (r = T6) then tf else f r.
Proof. intros Ht Hf. unfold frame_reg. by rewrite trap_mem_word. Qed.

Lemma layout_tf_range m proc tf : layout m proc tf → 0 ≤ tf < 2 ^ 64.
Proof. intros Hl. eapply word_at_range; apply Hl. Qed.
End strap_lemmas.

Section rounds.
Context {H : Type} `{HH : Host H} `{PP : Platform} `{!RiscvCsrs} `{!Linked}.
Implicit Types w : world H.

(** The end of a round: from any world whose frame holds the pc to resume at. *)
Lemma resume_user w w0 proc tf pc :
  layout (w_mem w) proc tf → w_current w = proc →
  word_at (w_mem w) (tf + tf_epc) = Some pc → pc `mod` 4 = 0 →
  same_outside tf (w_mem w0) (w_mem w) →
  ∃ e w', (current ← gets w_current; switch_to current) w = Ret e w' ∧
    e_mode e = UserMode ∧ e_pc e = pc ∧ (∀ r, e_regs e r = frame_reg (w_mem w) tf r) ∧
    ready w' proc tf ∧ same_outside tf (w_mem w0) (w_mem w') ∧ same_globals w w' ∧
    w_host w' = w_host w.
Proof.
  intros Hl Hc Hpc Ha Hs.
  destruct (switch_to_user w proc tf pc Hl Hpc Ha) as (f & w' & He & Hf & Hr & Hs' & _ & _ & Hg & Hh).
  exists (Entry UserMode pc f), w'. rewrite (bind_Ret _ _ w proc w) by (unfold gets; by rewrite Hc).
  split_and!; try done. by etrans.
Qed.

(** The world in which the handler looks at the cause of a trap taken at [pc]. *)
Definition caught w (tf : Z) (f : reg → Z) (pc : Z) : world H :=
  set_mem (write_word (w_mem (trapped w tf f)) (tf + tf_epc) pc) (trapped w tf f).

Lemma caught_globals w tf f pc : same_globals w (caught w tf f pc).
Proof.
  split_and!; try done. intros c Hc. unfold caught, trapped. cbn [w_csr set_mem].
  apply csr_set_ne. intros ->. apply Hc. by apply (bool_decide_unpack _).
Qed.

(** The first half of a round: the context is in the frame, but for [t6]. *)
Lemma trap_round_user w proc tf f :
  ready w proc tf → regs_ok f → Z.testbit (w_csr w sstatus) 8 = false →
  let w1 := caught w tf f (w_csr w sepc) in
  trap_round f w =
    (handle_cause proc (w_csr w scause);; current ← gets w_current; switch_to current) w1 ∧
  layout (w_mem w1) proc tf ∧ same_outside tf (w_mem w) (w_mem w1) ∧
  ∀ r, frame_reg (w_mem w1) tf r = if decide (r = T6) then tf else f r.
Proof.
  intros Hrd Hf Hspp w1. pose proof (rd_layout _ _ _ Hrd) as Hl.
  pose proof (layout_tf_range _ _ _ Hl) as Htf.
  assert (layout (w_mem (trapped w tf f)) proc tf) as Hlt by by apply trap_mem_layout.
  split_and!.
  - rewrite (trap_round_handler w proc tf f Hrd Hf).
    rewrite (smode_trap_handler_user _ proc tf Hlt (rd_current _ _ _ Hrd)); unfold trapped;
      cbn [w_csr set_mem]; by rewrite !csr_set_ne.
  - by apply layout_frame_write.
  - etrans; [apply (trap_mem_outside _ tf f)|]. by apply same_outside_write.
  - intros r. unfold w1, caught. cbn [w_mem set_mem]. rewrite frame_reg_write by done.
    by apply trap_mem_reg.
Qed.

(** The world a system call from the context [f] at [pc] runs in: the context and the next pc are
    in the trap frame. *)
Definition syscall_world w (tf : Z) (f : reg → Z) (pc : Z) : world H :=
  set_mem (write_word (w_mem (caught w tf f pc)) (tf + tf_epc) (u64 (pc + 4))) (caught w tf f pc).

Lemma syscall_round_Ret w proc tf f pc ret w2 :
  ready w proc tf → regs_ok f → Z.testbit (w_csr w sstatus) 8 = false →
  w_csr w scause = CAUSE_USER_ECALL → w_csr w sepc = pc → 0 ≤ pc → pc + 4 < 2 ^ 64 →
  pc `mod` 4 = 0 →
  do_syscall (f A0) (f A1) (f A2) (f A3) (f A4) (f A5) (f A6) (f A7) (syscall_world w tf f pc) =
    Ret ret w2 →
  ∃ e w', trap_round f w = Ret e w' ∧ e_mode e = UserMode ∧ e_pc e = pc + 4 ∧
    (∀ r, e_regs e r = if decide (r = A0) then u64 ret else if decide (r = T6) then tf else f r) ∧
    ready w' proc tf ∧ same_outside tf (w_mem w) (w_mem w') ∧ same_globals w w' ∧
    w_host w' = w_host w2.
Proof.
  intros Hrd Hf Hspp Hcause Hpc Hpc0 Hpc1 Ha Hcall.
  destruct (trap_round_user w proc tf f Hrd Hf Hspp) as (-> & Hl1 & Hs1 & Hreg).
  rewrite Hcause, Hpc in *. set (w1 := caught w tf f pc) in *.
  set (m2 := write_word (w_mem w1) (tf + tf_epc) (u64 (pc + 4))).
  set (w3 := set_mem (write_word m2 (tf + reg_offset A0) ret) (set_host (w_host w2) (set_mem m2 w1))).
  assert (handle_cause proc CAUSE_USER_ECALL w1 = Ret tt w3) as Hsys.
  { unfold handle_cause. cbn [Z.eqb CAUSE_USER_ECALL Pos.eqb].
    mrun (load_field_Ret w1 proc proc_trapframe tf (lay_tf _ _ _ Hl1)).
    apply (handle_syscall_Ret w1 proc tf pc ret w2 Hl1).
    - unfold w1, caught. cbn [w_mem set_mem]. rewrite word_at_write. f_equal. apply u64_id. lia.
    - rewrite !Hreg. exact Hcall. }
  mrun Hsys.
  destruct (resume_user w3 w proc tf (pc + 4)) as (e & w' & He & Hmd & Hepc & Hregs & Hrd' & Hs & Hg & Hh).
  - by do 2 (apply layout_frame_write; [|done|done]).
  - apply (rd_current _ _ _ Hrd).
  - cbn [w3 w_mem set_mem]. rewrite word_at_write_ne by (right; unfold reg_offset, tf_epc; simpl; lia).
    unfold m2. rewrite word_at_write. by rewrite !u64_id by (rewrite ?u64_id; lia).
  - rewrite <- Z.add_mod_idemp_l, Ha by done. done.
  - etrans; [exact Hs1|]. etrans; by apply same_outside_write.
  - exists e, w'. split_and!; try done.
    + intros r. rewrite Hregs. cbn [w3 w_mem set_mem]. destruct (decide (r = A0)) as [->|Hne].
      * unfold frame_reg. rewrite word_at_write. done.
      * rewrite frame_reg_write_ne by done. unfold m2. rewrite frame_reg_write by done. apply Hreg.
    + etrans; [|exact Hg]. apply (caught_globals w tf f pc).
Qed.

(** C6. A system call, end to end: a user program in the context [f] executes [ecall] at [pc];
    if the call the registers ask for returns [ret], the program goes on in user mode at the next
    instruction with [ret] in [a0] and every other register as it was, but [t6], which holds the
    address of the trap frame.  User memory and the kernel's variables are untouched, and the
    kernel is ready for the next trap. *)
Theorem syscall_round w proc tf f pc ret w2 :
  ready w proc tf → regs_ok f → Z.testbit (w_csr w sstatus) 8 = false →
  w_csr w scause = CAUSE_USER_ECALL → w_csr w sepc = pc → 0 ≤ pc → pc + 4 < 2 ^ 64 →
  pc `mod` 4 = 0 →
  do_syscall (f A0) (f A1) (f A2) (f A3) (f A4) (f A5) (f A6) (f A7) (syscall_world w tf f pc) =
    Ret ret w2 →
  ∃ e w', trap_round f w = Ret e w' ∧ e_mode e = UserMode ∧ e_pc e = pc + 4 ∧
    (∀ r, e_regs e r = if decide (r = A0) then u64 ret else if decide (r = T6) then tf else f r) ∧
    ready w' proc tf ∧ same_outside tf (w_mem w) (w_mem w') ∧ same_globals w w' ∧
    w_host w' = w_host w2.
Proof. apply syscall_round_Ret. Qed.

Lemma timer_round_Ret w proc tf f pc k :
  ready w proc tf → regs_ok f → Z.testbit (w_csr w sstatus) 8 = false →
  w_csr w scause = CAUSE_MTIMER_S_TRAP → w_csr w sepc = pc → 0 ≤ pc < 2 ^ 64 →
  pc `mod` 4 = 0 → console w k →
  ∃ e w', trap_round f w = Ret e w' ∧ e_mode e = UserMode ∧ e_pc e = pc ∧
    (∀ r, e_regs e r = if decide (r = T6) then tf else f r) ∧
    ready w' proc tf ∧ same_outside tf (w_mem w) (w_mem w') ∧
    w_ticks w' = u64 (w_ticks w + 1) ∧ Z.testbit (w_csr w' sip) 1 = false ∧
    (∀ c, c ∉ sip :: switch_csrs → w_csr w' c = w_csr w c) ∧
    w_files w' = w_files w ∧ w_fds w' = w_fds w ∧
    w_host w' = host_calls [FeWrite k (printk_bytes (tick_msg (w_ticks w)))] (w_host w).
Proof.
  intros Hrd Hf Hspp Hcause Hpc Hpc0 Ha Hk.
  destruct (trap_round_user w proc tf f Hrd Hf Hspp) as (-> & Hl1 & Hs1 & Hreg).
  rewrite Hcause, Hpc in *. set (w1 := caught w tf f pc) in *.
  assert (console w1 k) as Hk1 by done.
  pose proof (handle_mtimer_trap_Ret w1 k Hk1) as Htick. set (w2 := csr_set sip _ _) in Htick.
  rewrite (bind_Ret (handle_cause proc CAUSE_MTIMER_S_TRAP) _ w1 tt w2 Htick).
  destruct (resume_user w2 w proc tf pc) as (e & w' & He & Hmd & Hepc & Hregs & Hrd' & Hs & Hg & Hh).
  - done.
  - apply (rd_current _ _ _ Hrd).
  - change (w_mem w2) with (w_mem w1). unfold w1, caught. cbn [w_mem set_mem].
    rewrite word_at_write. f_equal. by apply u64_id.
  - done.
  - done.
  - exists e, w'. split_and!; try done.
    + intros r. rewrite Hregs. apply Hreg.
    + by destruct Hg as (_ & _ & _ & _ & -> & _).
    + destruct Hg as (_ & _ & _ & _ & _ & Hg). rewrite Hg by (by apply (bool_decide_unpack _)). unfold w2.
      by rewrite csr_set_eq, csr_sip, Z.land_spec, testbit_not64, andb_false_r.
    + destruct Hg as (_ & _ & _ & _ & _ & Hg). intros c [Hc0 Hc]%not_elem_of_cons.
      rewrite Hg by done. unfold w2. rewrite csr_set_ne by done.
      destruct (caught_globals w tf f pc) as (_ & _ & _ & _ & _ & Hcg). by apply Hcg.
    + by destruct Hg as (-> & _).
    + by destruct Hg as (_ & -> & _).
Qed.

(** A timer tick, end to end: the supervisor software interrupt the machine-mode handler
    raised prints the tick counter, advances it modulo 2^64, clears its pending bit and resumes
    the program at the very instruction it interrupted, with its registers as they were, but
    [t6].  The kernel is ready for the next trap, and the CSRs of the machine mode, the delegation
    and the interrupt enables are as they were. *)
Theorem timer_round w proc tf f pc k :
  ready w proc tf → regs_ok f → Z.testbit (w_csr w sstatus) 8 = false →
  w_csr w scause = CAUSE_MTIMER_S_TRAP → w_csr w sepc = pc → 0 ≤ pc < 2 ^ 64 →
  pc `mod` 4 = 0 → console w k →
  ∃ e w', trap_round f w = Ret e w' ∧ e_mode e = UserMode ∧ e_pc e = pc ∧
    (∀ r, e_regs e r = if decide (r = T6) then tf else f r) ∧
    ready w' proc tf ∧ same_outside tf (w_mem w) (w_mem w') ∧
    w_ticks w' = u64 (w_ticks w + 1) ∧ Z.testbit (w_csr w' sip) 1 = false ∧
    (∀ c, c ∉ sip :: switch_csrs → w_csr w' c = w_csr w c) ∧
    w_files w' = w_files w ∧ w_fds w' = w_fds w ∧
    w_host w' = host_calls [FeWrite k (printk_bytes (tick_msg (w_ticks w)))] (w_host w).
Proof. apply timer_round_Ret. Qed.

Lemma unexpected_round_Halted w proc tf f k :
  ready w proc tf → regs_ok f → Z.testbit (w_csr w sstatus) 8 = false → console w k →
  w_csr w scause ≠ CAUSE_USER_ECALL → w_csr w scause ≠ CAUSE_MTIMER_S_TRAP →
  let ptr v := bytes "0x" ++ hex 16 (s64 v) in
  trap_round f w = Halted (set_host (host_calls
    [FeWrite k (printk_bytes (bytes "smode_trap_handler(): unexpected scause " ++
       ptr (w_csr w scause) ++ [10]));
     FeWrite k (printk_bytes (bytes "            sepc=" ++ ptr (w_csr w sepc) ++
       bytes " stval=" ++ ptr (w_csr w stval) ++ [10]));
     FeWrite k (printk_bytes (bytes ("unexpected exception happened." +:+ newline +:+ newline)));
     FeWrite k (printk_bytes (shutdown_msg (-1))); FeExit (-1)] (w_host w))
    (caught w tf f (w_csr w sepc))).
Proof.
  intros Hrd Hf Hspp Hk Hc1 Hc2 ptr.
  destruct (trap_round_user w proc tf f Hrd Hf Hspp) as (-> & _).
  set (w1 := caught w tf f (w_csr w sepc)).
  assert (∀ c, c ≠ sscratch → w_csr w1 c = w_csr w c) as Hcsr by (intros c Hne; by apply csr_set_ne).
  apply bind_Halted. unfold handle_cause. rewrite !(proj2 (Z.eqb_neq _ _)) by done.
  rewrite (bind_Ret _ _ w1 (w_csr w scause) w1) by (unfold read_csr, gets; by rewrite Hcsr).
  set (r1 := _ ++ ptr (w_csr w scause) ++ _). set (r2 := bytes "            sepc=" ++ _).
  rewrite (bind_Ret _ _ w1 tt (printed k r1 w1)).
  2:{ apply (sprint_Ret w1 k _ _ (bytes "smode_trap_handler(): unexpected scause " ++ 37 :: 112 :: [10]));
        [done|apply cstring_lit; vm_compute; repeat constructor; done| |by vm_compute|right; by vm_compute].
      rewrite render_text by plain_tac. by rewrite render_percent, render_p. }
  rewrite (bind_Ret _ _ _ (w_csr w sepc) (printed k r1 w1)) by (unfold read_csr, gets; by rewrite <- Hcsr).
  rewrite (bind_Ret _ _ _ (w_csr w stval) (printed k r1 w1)) by (unfold read_csr, gets; by rewrite <- Hcsr).
  rewrite (bind_Ret _ _ _ tt (printed k r2 (printed k r1 w1))).
  2:{ apply (sprint_Ret _ k _ _ (bytes "            sepc=" ++ 37 :: 112 ::
               (bytes " stval=" ++ 37 :: 112 :: [10])));
        [done|apply cstring_lit; vm_compute; repeat constructor; done| |by vm_compute|right; by vm_compute].
      rewrite render_text by plain_tac. rewrite render_percent, render_p, render_text by plain_tac.
      by rewrite render_percent, render_p. }
  by rewrite (panic_plain _ k) by (done || plain_tac).
Qed.

(** A trap for any other cause ends the machine: the cause, the pc and the trap value are
    printed, then the panic message, and the host is told to exit with -1. *)
Theorem unexpected_round w proc tf f k :
  ready w proc tf → regs_ok f → Z.testbit (w_csr w sstatus) 8 = false → console w k →
  w_csr w scause ≠ CAUSE_USER_ECALL → w_csr w scause ≠ CAUSE_MTIMER_S_TRAP →
  let ptr v := bytes "0x" ++ hex 16 (s64 v) in
  trap_round f w = Halted (set_host (host_calls
    [FeWrite k (printk_bytes (bytes "smode_trap_handler(): unexpected scause " ++
       ptr (w_csr w scause) ++ [10]));
     FeWrite k (printk_bytes (bytes "            sepc=" ++ ptr (w_csr w sepc) ++
       bytes " stval=" ++ ptr (w_csr w stval) ++ [10]));
     FeWrite k (printk_bytes (bytes ("unexpected exception happened." +:+ newline +:+ newline)));
     FeWrite k (printk_bytes (shutdown_msg (-1))); FeExit (-1)] (w_host w))
    (caught w tf f (w_csr w sepc))).
Proof. apply unexpected_round_Halted. Qed.
End rounds.

(** * Instances *)
Import SampleMachine.

Definition ready_mem : mem := switch_mem (sample_process ∅ 0) USER_TRAP_FRAME USER_KSTACK.
Definition trap_csrs (cause pc : Z) (c : csr) : Z :=
  match c with
  | sscratch => USER_TRAP_FRAME | stvec => addr_smode_trap_vector | scause => cause | sepc => pc
  | sip => 2 | _ => 0
  end.
Definition ready_world (cause pc : Z) : world sample_host :=
  set_current sample_proc (set_csr (trap_csrs cause pc) (sample_world ready_mem [])).
(** A context that asks for a backtrace of depth 0. *)
Definition ecall_regs : reg → Z := λ r, match r with A0 => 66 | A1 => 0 | _ => 5 end.
Lemma ecall_regs_ok : regs_ok ecall_regs.
Proof. intros r. destruct r; simpl; lia. Qed.

Lemma ready_sample cause pc : ready (ready_world cause pc) sample_proc USER_TRAP_FRAME.
Proof.
  split; [|reflexivity|reflexivity|reflexivity| |].
  - apply switch_mem_layout, sample_process_layout, map_Forall_empty.
  - by vm_compute.
  - by vm_compute.
Qed.

Lemma syscall_round_witness :
  let w := ready_world CAUSE_USER_ECALL 0x81000100 in
  let w2 := syscall_world w USER_TRAP_FRAME ecall_regs 0x81000100 in
  ∃ e w', trap_round ecall_regs w = Ret e w' ∧ e_mode e = UserMode ∧ e_pc e = 0x81000100 + 4 ∧
    (∀ r, e_regs e r = if decide (r = A0) then u64 0
                       else if decide (r = T6) then USER_TRAP_FRAME else ecall_regs r) ∧
    ready w' sample_proc USER_TRAP_FRAME ∧ same_outside USER_TRAP_FRAME (w_mem w) (w_mem w') ∧
    same_globals w w' ∧ w_host w' = w_host w2.
Proof.
  intros w w2. apply (syscall_round w sample_proc USER_TRAP_FRAME ecall_regs 0x81000100 0 w2);
    [apply ready_sample|apply ecall_regs_ok|reflexivity|reflexivity|reflexivity|lia|lia|reflexivity
    |reflexivity].
Defined.

Lemma timer_round_witness :
  let w := ready_world CAUSE_MTIMER_S_TRAP 0x81000100 in
  ∃ e w', trap_round ecall_regs w = Ret e w' ∧ e_mode e = UserMode ∧ e_pc e = 0x81000100 ∧
    (∀ r, e_regs e r = if decide (r = T6) then USER_TRAP_FRAME else ecall_regs r) ∧
    ready w' sample_proc USER_TRAP_FRAME ∧ same_outside USER_TRAP_FRAME (w_mem w) (w_mem w') ∧
    w_ticks w' = u64 (w_ticks w + 1) ∧ Z.testbit (w_csr w' sip) 1 = false ∧
    (∀ c, c ∉ sip :: switch_csrs → w_csr w' c = w_csr w c) ∧
    w_files w' = w_files w ∧ w_fds w' = w_fds w ∧
    w_host w' = host_calls [FeWrite 2 (printk_bytes (tick_msg (w_ticks w)))] (w_host w).
Proof.
  intros w. apply (timer_round w sample_proc USER_TRAP_FRAME ecall_regs 0x81000100 2);
    [apply ready_sample|apply ecall_regs_ok|reflexivity|reflexivity|reflexivity|lia|reflexivity
    |apply sample_console].
Defined.

Lemma unexpected_round_witness :
  let w := ready_world 2 0x81000100 in
  let ptr v := bytes "0x" ++ hex 16 (s64 v) in
  trap_round ecall_regs w = Halted (set_host (host_calls
    [FeWrite 2 (printk_bytes (bytes "smode_trap_handler(): unexpected scause " ++
       ptr (w_csr w scause) ++ [10]));
     FeWrite 2 (printk_bytes (bytes "            sepc=" ++ ptr (w_csr w sepc) ++
       bytes " stval=" ++ ptr (w_csr w stval) ++ [10]));
     FeWrite 2 (printk_bytes (bytes ("unexpected exception happened." +:+ newline +:+ newline)));
     FeWrite 2 (printk_bytes (shutdown_msg (-1))); FeExit (-1)] (w_host w))
    (caught w USER_TRAP_FRAME ecall_regs (w_csr w sepc))).
Proof.
  intros w. apply (unexpected_round w sample_proc USER_TRAP_FRAME ecall_regs 2);
    [apply ready_sample|apply ecall_regs_ok|reflexivity|apply sample_console|discriminate|discriminate].
Defined.
