(* ===== verification/Elf.v ===== *)
(** Loading the application: kernel/elf.c and kernel/elf.h.

    The headers are read into local objects, byte lists here, and decoded field by field; the
    segments, the string table and the symbol table are read into memory.  [spike_file_pread] is
    the only way to the file.  An object the code reads after a [pread] that reported the full
    size has been filled by the host; what a local object holds before that, zeros here, does not
    matter. *)
From S2P Require Import Prelude Mem CString Snprintf World Sample SpikeUtils SpikeFile Asm Process.

(** * kernel/elf.h *)
Definition MAX_CMDLINE_ARGS : Z := 64.
Definition ELF_MAGIC : Z := 0x464C457F.
Definition ELF_PROG_LOAD : Z := 1.
Definition SHT_SYMTAB : Z := 2.
Inductive elf_status := EL_OK | EL_EIO | EL_ENOMEM | EL_NOTELF | EL_ERR.
#[export] Instance elf_status_eq_dec : EqDecision elf_status.
Proof. solve_decision. Defined.

(** A little-endian field of [n] bytes at an offset of an object. *)
Definition field (n off : nat) (bs : list Z) : Z := le_val (take n (drop off bs)).

Record elf_header := ElfHeader {
  eh_magic : Z; eh_type : Z; eh_machine : Z; eh_version : Z; eh_entry : Z; eh_phoff : Z;
  eh_shoff : Z; eh_flags : Z; eh_ehsize : Z; eh_phentsize : Z; eh_phnum : Z; eh_shentsize : Z;
  eh_shnum : Z; eh_shstrndx : Z }.
Definition sizeof_elf_header : Z := 64.
Definition decode_elf_header (b : list Z) : elf_header :=
  ElfHeader (field 4 0 b) (field 2 16 b) (field 2 18 b) (field 4 20 b) (field 8 24 b)
    (field 8 32 b) (field 8 40 b) (field 4 48 b) (field 2 52 b) (field 2 54 b) (field 2 56 b)
    (field 2 58 b) (field 2 60 b) (field 2 62 b).

Record elf_prog_header := ElfProgHeader {
  ph_type : Z; ph_flags : Z; ph_off : Z; ph_vaddr : Z; ph_paddr : Z; ph_filesz : Z;
  ph_memsz : Z; ph_align : Z }.
Definition sizeof_elf_prog_header : Z := 56.
Definition decode_prog_header (b : list Z) : elf_prog_header :=
  ElfProgHeader (field 4 0 b) (field 4 4 b) (field 8 8 b) (field 8 16 b) (field 8 24 b)
    (field 8 32 b) (field 8 40 b) (field 8 48 b).

Record elf_section_header := ElfSectionHeader {
  sh_name : Z; sh_type : Z; sh_flags : Z; sh_addr : Z; sh_off : Z; sh_size : Z; sh_link : Z;
  sh_info : Z; sh_addralign : Z; sh_entsize : Z }.
Definition sizeof_elf_section_header : Z := 64.
Definition decode_section_header (b : list Z) : elf_section_header :=
  ElfSectionHeader (field 4 0 b) (field 4 4 b) (field 8 8 b) (field 8 16 b) (field 8 24 b)
    (field 8 32 b) (field 4 40 b) (field 4 44 b) (field 8 48 b) (field 8 56 b).

(** [elf_ctx] with the [elf_info] it points to: the file, the process and the ELF header. *)
Record elf_ctx := ElfCtx { ctx_f : nat; ctx_p : Z; ctx_ehdr : elf_header }.

Section elf.
Context {H : Type} `{HH : Host H} `{PP : Platform}.

Definition elf_alloc_mb (elf_pa elf_va size : Z) : Z := elf_va.

(** [elf_fpread] into memory, and into a local object of [nb] bytes.  The [ssize_t] of
    [spike_file_pread] becomes a [uint64], the [uint64] offset an [off_t]. *)
Definition elf_fpread (f : nat) (dest nb offset : Z) : M (world H) Z :=
  r ← spike_file_pread f dest nb (s64 offset); mret (u64 r).
Definition elf_fpread_local (f : nat) (nb offset : Z) : M (world H) (Z * list Z) :=
  '(r, data) ← spike_file_pread_local f nb (s64 offset);
  (if Z.of_nat (length data) <=? nb then mret tt else fault);;
  mret (u64 r, map u8 data ++ replicate (Z.to_nat nb - length data) 0).

Definition elf_init (f : nat) (p : Z) : M (world H) (elf_status * elf_ctx) :=
  '(r, b) ← elf_fpread_local f sizeof_elf_header 0;
  let ctx := ElfCtx f p (decode_elf_header b) in
  if negb (r =? sizeof_elf_header) then mret (EL_EIO, ctx)
  else if negb (eh_magic (ctx_ehdr ctx) =? ELF_MAGIC) then mret (EL_NOTELF, ctx)
  else mret (EL_OK, ctx).

(** A round of the loop over the program headers, in the [int]s [i] and [off]. *)
Definition elf_load_round (ctx : elf_ctx) (v : Z * Z) : M (world H) (Z * Z + elf_status) :=
  let '(i, off) := v in
  let next := (i + 1, s32 (off + sizeof_elf_prog_header)) in
  if negb (i <? eh_phnum (ctx_ehdr ctx)) then mret (inr EL_OK)
  else
    '(r, b) ← elf_fpread_local (ctx_f ctx) sizeof_elf_prog_header (u64 off);
    if negb (r =? sizeof_elf_prog_header) then mret (inr EL_EIO)
    else
      let ph := decode_prog_header b in
      if negb (ph_type ph =? ELF_PROG_LOAD) then mret (inl next)
      else if ph_memsz ph <? ph_filesz ph then mret (inr EL_ERR)
      else if u64 (ph_vaddr ph + ph_memsz ph) <? ph_vaddr ph then mret (inr EL_ERR)
      else
        let dest := elf_alloc_mb (ph_vaddr ph) (ph_vaddr ph) (ph_memsz ph) in
        r ← elf_fpread (ctx_f ctx) dest (ph_memsz ph) (ph_off ph);
        if negb (r =? ph_memsz ph) then mret (inr EL_EIO) else mret (inl next).
Definition elf_load (ctx : elf_ctx) : M (world H) elf_status :=
  loop (S (Z.to_nat (eh_phnum (ctx_ehdr ctx)))) (elf_load_round ctx)
    (0, s32 (eh_phoff (ctx_ehdr ctx))).

(** [idx * shentsize] is an [int] product. *)
Definition get_elf_section_header (loader : elf_ctx) (idx : Z)
    : M (world H) (bool * elf_section_header) :=
  let offset := u64 (eh_shoff (ctx_ehdr loader) + s32 (idx * eh_shentsize (ctx_ehdr loader))) in
  '(r, b) ← elf_fpread_local (ctx_f loader) sizeof_elf_section_header offset;
  mret (r =? sizeof_elf_section_header, decode_section_header b).

(** The search for the symbol table header: [Some] the header found. *)
Definition find_symtab_round (loader : elf_ctx) (k : Z)
    : M (world H) (Z + option elf_section_header) :=
  if negb (k <? eh_shnum (ctx_ehdr loader)) then mret (inr None)
  else
    '(ok, sect) ← get_elf_section_header loader k;
    (if (ok : bool) then mret tt else panic "Error reading section header" []);;
    if sh_type sect =? SHT_SYMTAB then mret (inr (Some sect)) else mret (inl (k + 1)).

(** Steps 4 to 6, for the symbol table header [sym_hdr].  A division by zero is undefined. *)
Definition load_tables (loader : elf_ctx) (sym_hdr : elf_section_header) : M (world H) () :=
  let p := ctx_p loader in
  '(ok, str_hdr) ← get_elf_section_header loader (s32 (sh_link sym_hdr));
  (if (ok : bool) then mret tt else panic "Error reading string table header" []);;
  when (sh_size str_hdr >? MAX_USER_STRTAB) (panic "String table buffer overflow" []);;
  r ← elf_fpread (ctx_f loader) (p + proc_strtab) (sh_size str_hdr) (sh_off str_hdr);
  when (negb (r =? sh_size str_hdr)) (panic "Failed to load string table" []);;
  store_field p proc_strtab_sz (sh_size str_hdr);;
  when (sh_entsize sym_hdr =? 0) fault;;
  let count := sh_size sym_hdr / sh_entsize sym_hdr in
  when (count >? MAX_USER_SYMS) (panic "Too many symbols" []);;
  when (negb (sh_entsize sym_hdr =? sizeof_elf_symbol)) (panic "Symbol entry size mismatch" []);;
  r ← elf_fpread (ctx_f loader) (p + proc_symtab) (sh_size sym_hdr) (sh_off sym_hdr);
  when (negb (r =? sh_size sym_hdr)) (panic "Failed to load symbol table" []);;
  store_field p proc_sym_count count.

Definition load_user_symbols (loader : elf_ctx) : M (world H) () :=
  if eh_shnum (ctx_ehdr loader) =? 0 then mret tt
  else
    sect ← loop (S (Z.to_nat (eh_shnum (ctx_ehdr loader)))) (find_symtab_round loader) 0;
    match sect with None => mret tt | Some sym_hdr => load_tables loader sym_hdr end.

(** The [arg_buf] lies at [arg_area]: 64 words. *)
Definition sizeof_arg_buf : Z := 8 * MAX_CMDLINE_ARGS.
Definition load_arg (i : Z) : M (world H) Z :=
  if i <? MAX_CMDLINE_ARGS then load_field arg_area (8 * i) else fault.
Definition store_arg (i v : Z) : M (world H) () :=
  if i <? MAX_CMDLINE_ARGS then store_field arg_area (8 * i) v else fault.

(** [argv[i] = pk_argv[arg + i]] while [arg + i < pk_argc]; [pk_argv] is [&buf[1]]. *)
Definition shift_args_round (pk_argc i : Z) : M (world H) (Z + ()) :=
  if negb (u64 (1 + i) <? pk_argc) then mret (inr tt)
  else v ← load_arg (1 + (1 + i)); store_arg i v;; mret (inl (i + 1)).
Definition parse_args : M (world H) Z :=
  reply ← frontend (FeGetmainvars arg_area sizeof_arg_buf);
  on_mem (store_block arg_area (fe_data reply));;
  kassert (fe_ret reply =? 0) 0 "r == 0";;
  pk_argc ← load_arg 0;
  loop (S (Z.to_nat MAX_CMDLINE_ARGS)) (shift_args_round pk_argc) 0;;
  mret (u64 (pk_argc - 1)).

(** Once [spike_file_open] has answered. *)
Definition load_opened (p : Z) (f : file_ptr) : M (world H) () :=
  when (is_err_value f) (panic ("Fail on openning the input application program." +:+ newline) []);;
  f ← of_option (file_of f);
  '(st, elfloader) ← elf_init f p;
  when (negb (bool_decide (st = EL_OK))) (panic ("fail to init elfloader." +:+ newline) []);;
  st ← elf_load elfloader;
  when (negb (bool_decide (st = EL_OK))) (panic ("Fail on loading elf." +:+ newline) []);;
  load_user_symbols elfloader;;
  tf ← load_field p proc_trapframe;
  store_field tf tf_epc (eh_entry (ctx_ehdr elfloader));;
  spike_file_close (Some f);;
  tf ← load_field p proc_trapframe;
  epc ← load_field tf tf_epc;
  sprint (Lit (bytes ("Application program entry point (virtual address): 0x%lx" +:+ newline))) [Num epc].
Definition load_bincode_from_host_elf (p : Z) : M (world H) () :=
  argc ← parse_args;
  when (argc =? 0) (panic ("You need to specify the application program!" +:+ newline) []);;
  argv0 ← load_arg 0;
  sprint (Lit (bytes ("Application: %s" +:+ newline))) [Num argv0];;
  argv0 ← load_arg 0;
  f ← spike_file_open argv0 O_RDONLY 0;
  load_opened p f.
End elf.

(** * The file behind the host *)

(** The host serves [file] on the descriptor [fd]: in any state of [P], in which [fd] is open on
    the file, a [pread] on [fd] returns the bytes of the file that are there and leaves [fd] open.
    Nothing is asked of other descriptors, nor of any other call. *)
Class FileServer {H} `{Host H} (file : list Z) (fd : Z) (P : H → Prop) : Prop := {
  fs_bytes : Forall (λ b, 0 ≤ b < 256) file;
  fs_pread h size off :
    P h → 0 ≤ size → 0 ≤ off →
    let d := take (Z.to_nat size) (drop (Z.to_nat off) file) in
    (host_call (FePread fd size off) h).1 = FeReply (Z.of_nat (length d)) d;
  fs_keeps h size off : P h → P (host_call (FePread fd size off) h).2;
}.

(** The [n] bytes of the file at [off]. *)
Definition slice (file : list Z) (off n : Z) : list Z :=
  take (Z.to_nat n) (drop (Z.to_nat off) file).

Lemma slice_length file off n :
  0 ≤ off → 0 ≤ n → off + n ≤ Z.of_nat (length file) → length (slice file off n) = Z.to_nat n.
Proof. intros Ho Hn Hl. unfold slice. rewrite length_take, length_drop. lia. Qed.
Lemma slice_short file off n :
  0 ≤ off → 0 ≤ n → Z.of_nat (length file) < off + n → Z.of_nat (length (slice file off n)) < n ∨ n = 0.
Proof. intros Ho Hn Hl. unfold slice. rewrite length_take, length_drop. lia. Qed.
Lemma slice_le file off n : 0 ≤ n → Z.of_nat (length (slice file off n)) ≤ n.
Proof. intros Hn. unfold slice. rewrite length_take. lia. Qed.
Lemma slice_range file off n :
  Forall (λ b, 0 ≤ b < 256) file → Forall (λ b, 0 ≤ b < 256) (slice file off n).
Proof. intros Hf. by apply Forall_take, Forall_drop. Qed.

Lemma map_u8_range bs : Forall (λ b, 0 ≤ b < 256) bs → map u8 bs = bs.
Proof. induction 1 as [|b bs Hb _ IH]; [done|]. simpl. by rewrite u8_id, IH. Qed.

Lemma field_range n off bs :
  Forall (λ b, 0 ≤ b < 256) bs → 0 ≤ field n off bs < 256 ^ Z.of_nat n.
Proof.
  intros Hb. unfold field. assert (Forall (λ b, 0 ≤ b < 256) (take n (drop off bs))) as Ht
    by by apply Forall_take, Forall_drop.
  pose proof (le_val_range _ Ht) as Hr. rewrite length_take in Hr.
  assert (256 ^ Z.of_nat (n `min` length (drop off bs)) ≤ 256 ^ Z.of_nat n); [|lia].
  apply Z.pow_le_mono_r; lia.
Qed.

(** What loading asks of the host between opening and closing the file: nothing but [pread]s on
    the file's descriptor. *)
Definition is_pread (fd : Z) (c : fe_call) : Prop :=
  match c with FePread k _ _ => k = fd | _ => False end.
Definition preads {H} `{Host H} (fd : Z) (h h' : H) : Prop :=
  ∃ cs, Forall (is_pread fd) cs ∧ h' = host_calls cs h.
#[export] Instance preads_preorder {H} `{Host H} fd : PreOrder (preads fd).
Proof.
  split.
  - intros h. by exists [].
  - intros h h' h'' (cs & Hcs & ->) (cs' & Hcs' & ->). exists (cs ++ cs').
    by rewrite Forall_app, host_calls_app.
Qed.
Lemma preads_one {H} `{Host H} fd size off (h : H) :
  preads fd h (host_call (FePread fd size off) h).2.
Proof. exists [FePread fd size off]. split; [by repeat constructor|done]. Qed.
Lemma preads_serve {H} `{Host H} file fd (P : H → Prop) `{!FileServer file fd P} h h' :
  preads fd h h' → P h → P h'.
Proof.
  intros (cs & Hcs & ->). revert h.
  induction Hcs as [|[] cs Hc _ IH]; intros h Hh; try done. cbn in Hc. subst.
  by apply (IH (host_call _ h).2), fs_keeps.
Qed.

Section reads.
Context {H : Type} `{HH : Host H} `{PP : Platform} (file : list Z) (fd : Z) (P : H → Prop).
Context `{!FileServer file fd P}.
Implicit Types w : world H.

Lemma elf_fpread_local_Ret w f nb off :
  kfd <$> w_files w !! f = Some fd → P (w_host w) → 0 ≤ nb < 2 ^ 63 → 0 ≤ off < 2 ^ 63 →
  ∃ h, elf_fpread_local f nb off w =
      Ret (Z.of_nat (length (slice file off nb)),
           slice file off nb ++ replicate (Z.to_nat nb - length (slice file off nb)) 0)
        (set_host h w) ∧ preads fd (w_host w) h.
Proof.
  intros (x & Hx & ->)%fmap_Some HP Hn Ho. exists (host_call (FePread (kfd x) nb off) (w_host w)).2.
  split; [|apply preads_one]. unfold elf_fpread_local, spike_file_pread_local. rewrite s64_id by lia.
  rewrite bind_assoc. mrun (get_file_Ret w f x Hx). rewrite bind_assoc.
  mrun (frontend_Ret (FePread (kfd x) nb off) w).
  rewrite (fs_pread _ nb off HP) by lia. cbn [fe_ret fe_data].
  fold (slice file off nb). rewrite mret_bind. pose proof (slice_le file off nb ltac:(lia)) as Hle.
  rewrite (proj2 (Z.leb_le _ _) Hle), mret_bind, u64_id by lia.
  by rewrite map_u8_range by apply slice_range, fs_bytes.
Qed.

Lemma elf_fpread_Ret w f dest nb off :
  kfd <$> w_files w !! f = Some fd → P (w_host w) → 0 ≤ nb < 2 ^ 64 → 0 ≤ off < 2 ^ 63 →
  mapped (w_mem w) dest (Z.to_nat nb) → Z.of_nat (length file) < 2 ^ 63 →
  ∃ h, elf_fpread f dest nb off w =
      Ret (Z.of_nat (length (slice file off nb)))
        (set_mem (write_bytes (w_mem w) dest (slice file off nb)) (set_host h w)) ∧ preads fd (w_host w) h.
Proof.
  intros (x & Hx & ->)%fmap_Some HP Hn Ho Hm Hl. exists (host_call (FePread (kfd x) nb off) (w_host w)).2.
  split; [|apply preads_one]. unfold elf_fpread, spike_file_pread. rewrite s64_id by lia.
  rewrite bind_assoc. mrun (get_file_Ret w f x Hx). rewrite bind_assoc.
  mrun (frontend_Ret (FePread (kfd x) nb off) w).
  rewrite (fs_pread _ nb off HP) by lia. cbn [fe_ret fe_data]. fold (slice file off nb).
  pose proof (slice_le file off nb ltac:(lia)) as Hle.
  assert (mapped (w_mem w) dest (length (slice file off nb))) as Hm'
    by (eapply mapped_le; [|exact Hm]; lia).
  set (w1 := set_host _ w). rewrite bind_assoc.
  rewrite (bind_Ret _ _ w1 tt (set_mem (write_bytes (w_mem w) dest (slice file off nb)) w1)).
  2:{ apply on_mem_Ret. unfold store_block. apply read_bytes_is_Some in Hm' as [bs Hbs].
      cbn [w1 w_mem set_host]. rewrite Hbs. by rewrite map_u8_range by apply slice_range, fs_bytes. }
  rewrite mret_bind. unfold mret, M_ret. f_equal. apply u64_id. unfold slice in *.
  rewrite length_take, length_drop in *. lia.
Qed.
End reads.

(** * What the loader does to memory *)

(** The program headers, as they stand in the file. *)
Definition prog_header (file : list Z) (phoff : Z) (i : nat) : elf_prog_header :=
  decode_prog_header (slice file (phoff + 56 * Z.of_nat i) 56).
Definition prog_headers (file : list Z) (phoff : Z) (i n : nat) : list elf_prog_header :=
  map (prog_header file phoff) (seq i n).

(** The status and the memory after the segments of the list: a loadable segment brings [memsz]
    bytes of the file to [vaddr]; the first bad one ends the loading. *)
Fixpoint load_segments (file : list Z) (phs : list elf_prog_header) (m : mem) : elf_status * mem :=
  match phs with
  | [] => (EL_OK, m)
  | ph :: phs =>
      if negb (ph_type ph =? ELF_PROG_LOAD) then load_segments file phs m
      else if ph_memsz ph <? ph_filesz ph then (EL_ERR, m)
      else if 2 ^ 64 <=? ph_vaddr ph + ph_memsz ph then (EL_ERR, m)
      else
        let d := slice file (ph_off ph) (ph_memsz ph) in
        let m' := write_bytes m (ph_vaddr ph) d in
        if Z.of_nat (length d) =? ph_memsz ph then load_segments file phs m' else (EL_EIO, m')
  end.

(** Where a loadable segment goes exists, and its file offset is an [off_t]. *)
Definition seg_ok (m : mem) (ph : elf_prog_header) : Prop :=
  ph_type ph = ELF_PROG_LOAD → ph_off ph < 2 ^ 63 ∧ mapped m (ph_vaddr ph) (Z.to_nat (ph_memsz ph)).

Section loading.
Context {H : Type} `{HH : Host H} `{PP : Platform} (file : list Z) (fd : Z) (P : H → Prop).
Context `{!FileServer file fd P}.
Implicit Types w : world H.

Lemma decode_range b :
  Forall (λ x, 0 ≤ x < 256) b → let ph := decode_prog_header b in
  0 ≤ ph_vaddr ph < 2 ^ 64 ∧ 0 ≤ ph_memsz ph < 2 ^ 64 ∧ 0 ≤ ph_off ph ∧ 0 ≤ ph_filesz ph < 2 ^ 64.
Proof.
  intros Hb. cbn. split_and!; by eapply (field_range 8).
Qed.

(** One round, for the header of index [i]: the loop goes on exactly when [load_segments] does. *)
Lemma elf_load_round_Ret w ctx phoff i :
  kfd <$> w_files w !! ctx_f ctx = Some fd → P (w_host w) → 0 ≤ phoff →
  Z.of_nat i < eh_phnum (ctx_ehdr ctx) →
  phoff + 56 * (Z.of_nat i + 1) < 2 ^ 31 → phoff + 56 * (Z.of_nat i + 1) ≤ Z.of_nat (length file) →
  Z.of_nat (length file) < 2 ^ 63 → seg_ok (w_mem w) (prog_header file phoff i) →
  let '(st, m) := load_segments file [prog_header file phoff i] (w_mem w) in
  ∃ h, elf_load_round ctx (Z.of_nat i, phoff + 56 * Z.of_nat i) w =
    Ret (if decide (st = EL_OK) then inl (Z.of_nat (S i), phoff + 56 * Z.of_nat (S i)) else inr st)
      (set_mem m (set_host h w)) ∧ preads fd (w_host w) h.
Proof.
  intros Hx HP Hp Hi Ho Hl Hmax Hseg. set (off := phoff + 56 * Z.of_nat i).
  destruct (elf_fpread_local_Ret file fd P w (ctx_f ctx) sizeof_elf_prog_header off Hx HP
    ltac:(done) ltac:(unfold off; lia)) as (h1 & Hr & Hp1).
  pose proof (preads_serve file fd P _ _ Hp1 HP) as HP1.
  assert (length (slice file off 56) = 56%nat) as Hlen.
  { rewrite slice_length by (unfold off; lia). done. }
  change sizeof_elf_prog_header with 56 in Hr. rewrite Hlen, app_nil_r in Hr.
  unfold elf_load_round. rewrite (proj2 (Z.ltb_lt _ _) Hi). cbn [negb].
  rewrite u64_id by (unfold off; lia). change sizeof_elf_prog_header with 56. mrun Hr. clear Hr.
  cbn [Z.of_nat Z.eqb negb]. fold (prog_header file phoff i).
  change (negb (Z.of_nat 56 =? 56)) with false. cbv iota. cbv zeta.
  change (decode_prog_header (slice file off 56)) with (prog_header file phoff i).
  pose proof (decode_range _ (slice_range file off 56 fs_bytes)) as Hrange.
  change (decode_prog_header (slice file off 56)) with (prog_header file phoff i) in Hrange.
  set (ph := prog_header file phoff i) in *. destruct Hrange as (Hv & Hms & Hoff & _).
  rewrite (s32_id (off + 56)) by (unfold off; lia).
  replace (Z.of_nat i + 1) with (Z.of_nat (S i)) by lia.
  replace (off + 56) with (phoff + 56 * Z.of_nat (S i)) by (unfold off; lia).
  assert (set_mem (w_mem w) (set_host h1 w) = set_host h1 w) as Hid
    by exact (set_mem_id (set_host h1 w)).
  cbn [load_segments]. destruct (Z.eqb_spec (ph_type ph) ELF_PROG_LOAD) as [Ht|Ht]; cbn [negb];
    [|exists h1; by rewrite Hid].
  destruct (_ <? _); [exists h1; by rewrite Hid|].
  assert ((u64 (ph_vaddr ph + ph_memsz ph) <? ph_vaddr ph) = (2 ^ 64 <=? ph_vaddr ph + ph_memsz ph)) as ->.
  { unfold u64. destruct (Z.leb_spec (2 ^ 64) (ph_vaddr ph + ph_memsz ph)) as [Hw|Hw].
    - apply Z.ltb_lt. rewrite <- (Z_mod_plus_full _ (-1)), Z.mod_small; lia.
    - apply Z.ltb_ge. rewrite Z.mod_small; lia. }
  destruct (2 ^ 64 <=? _); [exists h1; by rewrite Hid|].
  destruct (Hseg Ht) as [Hoff' Hm].
  destruct (elf_fpread_Ret file fd P (set_host h1 w) (ctx_f ctx) (ph_vaddr ph) (ph_memsz ph) (ph_off ph)
    Hx HP1 Hms ltac:(lia) Hm Hmax) as (h2 & Hr & Hp2).
  assert (preads fd (w_host w) h2) by (by etrans).
  unfold elf_alloc_mb. mrun Hr. destruct (_ =? ph_memsz ph); cbn [negb]; by exists h2.
Qed.

Lemma load_segments_cons ph phs m :
  load_segments file (ph :: phs) m =
    let '(st, m') := load_segments file [ph] m in
    if decide (st = EL_OK) then load_segments file phs m' else (st, m').
Proof.
  cbn [load_segments]. destruct (negb _); [done|]. destruct (_ <? _); [done|].
  destruct (_ <=? _); [done|]. by destruct (_ =? _).
Qed.
Lemma load_segments_mapped ph m q n :
  mapped m q n → mapped (load_segments file [ph] m).2 q n.
Proof.
  intros Hm. cbn [load_segments]. destruct (negb _); [done|]. destruct (_ <? _); [done|].
  destruct (_ <=? _); [done|]. destruct (_ =? _); by apply mapped_write_bytes.
Qed.

Lemma elf_load_loop ctx phoff n i fuel w :
  kfd <$> w_files w !! ctx_f ctx = Some fd → P (w_host w) → 0 ≤ phoff →
  eh_phnum (ctx_ehdr ctx) = Z.of_nat (i + n) → phoff + 56 * Z.of_nat (i + n) < 2 ^ 31 →
  phoff + 56 * Z.of_nat (i + n) ≤ Z.of_nat (length file) → Z.of_nat (length file) < 2 ^ 63 →
  Forall (seg_ok (w_mem w)) (prog_headers file phoff i n) → (n < fuel)%nat →
  ∃ h, loop fuel (elf_load_round ctx) (Z.of_nat i, phoff + 56 * Z.of_nat i) w =
    Ret (load_segments file (prog_headers file phoff i n) (w_mem w)).1
      (set_mem (load_segments file (prog_headers file phoff i n) (w_mem w)).2 (set_host h w)) ∧ preads fd (w_host w) h.
Proof.
  intros Hx HP Hp. revert i fuel w Hx HP. induction n as [|n IH];
    intros i fuel w Hx HP Hn Ho Hl Hmax Hsegs Hf; (destruct fuel as [|fuel]; [lia|]).
  - exists (w_host w). rewrite (loop_exit _ _ _ _ EL_OK w); [by rewrite set_host_id;
      cbn; rewrite set_mem_id|].
    unfold elf_load_round. rewrite (proj2 (Z.ltb_ge _ _)) by lia. done.
  - cbn [prog_headers seq map] in *. inversion Hsegs as [|? ? Hseg Hrest]; subst.
    pose proof (elf_load_round_Ret w ctx phoff i Hx HP Hp ltac:(lia) ltac:(lia) ltac:(lia) Hmax Hseg)
      as Hr.
    rewrite load_segments_cons.
    pose proof (λ q k, load_segments_mapped (prog_header file phoff i) (w_mem w) q k) as Hmap.
    destruct (load_segments file [_] (w_mem w)) as [st m]. destruct Hr as (h & Hr & Hph).
    pose proof (preads_serve file fd P _ _ Hph HP) as HPh.
    case_decide as Hst; [|rewrite (loop_exit _ _ _ _ _ _ Hr); by exists h].
    rewrite (loop_step _ _ _ _ _ _ Hr).
    destruct (IH (S i) fuel (set_mem m (set_host h w)) Hx HPh) as (h' & Hr' & HPh'); try lia.
    { eapply Forall_impl; [exact Hrest|]. intros ph Hq Ht. destruct (Hq Ht) as [? ?].
      split; [done|]. by apply Hmap. }
    exists h'. split; [exact Hr'|]. by etrans.
Qed.

Lemma elf_load_Ret w ctx :
  let eh := ctx_ehdr ctx in let n := Z.to_nat (eh_phnum eh) in
  let phs := prog_headers file (eh_phoff eh) 0 n in
  kfd <$> w_files w !! ctx_f ctx = Some fd → P (w_host w) → 0 ≤ eh_phoff eh → 0 ≤ eh_phnum eh →
  eh_phoff eh + 56 * eh_phnum eh < 2 ^ 31 →
  eh_phoff eh + 56 * eh_phnum eh ≤ Z.of_nat (length file) → Z.of_nat (length file) < 2 ^ 63 →
  Forall (seg_ok (w_mem w)) phs →
  ∃ h, elf_load ctx w =
    Ret (load_segments file phs (w_mem w)).1
      (set_mem (load_segments file phs (w_mem w)).2 (set_host h w)) ∧ preads fd (w_host w) h.
Proof.
  intros eh n phs Hx HP Hp0 Hn0 Ho Hl Hmax Hsegs. unfold elf_load. fold eh. fold n.
  rewrite s32_id by lia. assert (Z.of_nat n = eh_phnum eh) as Hnn by (unfold n; lia).
  destruct (elf_load_loop ctx (eh_phoff eh) n 0 (S n) w) as (h & Hr & HPh);
    rewrite ?Nat.add_0_l, ?Hnn; try (done || lia).
  exists h. split; [|done]. change (Z.of_nat 0) with 0 in Hr.
  by rewrite Z.mul_0_r, Z.add_0_r in Hr.
Qed.

(** C16. [elf_load] on a file whose program header table lies inside it (and below 2^31, where
    its [int] offset does not overflow): the result is that of [load_segments], every byte of
    memory included, nothing but memory and the host changes, and all
    the host is asked for are [pread]s on the descriptor of the file.  In particular all [memsz]
    bytes of a segment come from the file, the part beyond [filesz] too. *)
Theorem elf_load_spec w ctx :
  let eh := ctx_ehdr ctx in let n := Z.to_nat (eh_phnum eh) in
  let phs := prog_headers file (eh_phoff eh) 0 n in
  kfd <$> w_files w !! ctx_f ctx = Some fd → P (w_host w) → 0 ≤ eh_phoff eh → 0 ≤ eh_phnum eh →
  eh_phoff eh + 56 * eh_phnum eh < 2 ^ 31 →
  eh_phoff eh + 56 * eh_phnum eh ≤ Z.of_nat (length file) → Z.of_nat (length file) < 2 ^ 63 →
  Forall (seg_ok (w_mem w)) phs →
  ∃ h, elf_load ctx w =
    Ret (load_segments file phs (w_mem w)).1
      (set_mem (load_segments file phs (w_mem w)).2 (set_host h w)) ∧ preads fd (w_host w) h.
Proof. apply elf_load_Ret. Qed.
End loading.

(** * What the symbol loader may touch *)

(** The host stores no more than it was asked to read. *)
Class BoundedHost H `{Host H} : Prop :=
  bounded_pread : ∀ (h : H) k size off,
    Z.of_nat (length (fe_data (host_call (FePread k size off) h).1)) ≤ Z.max 0 size.

(** Nothing outside the symbol table, the string table and their sizes differs from [m]. *)
Definition outside_symbols {H} (p : Z) (m : mem) (w : world H) : Prop :=
  ∀ a, a < p + proc_symtab ∨ p + sizeof_process ≤ a → w_mem w !! a = m !! a.

Section symbols.
Context {H : Type} `{HH : Host H} `{PP : Platform} `{!BoundedHost H}.
Implicit Types (w : world H) (p : Z) (m : mem).

Lemma outside_symbols_host p m : host_blind (outside_symbols (H := H) p m).
Proof. intros h w Hw a Ha. by apply Hw. Qed.
Lemma elf_fpread_keeps p m f dest nb off :
  p + proc_symtab ≤ dest → 0 ≤ nb → dest + nb ≤ p + sizeof_process →
  keeps (outside_symbols (H := H) p m) (elf_fpread f dest nb off).
Proof.
  intros Hd Hn He. apply keeps_bind; [|keeps_tac]. apply keeps_bind; [apply get_file_keeps|].
  intros x w Hw. mrun (frontend_Ret (FePread (kfd x) nb (s64 off)) w).
  pose proof (bounded_pread (w_host w) (kfd x) nb (s64 off)) as Hb.
  set (r := (host_call _ _).1) in *. set (w1 := set_host _ w).
  assert (keeps (outside_symbols (H := H) p m) (on_mem (store_block dest (fe_data r)))) as Hk.
  { apply keeps_zoom. intros w2 Hw2 m2 Hm2. unfold store_block.
    destruct (read_bytes m2 dest _); [|done]. intros a Ha. cbn [w_mem set_mem lset world_mem].
    rewrite lookup_write_bytes_ne by (rewrite length_map; lia). by apply Hm2. }
  revert w1 Hw. intros w1 Hw. apply (keeps_bind _ _ _ Hk); [|exact Hw]. intros u. apply keeps_ret.
Qed.
Lemma elf_fpread_local_keeps p m f nb off :
  keeps (outside_symbols (H := H) p m) (elf_fpread_local f nb off).
Proof.
  pose proof (outside_symbols_host p m).
  apply keeps_bind; [apply keeps_bind; [apply get_file_keeps|]|]; intros; keeps_tac.
Qed.
Lemma store_field_keeps p m off v :
  proc_symtab ≤ off → off + 8 ≤ sizeof_process →
  keeps (outside_symbols (H := H) p m) (store_field p off v).
Proof.
  intros Ho He. apply keeps_zoom. intros w Hw m2 Hm2. unfold store64, store_le.
  destruct (read_bytes m2 _ _); [|done]. intros a Ha. cbn [w_mem set_mem lset world_mem].
  rewrite lookup_write_bytes_ne by (rewrite length_le_bytes; lia). by apply Hm2.
Qed.

(** Section headers hold unsigned numbers whatever the host delivers. *)
Lemma get_elf_section_header_keeps {A} p m loader idx (k : bool * elf_section_header → M (world H) A) :
  (∀ ok s, 0 ≤ sh_size s → 0 ≤ sh_entsize s → keeps (outside_symbols (H := H) p m) (k (ok, s))) →
  keeps (outside_symbols (H := H) p m) (get_elf_section_header loader idx ≫= k).
Proof.
  intros Hk w Hw. unfold get_elf_section_header. rewrite bind_assoc.
  set (off := u64 _). pose proof (elf_fpread_local_keeps p m (ctx_f loader) sizeof_elf_section_header off w Hw) as Hl.
  destruct (elf_fpread_local _ _ _ w) as [[r b] w1| | |] eqn:E; unfold mbind, M_bind; rewrite E; try done.
  cbn. apply Hk; [| |done].
  all: apply (field_range 8).
  all: unfold elf_fpread_local in E; apply bind_inv in E as ([r' data] & w2 & _ & E).
  all: apply bind_inv in E as (u & w3 & _ & E); injection E as <- <- <-.
  all: apply Forall_app; split; [|apply Forall_replicate; lia].
  all: apply Forall_map, Forall_true; intros z; apply u8_range.
Qed.

Lemma load_tables_keeps p m loader s :
  ctx_p loader = p → 0 ≤ sh_size s → 0 ≤ sh_entsize s →
  keeps (outside_symbols (H := H) p m) (load_tables loader s).
Proof.
  intros <- Hs He. pose proof (outside_symbols_host (ctx_p loader) m) as Hb.
  assert (∀ t, never (panic (H := H) (A := ()) t [])) as Hn by (intros t; apply panic_never).
  assert (∀ t, keeps (outside_symbols (ctx_p loader) m) (panic (H := H) (A := ()) t [])) as Hp
    by (intros t; by apply panic_keeps).
  apply get_elf_section_header_keeps. intros ok str Hss _. apply keeps_unless; [done..|intros _ _].
  apply keeps_guard; [done..|]. rewrite Z.gtb_ltb. intros Hle%Z.ltb_ge _.
  apply keeps_bind; [apply elf_fpread_keeps; unfold proc_strtab, proc_sym_count, sizeof_process,
    proc_strtab_sz, proc_strtab, proc_sym_count, MAX_USER_SYMS, MAX_USER_STRTAB, sizeof_elf_symbol in *; lia|].
  intros r. apply keeps_guard; [done..|intros _ _].
  apply keeps_bind; [by apply store_field_keeps|intros _].
  apply keeps_guard; [by intros ??|apply keeps_fault|intros Hz%Z.eqb_neq _]. cbv zeta.
  apply keeps_guard; [done..|]. rewrite Z.gtb_ltb. intros Hc%Z.ltb_ge _.
  apply keeps_guard; [done..|intros Hent%negb_false_iff%Z.eqb_eq _]. rewrite Hent in *.
  apply keeps_bind; [|intros r'; apply keeps_guard; [done..|intros _ _; by apply store_field_keeps]].
  apply elf_fpread_keeps; [lia|done|].
  assert (sh_size s < 24 * 513); [|change sizeof_process with 20512; unfold proc_symtab; lia].
  unfold MAX_USER_SYMS, sizeof_elf_symbol in Hc. pose proof (Z.div_mod (sh_size s) 24).
  pose proof (Z.mod_pos_bound (sh_size s) 24). lia.
Qed.

Lemma find_symtab_keeps {A} p m loader fuel i (k : option elf_section_header → M (world H) A) :
  keeps (outside_symbols (H := H) p m) (k None) →
  (∀ s, 0 ≤ sh_size s → 0 ≤ sh_entsize s → keeps (outside_symbols (H := H) p m) (k (Some s))) →
  keeps (outside_symbols (H := H) p m) (loop fuel (find_symtab_round loader) i ≫= k).
Proof.
  intros Hnone Hsome. pose proof (outside_symbols_host p m) as Hb.
  revert i. induction fuel as [|fuel IH]; intros i; [by intros w Hw|].
  cbn [loop]. set (lp := loop fuel (find_symtab_round loader)) in *.
  apply keeps_assoc. unfold find_symtab_round. destruct (negb _); [exact Hnone|].
  apply keeps_assoc, get_elf_section_header_keeps. intros ok s Hs He.
  apply keeps_assoc, keeps_unless; [apply panic_never|by apply panic_keeps|intros _ _].
  destruct (_ =? _); [by apply Hsome|apply IH].
Qed.

(** C22. Whatever the file holds, [load_user_symbols] writes nowhere but in the symbol fields of
    the process: the sizes it reads from the file are checked before they bound a write.  (The
    last entry of a table of a size that is no multiple of 24 may still spill from the symbol
    array into the string table behind it.) *)
Theorem load_user_symbols_safe loader w :
  match load_user_symbols loader w with
  | Ret _ w' | Halted w' =>
      ∀ a, a < ctx_p loader + proc_symtab ∨ ctx_p loader + sizeof_process ≤ a →
        w_mem w' !! a = w_mem w !! a
  | _ => True
  end.
Proof.
  enough (keeps (outside_symbols (H := H) (ctx_p loader) (w_mem w)) (load_user_symbols loader)) as Hk
    by by apply (Hk w).
  unfold load_user_symbols. destruct (_ =? _); [apply keeps_ret|].
  apply find_symtab_keeps; [apply keeps_ret|]. intros s Hs He. by apply load_tables_keeps.
Qed.
End symbols.

(** * The headers and the tables, from an honest host *)
Section tables.
Context {H : Type} `{HH : Host H} `{PP : Platform} (file : list Z) (fd : Z) (P : H → Prop).
Context `{!FileServer file fd P}.
Implicit Types w : world H.

(** [elf_init] reads the ELF header and nothing else: a file shorter than the header is an
    I/O error, a wrong magic number is not an ELF file, and otherwise the context carries the
    decoded header. *)
Lemma elf_init_Ret w f p :
  kfd <$> w_files w !! f = Some fd → P (w_host w) →
  ∃ h ctx, elf_init f p w =
      Ret (if Z.of_nat (length file) <? 64 then EL_EIO
           else if field 4 0 file =? ELF_MAGIC then EL_OK else EL_NOTELF, ctx) (set_host h w) ∧
    preads fd (w_host w) h ∧ ctx_f ctx = f ∧ ctx_p ctx = p ∧
    (64 ≤ Z.of_nat (length file) → ctx_ehdr ctx = decode_elf_header file).
Proof.
  intros Hx HP.
  destruct (elf_fpread_local_Ret file fd P w f sizeof_elf_header 0 Hx HP) as (h & Hr & HPh); [done..|].
  change sizeof_elf_header with 64 in Hr. unfold elf_init. change sizeof_elf_header with 64.
  mrun Hr. cbv zeta. set (b := _ ++ _). exists h, (ElfCtx f p (decode_elf_header b)).
  assert (length (slice file 0 64) = 64%nat `min` length file)%nat as Hlen
    by (unfold slice; rewrite length_take; done).
  rewrite Hlen. destruct (Z.ltb_spec (Z.of_nat (length file)) 64) as [Hl|Hl].
  - rewrite (proj2 (Z.eqb_neq _ _)) by lia. cbn [negb]. split_and!; [done..|lia].
  - replace (Z.of_nat _) with 64 by lia. cbn [Z.eqb Pos.eqb negb].
    assert (∀ n off, (off + n ≤ 64)%nat → field n off b = field n off file) as Hf.
    { intros n off Hn. unfold b, field. rewrite Hlen.
      replace (Z.to_nat 64 - _)%nat with 0%nat by lia. cbn [replicate]. rewrite app_nil_r.
      unfold slice. change (drop (Z.to_nat 0) file) with file.
      rewrite skipn_firstn_comm, take_take. do 2 f_equal. lia. }
    cbn [ctx_ehdr decode_elf_header eh_magic]. rewrite Hf by lia.
    destruct (field 4 0 file =? ELF_MAGIC); cbn [negb]; split_and!; try done; intros _;
      unfold decode_elf_header; by rewrite !Hf by lia.
Qed.

Definition section_header (eh : elf_header) (idx : Z) : elf_section_header :=
  decode_section_header (slice file (eh_shoff eh + idx * eh_shentsize eh) 64).

(** Where the section header [idx] lies in the file, without overflow of the index arithmetic. *)
Definition section_ok (eh : elf_header) (idx : Z) : Prop :=
  0 ≤ eh_shoff eh < 2 ^ 62 ∧ 0 ≤ idx * eh_shentsize eh < 2 ^ 31 ∧
  eh_shoff eh + idx * eh_shentsize eh + 64 ≤ Z.of_nat (length file).

Lemma get_elf_section_header_Ret w loader idx :
  kfd <$> w_files w !! ctx_f loader = Some fd → P (w_host w) → section_ok (ctx_ehdr loader) idx →
  ∃ h, get_elf_section_header loader idx w =
    Ret (true, section_header (ctx_ehdr loader) idx) (set_host h w) ∧ preads fd (w_host w) h.
Proof.
  intros Hx HP (Ho & Hi & Hl). set (off := eh_shoff (ctx_ehdr loader) + idx * eh_shentsize (ctx_ehdr loader)) in *.
  destruct (elf_fpread_local_Ret file fd P w (ctx_f loader) 64 off Hx HP) as (h & Hr & HPh);
    [lia|unfold off; lia|].
  exists h. split; [|done]. unfold get_elf_section_header. rewrite s32_id by lia. fold off.
  rewrite u64_id by (unfold off; lia). change sizeof_elf_section_header with 64. mrun Hr.
  rewrite slice_length by (unfold off; lia). by rewrite app_nil_r.
Qed.

(** The memory after the two tables were read from the file. *)
Definition tables_mem (m : mem) (p : Z) (sym str : elf_section_header) : mem :=
  let m := write_bytes m (p + proc_strtab) (slice file (sh_off str) (sh_size str)) in
  let m := write_word m (p + proc_strtab_sz) (sh_size str) in
  let m := write_bytes m (p + proc_symtab) (slice file (sh_off sym) (sh_size sym)) in
  write_word m (p + proc_sym_count) (sh_size sym / sizeof_elf_symbol).

(** A section inside the file. *)
Definition in_file (s : elf_section_header) : Prop :=
  0 ≤ sh_off s ∧ 0 ≤ sh_size s ∧ sh_off s + sh_size s ≤ Z.of_nat (length file).

Lemma elf_fpread_section w f dest s :
  kfd <$> w_files w !! f = Some fd → P (w_host w) → in_file s → Z.of_nat (length file) < 2 ^ 63 →
  mapped (w_mem w) dest (Z.to_nat (sh_size s)) →
  ∃ h, elf_fpread f dest (sh_size s) (sh_off s) w =
    Ret (sh_size s) (set_mem (write_bytes (w_mem w) dest (slice file (sh_off s) (sh_size s)))
      (set_host h w)) ∧ preads fd (w_host w) h.
Proof.
  intros Hx HP (Ho & Hs & Hl) Hmax Hm.
  destruct (elf_fpread_Ret file fd P w f dest (sh_size s) (sh_off s) Hx HP) as (h & Hr & HPh);
    try (done || lia).
  exists h. split; [|done]. rewrite Hr, slice_length by done. by rewrite Z2Nat.id.
Qed.

(** With the two section headers and the two sections inside the file, entries of the right
    size and tables that are not too large, [load_tables] fills the string table and the symbol
    table of the process from the file and records their sizes.  All [sh_size] bytes of the
    symbol section are stored: as the limit is on [sh_size / 24], up to 23 of them lie beyond the
    symbol array, over the symbol count, which is stored last, and the start of the string
    table. *)
Lemma load_tables_Ret w loader sym :
  let p := ctx_p loader in let str := section_header (ctx_ehdr loader) (s32 (sh_link sym)) in
  kfd <$> w_files w !! ctx_f loader = Some fd → P (w_host w) → Z.of_nat (length file) < 2 ^ 63 →
  section_ok (ctx_ehdr loader) (s32 (sh_link sym)) → in_file sym → in_file str →
  sh_entsize sym = sizeof_elf_symbol → sh_size sym / sizeof_elf_symbol ≤ MAX_USER_SYMS →
  sh_size str ≤ MAX_USER_STRTAB → mapped (w_mem w) p (Z.to_nat sizeof_process) →
  ∃ h, load_tables loader sym w = Ret tt (set_mem (tables_mem (w_mem w) p sym str) (set_host h w)) ∧ preads fd (w_host w) h.
Proof.
  intros p str Hx HP Hmax Hok Hsym Hstr Hent Hcount Hstrsz Hm.
  assert (∀ m off n, mapped m p (Z.to_nat sizeof_process) → 0 ≤ off →
    0 ≤ n → off + n ≤ sizeof_process → mapped m (p + off) (Z.to_nat n)) as Hsub.
  { intros m off n Hm' Ho Hn He. eapply mapped_sub; [| |exact Hm']; [lia|].
    rewrite !Z2Nat.id by (done || lia). lia. }
  destruct (get_elf_section_header_Ret w loader _ Hx HP Hok) as (h1 & Hr1 & Hp1).
  pose proof (preads_serve file fd P _ _ Hp1 HP) as HP1. unfold load_tables. fold p. mrun Hr1. cbv iota zeta. fold str. rewrite mret_bind.
  rewrite (Z.gtb_ltb (sh_size str)), (proj2 (Z.ltb_ge _ _) Hstrsz). cbn [when]. rewrite mret_bind.
  destruct Hstr as (? & ? & ?), Hsym as (? & ? & ?). set (w1 := set_host h1 w).
  assert (sh_size sym < 24 * 513) as Hsz.
  { unfold sizeof_elf_symbol, MAX_USER_SYMS in Hcount. pose proof (Z.div_mod (sh_size sym) 24).
    pose proof (Z.mod_pos_bound (sh_size sym) 24). lia. }
  destruct (elf_fpread_section w1 (ctx_f loader) (p + proc_strtab) str Hx HP1) as (h2 & Hr2 & Hp2);
    [by split_and!|done|apply Hsub; [done|done|lia|];
     change sizeof_process with 20512; change proc_strtab with 12312; unfold MAX_USER_STRTAB in *; lia|].
  pose proof (preads_serve file fd P _ _ Hp2 HP1) as HP2. mrun Hr2. rewrite Z.eqb_refl. cbn [negb when]. rewrite mret_bind.
  set (m2 := write_bytes _ _ _). set (w2 := set_mem m2 _).
  assert (mapped m2 p (Z.to_nat sizeof_process)) as Hm2 by by apply mapped_write_bytes.
  mrun (store_field_Ret w2 p proc_strtab_sz (sh_size str)
    ltac:(apply word_at_mapped, (Hsub m2 proc_strtab_sz 8); done)).
  set (m3 := write_word _ _ _). set (w3 := set_mem m3 w2).
  assert (mapped m3 p (Z.to_nat sizeof_process)) as Hm3 by by apply mapped_write_word.
  rewrite Hent. cbn [Z.eqb sizeof_elf_symbol Pos.eqb when negb]. rewrite mret_bind.
  fold sizeof_elf_symbol. rewrite (Z.gtb_ltb (_ / _)), (proj2 (Z.ltb_ge _ _) Hcount). cbn [when]. rewrite !mret_bind.
  destruct (elf_fpread_section w3 (ctx_f loader) (p + proc_symtab) sym Hx HP2) as (h3 & Hr3 & Hp3);
    [by split_and!|done|apply Hsub; [done|done|lia|]; change sizeof_process with 20512;
     unfold proc_symtab; lia|].
  mrun Hr3. rewrite Z.eqb_refl. cbn [negb when]. rewrite mret_bind.
  set (m4 := write_bytes _ _ _). set (w4 := set_mem m4 _).
  assert (mapped m4 p (Z.to_nat sizeof_process)) as Hm4 by by apply mapped_write_bytes.
  rewrite (store_field_Ret w4 p proc_sym_count (sh_size sym / sizeof_elf_symbol)).
  - exists h3. split; [done|]. etrans; [exact Hp1|]. etrans; [exact Hp2|exact Hp3].
  - apply word_at_mapped, (Hsub m4 proc_sym_count 8); done.
Qed.
End tables.

(** * Instances *)
Import SampleMachine.

(** A file with one segment (of four bytes, eight in memory), a symbol table of one entry and a
    string table. *)
Definition sample_elf : list Z :=
  le_bytes 4 ELF_MAGIC ++ replicate 12 0 ++ le_bytes 2 2 ++ le_bytes 2 243 ++ le_bytes 4 1 ++
  le_bytes 8 0x81000000 ++ le_bytes 8 64 ++ le_bytes 8 128 ++ le_bytes 4 0 ++ le_bytes 2 64 ++
  le_bytes 2 56 ++ le_bytes 2 1 ++ le_bytes 2 64 ++ le_bytes 2 2 ++ le_bytes 2 0 ++
  (* the program header, at 64 *)
  le_bytes 4 1 ++ le_bytes 4 5 ++ le_bytes 8 120 ++ le_bytes 8 0x81000000 ++
  le_bytes 8 0x81000000 ++ le_bytes 8 4 ++ le_bytes 8 8 ++ le_bytes 8 4096 ++
  (* the segment, at 120 *)
  [19; 0; 0; 0; 255; 255; 255; 255] ++
  (* the section headers, at 128 *)
  le_bytes 4 0 ++ le_bytes 4 2 ++ le_bytes 8 0 ++ le_bytes 8 0 ++ le_bytes 8 256 ++ le_bytes 8 24 ++
  le_bytes 4 1 ++ le_bytes 4 0 ++ le_bytes 8 8 ++ le_bytes 8 24 ++
  le_bytes 4 0 ++ le_bytes 4 3 ++ le_bytes 8 0 ++ le_bytes 8 0 ++ le_bytes 8 280 ++ le_bytes 8 6 ++
  le_bytes 4 0 ++ le_bytes 4 0 ++ le_bytes 8 1 ++ le_bytes 8 0 ++
  (* the symbol, at 256, and the names, at 280 *)
  le_bytes 4 1 ++ le_bytes 4 2 ++ le_bytes 8 0x81000000 ++ le_bytes 8 64 ++
  [0] ++ bytes "main" ++ [0].

Definition byteb (b : Z) : bool := (0 <=? b) && (b <? 256).
Lemma bytes_of_bool l : forallb byteb l = true → Forall (λ b, 0 ≤ b < 256) l.
Proof.
  rewrite forallb_forall, Forall_forall. intros Hl b Hb%list_elem_of_In. apply Hl in Hb.
  unfold byteb in Hb. lia.
Qed.

Lemma file_served file : forallb byteb file = true → FileServer file 3 (sample_open file).
Proof.
  intros Hb. split; [by apply bytes_of_bool| |].
  - intros h size off [Hf Ho] _ _ d. cbn. by rewrite Ho, Hf.
  - intros h size off [Hf Ho]. split; [exact Hf|]. cbn [host_call host snd sh_log].
    by rewrite sample_opened_snoc.
Qed.
#[export] Instance sample_server : FileServer sample_elf 3 (sample_open sample_elf).
Proof. apply file_served. vm_compute. reflexivity. Qed.
#[export] Instance sample_bounded : BoundedHost sample_host.
Proof.
  intros h k size off. cbn. destruct (_ && _); cbn [fe_data length]; [rewrite length_take|]; lia.
Qed.

(** The segment's memory and a process, with the file open in slot 3. *)
Definition load_mem : mem :=
  write_bytes (write_bytes ∅ sample_proc (replicate (Z.to_nat sizeof_process) 0))
    0x81000000 (replicate 8 7).
Definition load_world : world sample_host :=
  set_host (SampleHost [FeOpenat AT_FDCWD (bytes "app") O_RDONLY 0] sample_elf)
    (set_files (<[3%nat := SpikeFile 3 3]> sample_files) (sample_world load_mem sample_elf)).
Definition sample_ctx : elf_ctx := ElfCtx 3 sample_proc (decode_elf_header sample_elf).

Lemma elf_load_spec_witness :
  let eh := ctx_ehdr sample_ctx in
  let phs := prog_headers sample_elf (eh_phoff eh) 0 (Z.to_nat (eh_phnum eh)) in
  (load_segments sample_elf phs (w_mem load_world)).1 = EL_OK ∧
  ∃ h, elf_load sample_ctx load_world =
    Ret (load_segments sample_elf phs (w_mem load_world)).1
      (set_mem (load_segments sample_elf phs (w_mem load_world)).2 (set_host h load_world)) ∧
    preads 3 (w_host load_world) h.
Proof.
  intros eh phs. split; [by vm_compute|].
  apply (elf_load_spec sample_elf 3 (sample_open sample_elf) load_world sample_ctx);
    [reflexivity|by split|by vm_compute|by vm_compute|by vm_compute|by vm_compute|by vm_compute|].
  assert (Forall (λ ph, ph_off ph = 120 ∧ ph_vaddr ph = 0x81000000 ∧ ph_memsz ph = 8) phs) as Hphs.
  { repeat constructor. }
  eapply Forall_impl; [exact Hphs|]. intros ph (Ho & Hv & Hm) _. rewrite Ho, Hv, Hm.
  split; [done|]. apply (mapped_written _ 0x81000000 (replicate 8 7)).
Defined.

Lemma load_user_symbols_safe_witness :
  match load_user_symbols sample_ctx load_world with
  | Ret _ w' | Halted w' =>
      ∀ a, a < ctx_p sample_ctx + proc_symtab ∨ ctx_p sample_ctx + sizeof_process ≤ a →
        w_mem w' !! a = w_mem load_world !! a
  | _ => True
  end.
Proof. apply (load_user_symbols_safe sample_ctx load_world). Defined.
