(* ===== verification/Kernel.v ===== *)
(** Starting the kernel in supervisor mode: kernel/kernel.c. *)
From S2P Require Import Prelude Mem CString Snprintf World Sample SpikeUtils SpikeFile Asm Process Elf.

Section kernel.
Context {H : Type} `{HH : Host H} `{PP : Platform}.

Definition load_user_program (proc : Z) : M (world H) () :=
  store_field proc proc_trapframe USER_TRAP_FRAME;;
  tf ← load_field proc proc_trapframe;
  on_mem (memset tf 0 sizeof_trapframe);;
  store_field proc proc_kstack USER_KSTACK;;
  tf ← load_field proc proc_trapframe;
  store_field tf (reg_offset Sp) USER_STACK;;
  load_bincode_from_host_elf proc.

Definition s_start : M (world H) entry :=
  sprint (Lit (bytes ("Enter supervisor mode..." +:+ newline))) [];;
  write_csr satp 0;;
  load_user_program addr_user_app;;
  sprint (Lit (bytes ("Switch to user mode..." +:+ newline))) [];;
  switch_to addr_user_app.
End kernel.

(** Memory with the process record set up and its trap frame cleared, but for the stack. *)
Definition fresh_process (m : mem) (proc : Z) : mem :=
  let m := write_word m (proc + proc_trapframe) USER_TRAP_FRAME in
  let m := write_bytes m USER_TRAP_FRAME (replicate (Z.to_nat sizeof_trapframe) 0) in
  let m := write_word m (proc + proc_kstack) USER_KSTACK in
  write_word m (USER_TRAP_FRAME + reg_offset Sp) USER_STACK.

(** Room for a process at [proc] and for its trap frame, apart from each other. *)
Record room (m : mem) (proc : Z) : Prop := {
  room_wf : mem_wf m;
  room_proc : frame m proc (Z.to_nat sizeof_process);
  room_nonnull : 0 < proc;
  room_frame : frame m USER_TRAP_FRAME (Z.to_nat sizeof_trapframe);
  room_disj : USER_TRAP_FRAME + sizeof_trapframe ≤ proc ∨ proc + sizeof_process ≤ USER_TRAP_FRAME;
}.

Lemma word_at_zeros m p n off :
  0 ≤ off → off + 8 ≤ Z.of_nat n → word_at (write_bytes m p (replicate n 0)) (p + off) = Some 0.
Proof.
  intros Ho Hn. unfold word_at.
  rewrite (read_bytes_intro _ _ 8 (replicate 8 0)); [done|done|]. intros i Hi.
  rewrite lookup_write_bytes, length_replicate, decide_True by lia.
  rewrite !lookup_replicate_2 by lia. done.
Qed.

Section start.
Context {H : Type} `{HH : Host H} `{PP : Platform}.
Implicit Types w : world H.

Lemma frame_write_bytes m p n q bs : frame m p n → frame (write_bytes m q bs) p n.
Proof. intros (? & ? & ?). split_and!; [done..|by apply mapped_write_bytes]. Qed.

Lemma fresh_layout m proc : room m proc → layout (fresh_process m proc) proc USER_TRAP_FRAME.
Proof.
  intros [Hwf Hp Hn Hf Hd]. unfold sizeof_trapframe in Hd. change sizeof_process with 20512 in Hd.
  split; try assumption.
  - apply mem_wf_write_word, mem_wf_write_word, mem_wf_write_bytes; [|apply Forall_replicate; lia].
    by apply mem_wf_write_word.
  - apply frame_write_word, frame_write_word, frame_write_bytes, frame_write_word; assumption.
  - unfold fresh_process. change (reg_offset Sp) with 8. unfold proc_trapframe, proc_kstack.
    rewrite !word_at_write_ne, word_at_write_bytes_ne, word_at_write
      by (rewrite ?length_replicate; unfold sizeof_trapframe; lia). done.
  - apply frame_write_word, frame_write_word, frame_write_bytes. by apply frame_write_word.
Qed.

Lemma fresh_regs m proc r :
  room m proc →
  frame_reg (fresh_process m proc) USER_TRAP_FRAME r = if decide (r = Sp) then USER_STACK else 0.
Proof.
  intros [Hwf Hp Hn Hf Hd]. unfold sizeof_trapframe in Hd. change sizeof_process with 20512 in Hd.
  unfold frame_reg, fresh_process. pose proof (reg_offset_range r). case_decide as Hr.
  - subst r. by rewrite word_at_write.
  - pose proof (reg_offset_ne r Sp Hr). rewrite word_at_write_ne by lia.
    rewrite word_at_write_ne by (unfold proc_kstack; lia).
    rewrite word_at_zeros; [done|lia|]. rewrite Z2Nat.id by done. unfold sizeof_trapframe. lia.
Qed.

(** [load_user_program] prepares the process before it loads anything. *)
Lemma load_user_program_Ret w proc :
  room (w_mem w) proc →
  load_user_program proc w =
    load_bincode_from_host_elf proc (set_mem (fresh_process (w_mem w) proc) w).
Proof.
  intros Hr. destruct (id Hr) as [Hwf Hp Hn Hf Hd].
  unfold sizeof_trapframe in Hd. change sizeof_process with 20512 in Hd.
  assert (∀ m off, frame m proc (Z.to_nat sizeof_process) → 0 ≤ off → off + 8 ≤ sizeof_process →
    is_Some (word_at m (proc + off))) as Hword.
  { intros m off Hm Ho He. eapply (frame_word _ _ _ off Hm); [done|]. by rewrite Z2Nat.id. }
  unfold load_user_program.
  mrun (store_field_Ret w proc proc_trapframe USER_TRAP_FRAME ltac:(apply Hword; [exact Hp|done|done])).
  set (m1 := write_word (w_mem w) _ _). set (w1 := set_mem m1 w).
  assert (word_at m1 (proc + proc_trapframe) = Some USER_TRAP_FRAME) as H1
    by (unfold m1; by rewrite word_at_write).
  mrun (load_field_Ret w1 proc proc_trapframe USER_TRAP_FRAME H1).
  set (m2 := write_bytes m1 USER_TRAP_FRAME (replicate (Z.to_nat sizeof_trapframe) 0)).
  assert (mapped m1 USER_TRAP_FRAME (Z.to_nat sizeof_trapframe)) as Hm1
    by (apply mapped_write_word, Hf).
  assert ((on_mem (memset USER_TRAP_FRAME 0 sizeof_trapframe) : M (world H) Z) w1 =
            Ret USER_TRAP_FRAME (set_mem m2 w1)) as Hset.
  { apply on_mem_Ret. by apply (memset_Ret m1 USER_TRAP_FRAME 0 (Z.to_nat sizeof_trapframe)). }
  mrun Hset. set (w2 := set_mem m2 w1).
  assert (frame m2 proc (Z.to_nat sizeof_process)) as Hp2
    by (apply frame_write_bytes, frame_write_word; assumption).
  mrun (store_field_Ret w2 proc proc_kstack USER_KSTACK ltac:(by apply (Hword m2))).
  set (m3 := write_word (w_mem w2) _ _). set (w3 := set_mem m3 w2).
  assert (word_at m3 (proc + proc_trapframe) = Some USER_TRAP_FRAME) as H3.
  { unfold m3, proc_kstack, proc_trapframe. rewrite word_at_write_ne by lia. cbn [w2 w_mem set_mem].
    unfold m2. rewrite word_at_write_bytes_ne by (rewrite length_replicate; unfold sizeof_trapframe; lia).
    exact H1. }
  mrun (load_field_Ret w3 proc proc_trapframe USER_TRAP_FRAME H3).
  assert (is_Some (word_at m3 (USER_TRAP_FRAME + reg_offset Sp))) as Hs3.
  { apply word_at_mapped, mapped_write_word, mapped_write_bytes.
    eapply mapped_sub; [| |exact Hm1]; [|rewrite Z2Nat.id by done]; done. }
  by mrun (store_field_Ret w3 USER_TRAP_FRAME (reg_offset Sp) USER_STACK Hs3).
Qed.
End start.

Section boot.
Context {H : Type} `{HH : Host H} `{PP : Platform} `{!RiscvCsrs} `{!Linked}.
Implicit Types w : world H.

(** The world [load_bincode_from_host_elf] starts in. *)
Definition before_loading w (k : Z) : world H :=
  set_mem (fresh_process (w_mem w) addr_user_app)
    (csr_set satp 0 (printed k (bytes ("Enter supervisor mode..." +:+ newline)) w)).

Lemma s_start_Ret w k w2 epc :
  console w k → room (w_mem w) addr_user_app →
  load_bincode_from_host_elf addr_user_app (before_loading w k) = Ret tt w2 →
  console w2 k → layout (w_mem w2) addr_user_app USER_TRAP_FRAME →
  (∀ a, USER_TRAP_FRAME ≤ a < USER_TRAP_FRAME + 248 →
    w_mem w2 !! a = w_mem (before_loading w k) !! a) →
  word_at (w_mem w2) (USER_TRAP_FRAME + tf_epc) = Some epc → epc `mod` 4 = 0 →
  ∃ e w', s_start w = Ret e w' ∧ e_mode e = UserMode ∧ e_pc e = epc ∧
    (∀ r, e_regs e r = if decide (r = Sp) then USER_STACK else 0) ∧
    ready w' addr_user_app USER_TRAP_FRAME ∧
    w_host w' = host_calls
      [FeWrite k (printk_bytes (bytes ("Switch to user mode..." +:+ newline)))] (w_host w2) ∧
    same_outside USER_TRAP_FRAME (w_mem w2) (w_mem w') ∧ same_globals w2 w'.
Proof.
  intros Hk Hroom Hload Hk2 Hl Hkeep Hepc Ha. unfold s_start.
  rewrite (bind_Ret _ _ w tt (printed k (bytes ("Enter supervisor mode..." +:+ newline)) w))
    by (apply sprint_plain; [done|plain_tac|by vm_compute]).
  set (w1 := printed _ _ w). rewrite (bind_Ret _ _ w1 tt (csr_set satp 0 w1)) by done.
  rewrite (bind_Ret _ _ _ tt w2).
  2:{ rewrite load_user_program_Ret by done. exact Hload. }
  set (w3 := printed k (bytes ("Switch to user mode..." +:+ newline)) w2).
  rewrite (bind_Ret _ _ _ tt w3) by (apply sprint_plain; [done|plain_tac|by vm_compute]).
  destruct (switch_to_user w3 addr_user_app USER_TRAP_FRAME epc Hl Hepc Ha)
    as (f & w' & -> & Hf & Hrd & Ho & _ & _ & Hg & Hh).
  exists (Entry UserMode epc f), w'. split_and!; try done.
  intros r. cbn [e_regs]. rewrite Hf, <- (fresh_regs (w_mem w) addr_user_app r Hroom).
  unfold frame_reg. pose proof (reg_offset_range r). f_equal. apply word_at_ext. intros a Har.
  apply Hkeep. lia.
Qed.

(** If the loading stops the machine, that is the end. *)
Lemma s_start_Halted w k w2 :
  console w k → room (w_mem w) addr_user_app →
  load_bincode_from_host_elf addr_user_app (before_loading w k) = Halted w2 → s_start w = Halted w2.
Proof.
  intros Hk Hroom Hload. unfold s_start.
  rewrite (bind_Ret _ _ w tt (printed k (bytes ("Enter supervisor mode..." +:+ newline)) w))
    by (apply sprint_plain; [done|plain_tac|by vm_compute]).
  set (w1 := printed _ _ w). rewrite (bind_Ret _ _ w1 tt (csr_set satp 0 w1)) by done.
  apply bind_Halted. by rewrite load_user_program_Ret.
Qed.

(** [s_start], once the application is loaded: if the loading returns with the process
    record in place and the register slots of the trap frame untouched, the machine enters user
    mode at the entry point of the application with the user stack in [sp] and every other
    register zero, and the kernel is ready for traps from it. *)
Theorem s_start_spec w k w2 epc :
  console w k → room (w_mem w) addr_user_app →
  load_bincode_from_host_elf addr_user_app (before_loading w k) = Ret tt w2 →
  console w2 k → layout (w_mem w2) addr_user_app USER_TRAP_FRAME →
  (∀ a, USER_TRAP_FRAME ≤ a < USER_TRAP_FRAME + 248 →
    w_mem w2 !! a = w_mem (before_loading w k) !! a) →
  word_at (w_mem w2) (USER_TRAP_FRAME + tf_epc) = Some epc → epc `mod` 4 = 0 →
  ∃ e w', s_start w = Ret e w' ∧ e_mode e = UserMode ∧ e_pc e = epc ∧
    (∀ r, e_regs e r = if decide (r = Sp) then USER_STACK else 0) ∧
    ready w' addr_user_app USER_TRAP_FRAME ∧
    w_host w' = host_calls
      [FeWrite k (printk_bytes (bytes ("Switch to user mode..." +:+ newline)))] (w_host w2).
Proof.
  intros. destruct (s_start_Ret w k w2 epc) as (e & w' & ? & ? & ? & ? & ? & ? & _); try done.
  by exists e, w'.
Qed.

(** Without an application on the command line (the host hands over at most the kernel's
    own name) loading stops at once: the message, the shutdown notice, exit code -1. *)
Theorem no_application w k p :
  console w k → frame (w_mem w) arg_area (Z.to_nat sizeof_arg_buf) →
  let reply := (host_call (FeGetmainvars arg_area sizeof_arg_buf) (w_host w)).1 in
  let h := host_calls [FeGetmainvars arg_area sizeof_arg_buf] (w_host w) in
  fe_ret reply = 0 → Z.of_nat (length (fe_data reply)) ≤ sizeof_arg_buf →
  let m := write_bytes (w_mem w) arg_area (map u8 (fe_data reply)) in
  word_at m arg_area = Some 1 →
  load_bincode_from_host_elf p w =
    Halted (set_host (host_calls
      [FeWrite k (printk_bytes (bytes ("You need to specify the application program!" +:+ newline +:+ newline)));
       FeWrite k (printk_bytes (shutdown_msg (-1))); FeExit (-1)] h) (set_mem m (set_host h w))).
Proof.
  intros Hk Hfr reply h Hret Hlen m Hargc. unfold load_bincode_from_host_elf.
  set (w1 := set_mem m (set_host h w)).
  rewrite (bind_Ret _ _ w 0 w1).
  - cbn [Z.eqb when]. apply bind_Halted. rewrite (panic_plain w1 k) by (done || plain_tac). done.
  - unfold parse_args. mrun (frontend_Ret (FeGetmainvars arg_area sizeof_arg_buf) w). fold reply.
    rewrite (bind_Ret _ _ _ tt w1).
    2:{ apply on_mem_Ret. unfold store_block. destruct Hfr as (_ & _ & Hm).
        eapply mapped_le in Hm; [apply read_bytes_is_Some in Hm as [bs Hbs]|];
          [cbn [w_mem set_host]; by rewrite Hbs|lia]. }
    rewrite Hret. cbn [Z.eqb kassert]. rewrite mret_bind.
    rewrite (bind_Ret _ _ w1 1 w1).
    2:{ unfold load_arg. apply load_field_Ret. by rewrite Z.add_0_r. }
    done.
Qed.
End boot.

(** * Instances *)
Import SampleMachine.

(** The machine of the example: room for the process, its trap frame, the command line and the
    segment of the file. *)
Definition boot_mem : mem :=
  write_bytes (write_bytes (write_bytes (write_bytes ∅
    addr_user_app (replicate (Z.to_nat sizeof_process) 0))
    USER_TRAP_FRAME (replicate (Z.to_nat sizeof_trapframe) 9))
    arg_area (replicate (Z.to_nat sizeof_arg_buf) 0)) 0x81000000 (replicate 8 7).
Definition boot_world : world sample_host := sample_world boot_mem sample_elf.
Definition boot_loaded : world sample_host :=
  match load_bincode_from_host_elf addr_user_app (before_loading boot_world 2) with
  | Ret _ w => w | _ => boot_world end.

Lemma boot_loads :
  load_bincode_from_host_elf addr_user_app (before_loading boot_world 2) = Ret tt boot_loaded.
Proof.
  assert (match load_bincode_from_host_elf addr_user_app (before_loading boot_world 2) with
          | Ret _ _ => true | _ => false end = true) as Hr by (vm_compute; reflexivity).
  unfold boot_loaded. by destruct (load_bincode_from_host_elf _ _) as [[] w| | |].
Qed.

(** The hypotheses on memory, as a computation. *)
Definition frame_b (m : mem) (p : Z) (n : Z) : bool :=
  (0 <=? p) && (p + n <=? 2 ^ 64) && match read_bytes m p (Z.to_nat n) with Some _ => true | None => false end.
Lemma frame_b_true m p n : 0 ≤ n → frame_b m p n = true → frame m p (Z.to_nat n).
Proof.
  unfold frame_b. intros Hn [[H0 H1]%andb_prop H2]%andb_prop. split_and!; [lia|lia|].
  apply read_bytes_is_Some. destruct (read_bytes _ _ _); [by eexists|done].
Qed.
Definition wf_b (m : mem) : bool := forallb (λ kv, byteb kv.2) (map_to_list m).
Lemma wf_b_true m : wf_b m = true → mem_wf m.
Proof.
  unfold wf_b. rewrite forallb_forall. intros Hf a b Hab. apply elem_of_map_to_list in Hab.
  apply list_elem_of_In, Hf in Hab. unfold byteb in Hab. simpl in Hab. lia.
Qed.

(** What is left to check of a loaded world [w2] that started from [w1]. *)
Definition loaded_b (w1 w2 : world sample_host) : bool :=
  wf_b (w_mem w2) && frame_b (w_mem w2) addr_user_app sizeof_process &&
  frame_b (w_mem w2) USER_TRAP_FRAME sizeof_trapframe &&
  bool_decide (word_at (w_mem w2) (addr_user_app + proc_trapframe) = Some USER_TRAP_FRAME) &&
  bool_decide (word_at (w_mem w2) (USER_TRAP_FRAME + tf_epc) = Some 0x81000000) &&
  forallb (λ i, bool_decide (w_mem w2 !! (USER_TRAP_FRAME + Z.of_nat i) =
     w_mem w1 !! (USER_TRAP_FRAME + Z.of_nat i))) (seq 0 248) &&
  match w_files w2 !! 2%nat with Some x => kfd x =? 2 | None => false end.
Lemma loaded_b_true w1 w2 :
  loaded_b w1 w2 = true →
  console w2 2 ∧ layout (w_mem w2) addr_user_app USER_TRAP_FRAME ∧
  (∀ a, USER_TRAP_FRAME ≤ a < USER_TRAP_FRAME + 248 → w_mem w2 !! a = w_mem w1 !! a) ∧
  word_at (w_mem w2) (USER_TRAP_FRAME + tf_epc) = Some 0x81000000.
Proof.
  intros [[[[[[Hwf Hproc]%andb_prop Hframe]%andb_prop Htf]%andb_prop Hepc]%andb_prop
    Hregs]%andb_prop Hcons]%andb_prop. split_and!.
  - clear -Hcons. destruct (w_files w2 !! 2%nat) as [x|] eqn:Hx; [|done]. exists x. split; [done|lia].
  - apply wf_b_true in Hwf. apply frame_b_true in Hproc, Hframe; [|clear; done..].
    apply bool_decide_eq_true_1 in Htf.
    split; [exact Hwf|exact Hproc|clear; done|exact Htf|exact Hframe|clear; by right].
  - clear -Hregs. intros a Ha. rewrite forallb_forall in Hregs.
    specialize (Hregs (Z.to_nat (a - USER_TRAP_FRAME))). rewrite Z2Nat.id in Hregs by lia.
    replace (USER_TRAP_FRAME + (a - USER_TRAP_FRAME)) with a in Hregs by lia.
    eapply bool_decide_eq_true_1, Hregs. apply in_seq. lia.
  - exact (bool_decide_eq_true_1 _ Hepc).
Qed.
Lemma boot_loaded_ok : loaded_b (before_loading boot_world 2) boot_loaded = true.
Proof. vm_compute. reflexivity. Qed.

Lemma boot_room : room (w_mem boot_world) addr_user_app.
Proof.
  split; [| |done| |by right].
  - apply wf_b_true. vm_compute. reflexivity.
  - apply frame_b_true; [done|]. vm_compute. reflexivity.
  - apply frame_b_true; [done|]. vm_compute. reflexivity.
Qed.

Lemma s_start_spec_witness :
  ∃ e w', s_start boot_world = Ret e w' ∧ e_mode e = UserMode ∧ e_pc e = 0x81000000 ∧
    (∀ r, e_regs e r = if decide (r = Sp) then USER_STACK else 0) ∧
    ready w' addr_user_app USER_TRAP_FRAME ∧
    w_host w' = host_calls
      [FeWrite 2 (printk_bytes (bytes ("Switch to user mode..." +:+ newline)))] (w_host boot_loaded).
Proof.
  destruct (loaded_b_true _ _ boot_loaded_ok) as (Hcons & Hl & Hregs & Hepc).
  apply (s_start_spec boot_world 2 boot_loaded 0x81000000);
    [apply sample_console|apply boot_room|apply boot_loads|exact Hcons|exact Hl|exact Hregs
    |exact Hepc|reflexivity].
Defined.

(** A host that hands over the kernel's name only. *)
Definition lone_host : Host sample_host := λ c h,
  match c with
  | FeGetmainvars _ _ => (FeReply 0 (le_bytes 8 1), h)
  | _ => host c h
  end.

Definition lone_call : fe_call := FeGetmainvars arg_area sizeof_arg_buf.
Lemma lone_argc :
  word_at (write_bytes (w_mem boot_world) arg_area
    (map u8 (fe_data (@host_call _ lone_host lone_call (w_host boot_world)).1))) arg_area = Some 1.
Proof. vm_compute. reflexivity. Qed.
Lemma lone_frame : frame (w_mem boot_world) arg_area (Z.to_nat sizeof_arg_buf).
Proof. apply frame_b_true; [done|]. vm_compute. reflexivity. Qed.

Lemma no_application_witness :
  let hst := lone_host in
  let reply := (host_call lone_call (w_host boot_world)).1 in
  let h := host_calls (H := sample_host) [lone_call] (w_host boot_world) in
  let m := write_bytes (w_mem boot_world) arg_area (map u8 (fe_data reply)) in
  load_bincode_from_host_elf sample_proc boot_world =
    Halted (set_host (host_calls
      [FeWrite 2 (printk_bytes (bytes ("You need to specify the application program!" +:+ newline +:+ newline)));
       FeWrite 2 (printk_bytes (shutdown_msg (-1))); FeExit (-1)] h) (set_mem m (set_host h boot_world))).
Proof.
  exact (no_application (HH := lone_host) boot_world 2 sample_proc (sample_console _ _) lone_frame
    eq_refl ltac:(vm_compute; discriminate) lone_argc).
Defined.
