(* ===== verification/Mtrap.v ===== *)
(** Machine traps: kernel/machine/mtrap.c, composed with the trap entry and exit of Asm.v.

    The registers of the CLINT are words of the memory, at their addresses. *)
From S2P Require Import Prelude Mem CString Snprintf World Sample SpikeUtils Asm.

Section mtrap.
Context {H : Type} `{HH : Host H} `{PP : Platform}.

Definition handle_instruction_access_fault : M (world H) () := panic "Instruction access fault!" [].
Definition handle_load_access_fault : M (world H) () := panic "Load access fault!" [].
Definition handle_store_access_fault : M (world H) () := panic "Store/AMO access fault!" [].
Definition handle_illegal_instruction : M (world H) () := panic "Illegal instruction!" [].
Definition handle_misaligned_load : M (world H) () := panic "Misaligned Load!" [].
Definition handle_misaligned_store : M (world H) () := panic "Misaligned AMO!" [].

Definition handle_timer : M (world H) () :=
  let cpuid := 0 in
  t ← on_mem (load64 (CLINT_MTIMECMP cpuid));
  on_mem (store64 (CLINT_MTIMECMP cpuid) (u64 (t + TIMER_INTERVAL)));;
  write_csr sip SIP_SSIP.

(** The case of [CAUSE_LOAD_ACCESS] has no [break]. *)
Definition handle_mtrap : M (world H) () :=
  cause ← read_csr mcause;
  if cause =? CAUSE_MTIMER then handle_timer
  else if cause =? CAUSE_FETCH_ACCESS then handle_instruction_access_fault
  else if cause =? CAUSE_LOAD_ACCESS then handle_load_access_fault;; handle_store_access_fault
  else if cause =? CAUSE_STORE_ACCESS then handle_store_access_fault
  else if cause =? CAUSE_ILLEGAL_INSTRUCTION then handle_illegal_instruction
  else if cause =? CAUSE_MISALIGNED_LOAD then handle_misaligned_load
  else if cause =? CAUSE_MISALIGNED_STORE then handle_misaligned_store
  else
    sprint (Lit (bytes ("machine trap(): unexpected mscause %p" +:+ newline))) [Num cause];;
    e ← read_csr mepc; v ← read_csr mtval;
    sprint (Lit (bytes ("            mepc=%p mtval=%p" +:+ newline))) [Num e; Num v];;
    panic ("unexpected exception happened in M-mode." +:+ newline) [].

(** A trap into machine mode taken in the context [f]. *)
Definition mtrap_round (stack0 : Z) (clobbered f : reg → Z) (w : world H) :
    outcome (cpu H) (mode * Z) :=
  mtrapvec stack0 handle_mtrap clobbered (Cpu _ f w).
End mtrap.

(** The fault each cause is reported as. *)
Definition fault_message (cause : Z) : option string :=
  match cause with
  | 1 => Some "Instruction access fault!"
  | 2 => Some "Illegal instruction!"
  | 4 => Some "Misaligned Load!"
  | 5 => Some "Load access fault!"
  | 6 => Some "Misaligned AMO!"
  | 7 => Some "Store/AMO access fault!"
  | _ => None
  end%string.
(** What the host is asked to print before the machine stops for a cause. *)
Definition mtrap_report (k cause epc tval : Z) : list fe_call :=
  let ptr v := bytes "0x" ++ hex 16 (s64 v) in
  match fault_message cause with
  | Some s => [FeWrite k (printk_bytes (bytes (s +:+ newline)))]
  | None =>
      [FeWrite k (printk_bytes (bytes "machine trap(): unexpected mscause " ++ ptr cause ++ [10]));
       FeWrite k (printk_bytes (bytes "            mepc=" ++ ptr epc ++ bytes " mtval=" ++ ptr tval ++ [10]));
       FeWrite k (printk_bytes (bytes ("unexpected exception happened in M-mode." +:+ newline +:+ newline)))]
  end.

Section specs.
Context {H : Type} `{HH : Host H} `{PP : Platform}.
Implicit Types w : world H.

(** The world after a timer interrupt was handled. *)
Definition ticked w (t : Z) : world H :=
  csr_set sip SIP_SSIP
    (set_mem (write_word (w_mem w) (CLINT_MTIMECMP 0) (u64 (t + TIMER_INTERVAL))) w).

Lemma handle_timer_Ret w t :
  word_at (w_mem w) (CLINT_MTIMECMP 0) = Some t → handle_timer w = Ret tt (ticked w t).
Proof.
  intros Ht. unfold handle_timer.
  assert (load64 (CLINT_MTIMECMP 0) (w_mem w) = Ret t (w_mem w)) as Hl by by apply load64_word.
  mrun (on_mem_read _ w t Hl).
  pose proof (on_mem_Ret _ w tt _ (store64_word (w_mem w) (CLINT_MTIMECMP 0) (u64 (t + TIMER_INTERVAL))
    ltac:(by rewrite Ht))) as Hs.
  by mrun Hs.
Qed.

Lemma handle_mtrap_timer w t :
  w_csr w mcause = CAUSE_MTIMER → word_at (w_mem w) (CLINT_MTIMECMP 0) = Some t →
  handle_mtrap w = Ret tt (ticked w t).
Proof.
  intros Hc Ht. unfold handle_mtrap. rewrite (bind_Ret _ _ w CAUSE_MTIMER w).
  - by apply handle_timer_Ret.
  - unfold read_csr, gets. by rewrite Hc.
Qed.

Lemma fault_message_other cause :
  cause ≠ CAUSE_FETCH_ACCESS → cause ≠ CAUSE_LOAD_ACCESS → cause ≠ CAUSE_STORE_ACCESS →
  cause ≠ CAUSE_ILLEGAL_INSTRUCTION → cause ≠ CAUSE_MISALIGNED_LOAD →
  cause ≠ CAUSE_MISALIGNED_STORE → fault_message cause = None.
Proof. intros. destruct cause as [|[[[p|p|]|[p|p|]|]|[[p|p|]|[p|p|]|]|]|p]; done. Qed.

(** The report of a cause without a message of its own. *)
Lemma unexpected_mtrap w k cause epc tval :
  console w k → w_csr w mepc = epc → w_csr w mtval = tval → fault_message cause = None →
  (sprint (Lit (bytes ("machine trap(): unexpected mscause %p" +:+ newline))) [Num cause];;
   e ← read_csr mepc; v ← read_csr mtval;
   sprint (Lit (bytes ("            mepc=%p mtval=%p" +:+ newline))) [Num e; Num v];;
   panic (A := ()) ("unexpected exception happened in M-mode." +:+ newline) []) w =
  Halted (set_host (host_calls (mtrap_report k cause epc tval ++
    [FeWrite k (printk_bytes (shutdown_msg (-1))); FeExit (-1)]) (w_host w)) w).
Proof.
  intros Hk He Hv Hnone. unfold mtrap_report. rewrite Hnone. set (ptr v := bytes "0x" ++ hex 16 (s64 v)).
  set (r1 := bytes "machine trap(): unexpected mscause " ++ ptr cause ++ [10]).
  set (r2 := bytes "            mepc=" ++ ptr epc ++ bytes " mtval=" ++ ptr tval ++ [10]).
  rewrite (bind_Ret _ _ w tt (printed k r1 w)).
  2:{ apply (sprint_Ret w k _ _ (bytes "machine trap(): unexpected mscause " ++ 37 :: 112 :: [10]));
        [done|apply cstring_lit; vm_compute; repeat constructor; done| |by vm_compute|right; by vm_compute].
      rewrite render_text by plain_tac. by rewrite render_percent, render_p. }
  rewrite (bind_Ret _ _ _ epc (printed k r1 w)) by (unfold read_csr, gets; by rewrite <- He).
  rewrite (bind_Ret _ _ _ tval (printed k r1 w)) by (unfold read_csr, gets; by rewrite <- Hv).
  rewrite (bind_Ret _ _ _ tt (printed k r2 (printed k r1 w))).
  2:{ apply (sprint_Ret _ k _ _ (bytes "            mepc=" ++ 37 :: 112 ::
               (bytes " mtval=" ++ 37 :: 112 :: [10])));
        [done|apply cstring_lit; vm_compute; repeat constructor; done| |by vm_compute|right; by vm_compute].
      rewrite render_text by plain_tac. rewrite render_percent, render_p, render_text by plain_tac.
      by rewrite render_percent, render_p. }
  by rewrite (panic_plain _ k) by (done || plain_tac).
Qed.

Lemma handle_mtrap_stops w k :
  console w k → w_csr w mcause ≠ CAUSE_MTIMER →
  handle_mtrap w = Halted (set_host (host_calls
    (mtrap_report k (w_csr w mcause) (w_csr w mepc) (w_csr w mtval) ++
     [FeWrite k (printk_bytes (shutdown_msg (-1))); FeExit (-1)]) (w_host w)) w).
Proof.
  intros Hk Ht. unfold handle_mtrap. rewrite (bind_Ret _ _ w (w_csr w mcause) w) by done.
  rewrite (proj2 (Z.eqb_neq _ CAUSE_MTIMER)) by done. clear Ht. generalize (w_csr w mcause) as cause.
  intros cause.
  destruct (Z.eqb_spec cause CAUSE_FETCH_ACCESS) as [->|H1]; [by apply panic_plain; [|plain_tac|]|].
  destruct (Z.eqb_spec cause CAUSE_LOAD_ACCESS) as [->|H2].
  { apply bind_Halted. by apply panic_plain; [|plain_tac|]. }
  destruct (Z.eqb_spec cause CAUSE_STORE_ACCESS) as [->|H3]; [by apply panic_plain; [|plain_tac|]|].
  destruct (Z.eqb_spec cause CAUSE_ILLEGAL_INSTRUCTION) as [->|H4]; [by apply panic_plain; [|plain_tac|]|].
  destruct (Z.eqb_spec cause CAUSE_MISALIGNED_LOAD) as [->|H5]; [by apply panic_plain; [|plain_tac|]|].
  destruct (Z.eqb_spec cause CAUSE_MISALIGNED_STORE) as [->|H6]; [by apply panic_plain; [|plain_tac|]|].
  apply unexpected_mtrap; try done. by apply fault_message_other.
Qed.

(** C34. A trap into machine mode for any cause but the timer ends the machine: the fault is
    named, or for a cause without a message the cause, the pc and the trap value are printed; then
    the shutdown notice, and the host is told to exit with -1.  (A load fault does not fall through
    to the message of the store fault below it.) *)
Theorem mtrap_panics w k :
  console w k → w_csr w mcause ≠ CAUSE_MTIMER →
  handle_mtrap w = Halted (set_host (host_calls
    (mtrap_report k (w_csr w mcause) (w_csr w mepc) (w_csr w mtval) ++
     [FeWrite k (printk_bytes (shutdown_msg (-1))); FeExit (-1)]) (w_host w)) w).
Proof. apply handle_mtrap_stops. Qed.
End specs.

(** Ready for a machine trap: [mscratch] leads to the frame at [p], and [mtimecmp] is [t]. *)
Record mready {H} (w : world H) (p t : Z) : Prop := {
  mr_scratch : w_csr w mscratch = p;
  mr_frame : frame (w_mem w) p 248;
  mr_top : p < 2 ^ 64;
  mr_wf : mem_wf (w_mem w);
  mr_timer : word_at (w_mem w) (CLINT_MTIMECMP 0) = Some t;
  mr_apart : CLINT_MTIMECMP 0 + 8 ≤ p ∨ p + 248 ≤ CLINT_MTIMECMP 0;
}.

Section rounds.
Context {H : Type} `{HH : Host H} `{PP : Platform} `{!RiscvCsrs}.
Implicit Types w : world H.

Lemma mtrap_timer_Ret w f p t stack0 clobbered :
  mready w p t → regs_ok f → w_csr w mcause = CAUSE_MTIMER →
  ∃ f' w', mtrap_round stack0 clobbered f w = Ret (mret_target w) (Cpu _ f' w') ∧
    (∀ r, f' r = if decide (r = T6) then p else f r) ∧
    mready w' p (u64 (t + TIMER_INTERVAL)) ∧ Z.testbit (w_csr w' sip) 1 = true ∧
    (∀ c, c ≠ sip → w_csr w' c = w_csr w c) ∧
    (∀ a, (a < p ∨ p + 248 ≤ a) → (a < CLINT_MTIMECMP 0 ∨ CLINT_MTIMECMP 0 + 8 ≤ a) →
      w_mem w' !! a = w_mem w !! a) ∧
    w' = set_mem (w_mem w') (set_csr (w_csr w') w).
Proof.
  intros [Hs Hf Hp Hwf Ht Ha] Hr Hc. assert (0 ≤ p) as Hp0 by apply Hf.
  set (w1 := csr_set mscratch p (set_mem (trap_mem (w_mem w) p f) (csr_set mscratch (f A0) w))).
  assert (word_at (w_mem w1) (CLINT_MTIMECMP 0) = Some t) as Ht1.
  { rewrite <- Ht. apply word_at_ext. intros a Hina. apply trap_mem_lookup. lia. }
  assert (∀ c, c ≠ mscratch → w_csr w1 c = w_csr w c) as Hcsr.
  { intros c Hne. unfold w1. rewrite csr_set_ne by done. cbn [w_csr set_mem]. by rewrite csr_set_ne. }
  assert (w_csr w1 mscratch = p) as Hs1.
  { unfold w1. rewrite csr_set_eq. apply csr_scratch; [by right|lia]. }
  pose proof (handle_mtrap_timer w1 t ltac:(by rewrite Hcsr) Ht1) as Hh.
  set (w2 := ticked w1 t) in Hh.
  assert (∀ c, c ≠ sip → w_csr w2 c = w_csr w1 c) as Hcsr2.
  { intros c Hne. unfold w2, ticked. by rewrite csr_set_ne. }
  assert (∀ a, a < CLINT_MTIMECMP 0 ∨ CLINT_MTIMECMP 0 + 8 ≤ a → w_mem w2 !! a = w_mem w1 !! a) as Hm2.
  { intros a Hina. unfold w2, ticked. cbn [w_mem csr_set set_csr set_mem]. by apply lookup_write_word_ne. }
  assert (frame (w_mem w2) p 248) as Hf2 by (by apply frame_write_word, trap_mem_frame).
  destruct (mtrapvec_Ret f w p stack0 handle_mtrap clobbered w1 w2) as (f' & He & Hf').
  - done.
  - done.
  - lia.
  - done.
  - intros v. apply csr_scratch; [by right|apply Hr].
  - apply csr_scratch; [by right|lia].
  - done.
  - done.
  - by rewrite Hcsr2, Hs1.
  - done.
  - intros a Hina. apply Hm2. lia.
  - exists f', w2. split_and!.
    + unfold mtrap_round. rewrite He. unfold mret_target. by rewrite !Hcsr2, !Hcsr by done.
    + done.
    + split; [by rewrite Hcsr2, Hs1|done|done| | |done].
      * by apply mem_wf_write_word, trap_mem_wf.
      * unfold w2, ticked. cbn [w_mem csr_set set_csr set_mem]. rewrite word_at_write. f_equal.
        apply u64_id, u64_range.
    + unfold w2, ticked. rewrite csr_set_eq. by rewrite csr_sip.
    + intros c Hne. rewrite Hcsr2 by done. destruct (decide (c = mscratch)) as [->|Hn].
      * by rewrite Hs1.
      * by apply Hcsr.
    + intros a H1 H2. rewrite Hm2 by done. unfold w1. cbn [w_mem csr_set set_csr set_mem].
      by apply trap_mem_lookup.
    + reflexivity.
Qed.

(** Any other trap ends the machine, from the trap entry on. *)
Lemma mtrap_fault_Halted w f p t k stack0 clobbered :
  mready w p t → regs_ok f → console w k → w_csr w mcause ≠ CAUSE_MTIMER →
  ∃ c, mtrap_round stack0 clobbered f w = Halted c ∧
    w_host (c_world c) = host_calls (mtrap_report k (w_csr w mcause) (w_csr w mepc) (w_csr w mtval) ++
      [FeWrite k (printk_bytes (shutdown_msg (-1))); FeExit (-1)]) (w_host w).
Proof.
  intros [Hs Hf Hp Hwf Ht Ha] Hr Hk Hc. assert (0 ≤ p) as Hp0 by apply Hf.
  set (w1 := csr_set mscratch p (set_mem (trap_mem (w_mem w) p f) (csr_set mscratch (f A0) w))).
  assert (∀ c, c ≠ mscratch → w_csr w1 c = w_csr w c) as Hcsr.
  { intros c Hne. unfold w1. rewrite csr_set_ne by done. cbn [w_csr set_mem]. by rewrite csr_set_ne. }
  pose proof (handle_mtrap_stops w1 k Hk ltac:(by rewrite Hcsr)) as Hh. rewrite !Hcsr in Hh by done.
  edestruct (mtrapvec_Halted f w p stack0 handle_mtrap clobbered) as [f' He]; [done|done|lia|done| |exact Hh|].
  - intros v. apply csr_scratch; [by right|apply Hr].
  - eexists. split; [exact He|done].
Qed.

(** C24. A timer interrupt in machine mode, end to end: [mtimecmp] moves on by the interval
    (modulo 2^64), the supervisor software interrupt becomes pending, and the interrupted code is
    resumed with its registers as they were, but [t6], which holds the address of the frame.
    Nothing else changes but the frame, so the machine is ready for the next timer interrupt. *)
Theorem mtrap_timer w f p t stack0 clobbered :
  mready w p t → regs_ok f → w_csr w mcause = CAUSE_MTIMER →
  ∃ f' w', mtrap_round stack0 clobbered f w = Ret (mret_target w) (Cpu _ f' w') ∧
    (∀ r, f' r = if decide (r = T6) then p else f r) ∧
    mready w' p (u64 (t + TIMER_INTERVAL)) ∧ Z.testbit (w_csr w' sip) 1 = true ∧
    (∀ c, c ≠ sip → w_csr w' c = w_csr w c) ∧
    (∀ a, (a < p ∨ p + 248 ≤ a) → (a < CLINT_MTIMECMP 0 ∨ CLINT_MTIMECMP 0 + 8 ≤ a) →
      w_mem w' !! a = w_mem w !! a) ∧
    w' = set_mem (w_mem w') (set_csr (w_csr w') w).
Proof. apply mtrap_timer_Ret. Qed.
End rounds.

(** * Instances *)
Import SampleMachine.

Definition mtrap_csrs (cause : Z) (c : csr) : Z :=
  match c with mscratch => 4096 | mcause => cause | mepc => 0x81000100 | _ => 0 end.
Definition mtrap_mem : mem :=
  write_word (write_bytes frame_mem (CLINT_MTIMECMP 0) (replicate 8 0)) (CLINT_MTIMECMP 0) 5000.
Definition mtrap_world (cause : Z) : world sample_host :=
  set_csr (mtrap_csrs cause) (sample_world mtrap_mem []).

Lemma mtrap_mem_wf : mem_wf mtrap_mem.
Proof.
  apply mem_wf_write_word, mem_wf_write_bytes; [apply frame_mem_wf|]. apply Forall_replicate. lia.
Qed.
Lemma mtrap_world_ready cause : mready (mtrap_world cause) 4096 5000.
Proof.
  split; [reflexivity| |done|apply mtrap_mem_wf| |right; done].
  - apply frame_write_word. destruct (frame_mem_frame 248 ltac:(lia)) as (? & ? & ?).
    split_and!; [done..|]. by apply mapped_write_bytes.
  - cbn [mtrap_world w_mem set_csr sample_world]. unfold mtrap_mem. by rewrite word_at_write.
Qed.

Lemma mtrap_timer_witness :
  let w := mtrap_world CAUSE_MTIMER in
  ∃ f' w', mtrap_round 0x80003000 (λ _, 7) user_regs w = Ret (mret_target w) (Cpu _ f' w') ∧
    (∀ r, f' r = if decide (r = T6) then 4096 else user_regs r) ∧
    mready w' 4096 (u64 (5000 + TIMER_INTERVAL)) ∧ Z.testbit (w_csr w' sip) 1 = true ∧
    (∀ c, c ≠ sip → w_csr w' c = w_csr w c) ∧
    (∀ a, (a < 4096 ∨ 4096 + 248 ≤ a) → (a < CLINT_MTIMECMP 0 ∨ CLINT_MTIMECMP 0 + 8 ≤ a) →
      w_mem w' !! a = w_mem w !! a) ∧
    w' = set_mem (w_mem w') (set_csr (w_csr w') w).
Proof.
  intros w. apply (mtrap_timer w user_regs 4096 5000 0x80003000 (λ _, 7));
    [apply mtrap_world_ready|apply user_regs_ok|reflexivity].
Defined.

Lemma mtrap_panics_witness :
  let w := mtrap_world CAUSE_LOAD_ACCESS in
  handle_mtrap w = Halted (set_host (host_calls
    ([FeWrite 2 (printk_bytes (bytes ("Load access fault!" +:+ newline)))] ++
     [FeWrite 2 (printk_bytes (shutdown_msg (-1))); FeExit (-1)]) (w_host w)) w).
Proof. intros w. apply (mtrap_panics w 2); [apply sample_console|discriminate]. Defined.
