(* ===== verification/Dts.v ===== *)
(** Flattened device trees: spike_interface/dts_parse.c and dts_parse.h.

    The blob is read in place.  A node is the list of the cell counts of the node and of its
    ancestors, innermost first: the empty list is the null pointer, [child.parent = node] is
    [child :: node] and [node->parent] is the tail, so that a write to [node->address_cells] is a
    change of the head, seen by every node below.  The callbacks are the fields of [fdt_cb], over
    the type [X] of what [cb->extra] points to.  The second half has the trees themselves, their
    flattening, and the visits a scan makes. *)
From S2P Require Import Prelude Mem CString Snprintf World Sample SpikeUtils.

Definition FDT_MAGIC : Z := 0xd00dfeed.
Definition FDT_VERSION : Z := 17.
Definition FDT_BEGIN_NODE : Z := 1.
Definition FDT_END_NODE : Z := 2.
Definition FDT_PROP : Z := 3.
Definition FDT_NOP : Z := 4.
Definition FDT_END : Z := 9.

(** Offsets in [struct fdt_header]. *)
Definition hdr_magic : Z := 0.
Definition hdr_off_dt_struct : Z := 8.
Definition hdr_off_dt_strings : Z := 12.
Definition hdr_last_comp_version : Z := 24.

Definition bswap (x : Z) : Z :=
  let y := Z.lor (u32 (Z.shiftl (Z.land x 0x00FF00FF) 8)) (Z.shiftr (Z.land x 0xFF00FF00) 8) in
  Z.lor (u32 (Z.shiftl (Z.land y 0x0000FFFF) 16)) (Z.shiftr (Z.land y 0xFFFF0000) 16).

(** The fields of [struct fdt_scan_node], but [parent]. *)
Record cells := Cells { node_name : Z; address_cells : Z; size_cells : Z }.
Abbreviation fdt_scan_node := (list cells).
Definition set_address_cells (v : Z) (n : fdt_scan_node) : fdt_scan_node :=
  match n with c :: up => Cells (node_name c) v (size_cells c) :: up | [] => [] end.
Definition set_size_cells (v : Z) (n : fdt_scan_node) : fdt_scan_node :=
  match n with c :: up => Cells (node_name c) (address_cells c) v :: up | [] => [] end.
(** The default cell counts; the name is not set yet. *)
Definition default_cells : cells := Cells 0 2 1.
Definition non_null (n : fdt_scan_node) : bool := match n with [] => false | _ => true end.

Record fdt_scan_prop := ScanProp {
  prop_node : fdt_scan_node; prop_name : Z; prop_value : Z; prop_len : Z }.

Record fdt_cb {H X : Type} := FdtCb {
  cb_open : option (fdt_scan_node → X → M (world H) X);
  cb_prop : option (fdt_scan_prop → X → M (world H) X);
  cb_done : option (fdt_scan_node → X → M (world H) X);
  cb_close : option (fdt_scan_node → X → M (world H) (Z * X));
}.
Arguments fdt_cb H X : clear implicits.

Section scan.
Context {H X : Type} `{HH : Host H} `{PP : Platform}.
Implicit Types cb : fdt_cb H X.

(** [bswap] of a word in memory. *)
Definition load_be (p : Z) : M (world H) Z :=
  v ← on_mem (load32 p); mret (bswap v).

(** [!strcmp(s, "...")] for a literal *)
Definition is_lit (p : Z) (s : string) : M (world H) bool :=
  r ← on_mem (strcmp p (addr_lit s)); mret (r =? 0).

(** [if (cb->f) cb->f(a, cb->extra);] *)
Definition opt_call {A} (f : option (A → X → M (world H) X)) (a : A) (x : X) : M (world H) X :=
  match f with Some f => f a x | None => mret x end.
(** [cb->prop(&prop, cb->extra)] is not behind a test. *)
Definition call_prop cb (p : fdt_scan_prop) (x : X) : M (world H) X :=
  match cb_prop cb with Some f => f p x | None => fault end.

(** [if (!last && node && cb->done) cb->done(node, cb->extra);] *)
Definition call_done cb (last : bool) (node : fdt_scan_node) (x : X) : M (world H) X :=
  if negb last && non_null node then opt_call (cb_done cb) node x else mret x.

(** The two tests on the name of a property that set the cell counts of its node. *)
Definition prop_cells (name lex : Z) (node : fdt_scan_node) : M (world H) fdt_scan_node :=
  if non_null node then
    a ← is_lit name "#address-cells";
    node ← (if (a : bool) then v ← load_be (lex + 12); mret (set_address_cells (s32 v) node)
            else mret node);
    s ← is_lit name "#size-cells";
    if (s : bool) then v ← load_be (lex + 12); mret (set_size_cells (s32 v) node) else mret node
  else mret node.

(** [while (lex != lex_next) *lex++ = bswap(FDT_NOP);] *)
Definition nop_out (fuel : nat) (lex lex_next : Z) : M (world H) () :=
  loop fuel (λ lex,
    if lex =? lex_next then mret (inr tt)
    else on_mem (store32 lex (bswap FDT_NOP));; mret (inl (lex + 4))) lex.

(** [if (cb->close && cb->close(&child, cb->extra) == -1) ...] *)
Definition call_close cb (child : fdt_scan_node) (lex lex_next : Z) (x : X) : M (world H) X :=
  match cb_close cb with
  | None => mret x
  | Some f =>
      '(r, x) ← f child x;
      when (r =? -1) (nop_out (S (Z.to_nat (lex_next - lex))) lex lex_next);;
      mret x
  end.

(** The loop of [fdt_scan_helper] with its local variables; it yields the pointer the function
    returns, the node as its pointer's target is left, and the callbacks' data.  [prop.len] is an
    [int], and the sum in [(prop.len + 3) / 4] has to fit one. *)
Fixpoint fdt_scan_loop (fuel : nat) cb (strings lex : Z) (node : fdt_scan_node) (child : cells)
    (last : bool) (x : X) : M (world H) (Z * fdt_scan_node * X) :=
  match fuel with
  | O => no_fuel
  | S fuel' =>
      token ← load_be lex;
      if token =? FDT_NOP then
        fdt_scan_loop fuel' cb strings (lex + 4) node child last x
      else if token =? FDT_PROP then
        assert_at "spike_interface/dts_parse.c" 36 (negb last) "!last";;
        off ← load_be (lex + 8);
        len ← load_be (lex + 4);
        let name := strings + off in
        let len := s32 len in
        node ← prop_cells name lex node;
        (if len + 3 <? 2 ^ 31 then mret tt else fault);;
        x ← call_prop cb (ScanProp node name (lex + 12) len) x;
        fdt_scan_loop fuel' cb strings (lex + 4 * (3 + Z.quot (len + 3) 4)) node child last x
      else if token =? FDT_BEGIN_NODE then
        x ← call_done cb last node x;
        let child := Cells (lex + 4) (address_cells child) (size_cells child) in
        x ← opt_call (cb_open cb) (child :: node) x;
        len ← on_mem (strlen (lex + 4));
        '(lex_next, inner, x) ←
          fdt_scan_loop fuel' cb strings (lex + 4 * (2 + len / 4)) (child :: node)
            default_cells false x;
        match inner with
        | child :: node =>
            x ← call_close cb (child :: node) lex lex_next x;
            fdt_scan_loop fuel' cb strings lex_next node child true x
        | [] => fault
        end
      else if token =? FDT_END_NODE then
        x ← call_done cb last node x; mret (lex + 4, node, x)
      else
        x ← call_done cb last node x; mret (lex, node, x)
  end.

Definition fdt_scan_helper (fuel : nat) (lex strings : Z) (node : fdt_scan_node) cb (x : X) :
    M (world H) (Z * fdt_scan_node * X) :=
  fdt_scan_loop fuel cb strings lex node default_cells false x.

(** [fdt_get_address] and [fdt_get_size] differ in the count they take from the node. *)
Definition get_cells (n value : Z) : M (world H) (Z * Z) :=
  loop (S (Z.to_nat n)) (λ '(cells, value, result),
    if cells >? 0 then
      v ← load_be value; mret (inl (cells - 1, value + 4, u64 (u64 (Z.shiftl result 32) + v)))
    else mret (inr (result, value))) (n, value, 0).
Definition fdt_get_address (node : fdt_scan_node) (value : Z) : M (world H) (Z * Z) :=
  match node with c :: _ => get_cells (address_cells c) value | [] => fault end.
Definition fdt_get_size (node : fdt_scan_node) (value : Z) : M (world H) (Z * Z) :=
  match node with c :: _ => get_cells (size_cells c) value | [] => fault end.

Definition fdt_scan (fdt : Z) cb (x : X) : M (world H) X :=
  magic ← load_be (fdt + hdr_magic);
  if negb (magic =? FDT_MAGIC) then mret x
  else
    version ← load_be (fdt + hdr_last_comp_version);
    if version >? FDT_VERSION then mret x
    else
      strings ← load_be (fdt + hdr_off_dt_strings);
      struct ← load_be (fdt + hdr_off_dt_struct);
      fuel ← gets (λ w, scan_fuel (w_mem w));
      '(_, _, x) ← fdt_scan_helper fuel (fdt + struct) (fdt + strings) [] cb x;
      mret x.
End scan.

(** * Big-endian words *)
Definition be32 (v : Z) : list Z := rev (le_bytes 4 v).
Definition be_val (bs : list Z) : Z := le_val (rev bs).

(** * Trees and their flattening *)

(** A property carries the offset of its name in the strings block; [DNop] is a NOP token. *)
Inductive dprop := DNop | DProp (off : Z) (name value : list Z).
Inductive dtree := DNode (name : list Z) (props : list dprop) (children : list dtree).

Definition zlen (bs : list Z) : Z := Z.of_nat (length bs).
(** Padding to a multiple of four bytes. *)
Definition pad4 (bs : list Z) : list Z := bs ++ replicate (Z.to_nat ((- zlen bs) `mod` 4)) 0.
Definition flatten_prop (p : dprop) : list Z :=
  match p with
  | DNop => be32 FDT_NOP
  | DProp off _ v => be32 FDT_PROP ++ be32 (zlen v) ++ be32 off ++ pad4 v
  end.
Definition flatten_props (ps : list dprop) : list Z := concat (map flatten_prop ps).
Fixpoint flatten (t : dtree) : list Z :=
  match t with
  | DNode n ps cs =>
      be32 FDT_BEGIN_NODE ++ pad4 (n ++ [0]) ++ flatten_props ps ++ concat (map flatten cs) ++
      be32 FDT_END_NODE
  end.
Definition flatten_all (cs : list dtree) : list Z := concat (map flatten cs).

(** * The visits of a scan

    What the callbacks get to see of one node: the node when it is opened, its properties with
    their names and values, and the node after its last property. *)
Record located := Located { l_prop : fdt_scan_prop; l_name : list Z; l_value : list Z }.
Record visit := Visit { v_open : fdt_scan_node; v_props : list located; v_node : fdt_scan_node }.

(** A property's effect on the cell counts of its node. *)
Definition update_cells (name value : list Z) (c : cells) : cells :=
  let v := s32 (be_val (take 4 value)) in
  let c := if decide (name = bytes "#address-cells")
           then Cells (node_name c) v (size_cells c) else c in
  if decide (name = bytes "#size-cells") then Cells (node_name c) (address_cells c) v else c.

(** The properties [ps] at [p] of a node with counts [c] under [up]. *)
Fixpoint locate_props (strings p : Z) (c : cells) (up : fdt_scan_node) (ps : list dprop) :
    list located * cells :=
  match ps with
  | [] => ([], c)
  | DNop :: ps => locate_props strings (p + 4) c up ps
  | DProp off name value :: ps =>
      let c := update_cells name value c in
      let '(ls, c') := locate_props strings (p + (12 + zlen (pad4 value))) c up ps in
      (Located (ScanProp (c :: up) (strings + off) (p + 12) (zlen value)) name value :: ls, c')
  end.

(** The visits of the tree [t] at [p] under [up], in order, and the counts it leaves: those the
    next sibling starts with. *)
Fixpoint visits (strings p : Z) (up : fdt_scan_node) (child : cells) (t : dtree) :
    list visit * cells :=
  match t with
  | DNode n ps cs =>
      let c := Cells (p + 4) (address_cells child) (size_cells child) in
      let q := p + 4 + zlen (pad4 (n ++ [0])) in
      let '(ls, c') := locate_props strings q c up ps in
      let kids := (fix kids (q : Z) (child : cells) (cs : list dtree) : list visit :=
        match cs with
        | [] => []
        | t :: cs =>
            let '(vs, child') := visits strings q (c' :: up) child t in
            vs ++ kids (q + zlen (flatten t)) child' cs
        end) (q + zlen (flatten_props ps)) default_cells cs in
      (Visit (c :: up) ls (c' :: up) :: kids, c')
  end.
Fixpoint visits_all (strings q : Z) (up : fdt_scan_node) (child : cells) (cs : list dtree) :
    list visit :=
  match cs with
  | [] => []
  | t :: cs =>
      let '(vs, child') := visits strings q up child t in
      vs ++ visits_all strings (q + zlen (flatten t)) up child' cs
  end.

(** The callbacks over the visits. *)
Section run.
Context {H X : Type}.
Implicit Types cb : fdt_cb H X.
Fixpoint run_props cb (ls : list located) (x : X) : M (world H) X :=
  match ls with [] => mret x | l :: ls => x ← call_prop cb (l_prop l) x; run_props cb ls x end.
Definition run_visit cb (v : visit) (x : X) : M (world H) X :=
  x ← opt_call (cb_open cb) (v_open v) x;
  x ← run_props cb (v_props v) x;
  opt_call (cb_done cb) (v_node v) x.
Fixpoint run_visits cb (vs : list visit) (x : X) : M (world H) X :=
  match vs with [] => mret x | v :: vs => x ← run_visit cb v x; run_visits cb vs x end.
End run.

(** Trees a blob can hold: the names are C strings, the lengths fit, and a property that sets a
    cell count has a value to set it from. *)
Definition prop_ok (m : mem) (strings : Z) (p : dprop) : Prop :=
  match p with
  | DNop => True
  | DProp off name value =>
      cstr m (strings + off) name ∧ 0 ≤ off < 2 ^ 32 ∧ zlen value + 3 < 2 ^ 31 ∧
      (name = bytes "#address-cells" ∨ name = bytes "#size-cells" → 4 ≤ zlen value)
  end.
Fixpoint tree_ok (m : mem) (strings : Z) (t : dtree) : Prop :=
  match t with
  | DNode n ps cs =>
      Forall (λ b, b ≠ 0) n ∧ Forall (prop_ok m strings) ps ∧
      foldr (λ c P, tree_ok m strings c ∧ P) True cs
  end.

(** The rounds of the loop that scanning the body of a node takes, those of the calls below it
    included. *)
Fixpoint rounds (t : dtree) : nat :=
  match t with
  | DNode _ ps cs => length ps + foldr (λ c n, S (rounds c + n)) 1%nat cs
  end.
Definition rounds_all (cs : list dtree) : nat := foldr (λ c n, S (rounds c + n)) 1%nat cs.

(** The bytes [bs] lie at [p]. *)
Definition bytes_at (m : mem) (p : Z) (bs : list Z) : Prop :=
  read_bytes m p (length bs) = Some bs.

(** * Arithmetic *)
Lemma testbit_high v w n : 0 ≤ v < 2 ^ w → 0 ≤ w ≤ n → Z.testbit v n = false.
Proof. intros Hv Hw. rewrite <- (Z.mod_small v (2 ^ w)) by lia. by rewrite Z.mod_pow2_bits_high by lia. Qed.
Lemma bits_range v w :
  0 ≤ v → 0 ≤ w → (∀ n, w ≤ n → Z.testbit v n = false) → v < 2 ^ w.
Proof.
  intros Hv Hw Hb. replace v with (v `mod` 2 ^ w); [apply Z.mod_pos_bound; lia|].
  apply Z.bits_inj'. intros n Hn. destruct (Z.lt_ge_cases n w).
  - by apply Z.mod_pow2_bits_low.
  - by rewrite Z.mod_pow2_bits_high, Hb by lia.
Qed.
Lemma testbit_byte_cons b v n :
  0 ≤ b < 256 →
  Z.testbit (b + 256 * v) n = if n <? 8 then Z.testbit b n else Z.testbit v (n - 8).
Proof.
  intros Hb. change 256 with (2 ^ 8) in *.
  destruct (Z.ltb_spec n 0); [by rewrite !Z.testbit_neg_r by lia; case_Z; [|lia]|].
  destruct (Z.ltb_spec n 8).
  - rewrite <- (Z.mod_pow2_bits_low _ 8) by lia.
    by rewrite Z.mul_comm, Z_mod_plus_full, Z.mod_small by lia.
  - replace n with (n - 8 + 8) at 1 by lia. rewrite <- Z.div_pow2_bits by lia.
    f_equal. rewrite Z.mul_comm, Z_div_plus_full, Z.div_small by lia. lia.
Qed.

(** The bits of [bswap]: a bit of byte [i] comes from byte [3 - i]. *)
Lemma testbit_bswap x n :
  0 ≤ n < 32 → Z.testbit (bswap x) n = Z.testbit x (8 * (3 - n / 8) + n mod 8).
Proof.
  intros Hn. assert (n ∈ seqZ 0 32) as Hin by (apply elem_of_seqZ; lia). clear Hn.
  revert n Hin. apply Forall_forall. set (l := seqZ 0 32). vm_compute in l. subst l.
  unfold bswap, u32.
  repeat constructor;
    repeat (rewrite ?Z.lor_spec, ?Z.land_spec, ?Z.mod_pow2_bits_low, ?Z.shiftl_spec,
      ?Z.shiftr_spec, ?Z.testbit_neg_r by lia; simpl Z.sub; simpl Z.add);
    repeat match goal with |- context [Z.testbit (Zpos ?c) ?k] =>
      let b := eval vm_compute in (Z.testbit (Zpos c) k) in
      change (Z.testbit (Zpos c) k) with b end;
    by rewrite ?andb_true_r, ?andb_false_r, ?orb_false_r.
Qed.
Lemma bswap_range x : 0 ≤ bswap x < 2 ^ 32.
Proof.
  assert (0 ≤ bswap x) as H0.
  { unfold bswap. apply Z.lor_nonneg. split; [apply u32_range|].
    apply Z.shiftr_nonneg, Z.land_nonneg. by right. }
  split; [done|]. apply bits_range; [done|lia|]. intros n Hn. unfold bswap, u32.
  rewrite Z.lor_spec, Z.mod_pow2_bits_high, Z.shiftr_spec, Z.land_spec by lia.
  by rewrite (testbit_high 0xFFFF0000 32), andb_false_r by lia.
Qed.

Lemma bswap_bswap x : 0 ≤ x < 2 ^ 32 → bswap (bswap x) = x.
Proof.
  intros Hx. apply Z.bits_inj'. intros n Hn. destruct (Z.lt_ge_cases n 32) as [Hlt|Hge].
  - assert (0 ≤ 8 * (3 - n / 8) + n `mod` 8 < 32) by (Z.div_mod_to_equations; lia).
    rewrite !testbit_bswap by done. f_equal. Z.div_mod_to_equations. lia.
  - pose proof (bswap_range (bswap x)). by rewrite !(testbit_high _ 32) by lia.
Qed.

(** [bswap] reverses the four bytes of a word. *)
Lemma bswap_bytes a b c d :
  0 ≤ a < 256 → 0 ≤ b < 256 → 0 ≤ c < 256 → 0 ≤ d < 256 →
  bswap (le_val [a; b; c; d]) = le_val [d; c; b; a].
Proof.
  intros Ha Hb Hc Hd. apply Z.bits_inj'. intros n Hn.
  assert (∀ w x y z, 0 ≤ w < 256 → 0 ≤ x < 256 → 0 ≤ y < 256 → 0 ≤ z < 256 →
    0 ≤ le_val [w; x; y; z] < 2 ^ 32) as Hr.
  { intros w x y z Hw Hx Hy Hz. cbn [le_val]. lia. }
  destruct (Z.lt_ge_cases n 32) as [Hlt|Hge].
  - rewrite testbit_bswap by lia. cbn [le_val]. rewrite !testbit_byte_cons by lia.
    repeat case_Z; try (f_equal; Z.div_mod_to_equations; lia); Z.div_mod_to_equations; lia.
  - pose proof (bswap_range (le_val [a; b; c; d])).
    rewrite !(testbit_high _ 32); try done; by apply Hr.
Qed.

Lemma be_val_be32 v : 0 ≤ v < 2 ^ 32 → be_val (be32 v) = v.
Proof.
  intros Hv. unfold be_val, be32. rewrite rev_involutive, le_val_le_bytes. by apply Z.mod_small.
Qed.
Lemma length_be32 v : length (be32 v) = 4%nat.
Proof. done. Qed.

(** * Reading the blob *)
Lemma bytes_at_app m p bs bs' :
  bytes_at m p (bs ++ bs') ↔ bytes_at m p bs ∧ bytes_at m (p + zlen bs) bs'.
Proof. unfold bytes_at. rewrite length_app. apply read_bytes_app. Qed.
Lemma zlen_app bs bs' : zlen (bs ++ bs') = zlen bs + zlen bs'.
Proof. unfold zlen. rewrite length_app. lia. Qed.
Lemma zlen_be32 v : zlen (be32 v) = 4.
Proof. done. Qed.
Lemma zlen_nonneg bs : 0 ≤ zlen bs.
Proof. unfold zlen. lia. Qed.
Lemma zlen_pad4 bs : zlen (pad4 bs) = 4 * ((zlen bs + 3) / 4).
Proof.
  unfold pad4. rewrite zlen_app. unfold zlen at 2. rewrite length_replicate.
  pose proof (Z.mod_pos_bound (- zlen bs) 4 ltac:(lia)). rewrite Z2Nat.id by lia.
  Z.div_mod_to_equations. lia.
Qed.
Lemma flatten_props_cons p ps : flatten_props (p :: ps) = flatten_prop p ++ flatten_props ps.
Proof. done. Qed.
Lemma flatten_all_cons t ts : flatten_all (t :: ts) = flatten t ++ flatten_all ts.
Proof. done. Qed.
Lemma zlen_flatten_prop off n v : zlen (flatten_prop (DProp off n v)) = 12 + zlen (pad4 v).
Proof. cbn [flatten_prop]. rewrite !zlen_app, !zlen_be32. lia. Qed.
Lemma rounds_all_cons t ts : rounds_all (t :: ts) = S (rounds t + rounds_all ts).
Proof. done. Qed.
(** A list of four bytes. *)
Lemma length_4 {A} (l : list A) : length l = 4%nat → ∃ a b c d, l = [a; b; c; d].
Proof. destruct l as [|a [|b [|c [|d [|]]]]]; try done. intros _. by eexists _, _, _, _. Qed.

Lemma dtree_ind' (P : dtree → Prop) :
  (∀ n ps cs, Forall P cs → P (DNode n ps cs)) → ∀ t, P t.
Proof.
  intros Hn. fix IH 1. intros [n ps cs]. apply Hn. induction cs as [|c cs IHcs]; constructor; auto.
Qed.

Lemma visits_eq strings p up child n ps cs :
  visits strings p up child (DNode n ps cs) =
    let c := Cells (p + 4) (address_cells child) (size_cells child) in
    let q := p + 4 + zlen (pad4 (n ++ [0])) in
    let '(ls, c') := locate_props strings q c up ps in
    (Visit (c :: up) ls (c' :: up) ::
       visits_all strings (q + zlen (flatten_props ps)) (c' :: up) default_cells cs, c').
Proof.
  cbn [visits]. destruct (locate_props _ _ _ _ _) as [ls c']. do 2 f_equal.
  generalize (p + 4 + zlen (pad4 (n ++ [0])) + zlen (flatten_props ps)) as q.
  generalize default_cells. induction cs as [|t cs IH]; intros d q; [done|].
  cbn [visits_all]. destruct (visits _ _ _ _ t). by rewrite IH.
Qed.

(** A bind whose head keeps the memory: its continuation matters in that memory only. *)
Lemma bind_keeps_eq {S A B} (P : S → Prop) (k : M S A) (f g : A → M S B) s :
  keeps P k → P s → (∀ a s', P s' → f a s' = g a s') → (k ≫= f) s = (k ≫= g) s.
Proof.
  intros Hk HP Hfg. specialize (Hk s HP). unfold mbind, M_bind. destruct (k s); try done.
  by apply Hfg.
Qed.

Lemma bind_head {S A B} (k k' : M S A) (f : A → M S B) s : k s = k' s → (k ≫= f) s = (k' ≫= f) s.
Proof. unfold mbind, M_bind. by intros ->. Qed.

Section reading.
Context {H : Type} `{HH : Host H} `{PP : Platform}.
Implicit Types w : world H.

Lemma load_be_Ret w p bs :
  mem_wf (w_mem w) → bytes_at (w_mem w) p bs → length bs = 4%nat → load_be p w = Ret (be_val bs) w.
Proof.
  intros Hwf Hb Hl. unfold load_be. pose proof (read_bytes_wf _ _ _ _ Hwf Hb) as Hr.
  unfold bytes_at in Hb. rewrite Hl in Hb.
  assert (load32 p (w_mem w) = Ret (le_val bs) (w_mem w)) as Hload
    by (apply load32_word; unfold word32_at; by rewrite Hb).
  mrun (on_mem_read _ _ _ Hload). destruct (length_4 bs Hl) as (a & b & c & d & ->).
  repeat match goal with H : Forall _ (_ :: _) |- _ => inversion H; clear H; subst end.
  by rewrite bswap_bytes.
Qed.
Lemma load_be32 w p v :
  mem_wf (w_mem w) → bytes_at (w_mem w) p (be32 v) → 0 ≤ v < 2 ^ 32 → load_be p w = Ret v w.
Proof. intros Hwf Hb Hv. rewrite (load_be_Ret w p _ Hwf Hb) by done. by rewrite be_val_be32. Qed.

Lemma is_lit_Ret w p s n :
  mem_wf (w_mem w) → cstr (w_mem w) p n → cstr (w_mem w) (addr_lit s) (bytes s) →
  is_lit p s w = Ret (bool_decide (n = bytes s)) w.
Proof.
  intros Hwf Hp Hs. unfold is_lit. destruct (strcmp_Ret _ _ _ _ _ Hwf Hp Hs) as (r & Hr & Hz & _).
  mrun (on_mem_read _ _ _ Hr). unfold mret, M_ret. f_equal.
  destruct (Z.eqb_spec r 0) as [Hr0|Hr0]; symmetry.
  - apply bool_decide_eq_true. tauto.
  - apply bool_decide_eq_false. tauto.
Qed.
End reading.

(** * The scan of a flattened tree *)
Section scanning.
Context {H X : Type} `{HH : Host H} `{PP : Platform}.
Context (m : mem) (strings : Z) (cb : fdt_cb H X).
Implicit Types (w : world H) (x : X).

(** What the scan relies on: the literals it compares with, callbacks that leave the memory
    alone, and no [close] callback (the kernel's two clients have none). *)
Record scan_env : Prop := {
  se_wf : mem_wf m;
  se_address : cstr m (addr_lit "#address-cells") (bytes "#address-cells");
  se_size : cstr m (addr_lit "#size-cells") (bytes "#size-cells");
  se_open n x : keeps (λ w, w_mem w = m) (opt_call (cb_open cb) n x);
  se_prop p x : keeps (λ w, w_mem w = m) (call_prop cb p x);
  se_done n x : keeps (λ w, w_mem w = m) (opt_call (cb_done cb) n x);
  se_close : cb_close cb = None;
}.
Context (E : scan_env).

Lemma scan_load_be w p v :
  w_mem w = m → bytes_at m p (be32 v) → 0 ≤ v < 2 ^ 32 → load_be p w = Ret v w.
Proof. intros Hm Hb. apply load_be32; rewrite Hm; [apply E|done]. Qed.

Lemma prop_cells_Ret w name lex n value c up :
  w_mem w = m → cstr m name n → bytes_at m (lex + 12) value →
  (n = bytes "#address-cells" ∨ n = bytes "#size-cells" → 4 ≤ zlen value) →
  prop_cells name lex (c :: up) w = Ret (update_cells n value c :: up) w.
Proof.
  intros Hm Hn Hv Hl. unfold prop_cells. cbn [non_null].
  rewrite (bind_Ret _ _ w (bool_decide (n = bytes "#address-cells")) w)
    by (apply is_lit_Ret; rewrite Hm; auto using se_wf, se_address).
  assert (n = bytes "#address-cells" ∨ n = bytes "#size-cells" →
    load_be (lex + 12) w = Ret (be_val (take 4 value)) w) as Hload.
  { intros Hc. specialize (Hl Hc). unfold zlen in Hl. apply load_be_Ret; rewrite ?Hm.
    - apply E.
    - unfold bytes_at in *. rewrite length_take_le by lia.
      replace (length value) with (4 + (length value - 4))%nat in Hv by lia.
      by apply read_bytes_split in Hv as [Hv _].
    - rewrite length_take_le; lia. }
  unfold update_cells. destruct (decide (n = bytes "#address-cells")) as [Ha|Ha].
  - rewrite bool_decide_true by done. rewrite bind_assoc. mrun (Hload ltac:(by left)).
    rewrite mret_bind. cbn [set_address_cells].
    rewrite (bind_Ret _ _ w false w).
    2:{ rewrite (is_lit_Ret w _ _ n) by (rewrite ?Hm; auto using se_wf, se_size).
        by rewrite bool_decide_false by (rewrite Ha; discriminate). }
    by rewrite decide_False by (rewrite Ha; discriminate).
  - rewrite bool_decide_false by done. rewrite mret_bind.
    rewrite (bind_Ret _ _ w (bool_decide (n = bytes "#size-cells")) w)
      by (apply is_lit_Ret; rewrite ?Hm; auto using se_wf, se_size).
    destruct (decide (n = bytes "#size-cells")) as [Hs|Hs].
    + rewrite bool_decide_true by done. by mrun (Hload ltac:(by right)).
    + by rewrite bool_decide_false by done.
Qed.

(** The properties of a node. *)
Lemma scan_props ps fuel p c up child x w :
  w_mem w = m → bytes_at m p (flatten_props ps) → Forall (prop_ok m strings) ps →
  fdt_scan_loop (length ps + fuel) cb strings p (c :: up) child false x w =
    (let '(ls, c') := locate_props strings p c up ps in
     x' ← run_props cb ls x;
     fdt_scan_loop fuel cb strings (p + zlen (flatten_props ps)) (c' :: up) child false x') w.
Proof.
  revert p c x w. induction ps as [|[|off n value] ps IH]; intros p c x w Hm Hb Hok.
  - cbn [locate_props run_props Nat.add length]. by rewrite mret_bind, Z.add_0_r.
  - apply Forall_cons in Hok as [_ Hok']. rewrite flatten_props_cons in Hb |- *.
    apply bytes_at_app in Hb as [H1 H2]. cbn [length Nat.add fdt_scan_loop].
    mrun (scan_load_be w p FDT_NOP Hm H1 ltac:(done)).
    rewrite zlen_app, Z.add_assoc. apply (IH (p + 4)); done.
  - apply Forall_cons in Hok as [(Hn & Hoff & Hlen & Hc) Hok'].
    rewrite flatten_props_cons in Hb |- *. rewrite zlen_app.
    apply bytes_at_app in Hb as [Hb Hps]. rewrite zlen_flatten_prop, zlen_pad4 in Hps |- *.
    cbn [flatten_prop] in Hb.
    apply bytes_at_app in Hb as [H1 Hb]. apply bytes_at_app in Hb as [H2 Hb].
    apply bytes_at_app in Hb as [H3 Hv]. rewrite !zlen_be32 in *.
    replace (p + 4 + 4) with (p + 8) in * by lia. replace (p + 8 + 4) with (p + 12) in Hv by lia.
    unfold pad4 in Hv. apply bytes_at_app in Hv as [Hv _].
    pose proof (zlen_nonneg value). pose proof (s32_range (zlen value)).
    cbn [length Nat.add fdt_scan_loop].
    mrun (scan_load_be w p FDT_PROP Hm H1 ltac:(done)). cbn [Z.eqb FDT_PROP FDT_NOP Pos.eqb].
    cbn [negb assert_at]. rewrite mret_bind.
    mrun (scan_load_be w (p + 8) off Hm H3 ltac:(done)).
    mrun (scan_load_be w (p + 4) (zlen value) Hm H2 ltac:(lia)).
    rewrite s32_id by lia. mrun (prop_cells_Ret w (strings + off) p n value c up Hm Hn Hv Hc).
    rewrite (proj2 (Z.ltb_lt _ _)), mret_bind by lia. cbn [locate_props].
    rewrite zlen_pad4, Z.quot_div_nonneg by lia.
    replace (p + 4 * (3 + (zlen value + 3) / 4)) with (p + (12 + 4 * ((zlen value + 3) / 4))) by lia.
    set (q := p + (12 + _)) in *. set (c1 := update_cells n value c).
    destruct (locate_props strings q c1 up ps) as [ls c'] eqn:Hls.
    cbn [run_props l_prop]. rewrite bind_assoc.
    apply (bind_keeps_eq (λ w', w_mem w' = m)); [apply E|done|]. intros x' w' Hw'.
    rewrite (IH q c1 x' w' Hw' Hps Hok'), Hls.
    by replace (p + (12 + 4 * ((zlen value + 3) / 4) + zlen (flatten_props ps))) with
      (q + zlen (flatten_props ps)) by lia.
Qed.
(** The body of a node: from its first property to its END_NODE. *)
Definition scans_body (t : dtree) : Prop := ∀ fuel p child up x w,
  w_mem w = m → bytes_at m p (flatten t) → tree_ok m strings t →
  let 'DNode n ps cs := t in
  let q := p + 4 + zlen (pad4 (n ++ [0])) in
  let c := Cells (p + 4) (address_cells child) (size_cells child) in
  fdt_scan_loop (rounds t + fuel) cb strings q (c :: up) default_cells false x w =
    (let '(ls, c') := locate_props strings q c up ps in
     x ← run_props cb ls x;
     x ← opt_call (cb_done cb) (c' :: up) x;
     x ← run_visits cb (visits_all strings (q + zlen (flatten_props ps)) (c' :: up)
                          default_cells cs) x;
     mret (p + zlen (flatten t), c' :: up, x)) w.

Lemma run_visits_app vs vs' x w :
  run_visits cb (vs ++ vs') x w = (x ← run_visits cb vs x; run_visits cb vs' x) w.
Proof.
  revert x w. induction vs as [|v vs IH]; intros x w; [done|].
  cbn [app run_visits]. rewrite bind_assoc. unfold mbind, M_bind. destruct (run_visit cb v x w); auto.
Qed.
Lemma run_visits_bind {B} vs vs' x (k : X → M (world H) B) w :
  (run_visits cb (vs ++ vs') x ≫= k) w = (x ← run_visits cb vs x; x ← run_visits cb vs' x; k x) w.
Proof. rewrite <- bind_assoc. apply bind_head, run_visits_app. Qed.
Lemma run_props_keeps ls x : keeps (λ w, w_mem w = m) (run_props cb ls x).
Proof.
  revert x. induction ls as [|l ls IH]; intros x; [apply keeps_ret|].
  apply keeps_bind; [apply E|done].
Qed.
Lemma run_visit_keeps v x : keeps (λ w, w_mem w = m) (run_visit cb v x).
Proof.
  apply keeps_bind; [apply E|]. intros x1. apply keeps_bind; [apply run_props_keeps|]. intros x2.
  apply E.
Qed.
Lemma run_visits_keeps vs x : keeps (λ w, w_mem w = m) (run_visits cb vs x).
Proof.
  revert x. induction vs as [|v vs IH]; intros x; [apply keeps_ret|].
  apply keeps_bind; [apply run_visit_keeps|done].
Qed.

Lemma cstr_bytes p n :
  bytes_at m p (n ++ [0]) → Forall (λ b, b ≠ 0) n → cstr m p n.
Proof.
  revert p. induction n as [|b n IH]; intros p Hb Hn.
  - pose proof (read_bytes_lookup _ _ _ _ 0 Hb ltac:(simpl; lia)) as Hl. simpl in Hl.
    by rewrite Z.add_0_r in Hl.
  - apply Forall_cons in Hn as [Hb0 Hn]. apply (bytes_at_app m p [b]) in Hb as [Hb Hr].
    split_and!; [|done|by apply IH].
    pose proof (read_bytes_lookup _ _ _ _ 0 Hb ltac:(simpl; lia)) as Hl. simpl in Hl.
    by rewrite Z.add_0_r in Hl.
Qed.

(** The start of a node, up to its body: the loop spends one round on it. *)
Lemma scan_begin fuel q node child last x w n rest :
  w_mem w = m → bytes_at m q (be32 FDT_BEGIN_NODE ++ pad4 (n ++ [0]) ++ rest) →
  Forall (λ b, b ≠ 0) n →
  let c := Cells (q + 4) (address_cells child) (size_cells child) in
  fdt_scan_loop (S fuel) cb strings q node child last x w =
    (x ← call_done cb last node x;
     x ← opt_call (cb_open cb) (c :: node) x;
     '(lex_next, inner, x) ←
       fdt_scan_loop fuel cb strings (q + 4 + zlen (pad4 (n ++ [0]))) (c :: node) default_cells
         false x;
     match inner with
     | child :: node => fdt_scan_loop fuel cb strings lex_next node child true x
     | [] => fault
     end) w.
Proof.
  intros Hm Hb Hn c. apply bytes_at_app in Hb as [Ht Hb]. apply bytes_at_app in Hb as [Hname _].
  unfold pad4 in Hname. apply bytes_at_app in Hname as [Hname _].
  pose proof (cstr_bytes _ _ Hname Hn) as Hcs. rewrite zlen_be32 in Hcs.
  cbn [fdt_scan_loop]. mrun (scan_load_be w q FDT_BEGIN_NODE Hm Ht ltac:(done)).
  cbn [Z.eqb FDT_BEGIN_NODE FDT_NOP FDT_PROP Pos.eqb]. fold c.
  assert (∀ x, keeps (λ w, w_mem w = m) (call_done cb last node x)) as Hd.
  { intros x1. unfold call_done. destruct (_ && _); [apply E|apply keeps_ret]. }
  apply (bind_keeps_eq (λ w, w_mem w = m)); [apply Hd|done|]. intros x1 w1 Hw1.
  apply (bind_keeps_eq (λ w, w_mem w = m)); [apply E|done|]. intros x2 w2 Hw2.
  rewrite <- Hw2 in Hcs. mrun (on_mem_read _ _ _ (strlen_correct _ _ _ Hcs)).
  rewrite zlen_pad4, zlen_app. fold (zlen n).
  replace (q + 4 * (2 + zlen n / 4)) with (q + 4 + 4 * ((zlen n + zlen [0] + 3) / 4)).
  2:{ change (zlen [0]) with 1. Z.div_mod_to_equations. lia. }
  unfold mbind at 1 3, M_bind. destruct (fdt_scan_loop _ _ _ _ _ _ _ _ _) as [[[l [|c1 up]] x3] w3| | |];
    try done.
  unfold call_close. by rewrite (se_close E).
Qed.

(** The children of a node, up to its END_NODE. *)
Lemma scan_kids cs fuel q c up child last x w :
  Forall scans_body cs → w_mem w = m → bytes_at m q (flatten_all cs ++ be32 FDT_END_NODE) →
  foldr (λ t P, tree_ok m strings t ∧ P) True cs →
  fdt_scan_loop (rounds_all cs + fuel) cb strings q (c :: up) child last x w =
    (x ← (if last then mret x else opt_call (cb_done cb) (c :: up) x);
     x ← run_visits cb (visits_all strings q (c :: up) child cs) x;
     mret (q + zlen (flatten_all cs) + 4, c :: up, x)) w.
Proof.
  intros Hcs. revert fuel q child last x w.
  induction Hcs as [|t cs Ht _ IH]; intros fuel q child last x w Hm Hb Hok.
  - cbn [rounds_all foldr Nat.add fdt_scan_loop visits_all run_visits].
    mrun (scan_load_be w q FDT_END_NODE Hm Hb ltac:(done)). rewrite Z.add_0_r. by destruct last.
  - destruct Hok as [Hokt Hok]. rewrite flatten_all_cons in Hb |- *. rewrite <- app_assoc in Hb.
    rewrite zlen_app. apply bytes_at_app in Hb as [Hbt Hbs]. destruct t as [n ps ks].
    assert (rounds_all (DNode n ps ks :: cs) + fuel =
      S (rounds (DNode n ps ks) + (rounds_all cs + fuel)))%nat as -> by (rewrite rounds_all_cons; lia).
    rewrite (scan_begin _ q (c :: up) child last x w n _ Hm Hbt) by apply Hokt.
    replace (call_done cb last (c :: up) x) with
      (if last then mret x else opt_call (cb_done cb) (c :: up) x) by (by destruct last).
    apply (bind_keeps_eq (λ w, w_mem w = m)); [|done|].
    { destruct last; [apply keeps_ret|apply E]. }
    intros x1 w1 Hw1. cbn [visits_all]. rewrite visits_eq.
    set (c1 := Cells (q + 4) _ _). set (r := q + 4 + zlen (pad4 (n ++ [0]))).
    destruct (locate_props strings r c1 (c :: up) ps) as [ls c'] eqn:Hls. cbn zeta. rewrite Hls.
    rewrite run_visits_bind. cbn [run_visits]. rewrite bind_assoc. unfold run_visit.
    cbn [v_open v_props v_node]. rewrite bind_assoc.
    apply (bind_keeps_eq (λ w, w_mem w = m)); [apply E|done|]. intros x2 w2 Hw2.
    pose proof (Ht (rounds_all cs + fuel)%nat q child (c :: up) x2 w2 Hw2 Hbt Hokt) as Hbody.
    cbv beta iota zeta in Hbody. fold r c1 in Hbody. rewrite Hls in Hbody.
    rewrite (bind_head _ _ _ _ Hbody), !bind_assoc.
    apply (bind_keeps_eq (λ w, w_mem w = m)); [apply run_props_keeps|done|]. intros x3 w3 Hw3.
    rewrite !bind_assoc.
    apply (bind_keeps_eq (λ w, w_mem w = m)); [apply E|done|]. intros x4 w4 Hw4.
    rewrite !bind_assoc.
    apply (bind_keeps_eq (λ w, w_mem w = m)); [apply run_visits_keeps|done|]. intros x5 w5 Hw5.
    rewrite mret_bind.
    replace (rounds (DNode n ps ks) + (rounds_all cs + fuel))%nat with
      (rounds_all cs + (rounds (DNode n ps ks) + fuel))%nat by lia.
    rewrite (IH _ (q + zlen (flatten (DNode n ps ks))) c' true x5 w5 Hw5 Hbs Hok), mret_bind.
    apply (bind_keeps_eq (λ w, w_mem w = m)); [apply run_visits_keeps|done|]. intros x6 w6 Hw6.
    by rewrite Z.add_assoc.
Qed.

Lemma scan_body t : scans_body t.
Proof.
  induction t as [n ps cs IH] using dtree_ind'.
  intros fuel p child up x w Hm Hb (Hn & Hps & Hcs) q c. cbn [flatten] in Hb.
  fold (flatten_all cs) in Hb. apply bytes_at_app in Hb as [_ Hb]. apply bytes_at_app in Hb as [_ Hb].
  rewrite zlen_be32 in Hb. fold q in Hb. apply bytes_at_app in Hb as [Hp Hk].
  change (rounds (DNode n ps cs)) with (length ps + rounds_all cs)%nat.
  rewrite <- Nat.add_assoc, (scan_props ps _ q c up default_cells x w Hm Hp Hps).
  destruct (locate_props strings q c up ps) as [ls c'].
  apply (bind_keeps_eq (λ w, w_mem w = m)); [apply run_props_keeps|done|]. intros x1 w1 Hw1.
  rewrite (scan_kids cs fuel _ c' up default_cells false x1 w1 IH Hw1 Hk Hcs).
  apply (bind_keeps_eq (λ w, w_mem w = m)); [apply E|done|]. intros x2 w2 Hw2.
  apply (bind_keeps_eq (λ w, w_mem w = m)); [apply run_visits_keeps|done|]. intros x3 w3 Hw3.
  do 3 f_equal. cbn [flatten]. fold (flatten_all cs). rewrite !zlen_app, !zlen_be32. unfold q. lia.
Qed.

(** The whole structure block: the root node, then the END token. *)
Lemma scan_root t fuel p x w :
  w_mem w = m → bytes_at m p (flatten t ++ be32 FDT_END) → tree_ok m strings t →
  fdt_scan_helper (S (S (rounds t + fuel))) p strings [] cb x w =
    (x ← run_visits cb (visits strings p [] default_cells t).1 x;
     mret (p + zlen (flatten t), [], x)) w.
Proof.
  intros Hm Hb Hok. apply bytes_at_app in Hb as [Hb Hend]. destruct t as [n ps cs]. destruct (id Hok) as (Hn & _).
  unfold fdt_scan_helper.
  rewrite (scan_begin _ p [] default_cells false x w n _ Hm Hb Hn). cbn [call_done negb andb non_null].
  rewrite visits_eq. set (c := Cells (p + 4) _ _). set (q := p + 4 + zlen (pad4 (n ++ [0]))).
  destruct (locate_props strings q c [] ps) as [ls c'] eqn:Hls. cbn zeta. rewrite Hls. cbn [fst run_visits].
  rewrite bind_assoc. unfold run_visit. cbn [v_open v_props v_node]. unfold call_done.
  cbn [negb andb non_null]. rewrite mret_bind, bind_assoc.
  apply (bind_keeps_eq (λ w, w_mem w = m)); [apply E|done|]. intros x1 w1 Hw1.
  pose proof (scan_body (DNode n ps cs) (S fuel) p default_cells [] x1 w1 Hw1 Hb Hok) as Hbody.
  cbv beta iota zeta in Hbody. fold q c in Hbody. rewrite Hls in Hbody.
  rewrite <- Nat.add_succ_r, (bind_head _ _ _ _ Hbody), !bind_assoc.
  apply (bind_keeps_eq (λ w, w_mem w = m)); [apply run_props_keeps|done|]. intros x2 w2 Hw2.
  rewrite !bind_assoc.
  apply (bind_keeps_eq (λ w, w_mem w = m)); [apply E|done|]. intros x3 w3 Hw3.
  rewrite !bind_assoc.
  apply (bind_keeps_eq (λ w, w_mem w = m)); [apply run_visits_keeps|done|]. intros x4 w4 Hw4.
  rewrite mret_bind, Nat.add_succ_r. cbn [fdt_scan_loop].
  by mrun (scan_load_be w4 _ FDT_END Hw4 Hend ltac:(done)).
Qed.

Lemma rounds_bytes t : (rounds t < length (flatten t))%nat.
Proof.
  induction t as [n ps cs IH] using dtree_ind'.
  change (rounds (DNode n ps cs)) with (length ps + rounds_all cs)%nat.
  cbn [flatten]. fold (flatten_all cs). rewrite !length_app.
  assert (length ps ≤ length (flatten_props ps))%nat as Hps.
  { clear. induction ps as [|[|off m v] ps IH]; [done|..]; rewrite flatten_props_cons, length_app;
      simpl length; lia. }
  assert (rounds_all cs ≤ S (length (flatten_all cs)))%nat as Hcs.
  { clear Hps. induction IH as [|t cs Ht _ IHcs]; [done|].
    rewrite rounds_all_cons, flatten_all_cons, length_app. lia. }
  rewrite !length_be32. lia.
Qed.
End scanning.

(** * Blobs *)

(** A blob at [fdt] of a version the code reads, with the strings block at [strings] and the tree
    [t] in its structure block at [struct]. *)
Record fdt_blob (m : mem) (fdt strings struct : Z) (t : dtree) : Prop := {
  fb_magic : bytes_at m (fdt + hdr_magic) (be32 FDT_MAGIC);
  fb_version : ∃ v, bytes_at m (fdt + hdr_last_comp_version) (be32 v) ∧ 0 ≤ v ≤ FDT_VERSION;
  fb_strings : bytes_at m (fdt + hdr_off_dt_strings) (be32 (strings - fdt));
  fb_strings_range : 0 ≤ strings - fdt < 2 ^ 32;
  fb_struct : bytes_at m (fdt + hdr_off_dt_struct) (be32 (struct - fdt));
  fb_struct_range : 0 ≤ struct - fdt < 2 ^ 32;
  fb_tree : bytes_at m struct (flatten t ++ be32 FDT_END);
  fb_ok : tree_ok m strings t;
}.

(** The part of a value up to its first NUL. *)
Fixpoint first_string (bs : list Z) : list Z :=
  match bs with [] => [] | b :: bs => if b =? 0 then [] else b :: first_string bs end.

Lemma cstr_first_string m p v : bytes_at m p v → 0 ∈ v → cstr m p (first_string v).
Proof.
  revert p. induction v as [|b v IH]; intros p Hb Hin; [by apply elem_of_nil in Hin|].
  apply (bytes_at_app m p [b]) in Hb as [Hb Hv].
  pose proof (read_bytes_lookup _ _ _ _ 0 Hb ltac:(simpl; lia)) as Hl. simpl in Hl.
  rewrite Z.add_0_r in Hl. cbn [first_string]. destruct (Z.eqb_spec b 0) as [->|Hne]; [done|].
  split_and!; [done|done|]. apply IH; [done|]. by apply elem_of_cons in Hin as [?|?].
Qed.

(** The pointers of a visit lead to the names and the values. *)
Definition located_ok (m : mem) (l : located) : Prop :=
  cstr m (prop_name (l_prop l)) (l_name l) ∧ bytes_at m (prop_value (l_prop l)) (l_value l) ∧
  prop_len (l_prop l) = zlen (l_value l) ∧ zlen (l_value l) + 3 < 2 ^ 31.
Definition visit_ok (m : mem) (v : visit) : Prop := Forall (located_ok m) (v_props v).

Lemma locate_props_ok m strings ps p c up :
  bytes_at m p (flatten_props ps) → Forall (prop_ok m strings) ps →
  Forall (located_ok m) (locate_props strings p c up ps).1.
Proof.
  revert p c. induction ps as [|[|off n v] ps IH]; intros p c Hb Hok; [constructor| |];
    rewrite flatten_props_cons in Hb; apply bytes_at_app in Hb as [Hb Hps];
    apply Forall_cons in Hok as [Hp Hok]; cbn [locate_props]; [by apply IH|].
  rewrite zlen_flatten_prop in Hps. specialize (IH _ (update_cells n v c) Hps Hok).
  destruct (locate_props _ _ _ _ _) as [ls c']. constructor; [|done].
  destruct Hp as (Hn & _ & Hl & _). split_and!; try done. cbn [flatten_prop] in Hb.
  do 3 (apply bytes_at_app in Hb as [_ Hb]). rewrite !zlen_be32 in Hb.
  replace (p + 4 + 4 + 4) with (p + 12) in Hb by lia.
  unfold pad4 in Hb. by apply bytes_at_app in Hb as [Hb _].
Qed.

Lemma visits_ok m strings t p up child :
  bytes_at m p (flatten t) → tree_ok m strings t → Forall (visit_ok m) (visits strings p up child t).1.
Proof.
  revert p up child. induction t as [n ps cs IH] using dtree_ind'.
  intros p up child Hb (_ & Hps & Hcs). rewrite visits_eq. cbn [flatten] in Hb.
  apply bytes_at_app in Hb as [_ Hb]. apply bytes_at_app in Hb as [_ Hb].
  apply bytes_at_app in Hb as [Hp Hk]. apply bytes_at_app in Hk as [Hk _].
  rewrite zlen_be32 in *. set (q := p + 4 + zlen (pad4 (n ++ [0]))) in *. cbn zeta.
  pose proof (locate_props_ok m strings ps q (Cells (p + 4) (address_cells child) (size_cells child))
    up Hp Hps) as Hls.
  destruct (locate_props _ _ _ _ _) as [ls c']. constructor; [done|].
  clear Hp Hls. revert Hk Hcs. generalize (q + zlen (flatten_props ps)) as r. generalize default_cells as d.
  induction IH as [|t cs Ht _ IHcs]; intros d r Hk Hcs; [constructor|].
  fold (flatten_all (t :: cs)) in Hk. rewrite flatten_all_cons in Hk.
  apply bytes_at_app in Hk as [Hk1 Hk2]. destruct Hcs as [Hc Hcs]. cbn [visits_all].
  specialize (Ht r (c' :: up) d Hk1 Hc). destruct (visits _ _ _ _ t) as [vs d'].
  apply Forall_app. split; [done|]. by apply IHcs.
Qed.

(** The properties of the nodes of a tree, in preorder. *)
Definition values (ps : list dprop) : list (list Z * list Z) :=
  omap (λ p, match p with DNop => None | DProp _ n v => Some (n, v) end) ps.
Fixpoint nodes (t : dtree) : list (list (list Z * list Z)) :=
  match t with DNode _ ps cs => values ps :: concat (map nodes cs) end.
Definition v_values (v : visit) : list (list Z * list Z) :=
  map (λ l, (l_name l, l_value l)) (v_props v).

Lemma locate_props_values strings ps p c up :
  map (λ l, (l_name l, l_value l)) (locate_props strings p c up ps).1 = values ps.
Proof.
  revert p c. induction ps as [|[|off n v] ps IH]; intros p c; [done|apply IH|].
  cbn [locate_props]. specialize (IH (p + (12 + zlen (pad4 v))) (update_cells n v c)).
  destruct (locate_props _ _ _ _ _) as [ls c']. cbn. f_equal. exact IH.
Qed.
Lemma visits_nodes strings t p up child :
  map v_values (visits strings p up child t).1 = nodes t.
Proof.
  revert p up child. induction t as [n ps cs IH] using dtree_ind'. intros p up child.
  rewrite visits_eq. set (q := p + 4 + _). set (c := Cells _ _ _). cbn zeta.
  pose proof (locate_props_values strings ps q c up) as Hls.
  destruct (locate_props _ _ _ _ _) as [ls c']. cbn [fst map nodes]. f_equal; [exact Hls|].
  clear Hls. generalize (q + zlen (flatten_props ps)) as r. generalize default_cells as d.
  induction IH as [|t cs Ht _ IHcs]; intros d r; [done|]. cbn [visits_all map concat].
  specialize (Ht r (c' :: up) d). destruct (visits _ _ _ _ t) as [vs d']. rewrite map_app.
  by rewrite IHcs, <- Ht.
Qed.

Section blobs.
Context {H X : Type} `{HH : Host H} `{PP : Platform}.
Implicit Types (w : world H) (x : X) (cb : fdt_cb H X).

Lemma fdt_scan_blob m strings struct cb fdt t w x :
  scan_env m cb → fdt_blob m fdt strings struct t → w_mem w = m →
  fdt_scan fdt cb x w = run_visits cb (visits strings struct [] default_cells t).1 x w.
Proof.
  intros E [Hmag (v & Hv & Hv17) Hs Hsr Hst Hstr Ht Hok] Hm. unfold fdt_scan.
  mrun (scan_load_be m cb E w _ _ Hm Hmag ltac:(done)). rewrite Z.eqb_refl. cbn [negb].
  mrun (scan_load_be m cb E w _ _ Hm Hv ltac:(unfold FDT_VERSION in *; lia)).
  rewrite Z.gtb_ltb, (proj2 (Z.ltb_ge _ _)) by lia.
  mrun (scan_load_be m cb E w _ _ Hm Hs Hsr). mrun (scan_load_be m cb E w _ _ Hm Hst Hstr).
  rewrite (bind_Ret _ _ w (scan_fuel m) w) by (unfold gets; by rewrite Hm).
  replace (fdt + (strings - fdt)) with strings by lia. replace (fdt + (struct - fdt)) with struct by lia.
  assert (∃ fuel, scan_fuel m = S (S (rounds t + fuel))) as [fuel ->].
  { pose proof (rounds_bytes t). apply bytes_at_app in Ht as [Ht _].
    assert (mapped m struct (length (flatten t))) as Hmp%mapped_size
      by (apply read_bytes_is_Some; by eexists).
    exists (size m - S (rounds t))%nat. unfold scan_fuel. lia. }
  rewrite (bind_head _ _ _ _ (scan_root m strings cb E t fuel struct x w Hm Ht Hok)), bind_assoc.
  transitivity ((x' ← run_visits cb (visits strings struct [] default_cells t).1 x; mret x') w).
  - apply (bind_keeps_eq (λ w, w_mem w = m)); [by eapply run_visits_keeps|done|done].
  - unfold mbind, M_bind. by destruct (run_visits _ _ _ w).
Qed.

(** C10. Scanning a blob is walking its tree: whatever the callbacks do to the rest of the world,
    [fdt_scan] makes exactly the visits of the tree, in preorder; each node is opened, shown its
    properties in order, and done before any of its children is opened. *)
Theorem fdt_scan_equiv m strings struct cb fdt t w x :
  scan_env m cb → fdt_blob m fdt strings struct t → w_mem w = m →
  fdt_scan fdt cb x w = run_visits cb (visits strings struct [] default_cells t).1 x w ∧
  map v_values (visits strings struct [] default_cells t).1 = nodes t.
Proof. intros. split; [by eapply fdt_scan_blob|apply visits_nodes]. Qed.

(** A header the code does not know: nothing is scanned. *)
Lemma fdt_scan_unknown cb fdt w x magic version :
  mem_wf (w_mem w) → bytes_at (w_mem w) (fdt + hdr_magic) (be32 magic) →
  bytes_at (w_mem w) (fdt + hdr_last_comp_version) (be32 version) →
  0 ≤ magic < 2 ^ 32 → 0 ≤ version < 2 ^ 32 → magic ≠ FDT_MAGIC ∨ FDT_VERSION < version →
  fdt_scan fdt cb x w = Ret x w.
Proof.
  intros Hwf Hm Hv Hmr Hvr Hor. unfold fdt_scan. mrun (load_be32 w _ _ Hwf Hm Hmr).
  destruct (Z.eqb_spec magic FDT_MAGIC); [|done]. cbn [negb].
  mrun (load_be32 w _ _ Hwf Hv Hvr).
  rewrite Z.gtb_ltb, (proj2 (Z.ltb_lt _ _)); [done|tauto].
Qed.

(** Visits that all return: the world goes through them one after the other. *)
Lemma run_visits_foldl m cb (step : visit → world H → world H) vs x w :
  (∀ v x w, v ∈ vs → w_mem w = m →
    w_mem (step v w) = m ∧ ∃ x', run_visit cb v x w = Ret x' (step v w)) →
  w_mem w = m → ∃ x', run_visits cb vs x w = Ret x' (foldl (λ w v, step v w) w vs).
Proof.
  revert x w. induction vs as [|v vs IH]; intros x w Hs Hm; [by eexists|].
  destruct (Hs v x w ltac:(by left) Hm) as (Hm' & x' & Hr). cbn [run_visits foldl]. mrun Hr.
  apply IH; [|done]. intros v' x1 w1 Hv'. apply Hs. by right.
Qed.
End blobs.

(** * Cell values *)
Lemma le_val_app bs bs' : le_val (bs ++ bs') = le_val bs + 256 ^ zlen bs * le_val bs'.
Proof.
  induction bs as [|b bs IH].
  { change (zlen []) with 0. rewrite Z.pow_0_r. cbn [app le_val]. lia. }
  cbn [app le_val]. rewrite IH.
  replace (zlen (b :: bs)) with (Z.succ (zlen bs)) by (unfold zlen; simpl length; lia).
  rewrite Z.pow_succ_r by apply zlen_nonneg. lia.
Qed.
Lemma be_val_app bs bs' : be_val (bs ++ bs') = be_val bs * 256 ^ zlen bs' + be_val bs'.
Proof.
  unfold be_val. rewrite rev_app_distr, le_val_app. unfold zlen. rewrite length_rev. lia.
Qed.

Lemma u64_mul_add x k b : u64 (u64 x * k + b) = u64 (x * k + b).
Proof. unfold u64. by rewrite <- Zplus_mod_idemp_l, Zmult_mod_idemp_l, Zplus_mod_idemp_l. Qed.
Lemma u64_add x b : u64 (u64 x + b) = u64 (x + b).
Proof. unfold u64. by rewrite Zplus_mod_idemp_l. Qed.

Section cell_values.
Context {H : Type} `{HH : Host H} `{PP : Platform}.
Implicit Types w : world H.

(** [n] cells are one big-endian number, of which the low 64 bits are kept. *)
Lemma get_cells_loop fuel n value r bs w :
  mem_wf (w_mem w) → 0 ≤ n → zlen bs = 4 * n → (Z.to_nat n < fuel)%nat → bytes_at (w_mem w) value bs →
  0 ≤ r < 2 ^ 64 →
  (loop fuel (λ '(cells, value, result),
    if cells >? 0 then
      v ← load_be value; mret (inl (cells - 1, value + 4, u64 (u64 (Z.shiftl result 32) + v)))
    else mret (inr (result, value))) (n, value, r) : M (world H) (Z * Z)) w =
  Ret (u64 (r * 256 ^ zlen bs + be_val bs), value + 4 * n) w.
Proof.
  intros Hwf. revert n value r bs.
  induction fuel as [|fuel IH]; intros n value r bs Hn Hl Hf Hb Hr; [lia|].
  destruct (Z.eq_dec n 0) as [->|Hnz].
  - destruct bs; [|unfold zlen in Hl; simpl in Hl; lia]. apply loop_exit. cbn.
    rewrite Z.mul_1_r, !Z.add_0_r, u64_id by lia. done.
  - rewrite <- (take_drop 4 bs) in Hb, Hl |- *.
    assert (length (take 4 bs) = 4%nat) as H4.
    { rewrite take_drop in Hl. unfold zlen in Hl. rewrite length_take_le; lia. }
    apply bytes_at_app in Hb as [Hb4 Hb]. rewrite zlen_app in Hl.
    assert (zlen (take 4 bs) = 4) as Hz by (unfold zlen; by rewrite H4). rewrite Hz in *.
    erewrite loop_step.
    2:{ rewrite Z.gtb_ltb, (proj2 (Z.ltb_lt _ _)) by lia.
        by mrun (load_be_Ret w value _ Hwf Hb4 H4). }
    rewrite (IH _ _ _ (drop 4 bs)); [|lia|lia|lia|done|apply u64_range].
    f_equal. f_equal; [|lia]. rewrite be_val_app, zlen_app, Hz.
    rewrite Z.shiftl_mul_pow2, Z.pow_add_r by (unfold zlen; lia). change (256 ^ 4) with (2 ^ 32).
    rewrite u64_mul_add. rewrite <- (u64_mul_add (u64 (r * 2 ^ 32) + _)), u64_add, u64_mul_add.
    f_equal. lia.
Qed.

Lemma get_cells_Ret n value bs w :
  mem_wf (w_mem w) → 0 ≤ n → zlen bs = 4 * n → bytes_at (w_mem w) value bs →
  get_cells n value w = Ret (u64 (be_val bs), value + 4 * n) w.
Proof.
  intros Hwf Hn Hl Hb. unfold get_cells.
  by rewrite (get_cells_loop (S (Z.to_nat n)) n value 0 bs w Hwf Hn Hl ltac:(lia) Hb ltac:(lia)), Z.mul_0_l.
Qed.
End cell_values.

(** * What is not as the comments say *)
Section oddities.
Context {H X : Type} `{HH : Host H} `{PP : Platform}.
Context (m : mem) (strings : Z) (cb : fdt_cb H X) (E : scan_env m cb).

(** The default counts are those of the first child only: a later one starts with the counts its
    elder sibling ended with. *)
Lemma sibling_counts q up child t n ps cs rest :
  let c' := (visits strings q up child t).2 in
  ∃ vs v rest', visits_all strings q up child (t :: DNode n ps cs :: rest) =
    vs ++ v :: rest' ∧ vs = (visits strings q up child t).1 ∧
    v_open v = Cells (q + zlen (flatten t) + 4) (address_cells c') (size_cells c') :: up.
Proof.
  cbn [visits_all]. destruct (visits strings q up child t) as [vs c'] eqn:Ht. rewrite visits_eq.
  cbn zeta. destruct (locate_props _ _ _ _ _) as [ls c2]. cbn [fst snd]. by do 3 eexists.
Qed.

(** A property whose length is written as a number between 2^32 - 18 and 2^32 - 15 is taken to
    have a negative length that moves the scan by nothing: it never ends. *)
Lemma negative_length_stuck fuel p child x len off w :
  w_mem w = m → bytes_at m p (be32 FDT_PROP ++ be32 len ++ be32 off) →
  2 ^ 32 - 18 ≤ len ≤ 2 ^ 32 - 15 → 0 ≤ off < 2 ^ 32 →
  (∀ a x w, w_mem w = m → ∃ x' w', call_prop cb a x w = Ret x' w' ∧ w_mem w' = m) →
  fdt_scan_loop fuel cb strings p [] child false x w = NoFuel.
Proof.
  intros Hm Hb Hlen Hoff Hret. revert x w Hm. induction fuel as [|fuel IH]; intros x w Hm; [done|].
  apply bytes_at_app in Hb as [H1 Hb]. apply bytes_at_app in Hb as [H2 H3]. rewrite !zlen_be32 in *.
  replace (p + 4 + 4) with (p + 8) in H3 by lia. cbn [fdt_scan_loop].
  mrun (scan_load_be m cb E w p FDT_PROP Hm H1 ltac:(done)). cbn [Z.eqb FDT_PROP FDT_NOP Pos.eqb negb assert_at].
  rewrite mret_bind. mrun (scan_load_be m cb E w (p + 8) off Hm H3 Hoff).
  mrun (scan_load_be m cb E w (p + 4) len Hm H2 ltac:(lia)).
  assert (s32 len = len - 2 ^ 32) as ->.
  { unfold s32. rewrite <- (Z_mod_plus_full _ (-1)), Z.mod_small by lia. lia. }
  unfold prop_cells. cbn [non_null]. rewrite mret_bind, (proj2 (Z.ltb_lt _ _)), mret_bind by lia.
  destruct (Hret (ScanProp [] (strings + off) (p + 12) (len - 2 ^ 32)) x w Hm) as (x' & w' & Hc & Hm').
  mrun Hc. replace (Z.quot (len - 2 ^ 32 + 3) 4) with (-3).
  2:{ rewrite <- (Z.opp_involutive (len - 2 ^ 32 + 3)), Z.quot_opp_l by done.
      rewrite Z.quot_div_nonneg by lia.
      rewrite <- (Z.div_unique (- (len - 2 ^ 32 + 3)) 4 3 (- (len - 2 ^ 32 + 3) - 12)) by lia. done. }
  change (p + 4 * (3 + -3)) with (p + 0). rewrite Z.add_0_r. by apply IH.
Qed.
End oddities.

(** * Instances *)
Import SampleMachine.

(** A blob as Spike's, with a memory node and an HTIF node. *)
Definition sample_tree : dtree :=
  DNode []
    [DProp 0 (bytes "#address-cells") (be32 2); DProp 15 (bytes "#size-cells") (be32 2)]
    [DNode (bytes "memory@80000000")
       [DProp 27 (bytes "device_type") (bytes "memory" ++ [0]);
        DProp 39 (bytes "reg") (be32 0 ++ be32 0x80000000 ++ be32 0 ++ be32 0x80000000)] [];
     DNode (bytes "htif") [DNop; DProp 43 (bytes "compatible") (bytes "ucb,htif0" ++ [0])] []].
Definition sample_strings : list Z :=
  concat (map (λ s, bytes s ++ [0])
    ["#address-cells"; "#size-cells"; "device_type"; "reg"; "compatible"]%string).
Definition sample_fdt : Z := 0x2000.
Definition sample_struct : Z := sample_fdt + 40.
Definition sample_strings_at : Z := sample_struct + zlen (flatten sample_tree) + 4.
Definition sample_blob : list Z :=
  be32 FDT_MAGIC ++ be32 0 ++ be32 (sample_struct - sample_fdt) ++
  be32 (sample_strings_at - sample_fdt) ++ be32 0 ++ be32 17 ++ be32 16 ++ be32 0 ++ be32 0 ++
  be32 0 ++ flatten sample_tree ++ be32 FDT_END ++ sample_strings.
(** The literals the callbacks compare with, in slots of 32 bytes. *)
Definition sample_lit_block : list Z :=
  concat (map (λ s, bytes s ++ replicate (32 - String.length s) 0)
    ["#address-cells"; "#size-cells"; "device_type"; "memory"; "reg"; "compatible"; "ucb,htif0"]%string).
(** The blob and the literals over a memory. *)
Definition sample_fdt_mem (m : mem) : mem :=
  write_bytes (write_bytes m 0x80018100 sample_lit_block) sample_fdt sample_blob.

Lemma bytes_at_slice m p bs k n :
  bytes_at m p bs → bytes_at m (p + Z.of_nat k) (take n (drop k bs)).
Proof.
  intros Hb. destruct (decide (k ≤ length bs)%nat) as [Hk|Hk].
  - rewrite <- (take_drop k bs) in Hb. apply bytes_at_app in Hb as [_ Hb].
    rewrite <- (take_drop n (drop k bs)) in Hb. apply bytes_at_app in Hb as [Hb _].
    unfold zlen in Hb. rewrite length_take_le in Hb; [done|lia].
  - by rewrite drop_ge, take_nil by lia.
Qed.
Lemma sample_blob_bytes m k n : bytes_at (sample_fdt_mem m) (sample_fdt + Z.of_nat k) (take n (drop k sample_blob)).
Proof. apply bytes_at_slice. apply read_write_bytes. Qed.
Lemma sample_lit_bytes m k n :
  bytes_at (sample_fdt_mem m) (0x80018100 + Z.of_nat k) (take n (drop k sample_lit_block)).
Proof.
  apply bytes_at_slice. unfold bytes_at, sample_fdt_mem. rewrite read_write_bytes_ne.
  - apply read_write_bytes.
  - first [left; by vm_compute|right; by vm_compute].
Qed.
Lemma sample_fdt_mem_wf m : mem_wf m → mem_wf (sample_fdt_mem m).
Proof.
  intros Hm. apply mem_wf_write_bytes.
  - apply mem_wf_write_bytes; [done|]. apply (bool_decide_unpack _). by vm_compute.
  - apply (bool_decide_unpack _). by vm_compute.
Qed.
(** [sample_lit k n]: the literal in slot [k], of [n] characters. *)
Ltac sample_lit k n :=
  apply cstr_bytes; [apply (sample_lit_bytes _ (32 * k) (S n))|apply (bool_decide_unpack _); by vm_compute].

Lemma nonzero_b n : forallb (λ b, negb (b =? 0)) n = true → Forall (λ b, b ≠ 0) n.
Proof.
  induction n as [|b n IH]; [constructor|]. intros [Hb Hn]%andb_prop. constructor; [|by apply IH].
  by destruct (Z.eqb_spec b 0).
Qed.
Lemma sample_tree_ok m : tree_ok (sample_fdt_mem m) sample_strings_at sample_tree.
Proof.
  assert (∀ off n, bytes_at (sample_fdt_mem m) (sample_strings_at + Z.of_nat off)
    (take n (drop (40 + length (flatten sample_tree) + 4 + off) sample_blob))) as Hs.
  { intros off n. pose proof (sample_blob_bytes m (40 + length (flatten sample_tree) + 4 + off) n) as Hb.
    replace (sample_strings_at + Z.of_nat off) with
      (sample_fdt + Z.of_nat (40 + length (flatten sample_tree) + 4 + off)); [done|].
    unfold sample_strings_at, sample_struct, zlen. lia. }
  assert (∀ off k n, Z.of_nat k = off →
    take (S (length n)) (drop (40 + length (flatten sample_tree) + 4 + k) sample_blob) = n ++ [0] →
    forallb (λ b, negb (b =? 0)) n = true → cstr (sample_fdt_mem m) (sample_strings_at + off) n) as Hc.
  { intros off k n <- Hb Hn. apply cstr_bytes; [rewrite <- Hb; apply Hs|].
    by apply nonzero_b. }
  unfold sample_tree. cbn [tree_ok foldr]. split_and!; try (apply nonzero_b; by vm_compute);
    repeat (apply Forall_cons; split); try apply Forall_nil; cbn [prop_ok]; try done;
    (split_and!; [|done|done|by vm_compute|intros _; by vm_compute]).
  - by apply (Hc 0 0%nat).
  - by apply (Hc 15 15%nat).
  - by apply (Hc 27 27%nat).
  - by apply (Hc 39 39%nat).
  - by apply (Hc 43 43%nat).
Qed.

Lemma sample_blob_at m :
  fdt_blob (sample_fdt_mem m) sample_fdt sample_strings_at sample_struct sample_tree.
Proof.
  pose proof (sample_blob_bytes m) as Hb. split.
  - apply (Hb 0%nat 4%nat).
  - exists 16. split; [apply (Hb 24%nat 4%nat)|done].
  - apply (Hb 12%nat 4%nat).
  - by vm_compute.
  - apply (Hb 8%nat 4%nat).
  - by vm_compute.
  - apply (Hb 40%nat (length (flatten sample_tree ++ be32 FDT_END))).
  - apply sample_tree_ok.
Qed.

(** Callbacks that count the nodes. *)
Definition count_cb : fdt_cb sample_host nat :=
  FdtCb _ _ (Some (λ _ n, mret (S n))) (Some (λ _ n, mret n)) None None.

Lemma count_env m : mem_wf m → scan_env (sample_fdt_mem m) count_cb.
Proof.
  intros Hm. split; try done; try (by intros n x w Hw).
  - by apply sample_fdt_mem_wf.
  - sample_lit 0%nat 14%nat.
  - sample_lit 1%nat 11%nat.
Qed.

Lemma fdt_scan_equiv_witness :
  let w := sample_world (sample_fdt_mem ∅) [] in
  fdt_scan sample_fdt count_cb 0%nat w =
    run_visits count_cb (visits sample_strings_at sample_struct [] default_cells sample_tree).1 0%nat w ∧
  map v_values (visits sample_strings_at sample_struct [] default_cells sample_tree).1 =
    nodes sample_tree.
Proof.
  intros w. apply (fdt_scan_equiv (sample_fdt_mem ∅)); [|apply sample_blob_at|reflexivity].
  apply count_env, map_Forall_empty.
Defined.
