(* ===== verification/Load.v ===== *)
(** Loading as a whole: what [load_bincode_from_host_elf] of kernel/elf.c does with the file a host
    serves, from the command line to the entry point; and what the symbol table of the process says
    afterwards of the functions of the file. *)
From S2P Require Import Prelude Mem CString Snprintf World Sample SpikeUtils SpikeFile Asm Process Syscall Elf Kernel Dts.

(** * The symbols of a file *)

(** The entries of a symbol section, decoded from the file. *)
Definition decode_symbol (b : list Z) : symbol :=
  Symbol (field 4 0 b) (field 1 4 b) (field 8 8 b) (field 8 16 b).
Definition file_symbols (file : list Z) (sym : elf_section_header) : list symbol :=
  map (λ i, decode_symbol (slice file (sh_off sym + 24 * Z.of_nat i) 24))
    (seq 0 (Z.to_nat (sh_size sym / sizeof_elf_symbol))).

(** The first section header, from [k] on, that is of a symbol table. *)
Fixpoint find_symtab (file : list Z) (eh : elf_header) (k : Z) (n : nat) : option elf_section_header :=
  match n with
  | O => None
  | S n =>
      let s := section_header file eh k in
      if sh_type s =? SHT_SYMTAB then Some s else find_symtab file eh (k + 1) n
  end.
Definition the_symtab (file : list Z) (eh : elf_header) : option elf_section_header :=
  find_symtab file eh 0 (Z.to_nat (eh_shnum eh)).
(** The section of the names. *)
Definition string_section (file : list Z) (eh : elf_header) (sym : elf_section_header) : elf_section_header :=
  section_header file eh (s32 (sh_link sym)).

(** Section headers inside the file; the tables inside the file and not too large. *)
Record tables_ok (file : list Z) (eh : elf_header) (sym : elf_section_header) : Prop := {
  tk_link : section_ok file eh (s32 (sh_link sym));
  tk_sym : in_file file sym;
  tk_str : in_file file (string_section file eh sym);
  tk_entsize : sh_entsize sym = sizeof_elf_symbol;
  tk_count : sh_size sym / sizeof_elf_symbol ≤ MAX_USER_SYMS;
  tk_strsz : sh_size (string_section file eh sym) ≤ MAX_USER_STRTAB;
}.
Record sections_ok (file : list Z) (eh : elf_header) : Prop := {
  sk_headers idx : 0 ≤ idx < eh_shnum eh → section_ok file eh idx;
  sk_tables sym : the_symtab file eh = Some sym → tables_ok file eh sym;
}.

(** The memory after [load_user_symbols]. *)
Definition symbols_mem (file : list Z) (eh : elf_header) (m : mem) (p : Z) : mem :=
  match the_symtab file eh with
  | None => m
  | Some sym => tables_mem file m p sym (string_section file eh sym)
  end.

Section symbols.
Context {H : Type} `{HH : Host H} `{PP : Platform} (file : list Z) (fd : Z) (P : H → Prop).
Context `{!FileServer file fd P}.
Implicit Types w : world H.

Lemma find_symtab_loop loader n k fuel w :
  kfd <$> w_files w !! ctx_f loader = Some fd → P (w_host w) →
  let eh := ctx_ehdr loader in
  eh_shnum eh = k + Z.of_nat n → (∀ idx, k ≤ idx < k + Z.of_nat n → section_ok file eh idx) →
  (n < fuel)%nat →
  ∃ h, loop fuel (find_symtab_round loader) k w = Ret (find_symtab file eh k n) (set_host h w) ∧
    preads fd (w_host w) h.
Proof.
  intros Hx HP eh Hn Hok. revert k fuel w Hx HP Hn Hok.
  induction n as [|n IH]; intros k fuel w Hx HP Hn Hok Hf; (destruct fuel as [|fuel]; [lia|]).
  - exists (w_host w). rewrite set_host_id. split; [|done]. apply loop_exit.
    unfold find_symtab_round. fold eh. by rewrite (proj2 (Z.ltb_ge _ _)) by lia.
  - destruct (get_elf_section_header_Ret file fd P w loader k Hx HP) as (h1 & Hr & Hp1); [apply Hok; lia|].
    fold eh in Hr. cbn [find_symtab]. set (s := section_header file eh k) in *.
    assert (find_symtab_round loader k w =
      Ret (if sh_type s =? SHT_SYMTAB then inr (Some s) else inl (k + 1)) (set_host h1 w)) as Hround.
    { unfold find_symtab_round. fold eh. rewrite (proj2 (Z.ltb_lt _ _)) by lia. cbn [negb].
      mrun Hr. cbv iota. rewrite mret_bind. by destruct (_ =? _). }
    destruct (sh_type s =? SHT_SYMTAB).
    + exists h1. split; [|done]. by apply loop_exit.
    + rewrite (loop_step _ _ _ _ _ _ Hround). pose proof (preads_serve file fd P _ _ Hp1 HP) as HP1.
      destruct (IH (k + 1) fuel (set_host h1 w)) as (h2 & Hr2 & Hp2); [done|done|lia| |lia|].
      { intros idx Hi. apply Hok. lia. }
      exists h2. split; [exact Hr2|]. by etrans.
Qed.

Lemma load_user_symbols_Ret w loader :
  let eh := ctx_ehdr loader in let p := ctx_p loader in
  kfd <$> w_files w !! ctx_f loader = Some fd → P (w_host w) → Z.of_nat (length file) < 2 ^ 63 →
  0 ≤ eh_shnum eh → sections_ok file eh → mapped (w_mem w) p (Z.to_nat sizeof_process) →
  ∃ h, load_user_symbols loader w = Ret tt (set_mem (symbols_mem file eh (w_mem w) p) (set_host h w)) ∧
    preads fd (w_host w) h.
Proof.
  intros eh p Hx HP Hmax Hn [Hok Htab] Hm. unfold load_user_symbols. fold eh. unfold symbols_mem, the_symtab in *.
  destruct (Z.eqb_spec (eh_shnum eh) 0) as [H0|H0].
  { rewrite H0. exists (w_host w). split; [|done]. rewrite set_host_id. exact (f_equal (Ret tt) (eq_sym (set_mem_id w))). }
  destruct (find_symtab_loop loader (Z.to_nat (eh_shnum eh)) 0 (S (Z.to_nat (eh_shnum eh))) w Hx HP)
    as (h1 & Hr & Hp1); [fold eh; lia|fold eh; intros idx Hi; apply Hok; lia|lia|].
  fold eh in Hr. mrun Hr. pose proof (preads_serve file fd P _ _ Hp1 HP) as HP1.
  destruct (find_symtab file eh 0 _) as [sym|].
  - destruct (Htab sym eq_refl) as [? ? ? ? ? ?].
    destruct (load_tables_Ret file fd P (set_host h1 w) loader sym Hx HP1) as (h2 & Hr2 & Hp2); try assumption.
    exists h2. split; [exact Hr2|]. by etrans.
  - exists h1. split; [|done]. exact (f_equal (Ret tt) (eq_sym (set_mem_id (set_host h1 w)))).
Qed.
End symbols.

(** * The symbol table in memory *)

(** The bytes of a table, as the file has them. *)
Lemma slice_sub file off n o k :
  0 ≤ off → 0 ≤ o → 0 ≤ k → o + k ≤ n →
  take (Z.to_nat k) (drop (Z.to_nat o) (slice file off n)) = slice file (off + o) k.
Proof.
  intros Ho Hoo Hk Hn. unfold slice. rewrite skipn_firstn_comm, take_take, drop_drop. f_equal; [lia|].
  f_equal. lia.
Qed.

Section table.
Context (file : list Z) (m : mem) (p : Z) (sym str : elf_section_header).
Context (Hsym : in_file file sym) (Hstr : in_file file str).
Context (Hcount : sh_size sym ≤ sizeof_elf_symbol * MAX_USER_SYMS).
Context (Hstrsz : sh_size str ≤ MAX_USER_STRTAB).

Lemma tables_strtab :
  read_bytes (tables_mem file m p sym str) (p + proc_strtab) (Z.to_nat (sh_size str)) =
    Some (slice file (sh_off str) (sh_size str)).
Proof using Hsym Hstr Hcount Hstrsz.
  destruct Hsym as (? & ? & ?), Hstr as (? & ? & ?). unfold sizeof_elf_symbol, MAX_USER_SYMS in *.
  unfold tables_mem. unfold write_word at 1.
  rewrite read_write_bytes_ne by (rewrite length_le_bytes; unfold proc_strtab; lia).
  rewrite read_write_bytes_ne.
  2:{ rewrite slice_length, Z2Nat.id by lia. right. change proc_strtab with 12312.
      change proc_symtab with 16. lia. }
  unfold write_word. rewrite read_write_bytes_ne.
  2:{ rewrite length_le_bytes. left. rewrite Z2Nat.id by done.
      change proc_strtab_sz with (proc_strtab + MAX_USER_STRTAB). unfold MAX_USER_STRTAB in *. lia. }
  rewrite <- (slice_length file (sh_off str) (sh_size str)) at 1 by done. apply read_write_bytes.
Qed.
Lemma tables_symtab :
  read_bytes (tables_mem file m p sym str) (p + proc_symtab) (Z.to_nat (sh_size sym)) =
    Some (slice file (sh_off sym) (sh_size sym)).
Proof using Hsym Hcount.
  destruct Hsym as (? & ? & ?). unfold sizeof_elf_symbol, MAX_USER_SYMS in *.
  unfold tables_mem. unfold write_word at 1.
  rewrite read_write_bytes_ne.
  2:{ left. rewrite Z2Nat.id by done. change proc_sym_count with (proc_symtab + 512 * 24). lia. }
  rewrite <- (slice_length file (sh_off sym) (sh_size sym)) at 1 by done. apply read_write_bytes.
Qed.
Lemma tables_sym_count :
  word_at (tables_mem file m p sym str) (p + proc_sym_count) = Some (sh_size sym / sizeof_elf_symbol).
Proof using Hsym Hcount.
  destruct Hsym as (? & ? & ?). unfold tables_mem. rewrite word_at_write. f_equal.
  assert (0 ≤ sh_size sym / sizeof_elf_symbol ≤ MAX_USER_SYMS); [|unfold MAX_USER_SYMS in *; apply u64_id; lia].
  split; [by apply Z.div_pos|]. by apply Z.div_le_upper_bound.
Qed.
Lemma tables_strtab_sz :
  word_at (tables_mem file m p sym str) (p + proc_strtab_sz) = Some (sh_size str).
Proof using Hsym Hstr Hcount Hstrsz.
  destruct Hsym as (? & ? & ?), Hstr as (? & ? & ?). unfold sizeof_elf_symbol, MAX_USER_SYMS, MAX_USER_STRTAB in *.
  unfold tables_mem. change proc_strtab_sz with (proc_symtab + 512 * 24 + 8 + 8192).
  change proc_sym_count with (proc_symtab + 512 * 24).
  rewrite word_at_write_ne by lia. rewrite word_at_write_bytes_ne.
  2:{ rewrite slice_length, Z2Nat.id by done. lia. }
  rewrite word_at_write. f_equal. apply u64_id. lia.
Qed.

(** One entry, as [find_symbol_name] reads it. *)
Lemma symbol_read M q b :
  read_bytes M q 24 = Some b →
  let s := decode_symbol b in
  word32_at M (q + sym_name) = Some (sy_name s) ∧ M !! (q + sym_info) = Some (sy_info s) ∧
  word_at M (q + sym_value) = Some (sy_value s) ∧ word_at M (q + sym_size) = Some (sy_size s).
Proof using.
  intros Hb s. unfold word32_at, word_at.
  pose proof (λ off n, read_bytes_sub M q 24 b off n Hb) as Hsub.
  change sym_name with (Z.of_nat 0). change sym_value with (Z.of_nat 8). change sym_size with (Z.of_nat 16).
  rewrite !Hsub by lia. split_and!; try done.
  change sym_info with (Z.of_nat 4). pose proof (read_bytes_lookup _ _ _ _ 4 Hb ltac:(lia)) as Hi.
  rewrite Hi. pose proof (read_bytes_length _ _ _ _ Hb) as Hl.
  destruct (lookup_lt_is_Some_2 b 4%nat ltac:(lia)) as [x Hx]. rewrite Hx. unfold s, decode_symbol, field.
  cbn [sy_info]. rewrite (drop_S _ _ _ Hx). cbn. f_equal. change (take 0 (drop 5 b)) with (@nil Z). cbn [le_val]. lia.
Qed.

Lemma file_symbols_at M q base i n :
  (∀ j, (i ≤ j < i + n)%nat →
    read_bytes M (q + 24 * Z.of_nat j) 24 = Some (slice file (base + 24 * Z.of_nat j) 24)) →
  symbols_at M (q + 24 * Z.of_nat i)
    (map (λ j, decode_symbol (slice file (base + 24 * Z.of_nat j) 24)) (seq i n)).
Proof using.
  revert i. induction n as [|n IH]; intros i Hr; [done|]. cbn [seq map symbols_at].
  destruct (symbol_read M _ _ (Hr i ltac:(lia))) as (H1 & H2 & H3 & H4). split_and!; try assumption.
  unfold sizeof_elf_symbol.
  replace (q + 24 * Z.of_nat i + 24) with (q + 24 * Z.of_nat (S i)) by lia. apply IH.
  intros j Hj. apply Hr. lia.
Qed.

Lemma tables_symtab_at : symtab_at (tables_mem file m p sym str) p (file_symbols file sym) (sh_size str).
Proof using Hsym Hstr Hcount Hstrsz.
  destruct (id Hsym) as (? & ? & ?), (id Hstr) as (? & ? & ?).
  assert (0 ≤ sh_size sym / sizeof_elf_symbol) as Hn by by apply Z.div_pos.
  pose proof (Z.mul_div_le (sh_size sym) sizeof_elf_symbol ltac:(done)) as Hle. unfold sizeof_elf_symbol in Hle.
  split_and!; [|apply tables_strtab_sz|done|].
  - rewrite tables_sym_count. unfold file_symbols. rewrite length_map, length_seq. by rewrite Z2Nat.id.
  - pose proof (file_symbols_at (tables_mem file m p sym str) (p + proc_symtab) (sh_off sym) 0
      (Z.to_nat (sh_size sym / sizeof_elf_symbol))) as Hat.
    change (24 * Z.of_nat 0) with 0 in Hat. rewrite Z.add_0_r in Hat. apply Hat. clear Hat.
    intros j Hj. unfold sizeof_elf_symbol in *. rewrite <- (slice_sub file (sh_off sym) (sh_size sym)) by lia.
    replace (24 * Z.of_nat j) with (Z.of_nat (24 * j)) at 1 by lia.
    replace (Z.to_nat (24 * Z.of_nat j)) with (24 * j)%nat by lia.
    apply (read_bytes_sub _ _ _ _ _ _ tables_symtab). lia.
Qed.

(** A name of the string section is a C string of the process. *)
Lemma tables_name off n :
  0 ≤ off → off + Z.of_nat (length n) < sh_size str → Forall (λ c, c ≠ 0) n →
  slice file (sh_off str + off) (Z.of_nat (length n) + 1) = n ++ [0] →
  cstr (tables_mem file m p sym str) (p + proc_strtab + off) n.
Proof using Hsym Hstr Hcount Hstrsz.
  intros Ho Hl Hn Hs. destruct (id Hstr) as (? & ? & ?). apply cstr_bytes; [|done].
  unfold bytes_at. rewrite <- Hs.
  rewrite <- (slice_sub file (sh_off str) (sh_size str)) by lia.
  replace (p + proc_strtab + off) with (p + proc_strtab + Z.of_nat (Z.to_nat off)) by lia.
  pose proof (read_bytes_sub _ _ _ _ (Z.to_nat off) (length n + 1) tables_strtab ltac:(lia)) as Hr.
  replace (Z.to_nat (Z.of_nat (length n) + 1)) with (length n + 1)%nat by lia.
  pose proof (read_bytes_length _ _ _ _ Hr) as Hlen. by rewrite Hlen.
Qed.
End table.

(** * The command line *)

(** What the host left in the buffer: at least two arguments, the second of them the path of the
    application, out of the way of the words [parse_args] moves. *)
Record command_line `{Platform} (m : mem) (argc argv0 : Z) (path : list Z) : Prop := {
  cl_argc : word_at m arg_area = Some argc;
  cl_range : 2 ≤ argc < MAX_CMDLINE_ARGS;
  cl_argv : word_at m (arg_area + 16) = Some argv0;
  cl_path : cstr m argv0 path;
  cl_apart : argv0 + Z.of_nat (length path) < arg_area ∨ arg_area + 8 * (argc - 1) ≤ argv0;
}.

(** Two memories that agree outside the buffer, and on what is mapped. *)
Record args_only `{Platform} (m m' : mem) : Prop := {
  ag_wf : mem_wf m';
  ag_mapped q n : mapped m q n → mapped m' q n;
  ag_same a : a < arg_area ∨ arg_area + sizeof_arg_buf ≤ a → m' !! a = m !! a;
}.

(** What a front-end stores: the number of arguments, their addresses, and the strings behind them in
    the same buffer. *)
Record args_line `{Platform} (args path : list Z) (off : nat) : Prop := {
  al_bytes : Forall (λ b, 0 ≤ b < 256) args;
  al_argc : 2 ≤ field 8 0 args < MAX_CMDLINE_ARGS;
  al_argv : field 8 16 args = arg_area + Z.of_nat off;
  al_off : 8 * (field 8 0 args - 1) ≤ Z.of_nat off ∧ 24 ≤ Z.of_nat off;
  al_path : take (length path + 1) (drop off args) = path ++ [0];
  al_nonzero : Forall (λ c, c ≠ 0) path;
}.
Lemma args_line_command `{Platform} m args path off :
  args_line args path off → command_line (write_bytes m arg_area (map u8 args)) (field 8 0 args)
    (arg_area + Z.of_nat off) path.
Proof.
  intros [Hb Hc Hv [Ho Ho16] Hp Hn]. rewrite map_u8_range by done.
  pose proof (read_write_bytes m arg_area args) as Hr.
  assert (off + (length path + 1) ≤ length args)%nat as Hl.
  { apply (f_equal length) in Hp. rewrite length_take, length_drop, length_app in Hp. simpl in Hp. lia. }
  assert (∀ k n, (k + n ≤ length args)%nat →
    read_bytes (write_bytes m arg_area args) (arg_area + Z.of_nat k) n = Some (take n (drop k args))) as Hsub
    by (intros k n Hk; by apply (read_bytes_sub _ _ _ _ _ _ Hr)).
  split; [|done| | |lia].
  - unfold word_at, field. rewrite <- (Z.add_0_r arg_area) at 2. change 0 with (Z.of_nat 0) at 1.
    rewrite Hsub by lia. done.
  - rewrite <- Hv. unfold word_at, field. change 16 with (Z.of_nat 16) at 1. rewrite Hsub; [done|].
    lia.
  - apply cstr_bytes; [|done]. unfold bytes_at. rewrite <- Hp.
    rewrite length_take, length_drop. replace (_ `min` _)%nat with (length path + 1)%nat by lia. by apply Hsub.
Qed.

Section args.
Context {H : Type} `{HH : Host H} `{PP : Platform}.
Implicit Types w : world H.

Lemma arg_word m i :
  frame m arg_area (Z.to_nat sizeof_arg_buf) → 0 ≤ i < MAX_CMDLINE_ARGS →
  is_Some (word_at m (arg_area + 8 * i)).
Proof.
  unfold MAX_CMDLINE_ARGS. intros Hf Hi. apply (frame_word _ _ _ (8 * i) Hf); [lia|].
  rewrite Z2Nat.id by done. unfold sizeof_arg_buf, MAX_CMDLINE_ARGS. lia.
Qed.

Lemma shift_args_step w argc i v :
  frame (w_mem w) arg_area (Z.to_nat sizeof_arg_buf) → 0 ≤ i → 1 + i < argc → argc < MAX_CMDLINE_ARGS →
  word_at (w_mem w) (arg_area + 8 * (2 + i)) = Some v →
  shift_args_round argc i w =
    Ret (inl (i + 1)) (set_mem (write_word (w_mem w) (arg_area + 8 * i) v) w).
Proof.
  intros Hf Hi Hlt Hmax Hv. unfold MAX_CMDLINE_ARGS in *. unfold shift_args_round.
  rewrite u64_id, (proj2 (Z.ltb_lt _ _) Hlt) by lia. cbn [negb]. unfold load_arg, store_arg, MAX_CMDLINE_ARGS.
  rewrite (proj2 (Z.ltb_lt (1 + (1 + i)) 64)), (proj2 (Z.ltb_lt i 64)) by lia.
  replace (1 + (1 + i)) with (2 + i) by lia. mrun (load_field_Ret w arg_area _ v Hv).
  mrun (store_field_Ret w arg_area (8 * i) v (arg_word _ i Hf ltac:(unfold MAX_CMDLINE_ARGS; lia))). done.
Qed.

Lemma shift_args_loop argc n i fuel w :
  frame (w_mem w) arg_area (Z.to_nat sizeof_arg_buf) → mem_wf (w_mem w) → 0 ≤ i →
  argc = 1 + i + Z.of_nat n → argc < MAX_CMDLINE_ARGS → (n < fuel)%nat →
  ∃ m', loop fuel (shift_args_round argc) i w = Ret tt (set_mem m' w) ∧ mem_wf m' ∧
    (∀ q k, mapped (w_mem w) q k → mapped m' q k) ∧
    ∀ a, a < arg_area + 8 * i ∨ arg_area + 8 * (i + Z.of_nat n) ≤ a → m' !! a = w_mem w !! a.
Proof.
  revert i fuel w. induction n as [|n IH]; intros i fuel w Hf Hwf Hi Ha Hmax Hfuel;
    (destruct fuel as [|fuel]; [lia|]).
  - exists (w_mem w). split_and!; try done. rewrite set_mem_id. apply loop_exit.
    unfold shift_args_round. unfold MAX_CMDLINE_ARGS in *.
    by rewrite u64_id, (proj2 (Z.ltb_ge _ _)) by lia.
  - destruct (arg_word _ (2 + i) Hf ltac:(lia)) as [v Hv].
    rewrite (loop_step _ _ _ _ _ _ (shift_args_step w argc i v Hf Hi ltac:(lia) Hmax Hv)).
    set (m1 := write_word _ _ v).
    destruct (IH (i + 1) fuel (set_mem m1 w)) as (m' & -> & Hwf' & Hmap & He); try lia.
    { by apply frame_write_word. }
    { by apply mem_wf_write_word. }
    exists m'. split_and!; [done|done| |].
    + intros q k Hq. by apply Hmap, mapped_write_word.
    + intros a Hout. rewrite He by lia. apply lookup_write_word_ne. lia.
Qed.

(** [parse_args] up to the loop, on the host's reply [d]. *)
Lemma parse_args_argc w d argc :
  let w1 := set_mem (write_bytes (w_mem w) arg_area (map u8 d))
    (set_host (host_calls [FeGetmainvars arg_area sizeof_arg_buf] (w_host w)) w) in
  (host_call (FeGetmainvars arg_area sizeof_arg_buf) (w_host w)).1 = FeReply 0 d →
  Z.of_nat (length d) ≤ sizeof_arg_buf → frame (w_mem w) arg_area (Z.to_nat sizeof_arg_buf) →
  word_at (w_mem w1) arg_area = Some argc →
  parse_args w = (loop 65 (shift_args_round argc) 0;; mret (u64 (argc - 1))) w1.
Proof.
  intros w1 Hd Hl Hf Hargc. unfold parse_args.
  mrun (frontend_Ret (FeGetmainvars arg_area sizeof_arg_buf) w). rewrite Hd. cbn [fe_ret fe_data].
  rewrite (bind_Ret _ _ _ tt w1).
  2:{ apply on_mem_Ret. unfold store_block. destruct Hf as (_ & _ & Hm).
      eapply mapped_le in Hm; [apply read_bytes_is_Some in Hm as [bs Hbs]|];
        [cbn [w_mem set_host]; by rewrite Hbs|lia]. }
  cbn [Z.eqb kassert]. rewrite mret_bind. unfold load_arg at 1.
  rewrite (bind_Ret _ _ w1 argc w1); [done|].
  unfold MAX_CMDLINE_ARGS. apply load_field_Ret. by rewrite Z.add_0_r.
Qed.

(** [parse_args] on the host's reply [d]. *)
Lemma parse_args_Ret w d argc argv0 path :
  let h := host_calls [FeGetmainvars arg_area sizeof_arg_buf] (w_host w) in
  let m1 := write_bytes (w_mem w) arg_area (map u8 d) in
  (host_call (FeGetmainvars arg_area sizeof_arg_buf) (w_host w)).1 = FeReply 0 d →
  Z.of_nat (length d) ≤ sizeof_arg_buf → mem_wf (w_mem w) →
  frame (w_mem w) arg_area (Z.to_nat sizeof_arg_buf) → command_line m1 argc argv0 path →
  ∃ m2, parse_args w = Ret (argc - 1) (set_mem m2 (set_host h w)) ∧
    word_at m2 arg_area = Some argv0 ∧ cstr m2 argv0 path ∧ args_only (w_mem w) m2.
Proof.
  intros h m1 Hd Hl Hwf Hf [Hargc Hrange Hargv Hpath Hap].
  assert (frame m1 arg_area (Z.to_nat sizeof_arg_buf)) as Hf1.
  { destruct Hf as (? & ? & ?). split_and!; [done|done|by apply mapped_write_bytes]. }
  assert (mem_wf m1) as Hwf1.
  { apply mem_wf_write_bytes; [done|]. apply Forall_map, Forall_true. intros. apply u8_range. }
  set (w1 := set_mem m1 (set_host h w)).
  pose proof (word_at_range _ _ _ Hwf1 Hargv) as Hv.
  set (m' := write_word m1 (arg_area + 8 * 0) argv0).
  assert (8 * (argc - 1) ≤ sizeof_arg_buf) by (unfold sizeof_arg_buf, MAX_CMDLINE_ARGS in *; lia).
  destruct (shift_args_loop argc (Z.to_nat (argc - 2)) 1 (Z.to_nat MAX_CMDLINE_ARGS) (set_mem m' w1))
    as (m2 & Hloop & Hwf2 & Hmap & He).
  { by apply frame_write_word. } { by apply mem_wf_write_word. } { done. } { lia. } { lia. }
  { unfold MAX_CMDLINE_ARGS in *. lia. }
  assert (∀ a, a < arg_area ∨ arg_area + 8 * (argc - 1) ≤ a → m2 !! a = m1 !! a) as He1.
  { intros a Ha. rewrite He by lia. cbn [w_mem set_mem]. apply lookup_write_word_ne. lia. }
  exists m2. split_and!.
  - rewrite (parse_args_argc w d argc Hd Hl Hf Hargc). fold m1 h w1.
    pose proof (shift_args_step w1 argc 0 argv0 Hf1 ltac:(lia) ltac:(lia) ltac:(lia) Hargv) as Hstep.
    change (Z.to_nat MAX_CMDLINE_ARGS) with 64%nat in *.
    assert (loop 65 (shift_args_round argc) 0 w1 = Ret tt (set_mem m2 w1)) as Hl65
      by (rewrite (loop_step _ _ _ _ _ _ Hstep); exact Hloop).
    mrun Hl65. unfold mret, M_ret. f_equal. apply u64_id. unfold MAX_CMDLINE_ARGS in *. lia.
  - rewrite (word_at_ext m'); [|intros a Ha; apply He; lia]. unfold m'. rewrite Z.add_0_r, word_at_write.
    by rewrite u64_id.
  - apply (cstr_ext m1); [|done]. intros j Hj. apply He1. lia.
  - split; [done| |].
    + intros q n Hq. apply Hmap. cbn [w_mem set_mem]. by apply mapped_write_word, mapped_write_bytes.
    + intros a Ha. rewrite He1 by lia. apply lookup_write_bytes_ne. rewrite length_map. lia.
Qed.
End args.

(** * The whole of it *)

(** The states of the host are told apart by two predicates: [Q] before the application's file is
    opened, when nothing but [before_open] calls have been made, and [P] while it is open. *)
Definition before_open (c : fe_call) : Prop :=
  match c with FeWrite _ _ | FeGetmainvars _ _ => True | _ => False end.

(** A host that hands over the command line [args]. *)
Class ArgsHost {H} `{Host H} `{Platform} (args : list Z) (Q : H → Prop) : Prop := {
  gh_args h : Q h → (host_call (FeGetmainvars arg_area sizeof_arg_buf) h).1 = FeReply 0 args;
  gh_size : Z.of_nat (length args) ≤ sizeof_arg_buf;
  gh_keeps h c : Q h → before_open c → Q (host_call c h).2;
}.
(** A host that answers [fd] when it is asked to open [path]: an error, or the descriptor that is
    open from then on. *)
Class OpenHost {H} `{Host H} (path : list Z) (fd : Z) (Q P : H → Prop) : Prop := {
  oh_open h : Q h → fe_ret (host_call (openat_call AT_FDCWD path O_RDONLY 0) h).1 = fd;
  oh_opened h : Q h → 0 ≤ fd → P (host_call (openat_call AT_FDCWD path O_RDONLY 0) h).2;
  oh_range : - 2 ^ 12 ≤ fd < 2 ^ 31;
}.
(** A host with an application: it hands over the command line [args], opens [path] as its
    descriptor [fd], and then serves the file on that descriptor. *)
Class AppHost {H} `{Host H} `{Platform} (file args path : list Z) (fd : Z) (Q P : H → Prop) : Prop := {
  ah_args :: ArgsHost args Q;
  ah_opens :: OpenHost path fd Q P;
  ah_serves :: FileServer file fd P;
  ah_fd : 0 ≤ fd < Z.of_nat MAX_FDS;
}.

(** A file the loader accepts in the memory [m]: an ELF header, program headers and sections inside
    the file, and segments that [elf_load] accepts and that stay out of the memory [K]. *)
Definition elf_of (file : list Z) : elf_header := decode_elf_header file.
Definition segments_of (file : list Z) : list elf_prog_header :=
  prog_headers file (eh_phoff (elf_of file)) 0 (Z.to_nat (eh_phnum (elf_of file))).
Definition seg_avoids (K : Z → Prop) (ph : elf_prog_header) : Prop :=
  ph_type ph = ELF_PROG_LOAD → ∀ a, ph_vaddr ph ≤ a < ph_vaddr ph + ph_memsz ph → ¬ K a.
Record app_file (m : mem) (file : list Z) (K : Z → Prop) : Prop := {
  af_size : 64 ≤ Z.of_nat (length file) < 2 ^ 63;
  af_magic : field 4 0 file = ELF_MAGIC;
  af_phdrs : eh_phoff (elf_of file) + 56 * eh_phnum (elf_of file) < 2 ^ 31 ∧
    eh_phoff (elf_of file) + 56 * eh_phnum (elf_of file) ≤ Z.of_nat (length file);
  af_segs : Forall (seg_ok m) (segments_of file);
  af_loads : (load_segments file (segments_of file) m).1 = EL_OK;
  af_sections : sections_ok file (elf_of file);
  af_avoid : Forall (seg_avoids K) (segments_of file);
}.

(** The memory with the segments, the symbols and the entry point of the file. *)
Definition app_image (file : list Z) (m : mem) (p tf : Z) : mem :=
  write_word (symbols_mem file (elf_of file) (load_segments file (segments_of file) m).2 p)
    (tf + tf_epc) (eh_entry (elf_of file)).

(** The two messages. *)
Definition application_msg (path : list Z) : list Z := bytes "Application: " ++ path ++ bytes newline.
Definition entry_msg (pc : Z) : list Z :=
  bytes "Application program entry point (virtual address): 0x" ++ hex 16 (s64 pc) ++ bytes newline.

Section whole.
Context {H : Type} `{HH : Host H} `{PP : Platform}.
Implicit Types w : world H.

(** Whether the segments load is a matter of the file alone. *)
Lemma load_segments_status file phs m m' :
  (load_segments file phs m).1 = (load_segments file phs m').1.
Proof.
  revert m m'. induction phs as [|ph phs IH]; intros m m'; [done|]. cbn [load_segments].
  destruct (negb _); [done|]. destruct (_ <? _); [done|]. destruct (_ <=? _); [done|].
  by destruct (_ =? _).
Qed.
Lemma load_segments_wf file phs m :
  Forall (λ b, 0 ≤ b < 256) file → mem_wf m → mem_wf (load_segments file phs m).2.
Proof.
  intros Hf. revert m. induction phs as [|ph phs IH]; intros m Hm; [done|]. cbn [load_segments].
  destruct (negb _); [auto|]. destruct (_ <? _); [done|]. destruct (_ <=? _); [done|].
  assert (mem_wf (write_bytes m (ph_vaddr ph) (slice file (ph_off ph) (ph_memsz ph))))
    by (apply mem_wf_write_bytes; [done|by apply slice_range]).
  destruct (_ =? _); [auto|done].
Qed.
Lemma load_segments_keeps_mapped file phs m q n :
  mapped m q n → mapped (load_segments file phs m).2 q n.
Proof.
  revert m. induction phs as [|ph phs IH]; intros m Hm; [done|]. cbn [load_segments].
  destruct (negb _); [auto|]. destruct (_ <? _); [done|]. destruct (_ <=? _); [done|].
  destruct (_ =? _); [apply IH|]; by apply mapped_write_bytes.
Qed.
Lemma load_segments_outside (K : Z → Prop) file phs m a :
  Forall (seg_avoids K) phs → Forall (λ ph, 0 ≤ ph_memsz ph) phs → K a →
  (load_segments file phs m).2 !! a = m !! a.
Proof.
  intros Hav. revert m. induction Hav as [|ph phs Hph Hav IH]; intros m Hms Ha; [done|].
  inversion Hms as [|? ? Hm Hms']; subst. cbn [load_segments].
  destruct (Z.eqb_spec (ph_type ph) ELF_PROG_LOAD) as [Ht|Ht]; cbn [negb]; [|auto].
  destruct (_ <? _); [done|]. destruct (_ <=? _); [done|].
  assert (write_bytes m (ph_vaddr ph) (slice file (ph_off ph) (ph_memsz ph)) !! a = m !! a) as He.
  { apply lookup_write_bytes_ne. pose proof (slice_le file (ph_off ph) (ph_memsz ph) Hm) as Hle.
    destruct (decide (ph_vaddr ph ≤ a < ph_vaddr ph + ph_memsz ph)) as [Hin|]; [|lia].
    by destruct (Hph Ht a Hin). }
  destruct (_ =? _); [|done]. by rewrite IH.
Qed.
Lemma segments_memsz file phoff i n :
  Forall (λ b, 0 ≤ b < 256) file → Forall (λ ph, 0 ≤ ph_memsz ph) (prog_headers file phoff i n).
Proof.
  intros Hf. unfold prog_headers. apply Forall_map, Forall_true. intros j.
  unfold prog_header. by apply decode_range, slice_range.
Qed.

(** The symbols go to their fields of the process. *)
Lemma tables_mem_outside file m p sym str a :
  in_file file sym → in_file file str →
  sh_size sym / sizeof_elf_symbol ≤ MAX_USER_SYMS → sh_size str ≤ MAX_USER_STRTAB →
  a < p + proc_symtab ∨ p + sizeof_process ≤ a → tables_mem file m p sym str !! a = m !! a.
Proof.
  intros (? & ? & ?) (? & ? & ?) Hc Hs Ha. unfold sizeof_elf_symbol, MAX_USER_SYMS, MAX_USER_STRTAB in *.
  assert (sh_size sym < 24 * 513).
  { pose proof (Z.div_mod (sh_size sym) 24). pose proof (Z.mod_pos_bound (sh_size sym) 24). lia. }
  change sizeof_process with (proc_symtab + 12288 + 8 + 8192 + 8) in Ha.
  unfold tables_mem. change proc_strtab_sz with (proc_symtab + 12288 + 8 + 8192).
  change proc_strtab with (proc_symtab + 12288 + 8). change proc_sym_count with (proc_symtab + 12288).
  rewrite lookup_write_word_ne by lia.
  rewrite lookup_write_bytes_ne by (rewrite slice_length, Z2Nat.id by done; lia).
  rewrite lookup_write_word_ne by lia.
  by rewrite lookup_write_bytes_ne by (rewrite slice_length, Z2Nat.id by done; lia).
Qed.
Lemma symbols_mem_outside file eh m p a :
  sections_ok file eh → a < p + proc_symtab ∨ p + sizeof_process ≤ a →
  symbols_mem file eh m p !! a = m !! a.
Proof.
  intros [_ Ht] Ha. unfold symbols_mem. destruct (the_symtab file eh) as [sym|]; [|done].
  destruct (Ht sym eq_refl). by apply tables_mem_outside.
Qed.
Lemma symbols_mem_wf file eh m p :
  Forall (λ b, 0 ≤ b < 256) file → mem_wf m → mem_wf (symbols_mem file eh m p).
Proof.
  intros Hf Hm. unfold symbols_mem. destruct (the_symtab file eh) as [sym|]; [|done]. unfold tables_mem.
  apply mem_wf_write_word, mem_wf_write_bytes; [|by apply slice_range].
  by apply mem_wf_write_word, mem_wf_write_bytes; [|apply slice_range].
Qed.
Lemma symbols_mem_mapped file eh m p q n : mapped m q n → mapped (symbols_mem file eh m p) q n.
Proof.
  intros Hm. unfold symbols_mem. destruct (the_symtab file eh) as [sym|]; [|done]. unfold tables_mem.
  by apply mapped_write_word, mapped_write_bytes, mapped_write_word, mapped_write_bytes.
Qed.

(** The process after its image is in place. *)
Lemma app_image_layout file m p tf K :
  app_file m file K → Forall (λ b, 0 ≤ b < 256) file → layout m p tf →
  (∀ a, tf ≤ a < tf + sizeof_trapframe ∨ p ≤ a < p + sizeof_process → K a) →
  layout (app_image file m p tf) p tf ∧
  word_at (app_image file m p tf) (tf + tf_epc) = Some (eh_entry (elf_of file)) ∧
  ∀ a, K a → a < tf + tf_epc ∨ tf + tf_epc + 8 ≤ a → a < p + proc_symtab ∨ p + sizeof_process ≤ a →
    app_image file m p tf !! a = m !! a.
Proof.
  intros [_ _ _ _ _ Hsec Hav] Hf [Hwf Hp Hn Htf Hfr Hd] HK.
  assert (0 < sizeof_process) as Hsp by (apply Z.ltb_lt; reflexivity).
  assert (proc_trapframe + 8 ≤ proc_symtab) as Hps by done. assert (0 ≤ proc_trapframe) by done.
  assert (proc_symtab ≤ sizeof_process) by (apply Z.leb_le; reflexivity).
  assert (tf_epc + 8 ≤ sizeof_trapframe ∧ 0 ≤ tf_epc) as [? ?] by done.
  assert (∀ a, K a → a < tf + tf_epc ∨ tf + tf_epc + 8 ≤ a → a < p + proc_symtab ∨ p + sizeof_process ≤ a →
    app_image file m p tf !! a = m !! a) as He.
  { intros a Ha Ho1 Ho2. unfold app_image. rewrite lookup_write_word_ne, symbols_mem_outside by done.
    apply (load_segments_outside K); [done|by apply segments_memsz|done]. }
  assert (0 ≤ eh_entry (elf_of file) < 2 ^ 64) by by apply (field_range 8).
  assert (∀ q n, frame m q n → frame (app_image file m p tf) q n) as Hframe.
  { intros q n (? & ? & ?). split_and!; [done..|].
    by apply mapped_write_word, symbols_mem_mapped, load_segments_keeps_mapped. }
  split_and!; [|by unfold app_image; rewrite word_at_write, u64_id|done].
  split; [|by apply Hframe|done| |by apply Hframe|done].
  - by apply mem_wf_write_word, symbols_mem_wf, load_segments_wf.
  - rewrite <- Htf. apply word_at_ext. intros a Ha. apply He; [apply HK|..]; lia.
Qed.

(** The part of the loader that reads the file. *)
Lemma load_elf_Ret file fd (P : H → Prop) `{!FileServer file fd P} w f p K :
  kfd <$> w_files w !! f = Some fd → P (w_host w) → app_file (w_mem w) file K →
  mapped (w_mem w) p (Z.to_nat sizeof_process) →
  let m1 := (load_segments file (segments_of file) (w_mem w)).2 in
  ∃ ctx h1 h2 h3, elf_init f p w = Ret (EL_OK, ctx) (set_host h1 w) ∧ ctx_ehdr ctx = elf_of file ∧
    elf_load ctx (set_host h1 w) = Ret EL_OK (set_mem m1 (set_host h2 w)) ∧
    load_user_symbols ctx (set_mem m1 (set_host h2 w)) =
      Ret tt (set_mem (symbols_mem file (elf_of file) m1 p) (set_host h3 w)) ∧
    preads fd (w_host w) h3.
Proof.
  intros Hx HP [Hsize Hmagic [Hph Hphl] Hsegs Hld Hsec _] Hm m1.
  destruct (elf_init_Ret file fd P w f p Hx HP) as (h1 & ctx & Hr1 & Hp1 & Hcf & Hcp & Hce).
  rewrite (proj2 (Z.ltb_ge _ _)), Hmagic, Z.eqb_refl in Hr1 by lia. specialize (Hce ltac:(lia)).
  pose proof (preads_serve file fd P _ _ Hp1 HP) as HP1. fold (elf_of file) in Hce.
  pose proof (fs_bytes (file := file) (fd := fd) (P := P)) as Hb.
  assert (0 ≤ eh_phoff (elf_of file)) by by apply (field_range 8).
  assert (0 ≤ eh_phnum (elf_of file)) by by apply (field_range 2).
  assert (0 ≤ eh_shnum (elf_of file)) by by apply (field_range 2).
  destruct (elf_load_Ret file fd P (set_host h1 w) ctx) as (h2 & Hr2 & Hp2);
    rewrite ?Hce, ?Hcf; try (done || lia).
  rewrite Hce in Hr2. fold (segments_of file) in Hr2. cbn [w_mem set_host] in Hr2. rewrite Hld in Hr2.
  pose proof (preads_serve file fd P _ _ Hp2 HP1) as HP2.
  destruct (load_user_symbols_Ret file fd P (set_mem m1 (set_host h2 w)) ctx) as (h3 & Hr3 & Hp3);
    rewrite ?Hce, ?Hcf, ?Hcp; try (done || lia).
  { by apply load_segments_keeps_mapped. }
  exists ctx, h1, h2, h3. rewrite Hce, Hcp in Hr3. split_and!; try done.
  etrans; [exact Hp1|]. by etrans.
Qed.

Lemma app_file_mapped m m' file K :
  app_file m file K → (∀ q n, mapped m q n → mapped m' q n) → app_file m' file K.
Proof.
  intros [Hs Hm Hp Hsg Hl Hse Ha] Hmap. split; try done.
  - eapply Forall_impl; [exact Hsg|]. intros ph Hph Ht. destruct (Hph Ht) as [? ?]. split; [done|by apply Hmap].
  - rewrite <- Hl. apply load_segments_status.
Qed.

Lemma sprint_application w k argv0 path :
  console w k → cstr (w_mem w) argv0 path → Z.of_nat (length path) < 2 ^ 30 →
  sprint (Lit (bytes ("Application: %s" +:+ newline))) [Num argv0] w = Ret tt (printed k (application_msg path) w).
Proof.
  intros Hk Hp Hl. eapply (sprint_Ret w k _ _ (bytes "Application: " ++ 37 :: 115 :: bytes newline)).
  - done.
  - apply cstring_lit. vm_compute. repeat constructor; discriminate.
  - rewrite render_text by plain_tac.
    rewrite render_percent, (render_s _ _ _ _ _ path) by by apply cstring_num. by rewrite render_plain by plain_tac.
  - unfold application_msg. rewrite !length_app. change (length (bytes "Application: ")) with 13%nat.
    change (length (bytes newline)) with 1%nat. lia.
  - right. by vm_compute.
Qed.
Lemma sprint_entry w k pc :
  console w k →
  sprint (Lit (bytes ("Application program entry point (virtual address): 0x%lx" +:+ newline))) [Num pc] w =
    Ret tt (printed k (entry_msg pc) w).
Proof.
  intros Hk. eapply (sprint_Ret w k _ _
    (bytes "Application program entry point (virtual address): 0x" ++ 37 :: 108 :: 120 :: bytes newline)).
  - done.
  - apply cstring_lit. vm_compute. repeat constructor; discriminate.
  - rewrite render_text by plain_tac.
    rewrite render_percent, render_l, (render_x _ _ _ _ (s64 pc)) by done. by rewrite render_plain by plain_tac.
  - unfold entry_msg. by rewrite !length_app.
  - right. by vm_compute.
Qed.

(** What the loader needs of the machine it runs on. *)
Record load_ready (w : world H) (k p tf : Z) (i : nat) (fd : Z) (K : Z → Prop) : Prop := {
  lr_console : console w k;
  lr_layout : layout (w_mem w) p tf;
  lr_files : length (w_files w) = MAX_FILES;
  lr_slot : ∃ x, first_free (w_files w) = Some (i, x);
  lr_stderr : i ≠ stderr;
  lr_fd : ∃ old, w_fds w !! Z.to_nat fd = Some old ∧ old ≠ Some i;
  lr_args : frame (w_mem w) arg_area (Z.to_nat sizeof_arg_buf);
  lr_own a : tf ≤ a < tf + sizeof_trapframe ∨ p ≤ a < p + sizeof_process → K a;
  lr_apart a : K a → a < arg_area ∨ arg_area + sizeof_arg_buf ≤ a;
}.

(** The calls of the host a loading makes: up to the opening of the file, and all of them. *)
Definition open_calls (k : Z) (path : list Z) : list fe_call :=
  [FeGetmainvars arg_area sizeof_arg_buf; FeWrite k (printk_bytes (application_msg path));
   openat_call AT_FDCWD path O_RDONLY 0].
Definition load_calls (k : Z) (path : list Z) (entry : Z) (cs : list fe_call) : list fe_call :=
  open_calls k path ++ cs ++ [FeWrite k (printk_bytes (entry_msg entry))].

(** The opened file. *)
Definition opened_file (i : nat) (fd : Z) (x : spike_file) : file_ptr * spike_file :=
  if fd >=? 0 then (FilePtr i, SpikeFile (s32 fd) 3) else (ErrPtr fd, SpikeFile (kfd x) 2).

(** Up to the opening, whatever the host answers to that. *)
Lemma load_begins args path fd (Q P : H → Prop) `{!ArgsHost args Q} `{!OpenHost path fd Q P}
    w k p tf i argc argv0 K fd' :
  Q (w_host w) → load_ready w k p tf i fd' K →
  command_line (write_bytes (w_mem w) arg_area (map u8 args)) argc argv0 path →
  Z.of_nat (length path) < 2 ^ 30 →
  ∃ m2 x, first_free (w_files w) = Some (i, x) ∧ args_only (w_mem w) m2 ∧ layout m2 p tf ∧
    let w3 := set_files (<[i := (opened_file i fd x).2]> (w_files w))
      (set_mem m2 (set_host (host_calls (open_calls k path) (w_host w)) w)) in
    (0 ≤ fd → P (w_host w3)) ∧ load_bincode_from_host_elf p w = load_opened p (opened_file i fd x).1 w3.
Proof.
  intros HQ [Hk Hl Hlen [x Hff] _ _ Har Hown Hap] Hcl Hplen.
  destruct (parse_args_Ret w args argc argv0 path (gh_args _ HQ) gh_size (lay_wf _ _ _ Hl) Har Hcl)
    as (m2 & Hr1 & Hv & Hpath & Hag).
  set (w1 := set_mem m2 _) in Hr1. assert (2 ≤ argc) by apply Hcl.
  assert (∀ v, v = w1 ∨ v = printed k (application_msg path) w1 → load_arg 0 v = Ret argv0 v) as Harg.
  { intros v Hv'. unfold load_arg. apply load_field_Ret. rewrite Z.add_0_r. by destruct Hv' as [->| ->]. }
  set (w2 := printed k (application_msg path) w1).
  assert (Q (w_host w2)) as HQ2 by (do 2 (apply gh_keeps; [|exact I]); exact HQ).
  exists m2, x. split; [done|]. split; [done|]. split.
  { apply (layout_ext (w_mem w)); [done|apply Hag|]. intros a Ha. apply Hag, Hap, Hown, Ha. }
  split; [exact (oh_opened (w_host w2) HQ2)|].
  unfold load_bincode_from_host_elf. mrun Hr1. rewrite (proj2 (Z.eqb_neq _ _)) by lia. cbn [when].
  rewrite mret_bind. mrun (Harg w1 ltac:(by left)).
  mrun (sprint_application w1 k argv0 path Hk Hpath Hplen). fold w2. mrun (Harg w2 ltac:(by right)).
  unfold spike_file_open. set (c := openat_call AT_FDCWD path O_RDONLY 0).
  assert (host_call c (w_host w2) = ((host_call c (w_host w2)).1, host_calls [c] (w_host w2))) as Hc
    by (cbn [host_calls foldl]; by destruct (host_call _ _)).
  pose proof (spike_file_openat_Ret w2 AT_FDCWD argv0 path O_RDONLY 0 i x _ _ Hlen Hpath Hff Hc) as Ho.
  pose proof (oh_open (P := P) _ HQ2) as Hfd. fold c in Hfd. rewrite Hfd in Ho. unfold opened_file. destruct (fd >=? 0); by mrun Ho.
Qed.
Lemma close_app_Ret w i fd old files :
  w_files w = <[i := SpikeFile fd 3]> files → (i < length files)%nat → 0 ≤ fd →
  w_fds w !! Z.to_nat fd = Some old → old ≠ Some i →
  spike_file_close (Some i) w = Ret (-1) (set_files (<[i := SpikeFile fd 2]> files) w).
Proof.
  intros Hf Hi Hfd Ho Hne. rewrite (spike_file_close_Ret w i fd 3 old); [|rewrite Hf; by apply list_lookup_insert_eq|lia|done|done].
  rewrite decide_False by done. by rewrite Hf, list_insert_insert_eq.
Qed.

(** Before the entry point is stored. *)
Lemma app_image_words file m p tf K :
  app_file m file K → Forall (λ b, 0 ≤ b < 256) file → layout m p tf →
  (∀ a, tf ≤ a < tf + sizeof_trapframe ∨ p ≤ a < p + sizeof_process → K a) →
  let m' := symbols_mem file (elf_of file) (load_segments file (segments_of file) m).2 p in
  word_at m' (p + proc_trapframe) = Some tf ∧ is_Some (word_at m' (tf + tf_epc)).
Proof.
  intros Haf Hf Hl HK m'. destruct (app_image_layout file m p tf K Haf Hf Hl HK) as (Himg & _).
  assert (tf_epc + 8 ≤ sizeof_trapframe ∧ 0 ≤ tf_epc) as [? ?] by done. split.
  - rewrite <- (lay_tf _ _ _ Himg). unfold app_image. fold m'. symmetry. apply word_at_write_ne.
    pose proof (lay_disj _ _ _ Hl). assert (proc_trapframe + 8 ≤ sizeof_process) by (apply Z.leb_le; reflexivity).
    assert (0 ≤ proc_trapframe) by done. lia.
  - apply word_at_mapped, symbols_mem_mapped, load_segments_keeps_mapped, word_at_inv.
    by eapply layout_frame_word.
Qed.

Lemma load_bincode_Ret file args path fd (Q P : H → Prop) `{!AppHost file args path fd Q P} w k p tf i argc argv0 K :
  Q (w_host w) → load_ready w k p tf i fd K →
  command_line (write_bytes (w_mem w) arg_area (map u8 args)) argc argv0 path →
  Z.of_nat (length path) < 2 ^ 30 → app_file (w_mem w) file K →
  ∃ m2 cs w', load_bincode_from_host_elf p w = Ret tt w' ∧ args_only (w_mem w) m2 ∧
    w_mem w' = app_image file m2 p tf ∧ w_files w' = <[i := SpikeFile fd 2]> (w_files w) ∧
    Forall (is_pread fd) cs ∧ w_host w' = host_calls (load_calls k path (eh_entry (elf_of file)) cs) (w_host w).
Proof.
  intros HQ Hrd Hcl Hplen Haf. pose proof (ah_fd (file := file) (P := P)) as Hfd.
  destruct (load_begins args path fd Q P w k p tf i argc argv0 K fd HQ Hrd Hcl Hplen)
    as (m2 & x & Hff & Hag & Hl2 & HP3 & Hbegin).
  destruct Hrd as [Hk _ _ _ Hi3 (old & Hold & Hne) _ Hown _].
  assert (i < length (w_files w))%nat as Hi by (by apply first_free_Some in Hff as [?%lookup_lt_Some _]).
  assert (Z.of_nat MAX_FDS < 2 ^ 31) by done.
  unfold opened_file in HP3, Hbegin. rewrite Z.geb_leb, (proj2 (Z.leb_le _ _)), s32_id in HP3, Hbegin by lia.
  cbn [fst snd] in HP3, Hbegin. specialize (HP3 ltac:(lia)). set (w3 := set_files _ _) in HP3, Hbegin.
  apply (app_file_mapped _ m2) in Haf; [|apply Hag].
  assert (kfd <$> w_files w3 !! i = Some fd) as H3 by (cbn; by rewrite list_lookup_insert_eq).
  destruct (load_elf_Ret file fd P w3 i p K H3 HP3 Haf) as (ctx & h1 & h2 & h3 & He1 & Hce & He2 & He3 & (cs & Hcs & Hh)).
  { apply Hl2. }
  cbn [w_mem w3 set_files set_host] in He2, He3. set (w4 := set_mem (symbols_mem _ _ _ _) _) in He3.
  destruct (app_image_layout file m2 p tf K Haf fs_bytes Hl2 Hown) as (Himg & Hepc & _).
  assert (word_at (w_mem w4) (p + proc_trapframe) = Some tf ∧ is_Some (word_at (w_mem w4) (tf + tf_epc))) as [Htf4 Hw4].
  { exact (app_image_words file m2 p tf K Haf fs_bytes Hl2 Hown). }
  set (w5 := set_mem (app_image file m2 p tf) w4).
  set (w6 := set_files (<[i := SpikeFile fd 2]> (w_files w)) w5).
  exists m2, cs, (printed k (entry_msg (eh_entry (elf_of file))) w6). split_and!; try done.
  - rewrite Hbegin. unfold load_opened. cbn [is_err_value when file_of of_option]. rewrite !mret_bind. mrun He1. cbn iota beta.
    rewrite bool_decide_eq_true_2 by done. cbn [negb when]. rewrite mret_bind. mrun He2.
    rewrite bool_decide_eq_true_2 by done. cbn [negb when]. rewrite mret_bind. mrun He3.
    mrun (load_field_Ret w4 p proc_trapframe tf Htf4). rewrite Hce.
    mrun (store_field_Ret w4 tf tf_epc (eh_entry (elf_of file)) Hw4). fold (app_image file m2 p tf). fold w5.
    mrun (close_app_Ret w5 i fd old (w_files w) eq_refl Hi ltac:(lia) Hold Hne). fold w6.
    mrun (load_field_Ret w6 p proc_trapframe tf (lay_tf _ _ _ Himg)).
    mrun (load_field_Ret w6 tf tf_epc _ Hepc). apply sprint_entry.
    destruct Hk as (y & Hy & Hky). exists y. split; [|done]. cbn. by rewrite list_lookup_insert_ne.
  - cbn [printed w_host set_host w6 w5 w4 set_files set_mem]. rewrite Hh.
    unfold load_calls. by rewrite !host_calls_app.
Qed.

(** ** Refusals *)
Lemma load_ready_host w h k p tf i fd K : load_ready w k p tf i fd K → load_ready (set_host h w) k p tf i fd K.
Proof. intros []. by split. Qed.

(** Why the loader refuses, if it does: the host cannot open the file, it is too short or no ELF file,
    or one of its segments is not sound. *)
Definition refusal (fd : Z) (file : list Z) : option string :=
  if fd <? 0 then Some "Fail on openning the input application program."%string
  else if (Z.of_nat (length file) <? 64) || negb (field 4 0 file =? ELF_MAGIC) then
    Some "fail to init elfloader."%string
  else if decide ((load_segments file (segments_of file) ∅).1 = EL_OK) then None
  else Some "Fail on loading elf."%string.
Definition panic_calls (k : Z) (s : string) : list fe_call :=
  [FeWrite k (printk_bytes (bytes (s +:+ newline +:+ newline))); FeWrite k (printk_bytes (shutdown_msg (-1))); FeExit (-1)].

Lemma panic_refusal {A} w k s fd file :
  console w k → refusal fd file = Some s →
  panic (A := A) (s +:+ newline) [] w = Halted (set_host (host_calls (panic_calls k s) (w_host w)) w).
Proof.
  intros Hk Hs. unfold refusal in Hs. unfold panic_calls.
  repeat case_match; simplify_eq; by rewrite (panic_plain w k) by (done || plain_tac).
Qed.

Lemma load_unopened w k p fd :
  console w k → - 2 ^ 12 ≤ fd < 0 →
  load_opened p (ErrPtr fd) w = Halted (set_host
    (host_calls (panic_calls k "Fail on openning the input application program.") (w_host w)) w).
Proof.
  intros Hk Hfd. unfold load_opened, is_err_value. apply bind_Halted.
  assert (∀ z, - 2 ^ 12 ≤ z < 0 → u64 z = z + 2 ^ 64) as Hu.
  { intros z Hz. unfold u64. symmetry. apply (Z.mod_unique _ _ (-1)); lia. }
  rewrite !Hu, Z.geb_leb, (proj2 (Z.leb_le _ _)) by lia. apply (panic_refusal w k _ (-1) []); [done|reflexivity].
Qed.

(** Program headers inside the file, and room for the segments, if it is an ELF file at all. *)
Definition headers_inside (m : mem) (file : list Z) : Prop :=
  64 ≤ Z.of_nat (length file) → Z.of_nat (length file) < 2 ^ 63 ∧
    eh_phoff (elf_of file) + 56 * eh_phnum (elf_of file) < 2 ^ 31 ∧
    eh_phoff (elf_of file) + 56 * eh_phnum (elf_of file) ≤ Z.of_nat (length file) ∧
    Forall (seg_ok m) (segments_of file).

(** A command line that names no application. *)
Lemma load_no_application w k p d :
  let w1 := set_mem (write_bytes (w_mem w) arg_area (map u8 d))
    (set_host (host_calls [FeGetmainvars arg_area sizeof_arg_buf] (w_host w)) w) in
  (host_call (FeGetmainvars arg_area sizeof_arg_buf) (w_host w)).1 = FeReply 0 d →
  Z.of_nat (length d) ≤ sizeof_arg_buf → frame (w_mem w) arg_area (Z.to_nat sizeof_arg_buf) →
  word_at (w_mem w1) arg_area = Some 1 → console w k →
  load_bincode_from_host_elf p w = Halted (set_host
    (host_calls (panic_calls k "You need to specify the application program!") (w_host w1)) w1).
Proof.
  intros w1 Hd Hl Hf Hargc Hk. unfold load_bincode_from_host_elf.
  assert (parse_args w = Ret 0 w1) as Hr.
  { rewrite (parse_args_argc w d 1 Hd Hl Hf Hargc).
    by rewrite (bind_Ret _ _ w1 tt w1) by by apply loop_exit. }
  mrun Hr. cbn [Z.eqb when]. apply bind_Halted. unfold panic_calls.
  by rewrite (panic_plain w1 k) by (done || plain_tac).
Qed.

Section refuses.
Context (file : list Z) (fd : Z) (P : H → Prop) `{!FileServer file fd P}.

Lemma elf_load_status w ctx :
  kfd <$> w_files w !! ctx_f ctx = Some fd → P (w_host w) → headers_inside (w_mem w) file →
  64 ≤ Z.of_nat (length file) → ctx_ehdr ctx = elf_of file →
  ∃ h w', elf_load ctx w = Ret (load_segments file (segments_of file) ∅).1 w' ∧ preads fd (w_host w) h ∧
    w_host w' = h ∧ w_files w' = w_files w.
Proof using FileServer0.
  intros Hx HP Hph Hlong Hce. destruct (Hph Hlong) as (Hmax & Hph1 & Hph2 & Hsegs).
  pose proof (fs_bytes (file := file) (fd := fd) (P := P)) as Hb.
  assert (0 ≤ eh_phoff (elf_of file)) by by apply (field_range 8).
  assert (0 ≤ eh_phnum (elf_of file)) by by apply (field_range 2).
  destruct (elf_load_Ret file fd P w ctx) as (h & Hr & Hp); rewrite ?Hce; try (done || lia).
  rewrite Hce in Hr. fold (segments_of file) in Hr. rewrite (load_segments_status _ _ _ ∅) in Hr.
  by eexists h, _.
Qed.

Lemma load_opened_refuses w k p i s :
  P (w_host w) → console w k → kfd <$> w_files w !! i = Some fd → refusal 0 file = Some s → headers_inside (w_mem w) file →
  ∃ cs w', load_opened p (FilePtr i) w = Halted w' ∧ Forall (is_pread fd) cs ∧
    w_host w' = host_calls (cs ++ panic_calls k s) (w_host w).
Proof using FileServer0.
  intros HP Hk Hi Hs Hph. pose proof (λ A v Hv, panic_refusal (A := A) v k s 0 file Hv Hs) as Hpanic.
  unfold refusal in Hs. cbn [Z.ltb Z.compare] in Hs. unfold load_opened. cbn [is_err_value when file_of of_option].
  destruct (elf_init_Ret file fd P w i p Hi HP) as (h1 & ctx & Hr1 & Hp1 & Hcf & _ & Hce).
  destruct (Z.ltb_spec (Z.of_nat (length file)) 64) as [Hshort|Hlong]; cbn [orb] in Hs;
    [|destruct (Z.eqb_spec (field 4 0 file) ELF_MAGIC) as [Hmagic|Hmagic]; cbn [negb] in Hs].
  2:{ destruct (elf_load_status (set_host h1 w) ctx) as (h2 & w2 & Hr2 & Hp2 & Hh2 & Hf2);
        [by rewrite Hcf|by eapply preads_serve|done|done|by apply Hce|].
      case_decide as Hld; [done|]. injection Hs as <-. destruct Hp1 as (cs1 & ? & ->), Hp2 as (cs2 & ? & Hh).
      eexists (cs1 ++ cs2), _. split_and!.
      - rewrite !mret_bind. mrun Hr1. cbn iota beta. rewrite bool_decide_eq_true_2 by done.
        cbn [negb when]. rewrite mret_bind. mrun Hr2. rewrite bool_decide_eq_false_2 by done. cbn [negb when].
        apply bind_Halted, Hpanic. unfold console. by rewrite Hf2.
      - by apply Forall_app.
      - cbn [w_host set_host]. rewrite Hh2, Hh. cbn [w_host set_host]. by rewrite !host_calls_app. }
  all: injection Hs as <-; destruct Hp1 as (cs1 & ? & ->); eexists cs1, _; split_and!; [|done|].
  all: try (rewrite !mret_bind; mrun Hr1; cbn iota beta; rewrite bool_decide_eq_false_2 by done;
    cbn [negb when]; apply bind_Halted, Hpanic; exact Hk).
  all: cbn [w_host set_host]; by rewrite host_calls_app.
Qed.
End refuses.

Lemma load_bincode_Halted file args path fd (Q P : H → Prop)
    `{!ArgsHost args Q} `{!OpenHost path fd Q P} `{!FileServer file fd P} w k p tf i argc argv0 K fd' s :
  Q (w_host w) → load_ready w k p tf i fd' K →
  command_line (write_bytes (w_mem w) arg_area (map u8 args)) argc argv0 path →
  Z.of_nat (length path) < 2 ^ 30 →
  refusal fd file = Some s → headers_inside (w_mem w) file →
  ∃ cs w', load_bincode_from_host_elf p w = Halted w' ∧ Forall (is_pread fd) cs ∧
    w_host w' = host_calls (open_calls k path ++ cs ++ panic_calls k s) (w_host w).
Proof.
  intros HQ Hrd Hcl Hplen Hs Hph. pose proof (oh_range (Q := Q) (P := P)) as Hfd.
  destruct (load_begins args path fd Q P w k p tf i argc argv0 K fd' HQ Hrd Hcl Hplen)
    as (m2 & x & Hff & Hag & Hl2 & HP3 & ->).
  destruct Hrd as [(y & Hy & Hky) _ _ _ Hi3 _ _ _ _].
  assert (i < length (w_files w))%nat as Hi by (by apply first_free_Some in Hff as [?%lookup_lt_Some _]).
  set (w3 := set_files _ _) in *.
  assert (console w3 k) as Hk3 by (exists y; split; [by cbn; rewrite list_lookup_insert_ne|done]).
  assert (headers_inside (w_mem w3) file) as Hph3.
  { intros Hlong. destruct (Hph Hlong) as (? & ? & ? & Hsg). split_and!; [done..|].
    eapply Forall_impl; [exact Hsg|]. intros ph Hok Ht. destruct (Hok Ht) as [? ?]. split; [done|by apply Hag]. }
  assert ((opened_file i fd x).1 = if 0 <=? fd then FilePtr i else ErrPtr fd) as ->
    by (unfold opened_file; rewrite Z.geb_leb; by destruct (0 <=? fd)).
  destruct (Z.leb_spec 0 fd) as [Hpos|Hneg].
  - destruct (load_opened_refuses file fd P w3 k p i s) as (cs & w' & Hr & Hcs & Hh); try done.
    + by apply HP3.
    + cbn [w3 w_files set_files]. rewrite list_lookup_insert_eq by done. unfold opened_file.
      rewrite Z.geb_leb, (proj2 (Z.leb_le _ _)), s32_id by lia. done.
    + unfold refusal in *. by rewrite (proj2 (Z.ltb_ge _ _)) in Hs by lia.
    + exists cs, w'. split_and!; [done..|]. rewrite Hh. cbn [w3 w_host set_files set_mem set_host]. by rewrite !host_calls_app.
  - unfold refusal in Hs. rewrite (proj2 (Z.ltb_lt _ _)) in Hs by lia. injection Hs as <-.
    eexists [], _. split; [apply load_unopened; [done|lia]|]. split; [done|].
    cbn [w3 w_host set_files set_mem set_host app]. by rewrite !host_calls_app.
Qed.

(** C13. When loading cannot succeed - the host does not open the path, or the file is too short, no ELF
    file, or has an unsound segment - the kernel stops there: it has printed the path and read, on
    the descriptor of the file, at most; it prints the reason, with an extra newline, and the shutdown notice, and exits with
    code -1. *)
Theorem load_bincode_refuses file args path fd (Q P : H → Prop)
    `{!ArgsHost args Q} `{!OpenHost path fd Q P} `{!FileServer file fd P} w k p tf i argc argv0 K fd' s :
  Q (w_host w) → load_ready w k p tf i fd' K →
  command_line (write_bytes (w_mem w) arg_area (map u8 args)) argc argv0 path →
  Z.of_nat (length path) < 2 ^ 30 →
  refusal fd file = Some s → headers_inside (w_mem w) file →
  ∃ cs w', load_bincode_from_host_elf p w = Halted w' ∧ Forall (is_pread fd) cs ∧
    w_host w' = host_calls (open_calls k path ++ cs ++ panic_calls k s) (w_host w).
Proof. exact (load_bincode_Halted file args path fd Q P w k p tf i argc argv0 K fd' s). Qed.

(** C11. [load_user_symbols] on a file whose section headers lie inside it: it takes the first symbol
    table there is; afterwards [find_symbol_name] finds in the process exactly the entries of that
    section, decoded, and their names where the string table of the file has them.  Without a symbol
    table nothing is loaded.  All the host is asked for are [pread]s on the descriptor of the file. *)
Theorem load_user_symbols_spec file fd (P : H → Prop) `{!FileServer file fd P} w loader :
  let eh := ctx_ehdr loader in let p := ctx_p loader in
  kfd <$> w_files w !! ctx_f loader = Some fd → P (w_host w) → Z.of_nat (length file) < 2 ^ 63 →
  0 ≤ eh_shnum eh → sections_ok file eh → mapped (w_mem w) p (Z.to_nat sizeof_process) →
  ∃ w', load_user_symbols loader w = Ret tt w' ∧ preads fd (w_host w) (w_host w') ∧
    match the_symtab file eh with
    | None => w_mem w' = w_mem w
    | Some sym =>
        let str := string_section file eh sym in
        sh_size sym ≤ sizeof_elf_symbol * MAX_USER_SYMS →
        symtab_at (w_mem w') p (file_symbols file sym) (sh_size str) ∧
        ∀ off n, 0 ≤ off → off + Z.of_nat (length n) < sh_size str → Forall (λ c, c ≠ 0) n →
          slice file (sh_off str + off) (Z.of_nat (length n) + 1) = n ++ [0] →
          cstr (w_mem w') (p + proc_strtab + off) n
    end.
Proof.
  intros eh p Hx HP Hmax Hn Hsec Hm.
  destruct (load_user_symbols_Ret file fd P w loader Hx HP Hmax Hn Hsec Hm) as (h & Hr & Hp).
  eexists. split; [exact Hr|]. split; [exact Hp|]. cbn [w_mem set_mem]. unfold symbols_mem. fold eh.
  destruct Hsec as [_ Ht]. fold eh in Ht. destruct (the_symtab file eh) as [sym|]; [|done].
  destruct (Ht sym eq_refl) as [_ Hsym Hstr _ _ Hsz]. cbv zeta. intros Hc. split.
  - by apply tables_symtab_at.
  - intros off n. by apply tables_name.
Qed.

(** C8. The whole of loading, from a host with an application: when the file is sound and its
    segments stay out of the kernel's memory, [load_bincode_from_host_elf] returns; the memory holds
    the segments, the symbols and, in the trap frame, the entry point of the file, and is otherwise
    as it was, but for the argument buffer; the host is asked for the command line, to print the
    path, to open it, for [pread]s on the descriptor it opened it with, and to print the entry point,
    in that order, and for nothing else: the file is not closed, and its slot keeps two references. *)
Theorem load_bincode_spec file args path fd (Q P : H → Prop) `{!AppHost file args path fd Q P} w k p tf i argc argv0 K :
  Q (w_host w) → load_ready w k p tf i fd K →
  command_line (write_bytes (w_mem w) arg_area (map u8 args)) argc argv0 path →
  Z.of_nat (length path) < 2 ^ 30 → app_file (w_mem w) file K →
  ∃ m2 cs w', load_bincode_from_host_elf p w = Ret tt w' ∧ args_only (w_mem w) m2 ∧
    w_mem w' = app_image file m2 p tf ∧ w_files w' = <[i := SpikeFile fd 2]> (w_files w) ∧
    Forall (is_pread fd) cs ∧ w_host w' = host_calls (load_calls k path (eh_entry (elf_of file)) cs) (w_host w).
Proof. by eapply load_bincode_Ret. Qed.
End whole.

(** * Instances *)
Import SampleMachine.

(** The file of Elf.v on the machine of Kernel.v. *)
Definition sample_args : list Z := fe_data (sample_reply (FeGetmainvars arg_area sizeof_arg_buf) (SampleHost [] [])).
Lemma sample_app_host file :
  forallb byteb file = true → AppHost file sample_args (bytes "app") 3 (sample_closed file) (sample_open file).
Proof.
  intros Hb. split; [|split|by apply file_served|by vm_compute].
  - split; [done|by vm_compute|]. intros h [] [Hf Ho] Hc; try done.
    all: split; [exact Hf|]; cbn [host_call host snd sh_log]; by rewrite sample_opened_snoc, Ho.
  - intros h [Hf Ho]. cbn. by rewrite Ho.
  - intros h [Hf Ho] _. split; [exact Hf|]. cbn [host_call host snd sh_log]. by rewrite sample_opened_snoc.
  - done.
Qed.
#[export] Instance sample_app : AppHost sample_elf sample_args (bytes "app") 3 (sample_closed sample_elf) (sample_open sample_elf).
Proof. apply sample_app_host. vm_compute. reflexivity. Qed.
Definition load_start : world sample_host := before_loading boot_world 2.
Definition sample_owned (a : Z) : Prop :=
  USER_TRAP_FRAME ≤ a < USER_TRAP_FRAME + sizeof_trapframe ∨ addr_user_app ≤ a < addr_user_app + sizeof_process.

Lemma sample_sections : sections_ok sample_elf (elf_of sample_elf).
Proof.
  split.
  - intros idx Hi. change (eh_shnum (elf_of sample_elf)) with 2 in Hi. unfold section_ok.
    change (eh_shoff (elf_of sample_elf)) with 128. change (eh_shentsize (elf_of sample_elf)) with 64.
    change (length sample_elf) with 286%nat. lia.
  - intros sym Hs. assert (the_symtab sample_elf (elf_of sample_elf) =
      Some (section_header sample_elf (elf_of sample_elf) 0)) as He by by vm_compute.
    rewrite Hs in He. injection He as ->.
    split; [split_and!; vm_compute; (reflexivity || discriminate)|split_and!; vm_compute; (reflexivity || discriminate)
      |split_and!; vm_compute; (reflexivity || discriminate)|by vm_compute|by vm_compute|by vm_compute].
Qed.
Lemma sample_app_file m K :
  mapped m 0x81000000 8 → (∀ a, 0x81000000 ≤ a < 0x81000008 → ¬ K a) → app_file m sample_elf K.
Proof.
  intros Hm HK.
  assert (Forall (λ ph, ph_off ph = 120 ∧ ph_vaddr ph = 0x81000000 ∧ ph_memsz ph = 8) (segments_of sample_elf)) as Hphs.
  { vm_compute. repeat constructor. }
  split; [by vm_compute|by vm_compute|by vm_compute| | |apply sample_sections|].
  - eapply Forall_impl; [exact Hphs|]. intros ph (Ho & Hv & Hms) _. by rewrite Ho, Hv, Hms.
  - rewrite (load_segments_status _ _ m ∅). by vm_compute.
  - eapply Forall_impl; [exact Hphs|]. intros ph (Ho & Hv & Hms) _. rewrite Hv, Hms. exact HK.
Qed.

Lemma load_user_symbols_spec_witness :
  let eh := ctx_ehdr sample_ctx in let p := ctx_p sample_ctx in
  the_symtab sample_elf eh = Some (section_header sample_elf eh 0) ∧
  ∃ w', load_user_symbols sample_ctx load_world = Ret tt w' ∧ preads 3 (w_host load_world) (w_host w') ∧
    match the_symtab sample_elf eh with
    | None => w_mem w' = w_mem load_world
    | Some sym =>
        let str := string_section sample_elf eh sym in
        sh_size sym ≤ sizeof_elf_symbol * MAX_USER_SYMS →
        symtab_at (w_mem w') p (file_symbols sample_elf sym) (sh_size str) ∧
        ∀ off n, 0 ≤ off → off + Z.of_nat (length n) < sh_size str → Forall (λ c, c ≠ 0) n →
          slice sample_elf (sh_off str + off) (Z.of_nat (length n) + 1) = n ++ [0] →
          cstr (w_mem w') (p + proc_strtab + off) n
    end.
Proof.
  intros eh p. split; [by vm_compute|].
  apply (load_user_symbols_spec sample_elf 3 (sample_open sample_elf) load_world sample_ctx);
    [reflexivity|by split|by vm_compute|by vm_compute|exact sample_sections|].
  apply mapped_write_bytes.
  rewrite <- (length_replicate (Z.to_nat sizeof_process) 0) at 2. apply mapped_written.
Defined.

Lemma sample_load_ready : load_ready load_start 2 addr_user_app USER_TRAP_FRAME 3 3 sample_owned.
Proof.
  split.
  - apply sample_console.
  - apply fresh_layout, boot_room.
  - by vm_compute.
  - eexists. by vm_compute.
  - discriminate.
  - exists None. by vm_compute.
  - apply frame_b_true; [done|]. vm_compute. reflexivity.
  - intros a Ha. exact Ha.
  - intros a. unfold sample_owned. change arg_area with 0x811ffa00. change sizeof_arg_buf with 512.
    change addr_user_app with 0x80020000. change sizeof_process with 20512.
    unfold USER_TRAP_FRAME, sizeof_trapframe. lia.
Qed.
Lemma sample_command_line :
  command_line (write_bytes (w_mem load_start) arg_area (map u8 sample_args)) 2 (arg_area + 24) (bytes "app").
Proof.
  split; [vm_compute; reflexivity|by split|vm_compute; reflexivity| |right; change arg_area with 0x811ffa00; lia].
  apply cstr_bytes; [vm_compute; reflexivity|vm_compute; repeat constructor; discriminate].
Qed.
Lemma load_start_segment : mapped (w_mem load_start) 0x81000000 8.
Proof. apply read_bytes_is_Some. eexists. vm_compute. reflexivity. Qed.

Lemma load_bincode_spec_witness :
  ∃ m2 cs w', load_bincode_from_host_elf addr_user_app load_start = Ret tt w' ∧ args_only (w_mem load_start) m2 ∧
    w_mem w' = app_image sample_elf m2 addr_user_app USER_TRAP_FRAME ∧
    w_files w' = <[3%nat := SpikeFile 3 2]> (w_files load_start) ∧ Forall (is_pread 3) cs ∧
    w_host w' = host_calls (load_calls 2 (bytes "app") (eh_entry (elf_of sample_elf)) cs) (w_host load_start).
Proof.
  apply (load_bincode_spec sample_elf sample_args (bytes "app") 3 (sample_closed sample_elf) (sample_open sample_elf) load_start 2
    addr_user_app USER_TRAP_FRAME 3 2 (arg_area + 24) sample_owned);
    [by split|apply sample_load_ready|apply sample_command_line|reflexivity|].
  apply sample_app_file; [apply load_start_segment|]. intros a Ha. unfold sample_owned.
  change addr_user_app with 0x80020000. change sizeof_process with 20512.
  unfold USER_TRAP_FRAME, sizeof_trapframe. lia.
Defined.

(** A file that is no ELF file, on the same machine. *)
Definition text_file : list Z := bytes "hello".
#[export] Instance text_app : AppHost text_file sample_args (bytes "app") 3 (sample_closed text_file) (sample_open text_file).
Proof. apply sample_app_host. vm_compute. reflexivity. Qed.
Definition text_start : world sample_host := set_host (SampleHost [] text_file) load_start.

Lemma load_bincode_refuses_witness :
  refusal 3 text_file = Some "fail to init elfloader."%string ∧
  ∃ cs w', load_bincode_from_host_elf addr_user_app text_start = Halted w' ∧ Forall (is_pread 3) cs ∧
    w_host w' = host_calls (open_calls 2 (bytes "app") ++ cs ++ panic_calls 2 "fail to init elfloader.") (w_host text_start).
Proof.
  split; [by vm_compute|].
  apply (load_bincode_refuses text_file sample_args (bytes "app") 3 (sample_closed text_file) (sample_open text_file) text_start 2
    addr_user_app USER_TRAP_FRAME 3 2 (arg_area + 24) sample_owned 3);
    [by split|apply load_ready_host, sample_load_ready|apply sample_command_line|reflexivity
    |by vm_compute|].
  intros Hl. change (Z.of_nat (length text_file)) with 5 in Hl. lia.
Defined.
