(* ===== verification/SpikeMemory.v ===== *)
(** The size of the emulated memory: spike_interface/spike_memory.c, a client of the device tree
    scan of Dts.v.  The local [struct mem_scan] that [query_mem] leaves uninitialised is an
    argument of the definition. *)
From S2P Require Import Prelude Mem CString Snprintf World Sample SpikeUtils Dts.

Record mem_scan := MemScan { memory : Z; reg_value : Z; reg_len : Z }.

Section client.
Context {H : Type} `{HH : Host H} `{PP : Platform}.

Definition mem_open (node : fdt_scan_node) (scan : mem_scan) : M (world H) mem_scan :=
  mret (MemScan 0 0 0).

Definition mem_prop (prop : fdt_scan_prop) (scan : mem_scan) : M (world H) mem_scan :=
  d ← is_lit (prop_name prop) "device_type";
  b ← (if (d : bool) then is_lit (prop_value prop) "memory" else mret false);
  if (b : bool) then mret (MemScan 1 (reg_value scan) (reg_len scan))
  else
    r ← is_lit (prop_name prop) "reg";
    if (r : bool) then mret (MemScan (memory scan) (prop_value prop) (prop_len prop)) else mret scan.

(** One round of the loop over the regions; it yields the next [value]. *)
Definition mem_region (parent : fdt_scan_node) (value : Z) : M (world H) Z :=
  let self := addr_mem_done in
  '(base, value) ← fdt_get_address parent value;
  '(size, value) ← fdt_get_size parent value;
  when ((base <=? self) && (self <=? u64 (base + size))) (modify (set_mem_size size));;
  mret value.

(** [end - value] is a difference of pointers to [uint32]. *)
Definition mem_regions (fuel : nat) (parent : fdt_scan_node) (value stop : Z) : M (world H) Z :=
  loop fuel (λ value,
    if Z.quot (stop - value) 4 >? 0 then value ← mem_region parent value; mret (inl value)
    else mret (inr value)) value.

Definition mem_done (node : fdt_scan_node) (scan : mem_scan) : M (world H) mem_scan :=
  let value := reg_value scan in
  let stop := value + 4 * Z.quot (reg_len scan) 4 in
  if negb (truthy (memory scan)) then mret scan
  else
    assert_at "spike_interface/spike_memory.c" 41
      (truthy (reg_value scan) && (Z.rem (reg_len scan) 4 =? 0))
      "scan->reg_value && scan->reg_len % 4 == 0";;
    value ← mem_regions (S (Z.to_nat (reg_len scan))) (tail node) value stop;
    assert_at "spike_interface/spike_memory.c" 51 (stop =? value) "end == value";;
    mret scan.

Definition mem_cb : fdt_cb H mem_scan := FdtCb _ _ (Some mem_open) (Some mem_prop) (Some mem_done) None.

Definition query_mem (garbage : mem_scan) (fdt : Z) : M (world H) () :=
  modify (set_mem_size 0);;
  fdt_scan fdt mem_cb garbage;;
  g ← gets w_mem_size;
  assert_at "spike_interface/spike_memory.c" 67 (g >? 0) "g_mem_size > 0".
End client.

(** * What the tree says of the memory *)

(** A node is memory when its [device_type] says so. *)
Definition is_memory (vs : list (list Z * list Z)) : bool :=
  existsb (λ '(n, v), bool_decide (n = bytes "device_type") &&
                      bool_decide (first_string v = bytes "memory")) vs.
(** The regions of [k] pairs of [a] address cells and [s] size cells. *)
Fixpoint regions (k a s : nat) (v : list Z) : list (Z * Z) :=
  match k with
  | O => []
  | S k =>
      (u64 (be_val (take (4 * a) v)), u64 (be_val (take (4 * s) (drop (4 * a) v)))) ::
      regions k a s (drop (4 * (a + s)) v)
  end.
(** The size is that of the last region that holds the kernel, the end of a region included. *)
Definition pick (self g : Z) (r : Z * Z) : Z :=
  if (r.1 <=? self) && (self <=? u64 (r.1 + r.2)) then r.2 else g.

(** The last [reg] property of a visit, with its address. *)
Definition reg_of (ls : list located) (d : option (Z * list Z)) : option (Z * list Z) :=
  foldl (λ d l, if decide (l_name l = bytes "reg") then Some (prop_value (l_prop l), l_value l) else d)
    d ls.
(** A visit of a memory node the code handles: there is a parent, its counts are not both zero,
    and the value of [reg], which is there, is made of [k] pairs. *)
Definition memory_visit (v : visit) (k a s : nat) (r : Z * list Z) : Prop :=
  (∃ c up, tail (v_node v) = c :: up ∧ address_cells c = Z.of_nat a ∧ size_cells c = Z.of_nat s) ∧
  (0 < a + s)%nat ∧ reg_of (v_props v) None = Some r ∧ r.1 ≠ 0 ∧
  length r.2 = (k * (4 * (a + s)))%nat.
(** The regions of a visit, by the counts of the node above. *)
Definition visit_regions (v : visit) : list (Z * Z) :=
  match is_memory (v_values v), tail (v_node v), reg_of (v_props v) None with
  | true, c :: _, Some (_, r) =>
      let a := Z.to_nat (address_cells c) in
      let s := Z.to_nat (size_cells c) in
      regions (length r / (4 * (a + s)))%nat a s r
  | _, _, _ => []
  end.
(** A [device_type] is a string. *)
Definition typed (v : visit) : Prop :=
  Forall (λ l, l_name l = bytes "device_type" → 0 ∈ l_value l) (v_props v).

Section specs.
Context {H : Type} `{HH : Host H} `{PP : Platform}.
Implicit Types w : world H.
Context (m : mem) (Hwf : mem_wf m).

Lemma mem_region_Ret c up value bs a s w :
  w_mem w = m → address_cells c = Z.of_nat a → size_cells c = Z.of_nat s →
  bytes_at m value bs → length bs = (4 * (a + s))%nat →
  let b := u64 (be_val (take (4 * a) bs)) in
  let z := u64 (be_val (drop (4 * a) bs)) in
  mem_region (c :: up) value w =
    Ret (value + zlen bs) (set_mem_size (pick addr_mem_done (w_mem_size w) (b, z)) w).
Proof.
  intros Hm Ha Hs Hb Hl b z. rewrite <- (take_drop (4 * a) bs) in Hb. apply bytes_at_app in Hb as [H1 H2].
  assert (zlen (take (4 * a) bs) = 4 * Z.of_nat a) as Ht by (unfold zlen; rewrite length_take_le; lia).
  assert (zlen (drop (4 * a) bs) = 4 * Z.of_nat s) as Hd by (unfold zlen; rewrite length_drop; lia).
  unfold mem_region, fdt_get_address, fdt_get_size. rewrite Ha, Hs.
  mrun (get_cells_Ret (Z.of_nat a) value _ w ltac:(by rewrite Hm) ltac:(lia) Ht ltac:(by rewrite Hm)).
  rewrite Ht in H2.
  mrun (get_cells_Ret (Z.of_nat s) _ _ w ltac:(by rewrite Hm) ltac:(lia) Hd ltac:(by rewrite Hm)).
  replace (value + 4 * Z.of_nat a + 4 * Z.of_nat s) with (value + zlen bs) by (unfold zlen; lia).
  unfold pick. cbn [fst snd]. fold b z. destruct (_ && _); [done|]. by destruct w.
Qed.

Lemma mem_regions_Ret fuel c up value bs k a s w :
  w_mem w = m → address_cells c = Z.of_nat a → size_cells c = Z.of_nat s → (0 < a + s)%nat →
  bytes_at m value bs → length bs = (k * (4 * (a + s)))%nat → (k < fuel)%nat →
  mem_regions fuel (c :: up) value (value + zlen bs) w =
    Ret (value + zlen bs)
      (set_mem_size (foldl (pick addr_mem_done) (w_mem_size w) (regions k a s bs)) w).
Proof.
  intros Hm Ha Hs Hpos. revert fuel value bs w Hm.
  induction k as [|k IH]; intros fuel value bs w Hm Hb Hl Hf; (destruct fuel as [|fuel]; [lia|]).
  - destruct bs; [|simpl in Hl; lia]. apply loop_exit. change (zlen []) with 0.
    rewrite Z.add_0_r, Z.sub_diag. cbn. by destruct w.
  - set (n := (4 * (a + s))%nat) in *. rewrite <- (take_drop n bs) in Hb.
    apply bytes_at_app in Hb as [H1 H2].
    assert (length (take n bs) = n) as Ht by (rewrite length_take_le; lia).
    assert (zlen (take n bs) = Z.of_nat n) as Hzt by (unfold zlen; by rewrite Ht).
    assert (zlen bs = Z.of_nat n + zlen (drop n bs)) as Hz by (unfold zlen; rewrite length_drop; lia).
    unfold mem_regions. erewrite loop_step.
    2:{ rewrite Z.quot_div_nonneg by (unfold zlen; lia).
        rewrite Z.gtb_ltb, (proj2 (Z.ltb_lt _ _)).
        2:{ apply Z.div_str_pos. unfold zlen. lia. }
        by mrun (mem_region_Ret c up value _ a s w Hm Ha Hs H1 Ht). }
    rewrite Hzt in *. fold (mem_regions (H := H) fuel (c :: up) (value + Z.of_nat n) (value + zlen bs)).
    rewrite Hz, Z.add_assoc.
    rewrite (IH fuel _ (drop n bs)); [|done|done|rewrite length_drop; lia|lia].
    cbn [foldl regions w_mem_size set_mem_size]. fold n.
    assert (take (4 * a) (take n bs) = take (4 * a) bs) as ->
      by (rewrite take_take; f_equal; lia).
    assert (drop (4 * a) (take n bs) = take (4 * s) (drop (4 * a) bs)) as ->
      by (rewrite skipn_firstn_comm; f_equal; lia).
    done.
Qed.

Lemma typed_memory l :
  located_ok m l → (l_name l = bytes "device_type" → 0 ∈ l_value l) →
  cstr m (addr_lit "device_type") (bytes "device_type") →
  cstr m (addr_lit "memory") (bytes "memory") → cstr m (addr_lit "reg") (bytes "reg") →
  ∀ scan w, w_mem w = m → mem_prop (l_prop l) scan w =
    Ret (MemScan
      (if bool_decide (l_name l = bytes "device_type") && bool_decide (first_string (l_value l) = bytes "memory")
       then 1 else memory scan)
      (if decide (l_name l = bytes "reg") then prop_value (l_prop l) else reg_value scan)
      (if decide (l_name l = bytes "reg") then prop_len (l_prop l) else reg_len scan)) w.
Proof.
  intros (Hn & Hv & _) Ht Hd Hme Hr scan w Hw. unfold mem_prop.
  assert (∀ p s n, cstr m p n → cstr m (addr_lit s) (bytes s) →
    is_lit p s w = Ret (bool_decide (n = bytes s)) w) as Hlit
    by (intros; apply is_lit_Ret; by rewrite Hw).
  mrun (Hlit _ "device_type"%string _ Hn Hd).
  destruct (decide (l_name l = bytes "device_type")) as [Hdt|Hdt].
  - rewrite bool_decide_true by done.
    mrun (Hlit _ "memory"%string _ (cstr_first_string _ _ _ Hv (Ht Hdt)) Hme).
    rewrite decide_False, decide_False by (rewrite Hdt; discriminate). cbn [andb].
    destruct (bool_decide (first_string _ = _)); [done|].
    mrun (Hlit _ "reg"%string _ Hn Hr). rewrite bool_decide_false by (rewrite Hdt; discriminate).
    by destruct scan.
  - rewrite bool_decide_false, mret_bind by done. cbn [andb].
    mrun (Hlit _ "reg"%string _ Hn Hr). destruct (decide (l_name l = bytes "reg")).
    + by rewrite bool_decide_true.
    + rewrite bool_decide_false by done. by destruct scan.
Qed.

(** The literals the callbacks and the scan compare with. *)
Record mem_lits : Prop := {
  ml_address : cstr m (addr_lit "#address-cells") (bytes "#address-cells");
  ml_size : cstr m (addr_lit "#size-cells") (bytes "#size-cells");
  ml_device : cstr m (addr_lit "device_type") (bytes "device_type");
  ml_memory : cstr m (addr_lit "memory") (bytes "memory");
  ml_reg : cstr m (addr_lit "reg") (bytes "reg");
}.
Context (L : mem_lits).

Definition scan_of (b : bool) (d : option (Z * list Z)) : mem_scan :=
  MemScan (if b then 1 else 0) (from_option fst 0 d) (from_option (λ r, zlen r.2) 0 d).

Lemma run_props_mem ls b d w :
  Forall (located_ok m) ls → Forall (λ l, l_name l = bytes "device_type" → 0 ∈ l_value l) ls →
  w_mem w = m →
  run_props mem_cb ls (scan_of b d) w =
    Ret (scan_of (b || is_memory (map (λ l, (l_name l, l_value l)) ls)) (reg_of ls d)) w.
Proof.
  intros Hok. revert b d. induction Hok as [|l ls Hl _ IH]; intros b d Ht Hm.
  - cbn. by rewrite orb_false_r.
  - apply Forall_cons in Ht as [Htl Ht]. cbn [run_props]. unfold call_prop. cbn [mem_cb cb_prop].
    mrun (typed_memory l Hl Htl (ml_device L) (ml_memory L) (ml_reg L) (scan_of b d) w Hm).
    cbn [reg_of foldl map is_memory existsb]. destruct Hl as (_ & _ & Hlen & _).
    set (here := bool_decide (l_name l = _) && _).
    rewrite orb_assoc.
    set (d' := if decide (l_name l = bytes "reg") then Some (prop_value (l_prop l), l_value l) else d).
    replace (MemScan _ _ _) with (scan_of (b || here) d'); [by apply IH|].
    unfold scan_of, d'. cbn [memory reg_value reg_len].
    destruct (decide (l_name l = bytes "reg")); cbn [from_option fst snd]; rewrite ?Hlen; f_equal;
      by destruct here, b.
Qed.

(** A visit that is not of memory, or is of memory the code handles. *)
Definition fine_visit (v : visit) : Prop :=
  visit_ok m v ∧ typed v ∧
  (is_memory (v_values v) = true → ∃ k a s r, memory_visit v k a s r).
Definition mem_step (v : visit) (w : world H) : world H :=
  set_mem_size (foldl (pick addr_mem_done) (w_mem_size w) (visit_regions v)) w.

Lemma reg_of_located ls d r :
  Forall (located_ok m) ls → reg_of ls d = Some r →
  Some r = d ∨ bytes_at m r.1 r.2.
Proof.
  intros Hok. revert d. induction Hok as [|l ls (_ & Hv & _) _ IH]; intros d Hr; [by left|].
  cbn [reg_of foldl] in Hr. destruct (IH _ Hr) as [Hd|Hb]; [|by right].
  case_decide; [|by left]. injection Hd as ->. by right.
Qed.

Lemma mem_done_Ret v w :
  fine_visit v → w_mem w = m →
  mem_done (v_node v) (scan_of (is_memory (v_values v)) (reg_of (v_props v) None)) w =
    Ret (scan_of (is_memory (v_values v)) (reg_of (v_props v) None)) (mem_step v w).
Proof.
  intros (Hok & _ & Hmv) Hm. unfold mem_done, mem_step, visit_regions.
  destruct (is_memory (v_values v)); [|by destruct w].
  destruct (Hmv eq_refl) as (k & a & s & r & (c & up & Htl & Ha & Hs) & Hpos & Hr & Hr0 & Hl).
  rewrite Htl, Hr. destruct (reg_of_located _ _ _ Hok Hr) as [?|Hb]; [done|].
  destruct r as [p bs]. cbn [fst snd scan_of from_option memory reg_value reg_len] in *.
  cbn [truthy Z.eqb negb].
  assert (zlen bs = 4 * Z.of_nat (k * (a + s))) as Hz by (unfold zlen; lia).
  assert (4 * Z.quot (zlen bs) 4 = zlen bs) as ->
    by (rewrite Hz, (Z.mul_comm 4 (Z.of_nat _)), Z.quot_mul by done; lia).
  assert (truthy p && (Z.rem (zlen bs) 4 =? 0) = true) as Hass.
  { rewrite Hz, Z.mul_comm, Z.rem_mul by done. unfold truthy. by rewrite (proj2 (Z.eqb_neq _ _)). }
  rewrite Hass. cbn [assert_at]. rewrite mret_bind.
  assert (k < S (Z.to_nat (zlen bs)))%nat as Hk by nia.
  mrun (mem_regions_Ret _ c up p bs k a s w Hm Ha Hs Hpos Hb Hl Hk).
  rewrite Z.eqb_refl. cbn [assert_at]. rewrite mret_bind. do 3 f_equal.
  rewrite Ha, Hs, !Nat2Z.id, Hl, Nat.div_mul by lia. done.
Qed.

Lemma run_visit_mem v x w :
  fine_visit v → w_mem w = m → ∃ x', run_visit mem_cb v x w = Ret x' (mem_step v w).
Proof.
  intros Hv Hm. destruct (id Hv) as (Hok & Ht & _).
  exists (scan_of (is_memory (v_values v)) (reg_of (v_props v) None)).
  unfold run_visit. cbn [mem_cb cb_open cb_done opt_call]. unfold mem_open. rewrite mret_bind.
  mrun (run_props_mem (v_props v) false None w Hok Ht Hm). by apply mem_done_Ret.
Qed.
End specs.

Section query.
Context {H : Type} `{HH : Host H} `{PP : Platform}.
Implicit Types w : world H.
Context (m : mem).

Lemma get_cells_keeps (P : world H → Prop) n value : keeps P (get_cells n value).
Proof.
  apply keeps_loop. intros [[c v] r]. apply keeps_if; [|apply keeps_ret].
  apply keeps_bind; [|keeps_tac]. apply keeps_bind; [|keeps_tac]. apply reads_zoom, load32_reads.
Qed.
Lemma is_lit_keeps (P : world H → Prop) p s : keeps P (is_lit p s).
Proof. apply keeps_bind; [|keeps_tac]. apply reads_zoom, strcmp_reads. Qed.

(** The callbacks leave the memory alone. *)
Lemma mem_region_keeps parent value : keeps (λ w, w_mem w = m) (mem_region parent value).
Proof.
  unfold mem_region, fdt_get_address, fdt_get_size. destruct parent; [apply keeps_fault|].
  apply keeps_bind; [apply get_cells_keeps|]. intros [b v].
  apply keeps_bind; [apply get_cells_keeps|]. intros [z v'].
  apply keeps_bind; [|keeps_tac]. by apply keeps_when, keeps_modify.
Qed.
Lemma mem_done_keeps node scan : keeps (λ w, w_mem w = m) (mem_done node scan).
Proof.
  assert (host_blind (H := H) (λ w, w_mem w = m)) as Hb by (by intros h w).

  unfold mem_done. apply keeps_if; [apply keeps_ret|].
  apply keeps_bind; [by apply assert_at_keeps|]. intros _.
  apply keeps_bind.
  - apply keeps_loop. intros v. apply keeps_if; [|apply keeps_ret].
    apply keeps_bind; [apply mem_region_keeps|keeps_tac].
  - intros v. apply keeps_bind; [by apply assert_at_keeps|keeps_tac].
Qed.
Lemma mem_prop_keeps p scan : keeps (λ w, w_mem w = m) (mem_prop p scan).
Proof.
  apply keeps_bind; [apply is_lit_keeps|]. intros d. apply keeps_bind.
  - apply keeps_if; [apply is_lit_keeps|apply keeps_ret].
  - intros b. apply keeps_if; [apply keeps_ret|]. apply keeps_bind; [apply is_lit_keeps|keeps_tac].
Qed.
Lemma mem_env : mem_wf m → mem_lits m → scan_env m (mem_cb (H := H)).
Proof.
  intros Hwf L. split; try apply L; try done.
  - intros n x. apply keeps_ret.
  - intros p x. apply mem_prop_keeps.
  - intros n x. apply mem_done_keeps.
Qed.

Lemma mem_steps_foldl vs w :
  foldl (λ w v, mem_step v w) w vs =
    set_mem_size (foldl (pick addr_mem_done) (w_mem_size w) (concat (map visit_regions vs))) w.
Proof.
  revert w. induction vs as [|v vs IH]; intros w; [by destruct w|].
  cbn [foldl map concat]. by rewrite IH, foldl_app.
Qed.

Lemma query_mem_Ret fdt strings struct t garbage w :
  let vs := (visits strings struct [] default_cells t).1 in
  mem_wf m → mem_lits m → fdt_blob m fdt strings struct t → w_mem w = m →
  Forall typed vs →
  (∀ v, v ∈ vs → is_memory (v_values v) = true → ∃ k a s r, memory_visit v k a s r) →
  let g := foldl (pick addr_mem_done) 0 (concat (map visit_regions vs)) in
  query_mem garbage fdt w =
    assert_at "spike_interface/spike_memory.c" 67 (g >? 0) "g_mem_size > 0" (set_mem_size g w).
Proof.
  intros vs Hwf L Hblob Hm Hty Hmv g. unfold query_mem.
  rewrite (bind_Ret _ _ w tt (set_mem_size 0 w)) by done.
  assert (Forall (visit_ok m) vs) as Hok.
  { apply visits_ok; [|apply (fb_ok _ _ _ _ _ Hblob)].
    by destruct (proj1 (bytes_at_app _ _ _ _) (fb_tree _ _ _ _ _ Hblob)). }
  rewrite (bind_head _ _ _ _ (fdt_scan_blob m strings struct mem_cb fdt t (set_mem_size 0 w) garbage
    (mem_env Hwf L) Hblob Hm)). fold vs.
  destruct (run_visits_foldl m mem_cb mem_step vs garbage (set_mem_size 0 w)) as [x' Hr]; [|done|].
  - intros v x w' Hv Hm'. split; [done|]. apply (run_visit_mem m Hwf L); [|done].
    rewrite Forall_forall in Hok, Hty. split_and!; auto.
  - mrun Hr. rewrite mem_steps_foldl. cbn [w_mem_size set_mem_size]. fold g. done.
Qed.

(** C23. The memory size the kernel works with, on a blob whose memory nodes are well formed, is
    the size of the last region, in the order of the tree, that holds the kernel's own code
    ([mem_done] itself); addresses and sizes are read with the cell counts of the node above.
    When there is none the assertion on it fails. *)
Theorem query_mem_spec fdt strings struct t garbage w :
  let vs := (visits strings struct [] default_cells t).1 in
  mem_wf m → mem_lits m → fdt_blob m fdt strings struct t → w_mem w = m →
  Forall typed vs →
  (∀ v, v ∈ vs → is_memory (v_values v) = true → ∃ k a s r, memory_visit v k a s r) →
  let g := foldl (pick addr_mem_done) 0 (concat (map visit_regions vs)) in
  query_mem garbage fdt w =
    assert_at "spike_interface/spike_memory.c" 67 (g >? 0) "g_mem_size > 0" (set_mem_size g w).
Proof. apply query_mem_Ret. Qed.

(** C33. Where the node above a memory node counts no cells at all, the loop over the regions
    never ends: no number of rounds is enough, whatever [reg] holds. *)
Theorem mem_regions_stuck fuel c up value stop w :
  address_cells c ≤ 0 → size_cells c ≤ 0 → 4 ≤ stop - value →
  mem_regions fuel (c :: up) value stop w = NoFuel.
Proof.
  intros Ha Hs Hstop. revert w. induction fuel as [|fuel IH]; intros w; [done|].
  assert (∀ n w, n ≤ 0 → get_cells n value w = Ret (0, value) w) as Hcells.
  { intros n w' Hn. unfold get_cells. apply loop_exit.
    by rewrite Z.gtb_ltb, (proj2 (Z.ltb_ge _ _)) by lia. }
  set (here := (0 <=? addr_mem_done) && (addr_mem_done <=? u64 (0 + 0))).
  unfold mem_regions.
  rewrite (loop_step _ fuel value w value (if here then set_mem_size 0 w else w)); [apply IH|].
  rewrite Z.gtb_ltb, (proj2 (Z.ltb_lt _ _)).
  2:{ rewrite Z.quot_div_nonneg by lia. apply Z.div_str_pos. lia. }
  unfold mem_region, fdt_get_address, fdt_get_size.
  rewrite bind_assoc. mrun (Hcells _ w Ha). rewrite bind_assoc. mrun (Hcells _ w Hs).
  rewrite bind_assoc.
  fold here. by destruct here.
Qed.
End query.

(** * Instances *)
Import SampleMachine.

Lemma sample_mem_lits m : mem_lits (sample_fdt_mem m).
Proof.
  split.
  - sample_lit 0%nat 14%nat.
  - sample_lit 1%nat 11%nat.
  - sample_lit 2%nat 11%nat.
  - sample_lit 3%nat 6%nat.
  - sample_lit 4%nat 3%nat.
Qed.
Definition sample_visits : list visit :=
  (visits sample_strings_at sample_struct [] default_cells sample_tree).1.
Lemma sample_typed : Forall typed sample_visits.
Proof.
  unfold sample_visits, typed. apply (bool_decide_unpack _). by vm_compute.
Qed.
Lemma sample_memory_visits v :
  v ∈ sample_visits → is_memory (v_values v) = true → ∃ k a s r, memory_visit v k a s r.
Proof.
  revert v. apply (Forall_forall (λ v, is_memory (v_values v) = true → ∃ k a s r, memory_visit v k a s r)).
  set (vs := sample_visits). vm_compute in vs. subst vs.
  repeat (apply Forall_cons; split); try (by apply Forall_nil); try discriminate. intros _.
  eexists 1%nat, 2%nat, 2%nat, _. split_and!.
  - eexists _, _. split_and!; reflexivity.
  - lia.
  - cbn. reflexivity.
  - done.
  - reflexivity.
Qed.

Lemma query_mem_spec_witness :
  let w := sample_world (sample_fdt_mem ∅) [] in
  let g := foldl (pick addr_mem_done) 0 (concat (map visit_regions sample_visits)) in
  query_mem (MemScan 7 7 7) sample_fdt w =
    assert_at "spike_interface/spike_memory.c" 67 (g >? 0) "g_mem_size > 0" (set_mem_size g w) ∧
  g = 0x80000000.
Proof.
  intros w g. split; [|by vm_compute].
  apply (query_mem_spec (sample_fdt_mem ∅) sample_fdt sample_strings_at sample_struct sample_tree);
    [apply sample_fdt_mem_wf, map_Forall_empty|apply sample_mem_lits|apply sample_blob_at|reflexivity
    |apply sample_typed|apply sample_memory_visits].
Defined.

Lemma mem_regions_stuck_witness :
  mem_regions 1000 [Cells 0 0 0] 4096 4104 (sample_world ∅ []) = NoFuel.
Proof. apply (mem_regions_stuck 1000 (Cells 0 0 0) [] 4096 4104); simpl; lia. Defined.
