(* ===== verification/Htif.v ===== *)
(** The host-target interface: spike_interface/spike_htif.c, spike_htif.h, and the part of
    spike_interface/spike_utils.c above them.

    This is the level below [World.frontend]: calls are words of [magic_mem], handed over by
    writing its address to [tohost] and waiting for [fromhost].  The host works at its own pace:
    [host_turn] is what it does between two accesses of the hart to a volatile word, any amount of
    work.  Waiting loops take the number of their rounds; that it is enough is a theorem, and that
    none is enough where the code deadlocks. *)
From S2P Require Import Prelude Mem CString Snprintf World Sample SpikeUtils Spinlock Dts.

(** * The command words *)
Definition TOHOST_CMD (dev cmd payload : Z) : Z :=
  Z.lor (Z.lor (u64 (Z.shiftl (u64 dev) 56)) (u64 (Z.shiftl (u64 cmd) 48))) (u64 payload).
Definition FROMHOST_DEV (v : Z) : Z := Z.shiftr (u64 v) 56.
Definition FROMHOST_CMD (v : Z) : Z := Z.shiftr (u64 (Z.shiftl (u64 v) 8)) 56.
Definition FROMHOST_DATA (v : Z) : Z := Z.shiftr (u64 (Z.shiftl (u64 v) 16)) 16.

(** * The state *)

(** What the hart and the host share, and the host's own state. *)
Record device {H : Type} := Device { tohost : Z; fromhost : Z; d_mem : mem; d_host : H }.
Arguments device H : clear implicits.
Class HostTurn (H : Type) := host_turn : device H → device H.

(** The hart's variables: [htif], [htif_console_buf], [htif_lock], the static [lock] of
    [frontend_syscall]. *)
Record hw {H : Type} := Hw {
  hw_dev : device H; hw_htif : Z; console_buf : Z; htif_lock : Z; fe_lock : Z }.
Arguments hw H : clear implicits.

Definition set_dev {H} (d : device H) (s : hw H) : hw H :=
  Hw _ d (hw_htif s) (console_buf s) (htif_lock s) (fe_lock s).
Definition set_console {H} (v : Z) (s : hw H) : hw H :=
  Hw _ (hw_dev s) (hw_htif s) v (htif_lock s) (fe_lock s).
Program Definition htif_lock_lens {H} : Lens (hw H) Z :=
  {| lget := htif_lock; lset v s := Hw _ (hw_dev s) (hw_htif s) (console_buf s) v (fe_lock s) |}.
Next Obligation. done. Qed.
Next Obligation. by intros H []. Qed.
Next Obligation. done. Qed.
Program Definition fe_lock_lens {H} : Lens (hw H) Z :=
  {| lget := fe_lock; lset v s := Hw _ (hw_dev s) (hw_htif s) (console_buf s) (htif_lock s) v |}.
Next Obligation. done. Qed.
Next Obligation. by intros H []. Qed.
Next Obligation. done. Qed.
#[export] Program Instance hw_mem {H} : Lens (hw H) mem :=
  {| lget s := d_mem (hw_dev s);
     lset m s := set_dev (Device _ (tohost (hw_dev s)) (fromhost (hw_dev s)) m (d_host (hw_dev s))) s |}.
Next Obligation. done. Qed.
Next Obligation. by intros H [[] ? ? ? ?]. Qed.
Next Obligation. done. Qed.

Section htif.
Context {H : Type} `{HT : HostTurn H}.

(** ** Volatile accesses *)
Definition host_works : M (hw H) () := modify (λ s, set_dev (host_turn (hw_dev s)) s).
Definition read_tohost : M (hw H) Z := host_works;; gets (λ s, tohost (hw_dev s)).
Definition read_fromhost : M (hw H) Z := host_works;; gets (λ s, fromhost (hw_dev s)).
Definition write_tohost (v : Z) : M (hw H) () :=
  host_works;; modify (λ s, let d := hw_dev s in set_dev (Device _ v (fromhost d) (d_mem d) (d_host d)) s).
Definition write_fromhost (v : Z) : M (hw H) () :=
  host_works;; modify (λ s, let d := hw_dev s in set_dev (Device _ (tohost d) v (d_mem d) (d_host d)) s).

(** A failed assertion prints its report with [frontend_syscall], which takes the lock of that
    function and then [htif_lock].  The functions below hold [htif_lock] when they assert, so the
    report does not get past that (see [report_stuck]); what would follow is a fault here. *)
Definition htif_assert (fuel : nat) (cond : bool) : M (hw H) () :=
  if cond then mret tt
  else spinlock_lock fe_lock_lens fuel;; spinlock_lock htif_lock_lens fuel;; fault.

Definition check_fromhost (fuel : nat) : M (hw H) () :=
  fh ← read_fromhost;
  if negb (truthy fh) then mret tt
  else
    write_fromhost 0;;
    htif_assert fuel (FROMHOST_DEV fh =? 1);;
    if FROMHOST_CMD fh =? 0 then modify (set_console (1 + u8 (FROMHOST_DATA fh)))
    else if FROMHOST_CMD fh =? 1 then mret tt
    else htif_assert fuel false.

Definition set_tohost (fuel : nat) (dev cmd data : Z) : M (hw H) () :=
  loop fuel (λ _,
    t ← read_tohost;
    if truthy t then check_fromhost fuel;; mret (inl tt) else mret (inr tt)) tt;;
  write_tohost (TOHOST_CMD dev cmd data).

Definition do_tohost_fromhost (fuel : nat) (dev cmd data : Z) : M (hw H) () :=
  spinlock_lock htif_lock_lens fuel;;
  set_tohost fuel dev cmd data;;
  loop fuel (λ _,
    fh ← read_fromhost;
    if truthy fh then
      if (FROMHOST_DEV fh =? dev) && (FROMHOST_CMD fh =? cmd) then write_fromhost 0;; mret (inr tt)
      else check_fromhost fuel;; mret (inl tt)
    else mret (inl tt)) tt;;
  spinlock_unlock htif_lock_lens.

Definition htif_syscall (fuel : nat) (arg : Z) : M (hw H) () := do_tohost_fromhost fuel 0 0 arg.

Definition htif_console_putchar (fuel : nat) (ch : Z) : M (hw H) () :=
  spinlock_lock htif_lock_lens fuel;;
  set_tohost fuel 1 1 ch;;
  spinlock_unlock htif_lock_lens.

Definition htif_console_getchar (fuel : nat) : M (hw H) Z :=
  spinlock_lock htif_lock_lens fuel;;
  check_fromhost fuel;;
  ch ← gets console_buf;
  when (ch >=? 0) (modify (set_console (-1));; set_tohost fuel 1 0 0);;
  spinlock_unlock htif_lock_lens;;
  mret (ch - 1).

(** The loop repeats the two writes for ever; the state is the one after the first round. *)
Definition htif_poweroff {A} : M (hw H) A := write_fromhost 0;; write_tohost 1;; halt.

(** ** spike_utils.c *)
Fixpoint store_magic (magic : Z) (words : list Z) : M (hw H) () :=
  match words with
  | [] => mret tt
  | v :: words => zoom (store64 magic v);; store_magic (magic + 8) words
  end.

(** [magic] is the address of the static [magic_mem], [args] are [a0] to [a6]. *)
Definition frontend_syscall (fuel : nat) (magic n : Z) (args : list Z) : M (hw H) Z :=
  spinlock_lock fe_lock_lens fuel;;
  store_magic magic (n :: args);;
  htif_syscall fuel magic;;
  ret ← zoom (load64 magic);
  spinlock_unlock fe_lock_lens;;
  mret (s64 ret).

Definition mcall_console_putchar (fuel : nat) (ch : Z) : M (hw H) Z :=
  htif ← gets hw_htif;
  when (truthy htif) (htif_console_putchar fuel ch);;
  mret 0.
(** The string is a local array of the caller. *)
Fixpoint putstring (fuel : nat) (s : list Z) : M (hw H) () :=
  match s with
  | [] => fault
  | ch :: s => if truthy ch then mcall_console_putchar fuel ch;; putstring fuel s else mret tt
  end.
Definition vprintm (fuel : nat) (s : cval) (vl : list cval) : M (hw H) () := λ st,
  match vsnprintf (d_mem (hw_dev st)) 256 s vl (replicate 256 0) with
  | Ret _ buf => putstring fuel buf st
  | Halted _ => Halted st
  | Fault => Fault
  | NoFuel => NoFuel
  end.
End htif.

(** * Lemmas *)
Lemma lor_add a b k : 0 ≤ k → 0 ≤ b < 2 ^ k → Z.lor (a * 2 ^ k) b = a * 2 ^ k + b.
Proof.
  intros Hk Hb. apply Z.bits_inj'. intros n Hn. rewrite Z.lor_spec.
  destruct (Z.lt_ge_cases n k).
  - rewrite Z.mul_pow2_bits_low by lia. rewrite <- (Z.mod_pow2_bits_low (_ + _) k) by lia.
    by rewrite Z.add_comm, Z_mod_plus_full, Z.mod_small by lia.
  - rewrite (testbit_high b k) by lia. rewrite orb_false_r, Z.mul_pow2_bits by lia.
    replace n with (n - k + k) at 2 by lia. rewrite <- Z.div_pow2_bits by lia.
    by rewrite Z.div_add_l, Z.div_small, Z.add_0_r by lia.
Qed.

Lemma TOHOST_CMD_val dev cmd data :
  0 ≤ dev < 2 ^ 8 → 0 ≤ cmd < 2 ^ 8 → 0 ≤ data < 2 ^ 48 →
  TOHOST_CMD dev cmd data = dev * 2 ^ 56 + (cmd * 2 ^ 48 + data).
Proof.
  intros Hd Hc Hx. unfold TOHOST_CMD. rewrite !Z.shiftl_mul_pow2 by lia.
  rewrite !u64_id by (rewrite ?u64_id; lia).
  by rewrite <- Z.lor_assoc, (lor_add cmd), (lor_add dev) by lia.
Qed.

Lemma tohost_fields dev cmd data :
  0 ≤ dev < 2 ^ 8 → 0 ≤ cmd < 2 ^ 8 → 0 ≤ data < 2 ^ 48 →
  let v := TOHOST_CMD dev cmd data in
  0 ≤ v < 2 ^ 64 ∧ FROMHOST_DEV v = dev ∧ FROMHOST_CMD v = cmd ∧ FROMHOST_DATA v = data.
Proof.
  intros Hd Hc Hx v. unfold v. rewrite TOHOST_CMD_val by done. clear v.
  assert (0 ≤ dev * 2 ^ 56 + (cmd * 2 ^ 48 + data) < 2 ^ 64) as Hv by lia.
  unfold FROMHOST_DEV, FROMHOST_CMD, FROMHOST_DATA.
  rewrite !(u64_id (_ + _)), !Z.shiftr_div_pow2, !Z.shiftl_mul_pow2 by lia. unfold u64.
  split_and!; [lia|lia| | |].
  - rewrite Z.div_add_l, Z.div_small by lia. lia.
  - replace ((dev * 2 ^ 56 + (cmd * 2 ^ 48 + data)) * 2 ^ 8) with
      (cmd * 2 ^ 56 + data * 2 ^ 8 + dev * 2 ^ 64) by lia.
    rewrite Z_mod_plus_full, Z.mod_small, Z.div_add_l, Z.div_small by lia. lia.
  - replace ((dev * 2 ^ 56 + (cmd * 2 ^ 48 + data)) * 2 ^ 16) with
      (data * 2 ^ 16 + (dev * 2 ^ 8 + cmd) * 2 ^ 64) by lia.
    rewrite Z_mod_plus_full, Z.mod_small, Z.div_mul by lia. done.
Qed.

(** C31. A command word is 64 bits, and the device, the command and the 48-bit payload it was made
    of are read back from it. *)
Theorem tohost_roundtrip dev cmd data :
  0 ≤ dev < 2 ^ 8 → 0 ≤ cmd < 2 ^ 8 → 0 ≤ data < 2 ^ 48 →
  let v := TOHOST_CMD dev cmd data in
  0 ≤ v < 2 ^ 64 ∧ FROMHOST_DEV v = dev ∧ FROMHOST_CMD v = cmd ∧ FROMHOST_DATA v = data.
Proof. apply tohost_fields. Qed.

Section stuck.
Context {H : Type} `{HT : HostTurn H}.
Implicit Types s : hw H.

(** The report of an assertion that fails while [htif_lock] is held waits for a lock for ever. *)
Lemma report_stuck fuel s : htif_lock s ≠ 0 → htif_assert fuel false s = NoFuel.
Proof.
  intros Hs. unfold htif_assert. destruct (decide (fe_lock s = 0)) as [Hf|Hf].
  - destruct (decide (fuel = 0%nat)) as [->|Hfuel]; [done|].
    mrun (spinlock_lock_free fe_lock_lens fuel s Hf ltac:(lia)).
    apply bind_NoFuel. by apply (spinlock_lock_held htif_lock_lens).
  - apply bind_NoFuel. by apply (spinlock_lock_held fe_lock_lens).
Qed.
End stuck.

(** * Calls to the front-end *)

(** The arguments of a call, with [buf] for the address of its buffer, and the bytes the host
    reads there. *)
Definition fe_args (c : fe_call) (buf : Z) : list Z :=
  match c with
  | FeWrite k data => [k; buf; zlen data; 0; 0; 0; 0]
  | FeRead k size => [k; buf; size; 0; 0; 0; 0]
  | FePread k size off => [k; buf; size; off; 0; 0; 0]
  | FeOpenat dirfd fn flags mode => [dirfd; buf; zlen fn; flags; mode; 0; 0]
  | FeClose k => [k; 0; 0; 0; 0; 0; 0]
  | FeLseek k ptr dir => [k; ptr; dir; 0; 0; 0; 0]
  | FeFstat k => [k; buf; 0; 0; 0; 0; 0]
  | FeExit code => [code; 0; 0; 0; 0; 0; 0]
  | FeGetmainvars b size => [b; size; 0; 0; 0; 0; 0]
  end.
Definition fe_input (c : fe_call) : list Z :=
  match c with FeWrite _ data => data | FeOpenat _ fn _ _ => fn | _ => [] end.
(** What the host stores in the buffer. *)
Definition fe_output (c : fe_call) (r : fe_reply) : list Z :=
  match c with
  | FeRead _ _ | FePread _ _ _ | FeFstat _ | FeGetmainvars _ _ => map u8 (fe_data r)
  | _ => []
  end.
(** Buffers and lengths that fit the words they are passed in. *)
Definition fe_fits (c : fe_call) (buf : Z) : Prop :=
  0 ≤ buf < 2 ^ 63 ∧ zlen (fe_input c) < 2 ^ 63 ∧
  match c with FeGetmainvars b _ => b = buf | _ => True end.
Lemma length_fe_args c buf : length (fe_args c buf) = 7%nat.
Proof. by destruct c. Qed.

(** Words one after the other. *)
Fixpoint write_words (m : mem) (p : Z) (ws : list Z) : mem :=
  match ws with [] => m | v :: ws => write_words (write_word m p v) (p + 8) ws end.
Fixpoint words_at (m : mem) (p : Z) (ws : list Z) : Prop :=
  match ws with [] => True | v :: ws => word_at m p = Some (u64 v) ∧ words_at m (p + 8) ws end.

Lemma lookup_write_words_ne m p ws a :
  a < p ∨ p + 8 * zlen ws ≤ a → write_words m p ws !! a = m !! a.
Proof.
  revert m p. induction ws as [|v ws IH]; intros m p Ha; [done|].
  assert (zlen (v :: ws) = 1 + zlen ws) as Hz by (unfold zlen; simpl length; lia). rewrite Hz in Ha.
  pose proof (zlen_nonneg ws). cbn [write_words]. rewrite IH by lia. apply lookup_write_word_ne. lia.
Qed.
Lemma words_at_written m p ws : words_at (write_words m p ws) p ws.
Proof.
  revert m p. induction ws as [|v ws IH]; intros m p; [done|]. split; [|apply IH].
  cbn [write_words]. rewrite <- (word_at_write m p v). apply word_at_ext. intros a Ha.
  apply lookup_write_words_ne. lia.
Qed.
Lemma mapped_write_words m p ws q n : mapped m q n → mapped (write_words m p ws) q n.
Proof.
  revert m p. induction ws as [|v ws IH]; intros m p Hm; [done|]. by apply IH, mapped_write_word.
Qed.

(** The host as Spike's documentation has it, over the [host_call] of World.v.  While no read of the
    console is outstanding, which is what [quiet] says of its state, it does nothing on its own when
    no command waits; and a call in [magic_mem] is answered within [latency] turns, with the reply's
    value over the first word and its data in the buffer. *)
Class HtifHost {H} `{Host H} `{HostTurn H} (latency : nat) (quiet : H → Prop) : Prop := {
  turn_idle (d : device H) : quiet (d_host d) → tohost d = 0 → host_turn d = d;
  turn_answers (d : device H) magic c buf :
    quiet (d_host d) →
    0 < magic < 2 ^ 48 → tohost d = magic → fromhost d = 0 → fe_fits c buf →
    words_at (d_mem d) magic (fe_number c :: fe_args c buf) →
    bytes_at (d_mem d) buf (fe_input c) →
    ∃ n, (0 < n ≤ latency)%nat ∧ (∀ i, (i < n)%nat → fromhost (Nat.iter i host_turn d) = 0) ∧
      Nat.iter n host_turn d =
        let r := (host_call c (d_host d)).1 in
        Device _ 0 (TOHOST_CMD 0 0 1)
          (write_bytes (write_word (d_mem d) magic (fe_ret r)) buf (fe_output c r))
          (host_call c (d_host d)).2;
  turn_quiet c h : quiet h → quiet (host_call c h).2;
}.

Section refinement.
Context {H : Type} `{HH : Host H} `{HT : HostTurn H} (latency : nat) (quiet : H → Prop).
Context `{!HtifHost latency quiet}.
Implicit Types (s : hw H) (d : device H).

Lemma store_magic_Ret p ws s :
  mapped (d_mem (hw_dev s)) p (8 * length ws) →
  store_magic p ws s =
    Ret tt (lset (write_words (d_mem (hw_dev s)) p ws) s).
Proof.
  revert p s. induction ws as [|v ws IH]; intros p s Hm.
  - by destruct s as [[] ? ? ? ?].
  - cbn [store_magic write_words].
    assert (is_Some (word_at (d_mem (hw_dev s)) p)) as Hw.
    { apply word_at_mapped. eapply mapped_le; [|exact Hm]. simpl length. lia. }
    rewrite (bind_Ret _ _ s tt (lset (write_word (d_mem (hw_dev s)) p v) s)).
    2:{ apply zoom_Ret. by apply store64_word. }
    rewrite IH; [done|]. apply (mapped_write_word (d_mem (hw_dev s)) p v).
    eapply mapped_sub; [| |exact Hm]; simpl length; lia.
Qed.

(** Setting [tohost] when no command waits. *)
Lemma set_tohost_idle fuel dev cmd data s :
  quiet (d_host (hw_dev s)) → tohost (hw_dev s) = 0 → (0 < fuel)%nat →
  set_tohost fuel dev cmd data s =
    Ret tt (set_dev (Device _ (TOHOST_CMD dev cmd data) (fromhost (hw_dev s)) (d_mem (hw_dev s))
      (d_host (hw_dev s))) s).
Proof.
  intros Hq Ht Hf. destruct fuel as [|fuel]; [lia|]. unfold set_tohost.
  assert (host_works s = Ret tt s) as Hidle.
  { unfold host_works, modify. rewrite turn_idle by done. by destruct s. }
  rewrite (bind_Ret _ _ s tt s).
  - unfold write_tohost. by mrun Hidle.
  - apply loop_exit. unfold read_tohost. rewrite bind_assoc. mrun Hidle.
    unfold gets. rewrite (bind_Ret _ _ s 0 s) by by rewrite Ht. done.
Qed.

(** Waiting for the answer that comes after [k] more turns. *)
Lemma wait_answer F fuel k s d :
  (∀ i, (i < k)%nat → fromhost (Nat.iter (S i) host_turn (hw_dev s)) = 0) →
  Nat.iter (S k) host_turn (hw_dev s) = d → fromhost d = TOHOST_CMD 0 0 1 → tohost d = 0 →
  quiet (d_host d) → (k < fuel)%nat →
  loop fuel (λ _,
    fh ← read_fromhost;
    if truthy fh then
      if (FROMHOST_DEV fh =? 0) && (FROMHOST_CMD fh =? 0) then write_fromhost 0;; mret (inr tt)
      else check_fromhost F;; mret (inl tt)
    else mret (inl tt)) tt s =
  Ret tt (set_dev (Device _ 0 0 (d_mem d) (d_host d)) s).
Proof.
  revert fuel s. induction k as [|k IH]; intros fuel s Hz Hd Hfh Hth Hq Hf;
    (destruct fuel as [|fuel]; [lia|]); set (s1 := set_dev (host_turn (hw_dev s)) s).
  - simpl in Hd. apply loop_exit.
    rewrite (bind_Ret _ _ s (TOHOST_CMD 0 0 1) s1).
    2:{ unfold read_fromhost. rewrite <- Hfh, <- Hd. reflexivity. }
    replace (truthy (TOHOST_CMD 0 0 1)) with true by by vm_compute.
    replace ((FROMHOST_DEV (TOHOST_CMD 0 0 1) =? 0) && (FROMHOST_CMD (TOHOST_CMD 0 0 1) =? 0))
      with true by by vm_compute.
    rewrite (bind_Ret _ _ s1 tt (set_dev (Device _ 0 0 (d_mem d) (d_host d)) s)); [done|].
    unfold write_fromhost, host_works, modify.
    rewrite (bind_Ret _ _ s1 tt s1).
    + cbn [s1 set_dev hw_dev]. by rewrite Hd, Hth.
    + cbn [s1 set_dev hw_dev]. rewrite Hd, turn_idle by done. unfold s1. by rewrite Hd.
  - rewrite (loop_step _ fuel tt s tt s1).
    + apply (IH fuel s1); [|by rewrite Nat.iter_succ_r in Hd|done|done|done|lia].
      intros i Hi. specialize (Hz (S i) ltac:(lia)). by rewrite Nat.iter_succ_r in Hz.
    + unfold read_fromhost, host_works, modify, gets.
      rewrite bind_assoc, (bind_Ret _ _ s tt s1), (bind_Ret _ _ s1 0 s1); [done| |done].
      cbn [s1 set_dev hw_dev]. pose proof (Hz 0%nat ltac:(lia)) as H0. simpl in H0. by rewrite H0.
Qed.

Lemma htif_syscall_Ret fuel magic c buf s :
  htif_lock s = 0 → quiet (d_host (hw_dev s)) →
  tohost (hw_dev s) = 0 → fromhost (hw_dev s) = 0 → 0 < magic < 2 ^ 48 →
  fe_fits c buf → words_at (d_mem (hw_dev s)) magic (fe_number c :: fe_args c buf) →
  bytes_at (d_mem (hw_dev s)) buf (fe_input c) → (latency < fuel)%nat →
  let r := (host_call c (d_host (hw_dev s))).1 in
  htif_syscall fuel magic s =
    Ret tt (set_dev (Device _ 0 0
      (write_bytes (write_word (d_mem (hw_dev s)) magic (fe_ret r)) buf (fe_output c r))
      (host_call c (d_host (hw_dev s))).2) s).
Proof.
  intros Hl Hq Ht Hfr Hmg Hfit Hw Hb Hfuel r. unfold htif_syscall, do_tohost_fromhost.
  mrun (spinlock_lock_free htif_lock_lens fuel s Hl ltac:(lia)). set (s1 := lset _ s).
  mrun (set_tohost_idle fuel 0 0 magic s1 Hq Ht ltac:(lia)). set (s2 := set_dev _ s1).
  assert (TOHOST_CMD 0 0 magic = magic) as Hcmd by (rewrite TOHOST_CMD_val; lia).
  destruct (turn_answers (hw_dev s2) magic c buf) as (n & Hn & Hz & Hit); try done.
  destruct n as [|n]; [lia|].
  rewrite (bind_Ret _ _ s2 tt (set_dev (Device _ 0 0
    (write_bytes (write_word (d_mem (hw_dev s)) magic (fe_ret r)) buf (fe_output c r))
    (host_call c (d_host (hw_dev s))).2) s2)).
  - by destruct s as [[] ? ? ? ?]; cbn in Hl |- *; rewrite Hl.
  - rewrite (wait_answer fuel fuel n s2 _) by first [intros; apply Hz; lia|exact Hit|reflexivity|by apply turn_quiet|lia].
    done.
Qed.

Lemma frontend_syscall_Ret fuel magic c buf s :
  fe_lock s = 0 → htif_lock s = 0 → quiet (d_host (hw_dev s)) →
  tohost (hw_dev s) = 0 → fromhost (hw_dev s) = 0 →
  0 < magic < 2 ^ 48 → mapped (d_mem (hw_dev s)) magic 64 → fe_fits c buf →
  bytes_at (d_mem (hw_dev s)) buf (fe_input c) →
  buf + zlen (fe_input c) ≤ magic ∨ magic + 64 ≤ buf →
  let r := (host_call c (d_host (hw_dev s))).1 in
  buf + zlen (fe_output c r) ≤ magic ∨ magic + 64 ≤ buf → (latency < fuel)%nat →
  let m1 := write_words (d_mem (hw_dev s)) magic (fe_number c :: fe_args c buf) in
  frontend_syscall fuel magic (fe_number c) (fe_args c buf) s =
    Ret (s64 (fe_ret r))
      (set_dev (Device _ 0 0 (write_bytes (write_word m1 magic (fe_ret r)) buf (fe_output c r))
        (host_call c (d_host (hw_dev s))).2) s).
Proof.
  intros Hfe Hl Hq Ht Hfr Hmg Hmap Hfit Hin Hdin r Hdout Hfuel m1. unfold frontend_syscall.
  mrun (spinlock_lock_free fe_lock_lens fuel s Hfe ltac:(lia)). set (s1 := lset _ s).
  assert (zlen (fe_number c :: fe_args c buf) = 8) as Hz by by destruct c.
  rewrite (bind_Ret _ _ s1 tt (lset m1 s1)).
  2:{ apply store_magic_Ret. cbn [length]. rewrite length_fe_args. exact Hmap. }
  assert (bytes_at m1 buf (fe_input c)) as Hin1.
  { unfold bytes_at. rewrite <- Hin. apply read_bytes_ext. intros i Hi.
    apply lookup_write_words_ne. rewrite Hz. unfold zlen in Hdin. lia. }
  set (s2 := lset m1 s1).
  mrun (htif_syscall_Ret fuel magic c buf s2 Hl Hq Ht Hfr Hmg Hfit (words_at_written _ _ _)
    Hin1 Hfuel).
  cbn zeta. set (s3 := set_dev _ s2).
  rewrite (bind_Ret _ _ s3 (u64 (fe_ret r)) s3).
  - destruct s as [[] ? ? ? ?]; cbn in *; subst. do 2 f_equal. unfold u64, s64.
    by rewrite <- (Zplus_mod_idemp_l (fe_ret r)).
  - assert (load64 magic (lget s3) = Ret (u64 (fe_ret r)) (lget s3)) as Hload.
    { apply load64_word.
      change (lget s3) with (write_bytes (write_word m1 magic (fe_ret r)) buf (fe_output c r)).
      rewrite word_at_write_bytes_ne by (unfold zlen in Hdout; lia).
      by rewrite word_at_write. }
    rewrite (zoom_Ret _ s3 _ _ Hload). by rewrite lset_lget.
Qed.

(** C17. [frontend_syscall] implements the abstract call [frontend] of the other files: with both
    locks free, nothing pending and no read of the console outstanding, handing the words of a call to a host that answers within
    [latency] turns returns what the host returned, as a [long]; the host served exactly that
    call once and stored its data in the buffer; nothing else in memory changed but [magic_mem],
    both locks are free again and no answer is left behind. *)
Theorem frontend_refines fuel magic c buf s w :
  fe_lock s = 0 → htif_lock s = 0 → quiet (d_host (hw_dev s)) →
  tohost (hw_dev s) = 0 → fromhost (hw_dev s) = 0 →
  0 < magic < 2 ^ 48 → mapped (d_mem (hw_dev s)) magic 64 → fe_fits c buf →
  bytes_at (d_mem (hw_dev s)) buf (fe_input c) →
  buf + zlen (fe_input c) ≤ magic ∨ magic + 64 ≤ buf →
  w_host w = d_host (hw_dev s) →
  let r := (host_call c (w_host w)).1 in
  buf + zlen (fe_output c r) ≤ magic ∨ magic + 64 ≤ buf → (latency < fuel)%nat →
  ∃ m h, frontend_syscall fuel magic (fe_number c) (fe_args c buf) s =
      Ret (s64 (fe_ret r)) (set_dev (Device _ 0 0 m h) s) ∧
    frontend c w = Ret r (set_host h w) ∧ bytes_at m buf (fe_output c r) ∧
    (∀ a, a < magic ∨ magic + 64 ≤ a → a < buf ∨ buf + zlen (fe_output c r) ≤ a →
      m !! a = d_mem (hw_dev s) !! a).
Proof.
  intros Hfe Hl Hq Ht Hfr Hmg Hmap Hfit Hin Hdin Hw r Hdout Hfuel.
  set (m1 := write_words (d_mem (hw_dev s)) magic (fe_number c :: fe_args c buf)).
  exists (write_bytes (write_word m1 magic (fe_ret r)) buf (fe_output c r)),
    (host_call c (d_host (hw_dev s))).2.
  assert (zlen (fe_number c :: fe_args c buf) = 8) as Hz by by destruct c.
  unfold r in *. rewrite Hw in *. split_and!.
  - by apply frontend_syscall_Ret.
  - rewrite frontend_Ret, Hw. unfold host_calls. done.
  - apply read_write_bytes.
  - intros a H1 H2. unfold zlen in H2. rewrite lookup_write_bytes_ne by lia.
    rewrite lookup_write_word_ne by lia. apply lookup_write_words_ne. rewrite Hz. lia.
Qed.

(** ** The console *)

(** [putchar] leaves the character in [tohost] once no command waits. *)
Lemma htif_console_putchar_Ret fuel ch s :
  htif_lock s = 0 → quiet (d_host (hw_dev s)) → tohost (hw_dev s) = 0 → (0 < fuel)%nat →
  htif_console_putchar fuel ch s =
    Ret tt (set_dev (Device _ (TOHOST_CMD 1 1 ch) (fromhost (hw_dev s)) (d_mem (hw_dev s))
      (d_host (hw_dev s))) s).
Proof.
  intros Hl Hq Ht Hf. unfold htif_console_putchar.
  mrun (spinlock_lock_free htif_lock_lens fuel s Hl Hf).
  mrun (set_tohost_idle fuel 1 1 ch (lset (Lens := htif_lock_lens) (-1) s) Hq Ht Hf).
  destruct s as [[] ? ? ? ?]. cbn in *. by subst.
Qed.

End refinement.

(** ** Reading the console *)

(** The character a pending word carries, if it is one: from device 1, command 0. *)
Definition pending (fh : Z) : option Z :=
  if truthy fh && (FROMHOST_DEV fh =? 1) && (FROMHOST_CMD fh =? 0) then Some (u8 (FROMHOST_DATA fh))
  else None.
Definition read_request : Z := TOHOST_CMD 1 0 0.

(** Nothing but the console is at work: a request for a character may wait in [tohost], and a
    character in [fromhost]. *)
Definition console_only {H} (d : device H) : Prop :=
  (tohost d = 0 ∨ tohost d = read_request) ∧ (fromhost d = 0 ∨ is_Some (pending (fromhost d))).
(** The requests that have not been answered with a character the hart has seen: those the host has
    taken, of which there are [reads], the one that waits for it, the one it has answered. *)
Definition owed {H} (reads : H → nat) (d : device H) : nat :=
  reads (d_host d) + (if decide (tohost d = read_request) then 1 else 0) +
  (if decide (fromhost d = 0) then 0 else 1).

(** The console of the host, in the states [served] in which it has no call to answer: it takes a
    request from [tohost] and counts it, and when somebody types, it puts the character into
    [fromhost], if that is free, for a request it has taken.  How much of this happens in a turn is
    left open. *)
Class ConsoleHost {H} `{HostTurn H} (reads : H → nat) (served : H → Prop) : Prop :=
  console_turn (d : device H) :
    served (d_host d) → console_only d →
    let d' := host_turn d in
    served (d_host d') ∧ console_only d' ∧ d_mem d' = d_mem d ∧ owed reads d' = owed reads d ∧
    (fromhost d ≠ 0 → fromhost d' = fromhost d) ∧ (tohost d = 0 → tohost d' = 0).

Section console.
Context {H : Type} `{HT : HostTurn H} (reads : H → nat) (served : H → Prop) `{!ConsoleHost reads served}.
Implicit Types (s : hw H) (d : device H).

(** [console_buf] is -1 while a request is out, and there is never more than one. *)
Record console_ok s : Prop := {
  co_served : served (d_host (hw_dev s));
  co_only : console_only (hw_dev s);
  co_lock : htif_lock s = 0;
  co_owed : console_buf s = -1 ∧ owed reads (hw_dev s) = 1%nat ∨
            0 ≤ console_buf s ∧ owed reads (hw_dev s) = 0%nat;
}.

Lemma owed_none d : owed reads d = 0%nat → console_only d → tohost d = 0 ∧ fromhost d = 0 ∧ reads (d_host d) = 0%nat.
Proof.
  unfold owed, console_only. intros Ho [[Ht|Ht] _]; [|rewrite Ht, decide_True in Ho by done; lia].
  destruct (decide (fromhost d = 0)); [|lia]. split_and!; [done|done|lia].
Qed.

Lemma owed_asked h m : reads h = 0%nat → owed reads (Device _ read_request 0 m h) = 1%nat.
Proof. intros Hr. unfold owed. cbn [d_host tohost fromhost]. by rewrite !decide_True, Hr by done. Qed.
Lemma owed_idle h m : reads h = 0%nat → owed reads (Device _ 0 0 m h) = 0%nat.
Proof. intros Hr. unfold owed. cbn [d_host tohost fromhost]. by rewrite Hr. Qed.
(** Asking, when nothing is owed. *)
Lemma ask_console fuel b s :
  served (d_host (hw_dev s)) → console_only (hw_dev s) → owed reads (hw_dev s) = 0%nat →
  console_buf s = b → 0 ≤ b → (0 < fuel)%nat →
  ∃ h, (ch ← gets console_buf;
    when (ch >=? 0) (modify (set_console (-1));; set_tohost fuel 1 0 0);;
    spinlock_unlock htif_lock_lens;;
    mret (ch - 1)) s =
      Ret (b - 1) (lset (Lens := htif_lock_lens) 0 (set_console (-1)
        (set_dev (Device _ read_request 0 (d_mem (hw_dev s)) h) s))) ∧
    served h ∧ reads h = 0%nat.
Proof.
  intros Hsv Hon Ho Hb Hb0 Hf. destruct fuel as [|fuel]; [lia|].
  destruct (console_turn (hw_dev s) Hsv Hon) as (Hsv1 & Hon1 & Hm1 & Ho1 & _).
  set (d1 := host_turn (hw_dev s)) in *. rewrite Ho in Ho1. destruct (owed_none d1 Ho1 Hon1) as (Ht1 & Hf1 & _).
  destruct (console_turn d1 Hsv1 Hon1) as (Hsv2 & Hon2 & Hm2 & Ho2 & _).
  set (d2 := host_turn d1) in *. rewrite Ho1 in Ho2. destruct (owed_none d2 Ho2 Hon2) as (_ & Hf2 & Hr2).
  exists (d_host d2). split; [|by split]. unfold gets at 1. rewrite (bind_Ret _ _ s b s) by by rewrite Hb.
  rewrite Z.geb_leb, (proj2 (Z.leb_le _ _)) by done. cbn [when]. set (s0 := set_console (-1) s).
  rewrite bind_assoc, (bind_Ret _ _ s tt s0) by done. set (s1 := set_dev d1 s0).
  rewrite (bind_Ret _ _ s0 tt (set_dev (Device _ read_request 0 (d_mem (hw_dev s)) (d_host d2)) s0)); [done|].
  unfold set_tohost. rewrite (bind_Ret _ _ s0 tt s1).
  - unfold write_tohost, host_works, modify. change (hw_dev s1) with d1. fold d2.
    rewrite (bind_Ret _ _ s1 tt (set_dev d2 s1)) by done. cbn. by rewrite Hf2, Hm2, Hm1.
  - apply loop_exit. unfold read_tohost, host_works, modify, gets. rewrite bind_assoc.
    rewrite (bind_Ret _ _ s0 tt s1) by done. by rewrite (bind_Ret _ _ s1 0 s1) by (cbn; by rewrite Ht1).
Qed.

(** A character that has arrived is taken out of [fromhost]. *)
Lemma check_fromhost_char fuel s ch :
  served (d_host (hw_dev s)) → console_only (hw_dev s) → owed reads (hw_dev s) = 1%nat →
  pending (fromhost (host_turn (hw_dev s))) = Some ch →
  ∃ h, check_fromhost fuel s =
      Ret tt (set_console (1 + ch) (set_dev (Device _ 0 0 (d_mem (hw_dev s)) h) s)) ∧
    served h ∧ reads h = 0%nat.
Proof.
  intros Hsv Hon Ho Hp. destruct (console_turn (hw_dev s) Hsv Hon) as (Hsv1 & Hon1 & Hm1 & Ho1 & _).
  set (d1 := host_turn (hw_dev s)) in *.
  unfold pending in Hp. destruct (truthy (fromhost d1)) eqn:E1; [|done].
  destruct (FROMHOST_DEV (fromhost d1) =? 1) eqn:E2; [|done].
  destruct (FROMHOST_CMD (fromhost d1) =? 0) eqn:E3; [|done]. cbn in Hp. injection Hp as Hp.
  assert (fromhost d1 ≠ 0) as Hne by (intros E; by rewrite E in E1).
  destruct (console_turn d1 Hsv1 Hon1) as (Hsv2 & Hon2 & Hm2 & Ho2 & Hf2 & _).
  set (d2 := host_turn d1) in *. specialize (Hf2 Hne). rewrite Ho1, Ho in Ho2.
  assert (tohost d2 = 0 ∧ reads (d_host d2) = 0%nat) as [Ht2 Hr2].
  { unfold owed in Ho2. rewrite Hf2, (decide_False (P := fromhost d1 = 0)) in Ho2 by done.
    destruct Hon2 as [[?|E] _]; [|rewrite decide_True in Ho2 by done; lia]. split; [done|lia]. }
  exists (d_host d2). split; [|by split].
  unfold check_fromhost, read_fromhost, write_fromhost, host_works, modify, gets. rewrite bind_assoc.
  set (s1 := set_dev d1 s). rewrite (bind_Ret _ _ s tt s1) by done.
  rewrite (bind_Ret _ _ s1 (fromhost d1) s1) by done. rewrite E1. cbn [negb].
  rewrite bind_assoc, (bind_Ret _ _ s1 tt (set_dev d2 s1)) by done.
  rewrite (bind_Ret _ _ _ tt (set_dev (Device _ 0 0 (d_mem (hw_dev s)) (d_host d2)) s)).
  - rewrite E2. cbn [htif_assert]. rewrite mret_bind, E3. by rewrite Hp.
  - cbn. by rewrite Ht2, Hm2, Hm1.
Qed.

(** C30. [htif_console_getchar], on a console that answers each request with the next character typed,
    whenever that is: there is at most one request out at a time, exactly while [htif_console_buf] is
    -1.  While none is, the function returns [htif_console_buf - 1], -1 the first time, and sends a
    request; while one is, it returns the character that has arrived, and sends the next request, or,
    when it has not arrived by the time [fromhost] is read, -2, and sends nothing.  It never waits. *)
Theorem getchar_spec fuel s :
  console_ok s → (0 < fuel)%nat →
  let d1 := host_turn (hw_dev s) in
  ∃ r s', htif_console_getchar fuel s = Ret r s' ∧
    console_ok s' ∧ console_buf s' = -1 ∧ d_mem (hw_dev s') = d_mem (hw_dev s) ∧
    if console_buf s =? -1 then
      match pending (fromhost d1) with
      | Some ch => r = ch ∧ 0 ≤ ch < 256 ∧ tohost (hw_dev s') = read_request
      | None => r = -2 ∧ hw_dev s' = d1
      end
    else r = console_buf s - 1 ∧ tohost (hw_dev s') = read_request.
Proof.
  intros [Hsv Hon Hl Ho] Hf d1. unfold htif_console_getchar.
  pose proof (spinlock_lock_free htif_lock_lens fuel s Hl Hf) as Hlock.
  set (s1 := lset (Lens := htif_lock_lens) (-1) s) in Hlock.
  destruct (console_turn (hw_dev s) Hsv Hon) as (Hsv1 & Hon1 & Hm1 & Ho1 & _). fold d1 in Hsv1, Hon1, Hm1, Ho1.
  assert (∀ h, served h → reads h = 0%nat → console_ok (lset (Lens := htif_lock_lens) 0 (set_console (-1)
    (set_dev (Device _ read_request 0 (d_mem (hw_dev s)) h) s)))) as Hasked.
  { intros h Hh Hr. split; [exact Hh|split; [by right|by left]|done|left; split; [done|]].
    by apply (owed_asked h (d_mem (hw_dev s))). }
  assert (fromhost d1 = 0 → check_fromhost fuel s1 = Ret tt (set_dev d1 s1)) as Hnothing.
  { intros Hz. unfold check_fromhost, read_fromhost, host_works, modify, gets. rewrite bind_assoc.
    rewrite (bind_Ret _ _ s1 tt (set_dev d1 s1)) by done.
    rewrite (bind_Ret _ _ _ 0 (set_dev d1 s1)) by (cbn; by rewrite Hz). done. }
  mrun Hlock. destruct Ho as [[Hb Ho]|[Hb Ho]].
  - rewrite Hb. cbn [Z.eqb Pos.eqb]. destruct (pending (fromhost d1)) as [ch|] eqn:Hp.
    + assert (0 ≤ ch < 256) as Hch.
      { unfold pending in Hp. destruct (_ && _ && _); [|done]. injection Hp as <-. apply u8_range. }
      destruct (check_fromhost_char fuel s1 ch Hsv Hon Ho Hp) as (h & Hc & Hh & Hr). mrun Hc.
      set (s2 := set_console _ _).
      assert (owed reads (hw_dev s2) = 0%nat) as Ho2 by by apply (owed_idle h (d_mem (hw_dev s))).
      destruct (ask_console fuel (1 + ch) s2 Hh ltac:(by split; left) Ho2 eq_refl ltac:(lia) Hf)
        as (h' & Ha & Hh' & Hr').
      exists (1 + ch - 1), (lset (Lens := htif_lock_lens) 0 (set_console (-1)
        (set_dev (Device _ read_request 0 (d_mem (hw_dev s)) h') s))).
      split_and!; [exact Ha|by apply Hasked|done|done|lia|lia|lia|done].
    + assert (fromhost d1 = 0) as Hz by (destruct Hon1 as [_ [?|[? E]]]; [done|by rewrite E in Hp]).
      mrun (Hnothing Hz). exists (-2), (set_dev d1 s).
      split_and!; [|split; [exact Hsv1|exact Hon1|exact Hl|left; split; [exact Hb|exact (eq_trans Ho1 Ho)]]|exact Hb|exact Hm1|done|done].
      unfold gets at 1. rewrite (bind_Ret _ _ _ (-1) (set_dev d1 s1)) by (cbn; by rewrite Hb).
      cbn. destruct s as [? ? ? ? ?]. cbn in *. by subst.
  - rewrite (proj2 (Z.eqb_neq _ _)) by lia. rewrite Ho in Ho1. destruct (owed_none d1 Ho1 Hon1) as (_ & Hz & _).
    mrun (Hnothing Hz).
    destruct (ask_console fuel (console_buf s) (set_dev d1 s1) Hsv1 Hon1 Ho1 eq_refl Hb Hf) as (h' & Ha & Hh' & Hr').
    exists (console_buf s - 1), (lset (Lens := htif_lock_lens) 0 (set_console (-1)
      (set_dev (Device _ read_request 0 (d_mem (hw_dev s)) h') s))).
    split_and!; [|by apply Hasked|done|done|done|done]. rewrite Ha. cbn. by rewrite Hm1.
Qed.
End console.

Section deadlock.
Context {H : Type} `{HT : HostTurn H}.
Implicit Types s : hw H.

(** C32. A word in [fromhost] that is not from the console makes [htif_console_getchar] hang, where
    it means to stop with a message: the report of the failed assertion waits for [htif_lock],
    which the function itself holds.  No number of rounds is enough. *)
Theorem getchar_deadlock fuel s :
  fromhost (host_turn (hw_dev s)) ≠ 0 → FROMHOST_DEV (fromhost (host_turn (hw_dev s))) ≠ 1 →
  htif_console_getchar fuel s = NoFuel.
Proof.
  intros Hfr Hdev. unfold htif_console_getchar.
  destruct (decide (htif_lock s = 0)) as [Hl|Hl].
  2:{ apply bind_NoFuel. by apply (spinlock_lock_held htif_lock_lens). }
  destruct (decide (fuel = 0%nat)) as [->|Hf]; [done|].
  mrun (spinlock_lock_free htif_lock_lens fuel s Hl ltac:(lia)). set (s1 := lset _ s).
  apply bind_NoFuel. unfold check_fromhost, read_fromhost, write_fromhost, host_works, modify, gets.
  set (s2 := set_dev (host_turn (hw_dev s1)) s1).
  rewrite (bind_Ret _ _ s1 (fromhost (host_turn (hw_dev s))) s2) by done.
  unfold truthy. rewrite (proj2 (Z.eqb_neq _ _)) by done. cbn [negb].
  set (s3 := set_dev (host_turn (hw_dev s2)) s2).
  rewrite (bind_Ret _ _ s2 tt (set_dev (Device _ (tohost (hw_dev s3)) 0 (d_mem (hw_dev s3))
    (d_host (hw_dev s3))) s3)) by done.
  apply bind_NoFuel. rewrite (proj2 (Z.eqb_neq _ _)) by done. by apply report_stuck.
Qed.
End deadlock.

(** * HTIF discovery *)
Section discovery.
Context {H : Type} `{HH : Host H} `{PP : Platform}.

(** [struct htif_scan], the field [compat]; [memset] clears it. *)
Definition htif_open (node : fdt_scan_node) (scan : Z) : M (world H) Z := mret 0.
Definition htif_prop (prop : fdt_scan_prop) (scan : Z) : M (world H) Z :=
  c ← is_lit (prop_name prop) "compatible";
  b ← (if (c : bool) then is_lit (prop_value prop) "ucb,htif0" else mret false);
  if (b : bool) then mret 1 else mret scan.
Definition htif_done (node : fdt_scan_node) (scan : Z) : M (world H) Z :=
  if negb (truthy scan) then mret scan else modify (set_htif 1);; mret scan.
Definition htif_cb : fdt_cb H Z := FdtCb _ _ (Some htif_open) (Some htif_prop) (Some htif_done) None.
Definition query_htif (garbage fdt : Z) : M (world H) () := fdt_scan fdt htif_cb garbage;; mret tt.
End discovery.

(** A node is Spike's HTIF when the first string of its [compatible] says so. *)
Definition is_htif (vs : list (list Z * list Z)) : bool :=
  existsb (λ '(n, v), bool_decide (n = bytes "compatible") &&
                      bool_decide (first_string v = bytes "ucb,htif0")) vs.

Section discovery_specs.
Context {H : Type} `{HH : Host H} `{PP : Platform}.
Implicit Types w : world H.
Context (m : mem) (Hwf : mem_wf m).

Record htif_lits : Prop := {
  hl_address : cstr m (addr_lit "#address-cells") (bytes "#address-cells");
  hl_size : cstr m (addr_lit "#size-cells") (bytes "#size-cells");
  hl_compatible : cstr m (addr_lit "compatible") (bytes "compatible");
  hl_htif : cstr m (addr_lit "ucb,htif0") (bytes "ucb,htif0");
}.
Context (L : htif_lits).
(** The value of a [compatible] is a list of strings. *)
Definition listed (v : visit) : Prop :=
  Forall (λ l, l_name l = bytes "compatible" → 0 ∈ l_value l) (v_props v).

Lemma htif_prop_Ret l scan w :
  located_ok m l → (l_name l = bytes "compatible" → 0 ∈ l_value l) → w_mem w = m →
  htif_prop (l_prop l) scan w =
    Ret (if bool_decide (l_name l = bytes "compatible") &&
            bool_decide (first_string (l_value l) = bytes "ucb,htif0") then 1 else scan) w.
Proof.
  intros (Hn & Hv & _) Ht Hw. unfold htif_prop.
  assert (∀ p s n, cstr m p n → cstr m (addr_lit s) (bytes s) →
    is_lit p s w = Ret (bool_decide (n = bytes s)) w) as Hlit
    by (intros; apply is_lit_Ret; by rewrite Hw).
  mrun (Hlit _ "compatible"%string _ Hn (hl_compatible L)).
  destruct (decide (l_name l = bytes "compatible")) as [Hc|Hc].
  - rewrite bool_decide_true by done.
    mrun (Hlit _ "ucb,htif0"%string _ (cstr_first_string _ _ _ Hv (Ht Hc)) (hl_htif L)). cbn [andb].
    by destruct (bool_decide (first_string _ = _)).
  - by rewrite bool_decide_false, mret_bind by done.
Qed.
Definition flag (b : bool) : Z := if b then 1 else 0.
Lemma run_props_htif ls b w :
  Forall (located_ok m) ls → Forall (λ l, l_name l = bytes "compatible" → 0 ∈ l_value l) ls →
  w_mem w = m →
  run_props htif_cb ls (flag b) w =
    Ret (flag (b || is_htif (map (λ l, (l_name l, l_value l)) ls))) w.
Proof.
  intros Hok. revert b. induction Hok as [|l ls Hl _ IH]; intros b Ht Hm.
  - cbn. by rewrite orb_false_r.
  - apply Forall_cons in Ht as [Htl Ht]. cbn [run_props]. unfold call_prop. cbn [htif_cb cb_prop].
    mrun (htif_prop_Ret l (flag b) w Hl Htl Hm). cbn [map is_htif existsb].
    set (here := bool_decide (l_name l = _) && _). rewrite orb_assoc.
    replace (if here then 1 else flag b) with (flag (b || here)) by (by destruct b, here). by apply IH.
Qed.
Definition htif_step (v : visit) (w : world H) : world H :=
  if is_htif (v_values v) then set_htif 1 w else w.
Lemma run_visit_htif v x w :
  visit_ok m v → listed v → w_mem w = m → ∃ x', run_visit htif_cb v x w = Ret x' (htif_step v w).
Proof.
  intros Hok Hl Hm. exists (flag (is_htif (v_values v))). unfold run_visit.
  cbn [htif_cb cb_open cb_done opt_call]. unfold htif_open. rewrite mret_bind.
  mrun (run_props_htif (v_props v) false w Hok Hl Hm). unfold htif_done, htif_step.
  cbn [orb]. fold (v_values v). by destruct (is_htif (v_values v)).
Qed.
Lemma htif_steps vs w :
  foldl (λ w v, htif_step v w) w vs =
    if existsb is_htif (map v_values vs) then set_htif 1 w else w.
Proof.
  revert w. induction vs as [|v vs IH]; intros w; [done|]. cbn [foldl map existsb]. rewrite IH.
  unfold htif_step. destruct (is_htif (v_values v)), (existsb _ _); done.
Qed.
Lemma htif_env : scan_env m (htif_cb (H := H)).
Proof.
  split; try apply L; try done.
  - intros n x. apply keeps_ret.
  - intros p x. apply keeps_bind.
    { apply keeps_bind; [|keeps_tac]. apply reads_zoom, strcmp_reads. }
    intros c. apply keeps_bind; [|keeps_tac]. apply keeps_if; [|apply keeps_ret].
    apply keeps_bind; [|keeps_tac]. apply reads_zoom, strcmp_reads.
  - intros n x. apply keeps_if; [apply keeps_ret|]. apply keeps_bind; [by apply keeps_modify|keeps_tac].
Qed.

Lemma query_htif_Ret fdt strings struct t garbage w :
  fdt_blob m fdt strings struct t → w_mem w = m →
  Forall listed (visits strings struct [] default_cells t).1 →
  query_htif garbage fdt w = Ret tt (if existsb is_htif (nodes t) then set_htif 1 w else w).
Proof.
  intros Hblob Hm Hty. unfold query_htif. set (vs := (visits strings struct [] default_cells t).1) in *.
  assert (Forall (visit_ok m) vs) as Hok.
  { apply visits_ok; [|apply (fb_ok _ _ _ _ _ Hblob)].
    by destruct (proj1 (bytes_at_app _ _ _ _) (fb_tree _ _ _ _ _ Hblob)). }
  rewrite (bind_head _ _ _ _ (fdt_scan_blob m strings struct htif_cb fdt t w garbage htif_env Hblob Hm)).
  fold vs.
  destruct (run_visits_foldl m htif_cb htif_step vs garbage w) as [x' Hr]; [|done|].
  - intros v x w' Hv Hm'. split; [unfold htif_step; by destruct (is_htif _)|].
    rewrite Forall_forall in Hok, Hty. apply run_visit_htif; auto.
  - mrun Hr. rewrite htif_steps. unfold vs. by rewrite visits_nodes.
Qed.

(** HTIF is found exactly when some node of the device tree says it is Spike's; otherwise the
    flag [htif] is left as it was. *)
Theorem query_htif_spec fdt strings struct t garbage w :
  fdt_blob m fdt strings struct t → w_mem w = m →
  Forall listed (visits strings struct [] default_cells t).1 →
  query_htif garbage fdt w = Ret tt (if existsb is_htif (nodes t) then set_htif 1 w else w).
Proof. apply query_htif_Ret. Qed.
End discovery_specs.

(** * Instances *)
Import SampleMachine.

(** A host that takes the words of a call as signed numbers, and answers as that of Sample.v. *)
Definition canon (c : fe_call) : fe_call :=
  match c with
  | FeWrite k data => FeWrite (s64 k) data
  | FeRead k size => FeRead (s64 k) (s64 size)
  | FePread k size off => FePread (s64 k) (s64 size) (s64 off)
  | FeOpenat dirfd fn flags mode => FeOpenat (s64 dirfd) fn (s64 flags) (s64 mode)
  | FeClose k => FeClose (s64 k)
  | FeLseek k ptr dir => FeLseek (s64 k) (s64 ptr) (s64 dir)
  | FeFstat k => FeFstat (s64 k)
  | FeExit code => FeExit (s64 code)
  | FeGetmainvars b size => FeGetmainvars b (s64 size)
  end.
(** With the host of Sample.v it has a console: how many reads of it are outstanding, and what has
    been typed. *)
Record term_host := TermHost { th_files : sample_host; th_reads : nat; th_typed : list Z }.
Definition word_host : Host term_host := λ c h,
  let '(r, f) := host_call (canon c) (th_files h) in (r, TermHost f (th_reads h) (th_typed h)).

(** The call in the words at [p], with its buffer. *)
Definition decode_call (m : mem) (p : Z) : option (fe_call * Z) :=
  n ← word_at m p; a0 ← word_at m (p + 8); a1 ← word_at m (p + 8 + 8);
  a2 ← word_at m (p + 8 + 8 + 8); a3 ← word_at m (p + 8 + 8 + 8 + 8);
  a4 ← word_at m (p + 8 + 8 + 8 + 8 + 8);
  match n with
  | 64 => data ← read_bytes m a1 (Z.to_nat a2); Some (FeWrite (s64 a0) data, a1)
  | 63 => Some (FeRead (s64 a0) (s64 a2), a1)
  | 67 => Some (FePread (s64 a0) (s64 a2) (s64 a3), a1)
  | 56 => fn ← read_bytes m a1 (Z.to_nat a2); Some (FeOpenat (s64 a0) fn (s64 a3) (s64 a4), a1)
  | 57 => Some (FeClose (s64 a0), a1)
  | 62 => Some (FeLseek (s64 a0) (s64 a1) (s64 a2), a1)
  | 80 => Some (FeFstat (s64 a0), a1)
  | 93 => Some (FeExit (s64 a0), a1)
  | 2011 => Some (FeGetmainvars a0 (s64 a1), a0)
  | _ => None
  end.
(** It serves a call in one turn, takes a request for a character in one, and delivers it in another. *)
Definition sample_turn : HostTurn term_host := λ d,
  let h := d_host d in
  if tohost d =? read_request then
    Device _ 0 (fromhost d) (d_mem d) (TermHost (th_files h) (S (th_reads h)) (th_typed h))
  else if negb (fromhost d =? 0) then d
  else if tohost d =? 0 then
    match th_reads h, th_typed h with
    | S n, ch :: typed =>
        Device _ 0 (TOHOST_CMD 1 0 (256 + u8 ch)) (d_mem d) (TermHost (th_files h) n typed)
    | _, _ => d
    end
  else match decode_call (d_mem d) (tohost d) with
       | Some (c, buf) =>
           let '(r, h) := @host_call _ word_host c h in
           Device _ 0 (TOHOST_CMD 0 0 1)
             (write_bytes (write_word (d_mem d) (tohost d) (fe_ret r)) buf (fe_output c r)) h
       | None => d
       end.

Lemma s64_u64 x : s64 (u64 x) = s64 x.
Proof. unfold s64, u64. by rewrite <- (Zplus_mod_idemp_l x). Qed.
Lemma canon_fe_output c r : fe_output (canon c) r = fe_output c r.
Proof. by destruct c. Qed.
Lemma decode_call_words m p c buf :
  fe_fits c buf → words_at m p (fe_number c :: fe_args c buf) → bytes_at m buf (fe_input c) →
  ∃ buf', decode_call m p = Some (canon c, buf') ∧ (buf' = buf ∨ ∀ r, fe_output c r = []).
Proof.
  intros (Hbuf & Hlen & Hm) (H0 & Hw) Hb.
  assert (u64 (fe_number c) = fe_number c) as Hn by by destruct c. rewrite Hn in H0. clear Hn.
  pose proof (u64_id buf ltac:(lia)) as Hub. unfold bytes_at in Hb.
  destruct c; cbn [fe_args words_at fe_number] in *; destruct Hw as (Ha0 & Ha1 & Ha2 & Ha3 & Ha4 & _);
    unfold decode_call; rewrite H0, Ha0, Ha1, Ha2, Ha3, Ha4; cbn [fe_input] in *; cbn -[u64 s64 Z.to_nat];
    rewrite ?s64_u64, ?Hub; try (eexists; split; [reflexivity|by eauto]).
  - rewrite u64_id by (pose proof (zlen_nonneg data); lia). unfold zlen. rewrite Nat2Z.id, Hb. simpl. eauto.
  - rewrite u64_id by (pose proof (zlen_nonneg fn); lia). unfold zlen. rewrite Nat2Z.id, Hb. simpl. eauto.
  - subst. rewrite Hub. eauto.
Qed.

Lemma canon_canon c : canon (canon c) = canon c.
Proof.
  assert (∀ x, s64 (s64 x) = s64 x) as Hs by (intros x; apply s64_id, s64_range).
  by destruct c; cbn [canon]; rewrite ?Hs.
Qed.
Definition no_reads (h : term_host) : Prop := th_reads h = 0%nat.
Lemma sample_serves : @HtifHost _ word_host sample_turn 1 no_reads.
Proof.
  split.
  - intros d Hq Hd. unfold host_turn, sample_turn. rewrite Hd. unfold no_reads in Hq. rewrite Hq. cbn.
    by destruct (fromhost d =? 0).
  - intros d magic c buf Hq Hmg Ht Hfr Hfit Hw Hb. exists 1%nat. split; [lia|]. split.
    { intros i Hi. assert (i = 0%nat) as -> by lia. exact Hfr. }
    destruct (decode_call_words _ _ _ _ Hfit Hw Hb) as (buf' & Hd & Hor).
    assert (magic ≠ read_request) as Hne by (change read_request with (2 ^ 56); lia).
    change (Nat.iter 1 _ d) with (@host_turn _ sample_turn d). unfold host_turn, sample_turn. rewrite Ht, Hfr, !(proj2 (Z.eqb_neq magic _)) by lia.
    cbn [negb Z.eqb]. rewrite Hd. unfold host_call, word_host. rewrite canon_canon.
    destruct (@host_call _ host (canon c) (th_files (d_host d))) as [r h]. cbn [fst snd].
    rewrite canon_fe_output. destruct Hor as [->|Hnil]; [done|]. by rewrite !Hnil.
  - intros c h Hq. unfold host_call, word_host, no_reads in *. by destruct (host_call (canon c) (th_files h)).
Qed.

(** Its console is one. *)
Lemma typed_pending ch : TOHOST_CMD 1 0 (256 + u8 ch) ≠ 0 ∧ is_Some (pending (TOHOST_CMD 1 0 (256 + u8 ch))).
Proof.
  pose proof (u8_range ch).
  destruct (tohost_fields 1 0 (256 + u8 ch) ltac:(lia) ltac:(lia) ltac:(lia)) as (Hr & Hd & Hc & _).
  assert (TOHOST_CMD 1 0 (256 + u8 ch) ≠ 0) as Hne by (intros E; by rewrite E in Hd).
  split; [done|]. unfold pending, truthy. rewrite Hd, Hc, (proj2 (Z.eqb_neq _ _)) by done. by eexists.
Qed.
Lemma sample_console_host : @ConsoleHost _ sample_turn th_reads (λ _, True).
Proof.
  intros d _ [Ht Hf] d'. unfold d', host_turn, sample_turn, owed, console_only.
  destruct Ht as [Ht|Ht]; rewrite Ht.
  - change (0 =? read_request) with false. cbn [Z.eqb]. destruct (Z.eqb_spec (fromhost d) 0) as [Hz|Hz]; cbn [negb].
    + destruct (th_reads (d_host d)) as [|n] eqn:Hn; [split_and!; rewrite ?Ht, ?Hn; by auto|].
      destruct (th_typed (d_host d)) as [|ch typed]; [split_and!; rewrite ?Ht, ?Hn; by auto|].
      destruct (typed_pending ch) as [Hne Hp]. cbn [tohost fromhost d_mem d_host th_reads].
      rewrite (decide_False (P := TOHOST_CMD 1 0 (256 + u8 ch) = 0)) by done.
      rewrite (decide_True (P := fromhost d = 0)) by done. split_and!; auto; try done. lia.
    + split_and!; rewrite ?Ht; auto.
  - change (read_request =? read_request) with true. cbn [tohost fromhost d_mem d_host th_reads].
    rewrite (decide_True (P := read_request = read_request)) by done.
    rewrite (decide_False (P := 0 = read_request)) by done. split_and!; auto; lia.
Qed.

(** The hart at rest, with [magic_mem] at 4096 and a message at 8192. *)
Definition rest_mem : mem :=
  write_bytes (write_bytes ∅ 4096 (replicate 64 0)) 8192 (bytes "hello").
Definition rest_host : term_host := TermHost (SampleHost [] []) 0 [97].
Definition rest (th fh : Z) (buf : Z) : hw term_host := Hw _ (Device _ th fh rest_mem rest_host) 1 buf 0 0.
Definition rest_world : world term_host := World _ ∅ (λ _, 0) sample_files sample_fds 1 0 0 0 rest_host.

Lemma frontend_refines_witness :
  let c := FeWrite 1 (bytes "hello") in
  let s := rest 0 0 0 in
  let r := (@host_call _ word_host c (w_host rest_world)).1 in
  ∃ m h, @frontend_syscall _ sample_turn 3 4096 (fe_number c) (fe_args c 8192) s =
      Ret (s64 (fe_ret r)) (set_dev (Device _ 0 0 m h) s) ∧
    @frontend _ word_host c rest_world = Ret r (set_host h rest_world) ∧ bytes_at m 8192 (fe_output c r) ∧
    (∀ a, a < 4096 ∨ 4096 + 64 ≤ a → a < 8192 ∨ 8192 + zlen (fe_output c r) ≤ a →
      m !! a = d_mem (hw_dev s) !! a).
Proof.
  intros c s r.
  apply (@frontend_refines _ word_host sample_turn 1 no_reads sample_serves 3 4096 c 8192 s rest_world);
    try reflexivity; try lia.
  - apply mapped_write_bytes. apply (mapped_written ∅ 4096 (replicate 64 0)).
  - split_and!; try lia; by vm_compute.
Defined.

Lemma tohost_roundtrip_witness :
  let v := TOHOST_CMD 1 0 97 in
  0 ≤ v < 2 ^ 64 ∧ FROMHOST_DEV v = 1 ∧ FROMHOST_CMD v = 0 ∧ FROMHOST_DATA v = 97.
Proof. apply tohost_roundtrip; lia. Defined.

(** An 'a' has been typed.  The first call asks; the second is too early, as the host only takes the
    request in its turn; the third gets the 'a'. *)
Lemma getchar_spec_witness :
  let getchar := @htif_console_getchar _ sample_turn 2 in
  let s := rest 0 0 0 in
  (∃ r s', getchar s = Ret r s' ∧ console_ok th_reads (λ _, True) s' ∧ console_buf s' = -1 ∧
    d_mem (hw_dev s') = d_mem (hw_dev s) ∧ r = console_buf s - 1 ∧ tohost (hw_dev s') = read_request) ∧
  match (r1 ← getchar; r2 ← getchar; r3 ← getchar; mret [r1; r2; r3]) s with
  | Ret rs _ => rs = [-1; -2; 97]
  | _ => False
  end.
Proof.
  intros getchar s. split.
  - apply (@getchar_spec _ sample_turn th_reads (λ _, True) sample_console_host 2 s); [|lia].
    split; [done|by split; left|done|right]. by split.
  - vm_compute. reflexivity.
Defined.

Lemma getchar_deadlock_witness :
  @htif_console_getchar _ sample_turn 1000 (rest 0 (TOHOST_CMD 0 0 1) 0) = NoFuel.
Proof. apply (@getchar_deadlock _ sample_turn 1000 (rest 0 (TOHOST_CMD 0 0 1) 0)); by vm_compute. Defined.

Lemma sample_htif_lits m : htif_lits (sample_fdt_mem m).
Proof.
  split.
  - sample_lit 0%nat 14%nat.
  - sample_lit 1%nat 11%nat.
  - sample_lit 5%nat 10%nat.
  - sample_lit 6%nat 9%nat.
Qed.
Lemma sample_listed :
  Forall listed (visits sample_strings_at sample_struct [] default_cells sample_tree).1.
Proof. unfold listed. apply (bool_decide_unpack _). by vm_compute. Qed.

Lemma query_htif_spec_witness :
  let w := set_htif 0 (sample_world (sample_fdt_mem ∅) []) in
  query_htif 7 sample_fdt w = Ret tt (if existsb is_htif (nodes sample_tree) then set_htif 1 w else w) ∧
  existsb is_htif (nodes sample_tree) = true.
Proof.
  intros w. split; [|by vm_compute].
  apply (query_htif_spec (sample_fdt_mem ∅) (sample_fdt_mem_wf ∅ (map_Forall_empty _))
    (sample_htif_lits ∅) sample_fdt sample_strings_at sample_struct sample_tree 7 w
    (sample_blob_at ∅) eq_refl sample_listed).
Defined.
