(* ===== verification/Minit.v ===== *)
(** Starting the machine: kernel/machine/minit.c, from the jump of kernel/machine/mentry.S to the
    [mret] into [s_start].

    The uninitialised locals of the two device tree scans are arguments of [init_dtb].  The
    registers of the CLINT are words of the memory; [mtime] is read once. *)
From S2P Require Import Prelude Mem CString Snprintf World Sample SpikeUtils SpikeFile Asm Dts SpikeMemory Htif Mtrap.

Section minit.
Context {H : Type} `{HH : Host H} `{PP : Platform}.

(** kernel/riscv.h: the bit of an extension in [misa], as an [int]. *)
Definition supports_extension (ext : Z) : M (world H) Z :=
  misa ← read_const_csr misa; mret (s32 (Z.land misa (Z.shiftl 1 (ext - 65)))).

Definition init_dtb (htif_scan : Z) (scan : mem_scan) (dtb : Z) : M (world H) () :=
  query_htif htif_scan dtb;;
  htif ← gets w_htif;
  when (truthy htif) (sprint (Lit (bytes ("HTIF is available!" +:+ carriage +:+ newline))) []);;
  query_mem scan dtb;;
  g ← gets w_mem_size;
  sprint (Lit (bytes ("(Emulated) memory size: %ld MB" +:+ newline))) [Num (Z.shiftr g 20)].

Definition interrupts : Z := Z.lor (Z.lor MIP_SSIP MIP_STIP) MIP_SEIP.
Definition exceptions : Z :=
  let bit c := u32 (Z.shiftl 1 c) in
  Z.lor (Z.lor (Z.lor (Z.lor (Z.lor (bit CAUSE_MISALIGNED_FETCH) (bit CAUSE_FETCH_PAGE_FAULT))
    (bit CAUSE_BREAKPOINT)) (bit CAUSE_LOAD_PAGE_FAULT)) (bit CAUSE_STORE_PAGE_FAULT))
    (bit CAUSE_USER_ECALL).

Definition delegate_traps : M (world H) () :=
  s ← supports_extension 83;
  if negb (truthy s) then sprint (Lit (bytes ("S mode is not supported." +:+ newline))) []
  else
    write_csr mideleg interrupts;;
    write_csr medeleg exceptions;;
    i ← read_csr mideleg;
    assert_at "kernel/machine/minit.c" 75 (i =? interrupts) "read_csr(mideleg) == interrupts";;
    e ← read_csr medeleg;
    assert_at "kernel/machine/minit.c" 76 (e =? exceptions) "read_csr(medeleg) == exceptions".

Definition timerinit (hartid : Z) : M (world H) () :=
  t ← on_mem (load64 CLINT_MTIME);
  on_mem (store64 (CLINT_MTIMECMP hartid) (u64 (t + TIMER_INTERVAL)));;
  e ← read_csr mie;
  write_csr mie (Z.lor e MIE_MTIE).

Definition m_start (htif_scan : Z) (scan : mem_scan) (hartid dtb : Z) : M (world H) (mode * Z) :=
  spike_file_init;;
  sprint (Lit (bytes ("In m_start, hartid:%d" +:+ newline))) [Num hartid];;
  init_dtb htif_scan scan dtb;;
  write_csr mscratch addr_g_itrframe;;
  s ← read_csr mstatus;
  write_csr mstatus (Z.lor (Z.land s (not64 MSTATUS_MPP_MASK)) MSTATUS_MPP_S);;
  write_csr mepc addr_s_start;;
  write_csr mtvec addr_mtrapvec;;
  s ← read_csr mstatus;
  write_csr mstatus (Z.lor s MSTATUS_MIE);;
  delegate_traps;;
  e ← read_csr sie;
  write_csr sie (Z.lor (Z.lor (Z.lor e SIE_SEIE) SIE_STIE) SIE_SSIE);;
  timerinit hartid;;
  target ← gets mret_target;
  modify mret_effect;;
  mret target.
End minit.

(** * What a boot relies on *)
Section specs.
Context {H : Type} `{HH : Host H} `{PP : Platform} `{!RiscvCsrs} `{!InterruptCsrs} `{!Linked}.
Implicit Types w : world H.

(** The hart has a supervisor mode, and the traps that are delegated can be. *)
Record delegates w : Prop := {
  dl_supervisor : Z.testbit (w_csr w misa) 18 = true;
  dl_interrupts old : csr_written mideleg old interrupts = interrupts;
  dl_exceptions old : csr_written medeleg old exceptions = exceptions;
}.
(** The CLINT: the time is [t], and [mtimecmp] of the hart is there. *)
Record clint w (hartid t : Z) : Prop := {
  cl_time : word_at (w_mem w) CLINT_MTIME = Some t;
  cl_cmp : is_Some (word_at (w_mem w) (CLINT_MTIMECMP hartid));
}.
(** The device tree is one both scans understand, with a memory of [g] bytes. *)
Record device_tree w (dtb strings struct : Z) (t : dtree) (g : Z) : Prop := {
  dt_wf : mem_wf (w_mem w);
  dt_mem_lits : mem_lits (w_mem w);
  dt_htif_lits : htif_lits (w_mem w);
  dt_blob : fdt_blob (w_mem w) dtb strings struct t;
  dt_typed : Forall typed (visits strings struct [] default_cells t).1;
  dt_listed : Forall listed (visits strings struct [] default_cells t).1;
  dt_memory v :
    v ∈ (visits strings struct [] default_cells t).1 → is_memory (v_values v) = true →
    ∃ k a s r, memory_visit v k a s r;
  dt_size : g = foldl (pick addr_mem_done) 0
                  (concat (map visit_regions (visits strings struct [] default_cells t).1));
  dt_some : 0 < g < 2 ^ 64;
}.

Definition hartid_msg (hartid : Z) : list Z :=
  bytes "In m_start, hartid:" ++ dec (s32 hartid) ++ [10].
Definition memory_msg (g : Z) : list Z :=
  bytes "(Emulated) memory size: " ++ dec (Z.shiftr g 20) ++ bytes (" MB" +:+ newline).
Definition htif_msg : list Z := bytes ("HTIF is available!" +:+ carriage +:+ newline).

(** The world after [init_dtb]. *)
Definition discovered (k : Z) (t : dtree) (g : Z) w : world H :=
  let w := if existsb is_htif (nodes t) then set_htif 1 w else w in
  let w := if truthy (w_htif w) then printed k htif_msg w else w in
  printed k (memory_msg g) (set_mem_size g w).

Lemma init_dtb_Ret w k x scan dtb strings struct t g :
  console w k → device_tree w dtb strings struct t g →
  init_dtb x scan dtb w = Ret tt (discovered k t g w).
Proof.
  intros Hk [Hwf Hml Hhl Hb Hty Hli Hmv Hg Hpos]. unfold init_dtb.
  mrun (query_htif_Ret (w_mem w) Hwf Hhl dtb strings struct t x w Hb eq_refl Hli).
  set (w1 := if existsb is_htif (nodes t) then set_htif 1 w else w).
  assert (w_mem w1 = w_mem w ∧ console w1 k) as [Hm1 Hk1] by (unfold w1; by destruct (existsb _ _)).
  unfold gets at 1. rewrite (bind_Ret _ _ w1 (w_htif w1) w1) by done.
  set (w2 := if truthy (w_htif w1) then printed k htif_msg w1 else w1).
  assert (w_mem w2 = w_mem w ∧ console w2 k) as [Hm2 Hk2] by (unfold w2; by destruct (truthy _)).
  rewrite (bind_Ret _ _ w1 tt w2).
  2:{ unfold w2. destruct (truthy (w_htif w1)); cbn [when]; [|done].
      apply sprint_plain; [done|plain_tac|by vm_compute]. }
  rewrite (bind_Ret _ _ w2 tt (set_mem_size g w2)).
  2:{ rewrite (query_mem_Ret (w_mem w) dtb strings struct t scan w2 Hwf Hml Hb Hm2 Hty Hmv), <- Hg.
      by rewrite Z.gtb_ltb, (proj2 (Z.ltb_lt _ _)) by lia. }
  unfold gets. rewrite (bind_Ret _ _ _ g (set_mem_size g w2)) by done.
  assert (0 ≤ Z.shiftr g 20 < 2 ^ 63) as Hsh.
  { rewrite Z.shiftr_div_pow2 by lia. split; [apply Z.div_pos; lia|]. apply Z.div_lt_upper_bound; lia. }
  pose proof (sprint_ld (set_mem_size g w2) k (bytes "(Emulated) memory size: ") (bytes (" MB" +:+ newline))
    (Z.shiftr g 20) Hk2 ltac:(plain_tac) ltac:(plain_tac)) as Hs.
  rewrite s64_id in Hs by lia. by apply Hs; [lia|vm_compute].
Qed.

Lemma misa_bit x : truthy (s32 (Z.land x (Z.shiftl 1 18))) = Z.testbit x 18.
Proof. rewrite land_bit by done. by destruct (Z.testbit x 18). Qed.

Definition delegated w : world H := csr_set medeleg exceptions (csr_set mideleg interrupts w).
Lemma delegate_traps_Ret w : delegates w → delegate_traps w = Ret tt (delegated w).
Proof.
  intros [Hs Hi He]. unfold delegate_traps, supports_extension.
  rewrite bind_assoc, (bind_Ret _ _ w (w_csr w misa) w), mret_bind by done.
  change (83 - 65) with 18. rewrite misa_bit, Hs. cbn [negb].
  rewrite (bind_Ret _ _ w tt (csr_set mideleg interrupts w)) by done.
  rewrite (bind_Ret _ _ _ tt (delegated w)) by done.
  rewrite (bind_Ret _ _ (delegated w) interrupts (delegated w)).
  2:{ unfold read_csr, gets, delegated. rewrite csr_set_ne by done. by rewrite csr_set_eq, Hi. }
  rewrite Z.eqb_refl. cbn [assert_at]. rewrite mret_bind.
  rewrite (bind_Ret _ _ (delegated w) exceptions (delegated w)).
  2:{ unfold read_csr, gets, delegated. by rewrite csr_set_eq, He. }
  by rewrite Z.eqb_refl.
Qed.
(** Without a supervisor mode nothing is delegated, and the boot goes on. *)
Lemma delegate_traps_none w k :
  console w k → Z.testbit (w_csr w misa) 18 = false →
  delegate_traps w = Ret tt (printed k (bytes ("S mode is not supported." +:+ newline)) w).
Proof.
  intros Hk Hs. unfold delegate_traps, supports_extension.
  rewrite bind_assoc, (bind_Ret _ _ w (w_csr w misa) w), mret_bind by done.
  change (83 - 65) with 18. rewrite misa_bit, Hs. cbn [negb].
  apply sprint_plain; [done|plain_tac|by vm_compute].
Qed.

Definition timed (hartid t : Z) w : world H :=
  csr_set mie (Z.lor (w_csr w mie) MIE_MTIE)
    (set_mem (write_word (w_mem w) (CLINT_MTIMECMP hartid) (u64 (t + TIMER_INTERVAL))) w).
Lemma timerinit_Ret w hartid t : clint w hartid t → timerinit hartid w = Ret tt (timed hartid t w).
Proof.
  intros [Ht Hc]. unfold timerinit.
  assert (load64 CLINT_MTIME (w_mem w) = Ret t (w_mem w)) as Hl by by apply load64_word.
  mrun (on_mem_read _ w t Hl).
  pose proof (on_mem_Ret _ w tt _ (store64_word (w_mem w) (CLINT_MTIMECMP hartid) (u64 (t + TIMER_INTERVAL)) Hc)) as Hs.
  mrun Hs. by rewrite (bind_Ret _ _ _ (w_csr w mie) (set_mem
    (write_word (w_mem w) (CLINT_MTIMECMP hartid) (u64 (t + TIMER_INTERVAL))) w)).
Qed.

(** The CSR writes between the discovery and the delegation. *)
Definition vectored w : world H :=
  let w := csr_set mscratch addr_g_itrframe w in
  let w := csr_set mstatus (Z.lor (Z.land (w_csr w mstatus) (not64 MSTATUS_MPP_MASK)) MSTATUS_MPP_S) w in
  let w := csr_set mtvec addr_mtrapvec (csr_set mepc addr_s_start w) in
  csr_set mstatus (Z.lor (w_csr w mstatus) MSTATUS_MIE) w.
Definition booted (hartid t : Z) w : world H :=
  let w := delegated (vectored w) in
  timed hartid t (csr_set sie (Z.lor (Z.lor (Z.lor (w_csr w sie) SIE_SEIE) SIE_STIE) SIE_SSIE) w).

(** The world [init_dtb] starts in. *)
Definition opened (hartid : Z) w : world H :=
  printed 2 (hartid_msg hartid) (set_fds sample_fds (set_files sample_files w)).

Lemma m_start_Ret w x scan hartid dtb strings struct tr g t :
  w_files w = spike_files_init → w_fds w = spike_fds_init →
  device_tree w dtb strings struct tr g → delegates w → clint w hartid t →
  let w' := booted hartid t (discovered 2 tr g (opened hartid w)) in
  m_start x scan hartid dtb w = Ret (mret_target w') (mret_effect w').
Proof.
  intros Hf Hd Htree Hdel Hcl w'. unfold m_start.
  mrun (spike_file_init_spec w Hf Hd). set (w1 := set_fds _ _).
  assert (console w1 2) as Hk by (eexists; by split).
  rewrite (bind_Ret _ _ w1 tt (opened hartid w)).
  2:{ apply (sprint_d w1 2 (bytes "In m_start, hartid:") [10] hartid Hk); [plain_tac|plain_tac|by vm_compute]. }
  assert (console (opened hartid w) 2) as Hk2 by done.
  assert (device_tree (opened hartid w) dtb strings struct tr g) as Htree2
    by (destruct Htree; by split).
  mrun (init_dtb_Ret (opened hartid w) 2 x scan dtb strings struct tr g Hk2 Htree2).
  set (w2 := discovered 2 tr g (opened hartid w)) in *.
  assert (w_mem w2 = w_mem w ∧ w_csr w2 = w_csr w) as [Hm2 Hc2].
  { unfold w2, discovered. destruct (existsb _ _), (truthy _); done. }
  set (v1 := csr_set mscratch addr_g_itrframe w2). rewrite (bind_Ret _ _ w2 tt v1) by done.
  rewrite (bind_Ret _ _ v1 (w_csr v1 mstatus) v1) by done.
  set (v2 := csr_set mstatus (Z.lor (Z.land (w_csr v1 mstatus) (not64 MSTATUS_MPP_MASK)) MSTATUS_MPP_S) v1).
  rewrite (bind_Ret _ _ v1 tt v2) by done.
  set (v3 := csr_set mepc addr_s_start v2). rewrite (bind_Ret _ _ v2 tt v3) by done.
  set (v4 := csr_set mtvec addr_mtrapvec v3). rewrite (bind_Ret _ _ v3 tt v4) by done.
  rewrite (bind_Ret _ _ v4 (w_csr v4 mstatus) v4) by done.
  rewrite (bind_Ret _ _ v4 tt (vectored w2)) by done.
  assert (delegates (vectored w2)) as Hdel2.
  { destruct Hdel as [Hs Hi He]. split; [|done|done]. unfold vectored.
    rewrite !csr_set_ne by done. by rewrite Hc2. }
  mrun (delegate_traps_Ret (vectored w2) Hdel2). set (w3 := delegated (vectored w2)).
  rewrite (bind_Ret _ _ w3 (w_csr w3 sie) w3) by done. 
  set (w4 := csr_set sie (Z.lor (Z.lor (Z.lor (w_csr w3 sie) SIE_SEIE) SIE_STIE) SIE_SSIE) w3).
  rewrite (bind_Ret _ _ w3 tt w4) by done.
  assert (clint w4 hartid t) as Hcl4.
  { destruct Hcl. split; change (w_mem w4) with (w_mem w2); by rewrite Hm2. }
  by mrun (timerinit_Ret w4 hartid t Hcl4).
Qed.

(** ** What the machine is left in *)
Lemma mpp_supervisor x :
  Z.testbit x 11 = true → Z.testbit x 12 = false →
  Z.shiftr (Z.land x MSTATUS_MPP_MASK) 11 = 1.
Proof.
  intros H11 H12. apply Z.bits_inj'. intros n Hn. rewrite Z.shiftr_spec, Z.land_spec by done.
  unfold MSTATUS_MPP_MASK. rewrite Z.shiftl_spec by lia. replace (n + 11 - 11) with n by lia.
  destruct (decide (n = 0)) as [->|]; [change (0 + 11) with 11; by rewrite H11|].
  destruct (decide (n = 1)) as [->|]; [change (1 + 11) with 12; by rewrite H12|].
  rewrite (testbit_high 3 2), (testbit_high 1 1) by lia. by rewrite andb_false_r.
Qed.

(** [mret] and the bits of [mstatus]. *)
Lemma mret_mstatus_bits x :
  Z.testbit (mret_mstatus x) 3 = Z.testbit x 7 ∧ Z.testbit (mret_mstatus x) 7 = true ∧
  Z.testbit (mret_mstatus x) 11 = false ∧ Z.testbit (mret_mstatus x) 12 = false.
Proof.
  unfold mret_mstatus. rewrite !Z.setbit_eqb, !Z.clearbit_eqb by lia. cbn [Z.eqb Pos.eqb orb negb].
  rewrite !andb_true_r, !andb_false_r. split_and!; try done.
  destruct (Z.testbit x 7), (_ =? 3);
    rewrite ?Z.clearbit_eqb, ?Z.setbit_eqb, ?Z.clearbit_eqb by lia; cbn [Z.eqb Pos.eqb orb negb];
    by rewrite ?andb_true_r, ?andb_false_r.
Qed.
Lemma mret_effect_ne w c : c ≠ mstatus → w_csr (mret_effect w) c = w_csr w c.
Proof. intros Hc. cbn [mret_effect w_csr set_csr]. by rewrite decide_False. Qed.

Lemma vectored_csrs w :
  0 ≤ addr_g_itrframe < 2 ^ 64 →
  let w' := vectored w in
  w_csr w' mscratch = addr_g_itrframe ∧ w_csr w' mepc = addr_s_start ∧
  w_csr w' mtvec = addr_mtrapvec ∧ Z.testbit (w_csr w' mstatus) 7 = Z.testbit (w_csr w mstatus) 7 ∧
  Z.testbit (w_csr w' mstatus) 11 = true ∧ Z.testbit (w_csr w' mstatus) 12 = false.
Proof.
  intros Hg w'. destruct lk_s_start as [Hs Hsa]. destruct lk_mtrapvec as [Hv Hva].
  unfold w', vectored. set (w1 := csr_set mscratch addr_g_itrframe w).
  set (x := Z.lor (Z.land (w_csr w1 mstatus) (not64 MSTATUS_MPP_MASK)) MSTATUS_MPP_S).
  set (w2 := csr_set mstatus x w1). set (w3 := csr_set mtvec _ _).
  assert (∀ k, k = 3 ∨ k = 11 ∨ k = 12 → Z.testbit (w_csr w3 mstatus) k = Z.testbit x k) as Hx.
  { intros k Hk. unfold w3. rewrite !csr_set_ne by done. unfold w2. rewrite csr_set_eq.
    apply csr_mstatus; [done|]. left. unfold x. rewrite Z.lor_spec, Z.land_spec, testbit_not64 by lia.
    by rewrite andb_false_r. }
  assert (Z.testbit x 11 = true ∧ Z.testbit x 12 = false) as [H11 H12].
  { unfold x. rewrite !Z.lor_spec, !Z.land_spec, !testbit_not64 by lia.
    by rewrite !andb_false_r. }
  assert (∀ k, k = 3 ∨ k = 11 ∨ k = 12 →
    Z.testbit (w_csr (csr_set mstatus (Z.lor (w_csr w3 mstatus) MSTATUS_MIE) w3) mstatus) k =
    Z.testbit (w_csr w3 mstatus) k || (3 =? k)) as Hm.
  { intros k Hk. rewrite csr_set_eq, csr_mstatus; [|done|].
    - rewrite Z.lor_spec. unfold MSTATUS_MIE. by rewrite testbit_shiftl1.
    - left. rewrite Z.lor_spec, Hx, H12 by auto. done. }
  rewrite !csr_set_ne by done. split_and!.
  - unfold w3. rewrite !csr_set_ne by done. unfold w2. rewrite csr_set_ne by done.
    unfold w1. rewrite csr_set_eq. apply csr_scratch; [by right|lia].
  - unfold w3. rewrite csr_set_ne by done. rewrite csr_set_eq. apply csr_epc; [by right|lia|done].
  - unfold w3. rewrite csr_set_eq. apply csr_tvec; [by right|lia|done].
  - rewrite csr_set_eq, csr_mpie, Z.lor_spec. unfold MSTATUS_MIE. rewrite testbit_shiftl1 by done.
    rewrite orb_false_r. unfold w3. rewrite !csr_set_ne by done. unfold w2. rewrite csr_set_eq, csr_mpie.
    unfold x. rewrite Z.lor_spec, Z.land_spec, testbit_not64 by lia.
    unfold w1. rewrite csr_set_ne by done. change (Z.testbit MSTATUS_MPP_S 7) with false.
    change (Z.testbit MSTATUS_MPP_MASK 7) with false. by rewrite orb_false_r, andb_true_r.
  - rewrite Hm, Hx, H11 by auto. done.
  - rewrite Hm, Hx, H12 by auto. done.
Qed.

Lemma booted_csr hartid t w c :
  c ≠ mie → c ≠ sie → c ≠ medeleg → c ≠ mideleg →
  w_csr (booted hartid t w) c = w_csr (vectored w) c.
Proof.
  intros. unfold booted, timed, delegated. rewrite csr_set_ne by done. cbn [w_csr set_mem].
  by rewrite !csr_set_ne.
Qed.

(** The CSRs after the boot, from what they were: where machine traps go and their frame; machine
    timer interrupts enabled in [mie], supervisor software interrupts in [sie]; what is delegated; and
    [mstatus] as the [mret] leaves it, with MIE as MPIE was, MPIE set and MPP the user mode. *)
Record booted_csrs w w' : Prop := {
  bc_scratch : w_csr w' mscratch = addr_g_itrframe;
  bc_tvec : w_csr w' mtvec = addr_mtrapvec;
  bc_timer : Z.testbit (w_csr w' mie) 7 = true;
  bc_software : Z.testbit (w_csr w' sie) 1 = true;
  bc_mideleg : w_csr w' mideleg = interrupts;
  bc_medeleg : w_csr w' medeleg = exceptions;
  bc_mie : Z.testbit (w_csr w' mstatus) 3 = Z.testbit (w_csr w mstatus) 7;
  bc_mpie : Z.testbit (w_csr w' mstatus) 7 = true;
  bc_mpp : Z.testbit (w_csr w' mstatus) 11 = false ∧ Z.testbit (w_csr w' mstatus) 12 = false;
}.

Lemma booted_csrs_ok w hartid t :
  delegates w → 0 ≤ addr_g_itrframe < 2 ^ 64 → booted_csrs w (mret_effect (booted hartid t w)).
Proof.
  intros Hdel Hg. destruct (vectored_csrs w Hg) as (Hs & Hepc & Htv & Hie & H11 & H12).
  destruct (mret_mstatus_bits (w_csr (booted hartid t w) mstatus)) as (M3 & M7 & M11 & M12).
  split; try (rewrite mret_effect_ne by done; rewrite ?booted_csr by done); try done.
  - unfold booted, timed. rewrite csr_set_eq, csr_mie, Z.lor_spec. apply orb_true_r.
  - unfold booted, timed. rewrite csr_set_ne by done. cbn [w_csr set_mem].
    rewrite csr_set_eq, csr_sie, Z.lor_spec. apply orb_true_r.
  - destruct Hdel. unfold booted, timed, delegated. rewrite csr_set_ne by done. cbn [w_csr set_mem].
    do 2 (rewrite csr_set_ne by done). by rewrite csr_set_eq.
  - destruct Hdel. unfold booted, timed, delegated. rewrite csr_set_ne by done. cbn [w_csr set_mem].
    rewrite csr_set_ne by done. by rewrite csr_set_eq.
  - cbn [mret_effect w_csr set_csr]. rewrite decide_True, M3, booted_csr by done. exact Hie.
Qed.

(** What the boot has set up at its end. *)
Lemma m_start_facts w x scan hartid dtb strings struct tr g t :
  w_files w = spike_files_init → w_fds w = spike_fds_init →
  device_tree w dtb strings struct tr g → delegates w → clint w hartid t →
  0 ≤ addr_g_itrframe < 2 ^ 64 →
  let w' := mret_effect (booted hartid t (discovered 2 tr g (opened hartid w))) in
  m_start x scan hartid dtb w = Ret (SupervisorMode, addr_s_start) w' ∧ booted_csrs w w' ∧
    word_at (w_mem w') (CLINT_MTIMECMP hartid) = Some (u64 (t + TIMER_INTERVAL)) ∧
    (∀ a, a < CLINT_MTIMECMP hartid ∨ CLINT_MTIMECMP hartid + 8 ≤ a → w_mem w' !! a = w_mem w !! a) ∧
    w_files w' = sample_files ∧ w_fds w' = sample_fds ∧ w_mem_size w' = g ∧
    w_htif w' = if existsb is_htif (nodes tr) then 1 else w_htif w.
Proof.
  intros Hf Hd Htree Hdel Hcl Hg w'. set (w2 := discovered 2 tr g (opened hartid w)).
  destruct (vectored_csrs w2 Hg) as (Hs & Hepc & Htv & Hie & H11 & H12).
  assert (w_mem w2 = w_mem w ∧ w_csr w2 = w_csr w ∧ w_files w2 = sample_files ∧ w_fds w2 = sample_fds ∧
    w_mem_size w2 = g ∧ w_htif w2 = if existsb is_htif (nodes tr) then 1 else w_htif w) as (Hm & Hc & Hrest).
  { unfold w2, discovered. destruct (existsb _ _), (truthy _); done. }
  change w' with (mret_effect (booted hartid t w2)). split_and!; try apply Hrest.
  - rewrite (m_start_Ret w x scan hartid dtb strings struct tr g t Hf Hd Htree Hdel Hcl). f_equal.
    unfold mret_target. fold w2.
    rewrite (booted_csr _ _ _ mstatus), (booted_csr _ _ _ mepc), mpp_supervisor, Hepc by done. done.
  - assert (delegates w2) as Hdel2 by (destruct Hdel; split; rewrite ?Hc; done).
    destruct (booted_csrs_ok w2 hartid t Hdel2 Hg). split; try done. by rewrite <- Hc.
  - unfold booted, timed. cbn [mret_effect w_mem set_mem csr_set set_csr]. rewrite word_at_write. f_equal.
    apply u64_id, u64_range.
  - intros a Ha. unfold booted, timed. cbn [mret_effect w_mem set_mem csr_set set_csr].
    transitivity (w_mem w2 !! a); [by apply lookup_write_word_ne|by rewrite Hm].
Qed.
(** C12. The boot, from the C entry point in machine mode to supervisor mode: with a device tree the
    two scans understand, a CLINT and delegable traps, [m_start] opens the three standard streams,
    finds the memory and HTIF, and its [mret] enters [s_start] in supervisor mode.  Machine traps go
    to [mtrapvec] with [g_itrframe] as their frame, the machine timer interrupt is enabled in [mie]
    and the first one is due one interval from now; what is to be delegated goes to supervisor mode,
    whose software interrupts are enabled in [sie].  The MIE bit [m_start] sets does not survive the
    [mret], which puts back what MPIE was: only outside machine mode are timer interrupts sure to be
    taken. *)
Theorem m_start_spec w x scan hartid dtb strings struct tr g t :
  w_files w = spike_files_init → w_fds w = spike_fds_init →
  device_tree w dtb strings struct tr g → delegates w → clint w hartid t →
  0 ≤ addr_g_itrframe < 2 ^ 64 →
  ∃ w', m_start x scan hartid dtb w = Ret (SupervisorMode, addr_s_start) w' ∧ booted_csrs w w' ∧
    word_at (w_mem w') (CLINT_MTIMECMP hartid) = Some (u64 (t + TIMER_INTERVAL)) ∧
    (∀ a, a < CLINT_MTIMECMP hartid ∨ CLINT_MTIMECMP hartid + 8 ≤ a → w_mem w' !! a = w_mem w !! a) ∧
    w_files w' = sample_files ∧ w_fds w' = sample_fds ∧ w_mem_size w' = g ∧
    w_htif w' = if existsb is_htif (nodes tr) then 1 else w_htif w.
Proof.
  intros. exists (mret_effect (booted hartid t (discovered 2 tr g (opened hartid w)))).
  by eapply m_start_facts.
Qed.
End specs.

(** * Instances *)
Import SampleMachine.

(** The memory of a machine before its boot: the device tree, the literals, the CLINT and the
    frame for machine traps. *)
Definition power_on_mem : mem :=
  let m := write_bytes ∅ 0x80010000 (replicate 248 0) in
  let m := write_bytes m (CLINT_MTIMECMP 0) (replicate 8 0) in
  let m := write_word (write_bytes m CLINT_MTIME (replicate 8 0)) CLINT_MTIME 700 in
  sample_fdt_mem m.
Definition power_on : world sample_host :=
  World _ power_on_mem (λ c, match c with misa => Z.shiftl 1 18 | _ => 0 end)
    spike_files_init spike_fds_init 0 0 0 0 (SampleHost [] []).

Lemma power_on_tree :
  device_tree power_on sample_fdt sample_strings_at sample_struct sample_tree 0x80000000.
Proof.
  split.
  - apply sample_fdt_mem_wf, mem_wf_write_word, mem_wf_write_bytes, Forall_replicate; [|lia].
    apply mem_wf_write_bytes, Forall_replicate; [|lia].
    apply mem_wf_write_bytes, Forall_replicate; [apply map_Forall_empty|lia].
  - apply sample_mem_lits.
  - apply sample_htif_lits.
  - apply sample_blob_at.
  - apply sample_typed.
  - apply sample_listed.
  - apply sample_memory_visits.
  - by vm_compute.
  - lia.
Qed.
Lemma power_on_clint : clint power_on 0 700.
Proof. split; [by vm_compute|]. eexists. by vm_compute. Qed.
Lemma power_on_delegates : delegates power_on.
Proof. by split. Qed.

Lemma m_start_spec_witness :
  ∃ w', m_start 7 (MemScan 7 7 7) 0 sample_fdt power_on = Ret (SupervisorMode, addr_s_start) w' ∧
    booted_csrs power_on w' ∧
    word_at (w_mem w') (CLINT_MTIMECMP 0) = Some (u64 (700 + TIMER_INTERVAL)) ∧
    (∀ a, a < CLINT_MTIMECMP 0 ∨ CLINT_MTIMECMP 0 + 8 ≤ a → w_mem w' !! a = w_mem power_on !! a) ∧
    w_files w' = sample_files ∧ w_fds w' = sample_fds ∧ w_mem_size w' = 0x80000000 ∧
    w_htif w' = if existsb is_htif (nodes sample_tree) then 1 else w_htif power_on.
Proof.
  apply (m_start_spec power_on 7 (MemScan 7 7 7) 0 sample_fdt sample_strings_at sample_struct sample_tree
    0x80000000 700 eq_refl eq_refl power_on_tree power_on_delegates power_on_clint).
  split; [discriminate|reflexivity].
Defined.
