(* ===== verification/UserLib.v ===== *)
(** The application's side of a system call: user/user_lib.c, composed with the whole round a
    trap makes (Strap.v).

    The application runs with the registers [f]; [ecall] is executed at [pc].  Kernel and
    application share one address space, so the local array [out] of [printu] is in the memory of
    the world, at an address that is an argument of the definition. *)
From S2P Require Import Prelude Mem CString Snprintf World Sample SpikeUtils SpikeFile Asm Process Syscall Strap Dts.

Section user.
Context {H : Type} `{HH : Host H} `{PP : Platform}.

(** The [ecall] instruction in user mode: the cause, the pc and the mode go to the CSRs, and
    control to [stvec]. *)
Definition ecall_csrs (pc : Z) (w : world H) : world H :=
  set_csr (λ c, match c with
    | scause => CAUSE_USER_ECALL
    | sepc => pc
    | sstatus => Z.land (w_csr w sstatus) (not64 SSTATUS_SPP)
    | c => w_csr w c
    end) w.
Definition ecall (pc : Z) (f : reg → Z) : M (world H) entry := λ w,
  if w_csr w stvec =? addr_smode_trap_vector then trap_round f (ecall_csrs pc w) else Fault.

(** The arguments of [do_user_call] are in the argument registers. *)
Definition with_args (f : reg → Z) (a0 a1 a2 a3 a4 a5 a6 a7 : Z) : reg → Z := λ r,
  match r with
  | A0 => u64 a0 | A1 => u64 a1 | A2 => u64 a2 | A3 => u64 a3
  | A4 => u64 a4 | A5 => u64 a5 | A6 => u64 a6 | A7 => u64 a7
  | r => f r
  end.

(** [sw a0, ret] stores 32 bits. *)
Definition do_user_call (pc : Z) (f : reg → Z) (sysnum a1 a2 a3 a4 a5 a6 a7 : Z) : M (world H) Z :=
  e ← ecall pc (with_args f sysnum a1 a2 a3 a4 a5 a6 a7);
  mret (s32 (e_regs e A0)).

(** The library on top of it; [call] is [do_user_call] as the functions of the library call it: at
    the [ecall] of a machine with certain registers, here, or with its stack frame, in App.v. *)
Definition user_call : Type := Z → Z → Z → Z → Z → Z → Z → Z → M (world H) Z.

Definition printu_size : Z := 256.
(** [vsnprintf] into the array at [out]. *)
Definition vsnprintf_at (out n : Z) (s : cval) (vl : list cval) : M (world H) Z := λ w,
  match read_bytes (w_mem w) out (Z.to_nat n) with
  | None => Fault
  | Some bs =>
      match vsnprintf (w_mem w) n s vl bs with
      | Ret res bs' => Ret res (set_mem (write_bytes (w_mem w) out bs') w)
      | Halted _ => Halted w
      | Fault => Fault
      | NoFuel => NoFuel
      end
  end.
Definition printu (call : user_call) (out : Z) (s : cval) (vl : list cval) : M (world H) Z :=
  res ← vsnprintf_at out printu_size s vl;
  let n := if u64 res <? printu_size then res else printu_size in
  call SYS_user_print out n 0 0 0 0 0.

Definition exit (call : user_call) (code : Z) : M (world H) Z :=
  call SYS_user_exit code 0 0 0 0 0 0.
Definition print_backtrace (call : user_call) (depth : Z) : M (world H) Z :=
  call SYS_user_backtrace depth 0 0 0 0 0 0.
End user.

Section calls.
Context {H : Type} `{HH : Host H} `{PP : Platform} `{!RiscvCsrs} `{!Linked}.
Implicit Types w : world H.

Lemma with_args_ok f a0 a1 a2 a3 a4 a5 a6 a7 :
  regs_ok f → regs_ok (with_args f a0 a1 a2 a3 a4 a5 a6 a7).
Proof. intros Hf r. destruct r; try apply Hf; apply u64_range. Qed.

Lemma ecall_ready pc w proc tf : ready w proc tf → ready (ecall_csrs pc w) proc tf.
Proof. intros []. by split. Qed.
Lemma ecall_user pc w : Z.testbit (w_csr (ecall_csrs pc w) sstatus) 8 = false.
Proof.
  unfold ecall_csrs. cbn [w_csr set_csr]. rewrite Z.land_spec, testbit_not64 by lia.
  by rewrite andb_false_r.
Qed.
Lemma ecall_round pc f w proc tf :
  ready w proc tf → ecall pc f w = trap_round f (ecall_csrs pc w).
Proof. intros Hr. unfold ecall. by rewrite (rd_stvec _ _ _ Hr), Z.eqb_refl. Qed.

(** The world the call [do_syscall] runs in. *)
Definition call_world w (tf pc : Z) (f : reg → Z) : world H :=
  syscall_world (ecall_csrs pc w) tf f pc.
Lemma call_world_outside w tf pc f : same_outside tf (w_mem w) (w_mem (call_world w tf pc f)).
Proof.
  etrans; [apply (trap_mem_outside _ tf f)|]. etrans; by apply same_outside_write.
Qed.

Lemma call_world_facts w proc tf pc f :
  ready w proc tf → regs_ok f →
  let w' := call_world w tf pc f in
  layout (w_mem w') proc tf ∧ w_current w' = proc ∧ w_files w' = w_files w ∧ w_host w' = w_host w ∧
  ∀ r, word_at (w_mem w') (tf + reg_offset r) = Some (if decide (r = T6) then tf else f r).
Proof.
  intros Hr Hf w'. apply ecall_ready with (pc := pc) in Hr.
  destruct (trap_round_user (ecall_csrs pc w) proc tf f Hr Hf (ecall_user pc w)) as (_ & Hl1 & _ & Hreg).
  assert (layout (w_mem w') proc tf) as Hl by (by apply layout_frame_write).
  split_and!; try done; [apply (rd_current _ _ _ Hr)|]. intros r. rewrite <- Hreg.
  pose proof (reg_offset_range r). unfold frame_reg.
  destruct (layout_frame_word _ _ _ (reg_offset r) Hl ltac:(lia) ltac:(unfold sizeof_trapframe; lia)) as [v Hv].
  rewrite Hv. unfold w', call_world, syscall_world in Hv. cbn [w_mem set_mem] in Hv.
  rewrite word_at_write_ne in Hv by (unfold tf_epc; lia).
  change (w_csr (ecall_csrs pc w) sepc) with pc. by rewrite Hv.
Qed.

Lemma s32_u64 x : s32 (u64 x) = s32 x.
Proof.
  unfold s32, u64. rewrite (Z.div_mod x (2 ^ 64)) at 2 by lia. f_equal.
  replace (2 ^ 64 * (x / 2 ^ 64) + x `mod` 2 ^ 64 + 2 ^ 31) with
    (x `mod` 2 ^ 64 + 2 ^ 31 + (2 ^ 32 * (x / 2 ^ 64)) * 2 ^ 32) by lia.
  by rewrite Z_mod_plus_full.
Qed.

(** A call that returns. *)
Lemma do_user_call_Ret w proc tf pc f ret w2 a0 a1 a2 a3 a4 a5 a6 a7 :
  ready w proc tf → regs_ok f → 0 ≤ pc → pc + 4 < 2 ^ 64 → pc `mod` 4 = 0 →
  do_syscall (u64 a0) (u64 a1) (u64 a2) (u64 a3) (u64 a4) (u64 a5) (u64 a6) (u64 a7)
    (call_world w tf pc (with_args f a0 a1 a2 a3 a4 a5 a6 a7)) = Ret ret w2 →
  ∃ w', do_user_call pc f a0 a1 a2 a3 a4 a5 a6 a7 w = Ret (s32 ret) w' ∧ ready w' proc tf ∧
    same_outside tf (w_mem w) (w_mem w') ∧ w_files w' = w_files w ∧ w_host w' = w_host w2.
Proof.
  intros Hr Hf Hp Hp4 Ha Hcall. set (g := with_args f a0 a1 a2 a3 a4 a5 a6 a7) in *.
  destruct (syscall_round_Ret (ecall_csrs pc w) proc tf g pc ret w2) as
    (e & w' & He & _ & _ & Hregs & Hr' & Hs & (Hfi & _) & Hh); try done.
  - by apply ecall_ready.
  - by apply with_args_ok.
  - apply ecall_user.
  - exists w'. split_and!; try done. unfold do_user_call. fold g.
    rewrite (bind_Ret _ _ w e w') by (by rewrite (ecall_round pc g w proc tf Hr)).
    rewrite Hregs, decide_True by done. unfold mret, M_ret. by rewrite s32_u64.
Qed.

(** A call that ends the machine. *)
Lemma do_user_call_Halted w proc tf pc f w2 a0 a1 a2 a3 a4 a5 a6 a7 :
  ready w proc tf → regs_ok f → 0 ≤ pc → pc + 4 < 2 ^ 64 →
  do_syscall (u64 a0) (u64 a1) (u64 a2) (u64 a3) (u64 a4) (u64 a5) (u64 a6) (u64 a7)
    (call_world w tf pc (with_args f a0 a1 a2 a3 a4 a5 a6 a7)) = Halted w2 →
  do_user_call pc f a0 a1 a2 a3 a4 a5 a6 a7 w = Halted w2.
Proof.
  intros Hr Hf Hp Hp4 Hcall. set (g := with_args f a0 a1 a2 a3 a4 a5 a6 a7) in *.
  unfold do_user_call. fold g. apply bind_Halted. rewrite (ecall_round pc g w proc tf Hr).
  apply ecall_ready with (pc := pc) in Hr.
  destruct (trap_round_user (ecall_csrs pc w) proc tf g Hr (with_args_ok _ _ _ _ _ _ _ _ _ Hf)
    (ecall_user pc w)) as (-> & Hl1 & _ & Hreg).
  set (w1 := caught (ecall_csrs pc w) tf g (w_csr (ecall_csrs pc w) sepc)) in *.
  apply bind_Halted. unfold handle_cause. cbn [ecall_csrs w_csr set_csr]. rewrite Z.eqb_refl.
  mrun (load_field_Ret w1 proc proc_trapframe tf (lay_tf _ _ _ Hl1)).
  apply (handle_syscall_Halted w1 proc tf pc w2 Hl1).
  - unfold w1, caught. cbn [w_mem set_mem w_csr ecall_csrs set_csr]. rewrite word_at_write.
    f_equal. apply u64_id. lia.
  - rewrite !Hreg. exact Hcall.
Qed.

(** Memory the kernel keeps nothing in. *)
Definition user_area (proc tf out : Z) (n : Z) : Prop :=
  (out + n ≤ tf ∨ tf + sizeof_trapframe ≤ out) ∧ (out + n ≤ proc ∨ proc + sizeof_process ≤ out).

Lemma ready_write w proc tf out bs :
  ready w proc tf → Forall (λ b, 0 ≤ b < 256) bs → user_area proc tf out (Z.of_nat (length bs)) →
  ready (set_mem (write_bytes (w_mem w) out bs) w) proc tf.
Proof.
  intros Hr Hbs [Ho1 Ho2]. apply (ready_ext w); try reflexivity; [exact Hr| |].
  - apply mem_wf_write_bytes; [apply Hr|exact Hbs].
  - intros a Ha. apply lookup_write_bytes_ne. lia.
Qed.

(** The text [printu] leaves in its array, for one that fits. *)
Lemma vsnprintf_at_Ret w out s vl fmt r bs :
  cstring (w_mem w) s = Some fmt → render (w_mem w) fmt false false vl = Some r →
  zlen r < printu_size → read_bytes (w_mem w) out 256 = Some bs →
  vsnprintf_at out printu_size s vl w =
    Ret (zlen r) (set_mem (write_bytes (w_mem w) out (map u8 r ++ 0 :: drop (S (length r)) bs)) w).
Proof.
  intros Hs Hr Hl Hb. pose proof (read_bytes_length _ _ _ _ Hb) as Hlb.
  unfold vsnprintf_at. change (Z.to_nat printu_size) with 256%nat. rewrite Hb.
  unfold printu_size, zlen in *. rewrite (vsnprintf_render (w_mem w) 256 s fmt vl r bs ltac:(lia) Hs Hr ltac:(lia) ltac:(lia)).
  unfold snprintf_result. replace (256 =? 0) with false by done.
  cbv zeta. replace (Z.to_nat (Z.min (Z.of_nat (length r)) (256 - 1))) with (length r) by lia.
  by rewrite firstn_all.
Qed.

Lemma plain_u8 r : Forall (λ c, 0 ≤ c < 256) r → map u8 r = r.
Proof. induction 1 as [|c r Hc _ IH]; [done|]. cbn [map]. by rewrite u8_id, IH. Qed.

(** Up to the call, [printu] is [vsnprintf]. *)
Definition printu_text (r bs : list Z) : list Z := r ++ 0 :: drop (S (length r)) bs.
Lemma printu_Ret w call out s vl fmt r bs :
  cstring (w_mem w) s = Some fmt → render (w_mem w) fmt false false vl = Some r →
  Forall (λ c, 0 ≤ c < 256) r → zlen r < printu_size → read_bytes (w_mem w) out 256 = Some bs →
  printu call out s vl w =
    call SYS_user_print out (zlen r) 0 0 0 0 0 (set_mem (write_bytes (w_mem w) out (printu_text r bs)) w).
Proof.
  intros Hs Hr Hby Hl Hb. unfold printu. mrun (vsnprintf_at_Ret w out s vl fmt r bs Hs Hr Hl Hb).
  unfold printu_size, zlen, printu_text in *. rewrite plain_u8 by done.
  by rewrite u64_id, (proj2 (Z.ltb_lt _ _)) by lia.
Qed.
Lemma printu_text_length r bs : zlen r < printu_size → length bs = 256%nat → length (printu_text r bs) = 256%nat.
Proof.
  unfold zlen, printu_size, printu_text. intros Hl Hb. rewrite length_app. cbn [length].
  rewrite length_drop. lia.
Qed.
Lemma printu_text_range r bs :
  Forall (λ c, 0 ≤ c < 256) r → Forall (λ c, 0 ≤ c < 256) bs → Forall (λ c, 0 ≤ c < 256) (printu_text r bs).
Proof.
  intros Hr Hb. apply Forall_app. split; [done|]. constructor; [lia|by apply Forall_drop].
Qed.

(** The text is where the kernel looks for it. *)
Lemma text_in_call w tf pc f out r rest :
  Forall plain r → out + zlen r + 1 ≤ tf ∨ tf + sizeof_trapframe ≤ out →
  bytes_at (w_mem w) out (r ++ 0 :: rest) → cstr (w_mem (call_world w tf pc f)) out r.
Proof.
  intros Hr Ho Hb. apply (cstr_ext (w_mem w)).
  - intros i Hi. apply call_world_outside. unfold zlen in Ho. lia.
  - apply cstr_bytes.
    + change (r ++ 0 :: rest) with (r ++ [0] ++ rest) in Hb. rewrite app_assoc in Hb.
      by apply bytes_at_app in Hb as [Hb _].
    + by apply plain_nonzero.
Qed.

(** C14. [printu], end to end: an application that prints a text which fits in the array, and which
    has no conversions of its own once it is formatted, has exactly that text written to the
    console by the host, once; the call returns 0, the application's memory changed in the array
    only, and the kernel is ready for the next call. *)
Theorem printu_prints w k proc tf pc f out s vl fmt r :
  ready w proc tf → regs_ok f → console w k → 0 ≤ pc → pc + 4 < 2 ^ 64 → pc `mod` 4 = 0 →
  mapped (w_mem w) out 256 → 0 ≤ out < 2 ^ 64 → user_area proc tf out printu_size →
  cstring (w_mem w) s = Some fmt → render (w_mem w) fmt false false vl = Some r →
  Forall plain r → Forall (λ c, 0 ≤ c < 256) r → zlen r < printu_size →
  ∃ w', printu (do_user_call pc f) out s vl w = Ret 0 w' ∧ ready w' proc tf ∧
    w_host w' = host_calls [FeWrite k r] (w_host w) ∧
    (∀ a, a < tf ∨ tf + sizeof_trapframe ≤ a → a < out ∨ out + printu_size ≤ a →
      w_mem w' !! a = w_mem w !! a).
Proof.
  intros Hrd Hf Hk Hp Hp4 Ha [bs Hb]%read_bytes_is_Some Hout Hua Hs Hr Hpl Hby Hl.
  pose proof (printu_text_length r bs Hl (read_bytes_length _ _ _ _ Hb)) as Htext.
  rewrite (printu_Ret w _ out s vl fmt r bs Hs Hr Hby Hl Hb). unfold zlen, printu_size in Hl.
  set (w1 := set_mem _ w).
  assert (ready w1 proc tf) as Hrd1.
  { apply ready_write; [done| |by rewrite Htext]. apply printu_text_range; [done|].
    by eapply read_bytes_wf; [apply Hrd|]. }
  set (w2 := call_world w1 tf pc (with_args f SYS_user_print out (zlen r) 0 0 0 0 0)).
  assert (cstr (w_mem w2) out r) as Hcs.
  { apply (text_in_call _ _ _ _ _ _ (drop (S (length r)) bs)); [done| |apply read_write_bytes].
    destruct Hua as [Hua _]. unfold printu_size, zlen in *. lia. }
  destruct (do_syscall_print_Ret w2 k out (zlen r) 0 0 0 0 0 r r Hk Hcs) as (Hcall & _);
    [by apply render_plain|lia|].
  destruct (do_user_call_Ret w1 proc tf pc f 0 (printed k r w2) SYS_user_print out (zlen r) 0 0 0 0 0 Hrd1 Hf Hp Hp4 Ha)
    as (w' & Hret & Hr' & Hsame & _ & Hh).
  { rewrite !u64_id by (unfold zlen, SYS_user_print, SYS_user_base; lia). exact Hcall. }
  exists w'. split_and!; [exact Hret|done| |].
  - rewrite Hh. unfold printed. cbn [w_host set_host]. unfold printk_bytes, printk_size.
    rewrite (proj2 (Z.ltb_lt _ _)), plain_u8 by (done || lia). done.
  - intros a Ha1 Ha2. rewrite Hsame by done. apply lookup_write_bytes_ne. unfold printu_size in Ha2. lia.
Qed.

(** [exit], end to end: the call does not come back; the exit code is printed, the shutdown
    notice after it, and the host is told to exit with that code, negative ones included. *)
Theorem exit_stops w k proc tf pc f code :
  ready w proc tf → regs_ok f → console w k → 0 ≤ va_area < 2 ^ 63 → 0 ≤ pc → pc + 4 < 2 ^ 64 →
  - 2 ^ 31 ≤ code < 2 ^ 31 →
  ∃ w', exit (do_user_call pc f) code w = Halted w' ∧
    w_host w' = host_calls [FeWrite k (printk_bytes (exit_msg code));
      FeWrite k (printk_bytes (shutdown_msg code)); FeExit code] (w_host w).
Proof.
  intros Hrd Hf Hk Hva Hp Hp4 Hc. set (g := with_args f SYS_user_exit code 0 0 0 0 0 0).
  destruct (do_syscall_stops_Halted (call_world w tf pc g) k 0 (u64 code) 0 0 0 0 0 0 Hk Hva) as [Hcall _].
  eexists. split.
  - apply (do_user_call_Halted w proc tf pc f _ SYS_user_exit code); [done..|].
    change (u64 SYS_user_exit) with SYS_user_exit. change (u64 0) with 0. exact Hcall.
  - cbn [w_host set_host]. unfold exit_msg. by rewrite !s32_u64, s32_id.
Qed.
End calls.

(** * Instances *)
Import SampleMachine.

(** The array of [printu], on the application's stack. *)
Definition sample_out : Z := 0x810ff000.
Definition sample_array : list Z := replicate 256 7.
Definition user_world : world sample_host :=
  set_mem (write_bytes (w_mem (ready_world 0 0)) sample_out sample_array) (ready_world 0 0).
Lemma user_ready : ready user_world sample_proc USER_TRAP_FRAME.
Proof.
  unfold user_world.
  apply (ready_write (ready_world 0 0) sample_proc USER_TRAP_FRAME sample_out sample_array);
    [apply ready_sample|by apply Forall_replicate|].
  unfold user_area, sample_array. rewrite length_replicate. unfold sample_out, USER_TRAP_FRAME, sample_proc.
  change sizeof_process with 20512. unfold sizeof_trapframe. lia.
Qed.
Lemma user_array : mapped (w_mem user_world) sample_out 256.
Proof. apply read_bytes_is_Some. exists sample_array. apply (read_write_bytes (w_mem (ready_world 0 0)) sample_out sample_array). Qed.

Lemma printu_prints_witness :
  ∃ w', printu (do_user_call 0x81000100 ecall_regs) sample_out (Lit (bytes "pid %d")) [Num 7] user_world = Ret 0 w' ∧
    ready w' sample_proc USER_TRAP_FRAME ∧
    w_host w' = host_calls [FeWrite 2 (bytes "pid 7")] (w_host user_world) ∧
    (∀ a, a < USER_TRAP_FRAME ∨ USER_TRAP_FRAME + sizeof_trapframe ≤ a →
      a < sample_out ∨ sample_out + printu_size ≤ a → w_mem w' !! a = w_mem user_world !! a).
Proof.
  apply (printu_prints user_world 2 sample_proc USER_TRAP_FRAME 0x81000100 ecall_regs sample_out
    (Lit (bytes "pid %d")) [Num 7] (bytes "pid %d") (bytes "pid 7"));
    [apply user_ready|apply ecall_regs_ok|apply sample_console|lia|lia|reflexivity|apply user_array
    |unfold sample_out; lia| | | |plain_tac|vm_compute; repeat constructor; discriminate|reflexivity].
  - unfold user_area, sample_out, USER_TRAP_FRAME, sample_proc, printu_size.
    change sizeof_process with 20512. unfold sizeof_trapframe. lia.
  - apply cstring_lit. vm_compute. repeat constructor; discriminate.
  - reflexivity.
Defined.

Lemma exit_stops_witness :
  ∃ w', exit (do_user_call 0x81000100 ecall_regs) (-3) user_world = Halted w' ∧
    w_host w' = host_calls [FeWrite 2 (printk_bytes (exit_msg (-3)));
      FeWrite 2 (printk_bytes (shutdown_msg (-3))); FeExit (-3)] (w_host user_world).
Proof.
  apply (exit_stops user_world 2 sample_proc USER_TRAP_FRAME 0x81000100 ecall_regs (-3));
    [apply user_ready|apply ecall_regs_ok|apply sample_console|by vm_compute|lia|lia|lia].
Defined.
