(* ===== verification/System.v ===== *)
(** The machine while an application runs: user instructions, system calls and timer interrupts in
    any order, as a transition relation over the handlers of the other files.

    The kernel and the application share one address space ([s_start] writes 0 to [satp]), so that
    the application keeps out of the kernel's memory is a premise of its steps, not a property of
    the kernel. *)
From S2P Require Import Prelude Mem CString Snprintf World Sample SpikeUtils SpikeFile Asm Process Syscall Strap Mtrap UserLib.

Section system.
Context {H : Type} `{HH : Host H} `{PP : Platform}.

(** The machine timer interrupts a user program at [pc]. *)
Definition timer_interrupt (pc : Z) (w : world H) : world H :=
  set_csr (λ c, match c with
    | mcause => CAUSE_MTIMER
    | mepc => pc
    | mstatus => Z.land (w_csr w mstatus) (not64 MSTATUS_MPP_MASK)
    | c => w_csr w c
    end) w.
(** The supervisor software interrupt is pending, enabled and delegated. *)
Definition soft_pending (w : world H) : bool :=
  Z.testbit (w_csr w sip) 1 && Z.testbit (w_csr w sie) 1 && Z.testbit (w_csr w mideleg) 1.
(** It is taken in user mode at [pc]. *)
Definition soft_interrupt (pc : Z) (w : world H) : world H :=
  set_csr (λ c, match c with
    | scause => CAUSE_MTIMER_S_TRAP
    | sepc => pc
    | sstatus => Z.land (w_csr w sstatus) (not64 SSTATUS_SPP)
    | c => w_csr w c
    end) w.

(** A trap into machine mode, by way of [mtvec]. *)
Definition machine_trap (stack0 : Z) (clobbered f : reg → Z) : M (world H) entry := λ w,
  if negb (w_csr w mtvec =? addr_mtrapvec) then Fault else
  match mtrap_round stack0 clobbered f w with
  | Ret (m, pc) (Cpu _ f w) => Ret (Entry m pc f) w
  | Halted c => Halted (c_world c)
  | Fault => Fault
  | NoFuel => NoFuel
  end.
(** A trap into supervisor mode, by way of [stvec]. *)
Definition supervisor_trap (f : reg → Z) : M (world H) entry := λ w,
  if w_csr w stvec =? addr_smode_trap_vector then trap_round f w else Fault.

(** A timer interrupt in user mode: the machine trap, and when its [mret] goes back to user mode with
    the software interrupt pending, the supervisor trap at the very same instruction. *)
Definition timer_tick (stack0 : Z) (clobbered : reg → Z) (pc : Z) (f : reg → Z) :
    M (world H) entry := λ w,
  match machine_trap stack0 clobbered f (timer_interrupt pc w) with
  | Ret e w =>
      match e_mode e with
      | UserMode =>
          if soft_pending w then supervisor_trap (e_regs e) (soft_interrupt (e_pc e) w) else Ret e w
      | _ => Ret e w
      end
  | r => r
  end.

(** An exception of a user program at [pc], taken in machine mode or in supervisor mode; [medeleg]
    says which. *)
Definition machine_exception (cause tval pc : Z) (w : world H) : world H :=
  set_csr (λ c, match c with
    | mcause => cause | mepc => pc | mtval => tval
    | mstatus => Z.land (w_csr w mstatus) (not64 MSTATUS_MPP_MASK)
    | c => w_csr w c
    end) w.
Definition supervisor_exception (cause tval pc : Z) (w : world H) : world H :=
  set_csr (λ c, match c with
    | scause => cause | sepc => pc | stval => tval
    | sstatus => Z.land (w_csr w sstatus) (not64 SSTATUS_SPP)
    | c => w_csr w c
    end) w.
Definition user_exception (stack0 : Z) (clobbered : reg → Z) (cause tval pc : Z) (f : reg → Z) :
    M (world H) entry := λ w,
  if Z.testbit (w_csr w medeleg) cause then supervisor_trap f (supervisor_exception cause tval pc w)
  else machine_trap stack0 clobbered f (machine_exception cause tval pc w).

(** ** The transitions of a running application *)
Record hart := Hart { h_pc : Z; h_regs : reg → Z; h_world : world H }.
Inductive event := User | Call | Tick.
#[export] Instance event_eq_dec : EqDecision event.
Proof. solve_decision. Defined.

Definition user_pc (pc : Z) : Prop := 0 ≤ pc < 2 ^ 64 ∧ pc `mod` 4 = 0.
(** The memory the kernel relies on: the process, the two trap frames, [mtimecmp]. *)
Definition kernel_memory (proc tf p a : Z) : Prop :=
  tf ≤ a < tf + sizeof_trapframe ∨ proc ≤ a < proc + sizeof_process ∨
  p ≤ a < p + 248 ∨ CLINT_MTIMECMP 0 ≤ a < CLINT_MTIMECMP 0 + 8.
(** Of it, what the traps themselves write. *)
Definition trap_memory (tf p a : Z) : Prop :=
  tf ≤ a < tf + sizeof_trapframe ∨ p ≤ a < p + 248 ∨ CLINT_MTIMECMP 0 ≤ a < CLINT_MTIMECMP 0 + 8.

Inductive step (proc tf p : Z) : hart → event → hart → Prop :=
| step_user pc f w pc' f' m :
    user_pc pc' → regs_ok f' → mem_wf m →
    (∀ a, kernel_memory proc tf p a → m !! a = w_mem w !! a) →
    step proc tf p (Hart pc f w) User (Hart pc' f' (set_mem m w))
| step_call pc f w e w' :
    pc + 4 < 2 ^ 64 → ecall pc f w = Ret e w' →
    step proc tf p (Hart pc f w) Call (Hart (e_pc e) (e_regs e) w')
| step_tick stack0 clobbered pc f w e w' :
    timer_tick stack0 clobbered pc f w = Ret e w' →
    step proc tf p (Hart pc f w) Tick (Hart (e_pc e) (e_regs e) w').
Inductive run (proc tf p : Z) : hart → list event → hart → Prop :=
| run_nil h : run proc tf p h [] h
| run_cons h x h' l h'' :
    step proc tf p h x h' → run proc tf p h' l h'' →
    run proc tf p h (x :: l) h''.

(** The kernel is prepared for every trap and interrupt: the two trap vectors and their frames, the
    console at [k], the next timer interrupt due at [t]. *)
Record serving (w : world H) (proc tf p k t : Z) : Prop := {
  sv_ready : ready w proc tf;
  sv_mready : mready w p t;
  sv_mtvec : w_csr w mtvec = addr_mtrapvec;
  sv_sie : Z.testbit (w_csr w sie) 1 = true;
  sv_mideleg : Z.testbit (w_csr w mideleg) 1 = true;
  sv_console : console w k;
}.
(** The frames, the process and the device registers do not overlap. *)
Record apart (proc tf p : Z) : Prop := {
  ap_frames : p + 248 ≤ tf ∨ tf + sizeof_trapframe ≤ p;
  ap_process : p + 248 ≤ proc ∨ proc + sizeof_process ≤ p;
  ap_timer_frame : CLINT_MTIMECMP 0 + 8 ≤ tf ∨ tf + sizeof_trapframe ≤ CLINT_MTIMECMP 0;
  ap_timer_process : CLINT_MTIMECMP 0 + 8 ≤ proc ∨ proc + sizeof_process ≤ CLINT_MTIMECMP 0;
}.
End system.
Arguments hart H : clear implicits.

Section run.
Context {H : Type} `{HH : Host H} `{PP : Platform} `{!RiscvCsrs} `{!Linked}.
Implicit Types w : world H.

Lemma timer_interrupt_target pc w : mret_target (timer_interrupt pc w) = (UserMode, pc).
Proof.
  unfold mret_target, timer_interrupt. cbn [w_csr set_csr].
  replace (Z.land (Z.land _ _) MSTATUS_MPP_MASK) with 0; [done|].
  rewrite <- Z.land_assoc. symmetry. apply Z.land_0_r.
Qed.

Lemma mready_ext w w' p t :
  mready w p t → mem_wf (w_mem w') → w_csr w' mscratch = w_csr w mscratch →
  (∀ a, p ≤ a < p + 248 ∨ CLINT_MTIMECMP 0 ≤ a < CLINT_MTIMECMP 0 + 8 →
    w_mem w' !! a = w_mem w !! a) →
  mready w' p t.
Proof.
  intros [Hs (Hp0 & Hp1 & Hf) Hp Hwf Ht Ha] Hwf' Hs' He. split; [by rewrite Hs'| |done|done| |done].
  - split_and!; [done|done|]. apply (mapped_ext (w_mem w)); [|done]. intros a Hin. apply He. lia.
  - rewrite <- Ht. apply word_at_ext. intros a Hin. apply He. lia.
Qed.

(** The kernel stays prepared when memory it does not rely on and registers of no concern change. *)
Lemma serving_ext w w' proc tf p k t :
  serving w proc tf p k t → mem_wf (w_mem w') → w_current w' = w_current w →
  w_files w' = w_files w →
  (∀ c, c ∉ [scause; sepc; stval; sstatus; mcause; mepc; mtval; mstatus] → w_csr w' c = w_csr w c) →
  (∀ a, kernel_memory proc tf p a → w_mem w' !! a = w_mem w !! a) →
  serving w' proc tf p k t.
Proof.
  intros [Hr Hm Hv Hs Hd Hk] Hwf Hc Hf Hcsr He. split.
  - apply (ready_ext w); try done; try (by apply Hcsr, (bool_decide_unpack _)).
    intros a Ha. apply He. unfold kernel_memory. tauto.
  - apply (mready_ext w); try done; try (by apply Hcsr, (bool_decide_unpack _)).
    intros a Ha. apply He. unfold kernel_memory. tauto.
  - rewrite Hcsr by (by apply (bool_decide_unpack _)). done.
  - rewrite Hcsr by (by apply (bool_decide_unpack _)). done.
  - rewrite Hcsr by (by apply (bool_decide_unpack _)). done.
  - unfold console. by rewrite Hf.
Qed.

(** The kernel stays prepared over a round of the supervisor trap. *)
Lemma serving_round w w' proc tf p k t :
  serving w proc tf p k t → apart proc tf p → ready w' proc tf →
  same_outside tf (w_mem w) (w_mem w') → w_files w' = w_files w →
  (∀ c, c ∉ sip :: switch_csrs → w_csr w' c = w_csr w c) →
  serving w' proc tf p k t.
Proof.
  intros [Hr Hm Hv Hs Hd Hk] [Ha1 Ha2 Ha3 Ha4] Hr' Ho Hf Hcsr. split; [done| | | | |].
  - apply (mready_ext w); [done|apply Hr'|by apply Hcsr, (bool_decide_unpack _)|].
    intros a Ha. apply Ho. lia.
  - rewrite Hcsr by (by apply (bool_decide_unpack _)). done.
  - rewrite Hcsr by (by apply (bool_decide_unpack _)). done.
  - rewrite Hcsr by (by apply (bool_decide_unpack _)). done.
  - unfold console. by rewrite Hf.
Qed.

(** The machine half of a tick. *)
Lemma tick_machine stack0 clobbered pc f w proc tf p k t :
  serving w proc tf p k t → apart proc tf p → regs_ok f → user_pc pc →
  ∃ f1 w1, timer_tick stack0 clobbered pc f w = trap_round f1 (soft_interrupt pc w1) ∧
    (∀ r, f1 r = if decide (r = T6) then p else f r) ∧
    serving w1 proc tf p k (u64 (t + TIMER_INTERVAL)) ∧
    (∀ a, (a < p ∨ p + 248 ≤ a) → (a < CLINT_MTIMECMP 0 ∨ CLINT_MTIMECMP 0 + 8 ≤ a) →
      w_mem w1 !! a = w_mem w !! a) ∧
    w_files w1 = w_files w ∧ w_fds w1 = w_fds w ∧ w_ticks w1 = w_ticks w ∧ w_host w1 = w_host w ∧
    w_csr w1 mie = w_csr w mie.
Proof.
  intros Hsv Hap Hf [Hpc Hpa]. set (w0 := timer_interrupt pc w).
  assert (serving w0 proc tf p k t) as Hsv0.
  { apply (serving_ext w); try done; [apply Hsv|]. intros c Hc. rewrite !not_elem_of_cons in Hc.
    unfold w0, timer_interrupt. cbn [w_csr set_csr]. destruct c; try done; exfalso; tauto. }
  destruct (mtrap_timer_Ret w0 f p t stack0 clobbered (sv_mready _ _ _ _ _ _ Hsv0) Hf eq_refl)
    as (f1 & w1 & He & Hf1 & Hm1 & Hsip & Hcsr & Hmem & Heq).
  unfold w0 in He. rewrite timer_interrupt_target in He. fold w0 in He.
  destruct Hsv0 as [Hr0 _ Hv0 Hs0 Hd0 Hk0].
  assert (ready w1 proc tf) as Hr1.
  { destruct Hap. apply (ready_ext w0); [done|apply Hm1|by rewrite Heq|by apply Hcsr|by apply Hcsr|].
    intros a Ha. apply Hmem; lia. }
  exists f1, w1. split_and!; try done; try (by rewrite Heq); try (by rewrite Hcsr).
  - unfold timer_tick, machine_trap, supervisor_trap. fold w0. rewrite Hv0, Z.eqb_refl. cbn [negb].
    rewrite He. cbn [e_mode e_regs e_pc]. unfold soft_pending. rewrite Hsip, !Hcsr, Hs0, Hd0 by done. cbn [andb].
    cbn [soft_interrupt w_csr set_csr]. by rewrite Hcsr, (rd_stvec _ _ _ Hr0), Z.eqb_refl by done.
  - split; [done|done| | | |].
    + by rewrite Hcsr.
    + by rewrite Hcsr.
    + by rewrite Hcsr.
    + destruct Hk0 as (x & Hx & Hkx). exists x. by rewrite Heq.
Qed.

Lemma timer_tick_keeps stack0 clobbered pc f w proc tf p k t :
  serving w proc tf p k t → apart proc tf p → regs_ok f → user_pc pc →
  ∃ e w', timer_tick stack0 clobbered pc f w = Ret e w' ∧ e_mode e = UserMode ∧ e_pc e = pc ∧
    (∀ r, e_regs e r = if decide (r = T6) then tf else f r) ∧
    serving w' proc tf p k (u64 (t + TIMER_INTERVAL)) ∧
    (∀ a, ¬ trap_memory tf p a → w_mem w' !! a = w_mem w !! a) ∧
    w_ticks w' = u64 (w_ticks w + 1) ∧ w_files w' = w_files w ∧ w_fds w' = w_fds w ∧
    w_host w' = host_calls [FeWrite k (printk_bytes (tick_msg (w_ticks w)))] (w_host w) ∧
    w_csr w' mie = w_csr w mie.
Proof.
  intros Hsv Hap Hf Hpc.
  destruct (tick_machine stack0 clobbered pc f w proc tf p k t Hsv Hap Hf Hpc)
    as (f1 & w1 & -> & Hf1 & Hsv1 & Hmem & Hfi & Hfd & Hti & Hho & Hmie).
  set (w2 := soft_interrupt pc w1).
  assert (serving w2 proc tf p k (u64 (t + TIMER_INTERVAL))) as Hsv2.
  { apply (serving_ext w1); try done; [apply Hsv1|]. intros c Hc. rewrite !not_elem_of_cons in Hc.
    unfold w2, soft_interrupt. cbn [w_csr set_csr]. destruct c; try done; exfalso; tauto. }
  assert (regs_ok f1) as Hf1ok.
  { intros r. rewrite Hf1. destruct (sv_mready _ _ _ _ _ _ Hsv) as [_ (? & _) ? _ _ _].
    case_decide; [lia|apply Hf]. }
  assert (Z.testbit (w_csr w2 sstatus) 8 = false) as Hspp.
  { unfold w2, soft_interrupt. cbn [w_csr set_csr]. rewrite Z.land_spec, testbit_not64 by lia.
    by rewrite andb_false_r. }
  destruct Hpc as [Hp0 Hpa].
  destruct (timer_round_Ret w2 proc tf f1 pc k (sv_ready _ _ _ _ _ _ Hsv2) Hf1ok Hspp eq_refl eq_refl Hp0 Hpa
    (sv_console _ _ _ _ _ _ Hsv2)) as (e & w' & He & Hmd & Hepc & Hregs & Hr' & Ho & Htk & _ & Hcsr & Hfi' & Hfd' & Hh).
  exists e, w'. split_and!; try done.
  - intros r. rewrite Hregs, Hf1. by case_decide.
  - by eapply (serving_round w2).
  - intros a Ha. unfold trap_memory in Ha. rewrite Ho by lia. apply Hmem; lia.
  - rewrite Htk. change (w_ticks w2) with (w_ticks w1). by rewrite Hti.
  - rewrite Hfi'. exact Hfi.
  - rewrite Hfd'. exact Hfd.
  - rewrite Hh. change (w_ticks w2) with (w_ticks w1). change (w_host w2) with (w_host w1).
    by rewrite Hti, Hho.
  - rewrite Hcsr by (by apply (bool_decide_unpack _)). exact Hmie.
Qed.
Lemma timer_tick_Ret stack0 clobbered pc f w proc tf p k t :
  serving w proc tf p k t → apart proc tf p → regs_ok f → user_pc pc →
  ∃ e w', timer_tick stack0 clobbered pc f w = Ret e w' ∧ e_mode e = UserMode ∧ e_pc e = pc ∧
    (∀ r, e_regs e r = if decide (r = T6) then tf else f r) ∧
    serving w' proc tf p k (u64 (t + TIMER_INTERVAL)) ∧
    (∀ a, ¬ trap_memory tf p a → w_mem w' !! a = w_mem w !! a) ∧
    w_ticks w' = u64 (w_ticks w + 1) ∧ w_files w' = w_files w ∧ w_fds w' = w_fds w ∧
    w_host w' = host_calls [FeWrite k (printk_bytes (tick_msg (w_ticks w)))] (w_host w).
Proof.
  intros Hsv Hap Hf Hpc.
  destruct (timer_tick_keeps stack0 clobbered pc f w proc tf p k t Hsv Hap Hf Hpc)
    as (e & w' & ? & ? & ? & ? & ? & ? & ? & ? & ? & ? & _).
  by exists e, w'.
Qed.

(** What the console sees of a fault, by the mode that takes it. *)
Definition strap_report (k cause epc tval : Z) : list fe_call :=
  let ptr v := bytes "0x" ++ hex 16 (s64 v) in
  [FeWrite k (printk_bytes (bytes "smode_trap_handler(): unexpected scause " ++ ptr cause ++ [10]));
   FeWrite k (printk_bytes (bytes "            sepc=" ++ ptr epc ++ bytes " stval=" ++ ptr tval ++ [10]));
   FeWrite k (printk_bytes (bytes ("unexpected exception happened." +:+ newline +:+ newline)))].
Definition exception_report (delegated : bool) (k cause epc tval : Z) : list fe_call :=
  (if delegated then strap_report k cause epc tval else mtrap_report k cause epc tval) ++
  [FeWrite k (printk_bytes (shutdown_msg (-1))); FeExit (-1)].

Lemma user_exception_Halted stack0 clobbered cause tval pc f w proc tf p k t :
  serving w proc tf p k t → regs_ok f → 0 ≤ cause < 2 ^ 63 → cause ≠ CAUSE_USER_ECALL →
  ∃ w', user_exception stack0 clobbered cause tval pc f w = Halted w' ∧
    w_host w' = host_calls (exception_report (Z.testbit (w_csr w medeleg) cause) k cause pc tval) (w_host w).
Proof.
  intros Hsv Hf Hc Hne. unfold user_exception, exception_report. destruct (Z.testbit (w_csr w medeleg) cause).
  - set (w0 := supervisor_exception cause tval pc w).
    assert (serving w0 proc tf p k t) as [Hr _ _ _ _ Hk].
    { apply (serving_ext w); try done; [apply Hsv|]. intros c Hin. rewrite !not_elem_of_cons in Hin.
      unfold w0, supervisor_exception. cbn [w_csr set_csr]. destruct c; try done; exfalso; tauto. }
    unfold supervisor_trap. rewrite (rd_stvec _ _ _ Hr), Z.eqb_refl. eexists. split.
    + apply (unexpected_round_Halted w0 proc tf f k Hr Hf); [|exact Hk|exact Hne|].
      * unfold w0, supervisor_exception. cbn [w_csr set_csr]. rewrite Z.land_spec, testbit_not64 by lia.
        by rewrite andb_false_r.
      * change (w_csr w0 scause) with cause. unfold CAUSE_MTIMER_S_TRAP. lia.
    + reflexivity.
  - set (w0 := machine_exception cause tval pc w).
    assert (serving w0 proc tf p k t) as [Hr Hm Hv _ _ Hk].
    { apply (serving_ext w); try done; [apply Hsv|]. intros c Hin. rewrite !not_elem_of_cons in Hin.
      unfold w0, machine_exception. cbn [w_csr set_csr]. destruct c; try done; exfalso; tauto. }
    unfold machine_trap. rewrite Hv, Z.eqb_refl. cbn [negb].
    destruct (mtrap_fault_Halted w0 f p t k stack0 clobbered Hm Hf Hk) as (c & He & Hh).
    { change (w_csr w0 mcause) with cause. unfold CAUSE_MTIMER. lia. }
    rewrite He. by exists (c_world c).
Qed.

(** A call that returned was one the dispatcher returned from. *)
Lemma ecall_inv pc f w proc tf e w' :
  ready w proc tf → regs_ok f → 0 ≤ pc → pc + 4 < 2 ^ 64 →
  ecall pc f w = Ret e w' →
  ∃ ret w2, do_syscall (f A0) (f A1) (f A2) (f A3) (f A4) (f A5) (f A6) (f A7) (call_world w tf pc f) =
    Ret ret w2.
Proof.
  intros Hr Hf Hp0 Hp4 He. rewrite (ecall_round pc f w proc tf Hr) in He.
  apply ecall_ready with (pc := pc) in Hr.
  destruct (trap_round_user (ecall_csrs pc w) proc tf f Hr Hf (ecall_user pc w)) as (Hrw & Hl1 & _ & Hreg).
  rewrite Hrw in He. apply bind_inv in He as ([] & w1 & Hc & _).
  set (w0 := caught (ecall_csrs pc w) tf f (w_csr (ecall_csrs pc w) sepc)) in *.
  unfold handle_cause in Hc. cbn [ecall_csrs w_csr set_csr] in Hc. rewrite Z.eqb_refl in Hc.
  rewrite (bind_Ret _ _ w0 tf w0 (load_field_Ret w0 proc proc_trapframe tf (lay_tf _ _ _ Hl1))) in Hc.
  destruct (handle_syscall_call w0 proc tf pc Hl1) as (_ & Heq).
  { unfold w0, caught. cbn [w_mem set_mem w_csr ecall_csrs set_csr]. rewrite word_at_write.
    f_equal. apply u64_id. lia. }
  rewrite Heq in Hc. apply bind_inv in Hc as (ret & w2 & Hcall & _). rewrite !Hreg in Hcall. eauto.
Qed.

Lemma step_call_serves pc f w e w' proc tf p k t :
  serving w proc tf p k t → apart proc tf p → regs_ok f → user_pc pc → pc + 4 < 2 ^ 64 →
  ecall pc f w = Ret e w' →
  user_pc (e_pc e) ∧ regs_ok (e_regs e) ∧ serving w' proc tf p k t ∧ w_ticks w' = w_ticks w ∧
  w_files w' = w_files w ∧ w_fds w' = w_fds w ∧ w_csr w' mie = w_csr w mie.
Proof.
  intros Hsv Hap Hf [Hpc Hpa] Hp4 He. pose proof (sv_ready _ _ _ _ _ _ Hsv) as Hr.
  destruct (ecall_inv pc f w proc tf e w' Hr Hf ltac:(lia) Hp4 He) as (ret & w2 & Hcall).
  destruct (syscall_round_Ret (ecall_csrs pc w) proc tf f pc ret w2 (ecall_ready pc w proc tf Hr) Hf
    (ecall_user pc w) eq_refl eq_refl ltac:(lia) Hp4 Hpa Hcall)
    as (e' & w1 & He' & _ & Hepc & Hregs & Hr1 & Ho & (Hfi & Hfd & _ & _ & Htk & Hcsr) & _).
  rewrite (ecall_round pc f w proc tf Hr) in He. rewrite He in He'. injection He' as <- <-.
  assert (user_pc (e_pc e)).
  { rewrite Hepc. split; [lia|]. by rewrite <- Z.add_mod_idemp_l, Hpa. }
  split; [done|]. split_and!.
  - intros r. rewrite Hregs. destruct (layout_tf_range _ _ _ (rd_layout _ _ _ Hr)).
    repeat case_decide; [apply u64_range|lia|apply Hf].
  - apply (serving_round (ecall_csrs pc w)); try done.
    + apply (serving_ext w); try done; [apply Hsv|]. intros c Hc. rewrite !not_elem_of_cons in Hc.
      unfold ecall_csrs. cbn [w_csr set_csr]. destruct c; try done; exfalso; tauto.
    + intros c [_ Hc]%not_elem_of_cons. by apply Hcsr.
  - exact Htk.
  - exact Hfi.
  - exact Hfd.
  - by apply Hcsr, (bool_decide_unpack _).
Qed.

(** The library's call, with everything the kernel is prepared for. *)
Lemma do_user_call_serves w proc tf p k t pc f r w' a0 a1 a2 a3 a4 a5 a6 a7 :
  serving w proc tf p k t → apart proc tf p → regs_ok f → user_pc pc → pc + 4 < 2 ^ 64 →
  do_user_call pc f a0 a1 a2 a3 a4 a5 a6 a7 w = Ret r w' →
  serving w' proc tf p k t ∧ w_ticks w' = w_ticks w.
Proof.
  intros Hsv Hap Hf Hpc Hp4 Hcall. apply bind_inv in Hcall as (e & w1 & He & Hr). injection Hr as _ <-.
  destruct (step_call_serves _ _ _ _ _ _ _ _ _ _ Hsv Hap (with_args_ok _ a0 a1 a2 a3 a4 a5 a6 a7 Hf) Hpc Hp4 He)
    as (_ & _ & Hsv1 & Htk & _). by split.
Qed.

(** C7. A timer tick in a user program, from the interrupt in machine mode to the resumption: the
    machine trap moves [mtimecmp] on by the interval and raises the supervisor interrupt, which
    prints and advances the tick counter; then the program goes on at the very instruction it was
    interrupted at, with its registers, but [t6], and all memory but the two frames and [mtimecmp] as
    they were, and the kernel is prepared for the next tick and the next trap. *)
Theorem timer_tick_spec stack0 clobbered pc f w proc tf p k t :
  serving w proc tf p k t → apart proc tf p → regs_ok f → user_pc pc →
  ∃ e w', timer_tick stack0 clobbered pc f w = Ret e w' ∧ e_mode e = UserMode ∧ e_pc e = pc ∧
    (∀ r, e_regs e r = if decide (r = T6) then tf else f r) ∧
    serving w' proc tf p k (u64 (t + TIMER_INTERVAL)) ∧
    (∀ a, ¬ trap_memory tf p a → w_mem w' !! a = w_mem w !! a) ∧
    w_ticks w' = u64 (w_ticks w + 1) ∧ w_files w' = w_files w ∧ w_fds w' = w_fds w ∧
    w_host w' = host_calls [FeWrite k (printk_bytes (tick_msg (w_ticks w)))] (w_host w).
Proof. apply timer_tick_Ret. Qed.

(** The number of ticks of a run. *)
Definition ticks (l : list event) : Z := Z.of_nat (length (filter (λ x, x = Tick) l)).

(** What a run keeps of a hart: the user's context is one, and the kernel is prepared. *)
Definition hart_ok (proc tf p k t : Z) (h : hart H) : Prop :=
  user_pc (h_pc h) ∧ regs_ok (h_regs h) ∧ serving (h_world h) proc tf p k t.

Lemma step_kept proc tf p k t h x h' :
  apart proc tf p → hart_ok proc tf p k t h → step proc tf p h x h' →
  let n := match x with Tick => 1 | _ => 0 end in
  hart_ok proc tf p k (u64 (t + n * TIMER_INTERVAL)) h' ∧
  u64 (w_ticks (h_world h')) = u64 (w_ticks (h_world h) + n) ∧
  w_files (h_world h') = w_files (h_world h) ∧ w_fds (h_world h') = w_fds (h_world h).
Proof.
  intros Hap (Hpc & Hf & Hsv) Hstep n.
  assert (u64 (t + 0 * TIMER_INTERVAL) = t) as Ht.
  { rewrite Z.mul_0_l, Z.add_0_r. apply u64_id.
    destruct (sv_mready _ _ _ _ _ _ Hsv) as [_ _ _ Hwf Ht _]. by eapply word_at_range. }
  destruct Hstep as [pc f w pc' f' m Hpc' Hf' Hwf Hm|pc f w e w' Hp4 He|s0 cl pc f w e w' He];
    unfold n; cbn [h_pc h_regs h_world] in *.
  - rewrite Ht, Z.add_0_r. split; [|by split]. split; [done|]. split; [done|].
    by apply (serving_ext w).
  - destruct (step_call_serves pc f w e w' proc tf p k t Hsv Hap Hf Hpc Hp4 He)
      as (? & ? & ? & Htk & ? & ? & _). rewrite Ht, Z.add_0_r, Htk. split; [|by split]. by split.
  - destruct (timer_tick_Ret s0 cl pc f w proc tf p k t Hsv Hap Hf Hpc)
      as (e1 & w1 & He1 & _ & Hepc & Hregs & Hsv1 & _ & Htk & Hfi & Hfd & _).
    rewrite He in He1. injection He1 as <- <-. rewrite Hepc, Htk, Z.mul_1_l.
    split; [|split; [apply u64_id, u64_range|by split]]. split; [done|]. split; [|done].
    intros r. cbn [h_regs]. rewrite Hregs.
    destruct (layout_tf_range _ _ _ (rd_layout _ _ _ (sv_ready _ _ _ _ _ _ Hsv))).
    case_decide; [lia|apply Hf].
Qed.

(** The enables of the machine interrupts stay as they are. *)
Lemma step_mie proc tf p k t h x h' :
  apart proc tf p → hart_ok proc tf p k t h → step proc tf p h x h' →
  w_csr (h_world h') mie = w_csr (h_world h) mie.
Proof.
  intros Hap (Hpc & Hf & Hsv) Hstep.
  destruct Hstep as [pc f w pc' f' m Hpc' Hf' Hwf Hm|pc f w e w' Hp4 He|s0 cl pc f w e w' He];
    cbn [h_pc h_regs h_world] in *; [done|by eapply step_call_serves|].
  destruct (timer_tick_keeps s0 cl pc f w proc tf p k t Hsv Hap Hf Hpc)
    as (e1 & w1 & He1 & _ & _ & _ & _ & _ & _ & _ & _ & _ & Hmie).
  rewrite He in He1. by injection He1 as <- <-.
Qed.

Lemma u64_add_u64 x y : u64 (u64 x + y) = u64 (x + y).
Proof. unfold u64. by rewrite Z.add_mod_idemp_l. Qed.

Lemma run_keeps proc tf p k t h l h' :
  apart proc tf p → hart_ok proc tf p k t h → run proc tf p h l h' →
  hart_ok proc tf p k (u64 (t + ticks l * TIMER_INTERVAL)) h' ∧
  u64 (w_ticks (h_world h')) = u64 (w_ticks (h_world h) + ticks l) ∧
  w_files (h_world h') = w_files (h_world h) ∧ w_fds (h_world h') = w_fds (h_world h).
Proof.
  intros Hap Hok Hrun. revert t Hok. induction Hrun as [h|h x h1 l h2 Hst _ IH]; intros t Hok.
  - change (ticks []) with 0. rewrite Z.mul_0_l, !Z.add_0_r. split; [|by split].
    rewrite u64_id; [done|]. destruct Hok as (_ & _ & Hsv).
    destruct (sv_mready _ _ _ _ _ _ Hsv) as [_ _ _ Hwf Ht _]. by eapply word_at_range.
  - destruct (step_kept proc tf p k t h x h1 Hap Hok Hst) as (Hok1 & Ht1 & Hf1 & Hd1).
    destruct (IH _ Hok1) as (Hok2 & Ht2 & Hf2 & Hd2).
    set (n := match x with Tick => 1 | _ => 0 end) in *.
    assert (ticks (x :: l) = n + ticks l) as Hl.
    { unfold ticks, n. rewrite filter_cons. destruct x; case_decide; try done; cbn [length]; lia. }
    rewrite u64_add_u64 in Hok2. rewrite Hl.
    replace (t + (n + ticks l) * TIMER_INTERVAL) with
      (t + n * TIMER_INTERVAL + ticks l * TIMER_INTERVAL) by lia.
    split; [done|]. split; [|split; by etrans].
    rewrite Ht2, <- u64_add_u64, Ht1, u64_add_u64. f_equal. lia.
Qed.
Lemma run_mie proc tf p k t h l h' :
  apart proc tf p → hart_ok proc tf p k t h → run proc tf p h l h' →
  w_csr (h_world h') mie = w_csr (h_world h) mie.
Proof.
  intros Hap Hok Hrun. revert t Hok. induction Hrun as [|h x h1 l h2 Hst _ IH]; intros t Hok; [done|].
  destruct (step_kept proc tf p k t h x h1 Hap Hok Hst) as (Hok1 & _).
  rewrite (IH _ Hok1). by eapply step_mie.
Qed.

(** C5. However an application and the interrupts interleave - user instructions, system calls that
    return and timer ticks, in any order and number - the kernel is prepared for the next trap of
    either mode after every step, the program keeps a context of its own, the tick counter counts
    the ticks modulo 2^64, [mtimecmp] is that many intervals further on, and the tables of open
    files are as they were; the application keeping out of the kernel's memory. *)
Theorem run_kept proc tf p k t h l h' :
  apart proc tf p → hart_ok proc tf p k t h → run proc tf p h l h' →
  hart_ok proc tf p k (u64 (t + ticks l * TIMER_INTERVAL)) h' ∧
  u64 (w_ticks (h_world h')) = u64 (w_ticks (h_world h) + ticks l) ∧
  w_files (h_world h') = w_files (h_world h) ∧ w_fds (h_world h') = w_fds (h_world h).
Proof. apply run_keeps. Qed.
End run.

(** * Instances *)
Import SampleMachine.

(** The process of Strap.v, the frame for machine traps and the timer registers. *)
Definition serving_frames : list Z := replicate 248 0.
Definition serving_mem : mem :=
  write_word (write_bytes (write_bytes ready_mem addr_g_itrframe serving_frames)
    (CLINT_MTIMECMP 0) (replicate 8 0)) (CLINT_MTIMECMP 0) 5000.
Definition serving_csrs (c : csr) : Z :=
  match c with
  | mscratch => addr_g_itrframe | mtvec => addr_mtrapvec | sie => 2 | mideleg => 2
  | c => trap_csrs 0 0 c
  end.
Definition serving_world : world sample_host :=
  set_current sample_proc (set_csr serving_csrs (sample_world serving_mem [])).

Lemma sample_apart : apart sample_proc USER_TRAP_FRAME addr_g_itrframe.
Proof.
  split; change sizeof_process with 20512; change addr_g_itrframe with 0x80010000;
    change (CLINT_MTIMECMP 0) with 0x2004000; unfold sample_proc, USER_TRAP_FRAME, sizeof_trapframe; lia.
Qed.
Lemma ready_mem_eq : w_mem (ready_world 0 0) = ready_mem.
Proof. unfold ready_world. cbn [w_mem set_current set_csr sample_world]. reflexivity. Qed.
Lemma serving_mem_eq : w_mem serving_world = serving_mem.
Proof. unfold serving_world. cbn [w_mem set_current set_csr sample_world]. reflexivity. Qed.
Lemma serving_mem_wf : mem_wf serving_mem.
Proof.
  apply mem_wf_write_word, mem_wf_write_bytes; [|apply Forall_replicate; lia].
  apply mem_wf_write_bytes; [|apply Forall_replicate; lia].
  rewrite <- ready_mem_eq. apply (lay_wf _ _ _ (rd_layout _ _ _ (ready_sample 0 0))).
Qed.
Lemma sample_serving : serving serving_world sample_proc USER_TRAP_FRAME addr_g_itrframe 2 5000.
Proof.
  destruct sample_apart as [Ha1 Ha2 Ha3 Ha4]. split; [| |reflexivity..|apply sample_console].
  - apply (ready_ext (ready_world 0 0));
      [apply ready_sample|rewrite serving_mem_eq; apply serving_mem_wf
      |cbn [serving_world ready_world set_current set_csr w_current w_csr serving_csrs]; reflexivity..|].
    intros a Ha. rewrite serving_mem_eq, ready_mem_eq. unfold serving_mem.
    rewrite lookup_write_word_ne by lia.
    rewrite !lookup_write_bytes_ne; [reflexivity|unfold serving_frames; rewrite length_replicate; lia|].
    rewrite length_replicate. lia.
  - split; [reflexivity| |reflexivity| | |].
    + split_and!; [discriminate|discriminate|]. rewrite serving_mem_eq.
      apply mapped_write_word, mapped_write_bytes.
      change 248%nat with (length serving_frames). apply mapped_written.
    + rewrite serving_mem_eq. apply serving_mem_wf.
    + rewrite serving_mem_eq. unfold serving_mem. by rewrite word_at_write.
    + left. change addr_g_itrframe with 0x80010000. change (CLINT_MTIMECMP 0) with 0x2004000. lia.
Qed.

Lemma timer_tick_spec_witness :
  ∃ e w', timer_tick 0x80003000 (λ _, 7) 0x81000100 ecall_regs serving_world = Ret e w' ∧
    e_mode e = UserMode ∧ e_pc e = 0x81000100 ∧
    (∀ r, e_regs e r = if decide (r = T6) then USER_TRAP_FRAME else ecall_regs r) ∧
    serving w' sample_proc USER_TRAP_FRAME addr_g_itrframe 2 (u64 (5000 + TIMER_INTERVAL)) ∧
    (∀ a, ¬ trap_memory USER_TRAP_FRAME addr_g_itrframe a →
      w_mem w' !! a = w_mem serving_world !! a) ∧
    w_ticks w' = u64 (w_ticks serving_world + 1) ∧ w_files w' = w_files serving_world ∧
    w_fds w' = w_fds serving_world ∧
    w_host w' = host_calls [FeWrite 2 (printk_bytes (tick_msg (w_ticks serving_world)))]
      (w_host serving_world).
Proof.
  apply (timer_tick_spec 0x80003000 (λ _, 7) 0x81000100 ecall_regs serving_world sample_proc
    USER_TRAP_FRAME addr_g_itrframe 2 5000);
    [apply sample_serving|apply sample_apart|apply ecall_regs_ok|by split].
Defined.

(** A system call, a tick and an instruction of the user's. *)
Definition sample_hart : hart sample_host := Hart 0x81000100 ecall_regs serving_world.
Definition sample_events : list event := [Call; Tick; User].
Lemma sample_hart_ok : hart_ok sample_proc USER_TRAP_FRAME addr_g_itrframe 2 5000 sample_hart.
Proof. split; [by split|]. split; [apply ecall_regs_ok|apply sample_serving]. Qed.
Lemma sample_call : ∃ e w', ecall 0x81000100 ecall_regs serving_world = Ret e w'.
Proof.
  pose proof (sv_ready _ _ _ _ _ _ sample_serving) as Hr.
  destruct (syscall_round_Ret (ecall_csrs 0x81000100 serving_world) sample_proc USER_TRAP_FRAME ecall_regs
    0x81000100 0 (call_world serving_world USER_TRAP_FRAME 0x81000100 ecall_regs)
    (ecall_ready 0x81000100 _ _ _ Hr) ecall_regs_ok (ecall_user 0x81000100 serving_world)
    eq_refl eq_refl ltac:(lia) ltac:(lia) eq_refl eq_refl)
    as (e & w' & He & _).
  exists e, w'. by rewrite (ecall_round _ _ _ _ _ Hr).
Qed.
Lemma sample_pc : user_pc 0x81000100.
Proof. split; [lia|reflexivity]. Qed.
Lemma sample_pc' : user_pc 0x81000200.
Proof. split; [lia|reflexivity]. Qed.
Lemma sample_run : ∃ h', run sample_proc USER_TRAP_FRAME addr_g_itrframe sample_hart sample_events h'.
Proof.
  assert (0x81000100 + 4 < 2 ^ 64) as Hp4 by lia. destruct sample_call as (e & w1 & He).
  destruct (step_call_serves _ _ _ _ _ _ _ _ _ _ sample_serving sample_apart ecall_regs_ok sample_pc
    Hp4 He) as (Hpc1 & Hf1 & Hsv1 & _).
  destruct (timer_tick_Ret 0x80003000 (λ _, 7) (e_pc e) (e_regs e) w1 _ _ _ _ _ Hsv1 sample_apart Hf1 Hpc1)
    as (e2 & w2 & He2 & _ & _ & _ & Hsv2 & _).
  eexists. apply (run_cons _ _ _ _ Call (Hart (e_pc e) (e_regs e) w1)); [exact (step_call _ _ _ _ _ _ _ _ Hp4 He)|].
  apply (run_cons _ _ _ _ Tick (Hart (e_pc e2) (e_regs e2) w2)); [exact (step_tick _ _ _ _ _ _ _ _ _ _ He2)|].
  eapply (run_cons _ _ _ _ User); [|apply run_nil].
  apply (step_user _ _ _ _ _ _ 0x81000200 ecall_regs (w_mem w2));
    [apply sample_pc'|apply ecall_regs_ok|apply Hsv2|reflexivity].
Qed.

Lemma run_kept_witness :
  ∃ h', run sample_proc USER_TRAP_FRAME addr_g_itrframe sample_hart sample_events h' ∧
    hart_ok sample_proc USER_TRAP_FRAME addr_g_itrframe 2
      (u64 (5000 + ticks sample_events * TIMER_INTERVAL)) h' ∧
    u64 (w_ticks (h_world h')) = u64 (w_ticks (h_world sample_hart) + ticks sample_events) ∧
    w_files (h_world h') = w_files (h_world sample_hart) ∧
    w_fds (h_world h') = w_fds (h_world sample_hart).
Proof.
  destruct sample_run as [h' Hrun]. exists h'. split; [exact Hrun|].
  exact (run_kept _ _ _ 2 5000 _ _ _ sample_apart sample_hart_ok Hrun).
Defined.
