(* ===== verification/Nested.v ===== *)
(** Timer interrupts that arrive while the hart is in supervisor mode: in the trap entry, while it
    saves the registers, and in the handler of the timer itself.

    Machine interrupts are enabled while the hart is in supervisor mode (kernel/machine/minit.c sets
    [mie.MTIE] and does not delegate the timer), so kernel/machine/mtrap_vector.S can run between
    any two instructions of util/load_store.S.  It comes back with [t6] changed, the register
    through which the entry saves.  And it raises the supervisor's interrupt, which the handler of
    kernel/strap.c takes back when it is done.  The C code of the handler is taken to be interrupted
    between its accesses to what it shares with the interrupt, and not to keep a value in [t6]. *)
From S2P Require Import Prelude Mem CString Snprintf World Sample SpikeUtils Asm Process Strap Mtrap Minit System.

Section nested.
Context {H : Type} `{HH : Host H} `{PP : Platform}.

(** The machine timer interrupts the supervisor at [pc]. *)
Definition kernel_timer (pc : Z) (w : world H) : world H :=
  set_csr (λ c, match c with
    | mcause => CAUSE_MTIMER
    | mepc => pc
    | mstatus => Z.lor (Z.land (w_csr w mstatus) (not64 MSTATUS_MPP_MASK)) MSTATUS_MPP_S
    | c => w_csr w c
    end) w.
Definition interrupted (stack0 : Z) (clobbered : reg → Z) (pc : Z) : M (cpu H) () := λ c,
  match mtrap_round stack0 clobbered (c_regs c) (kernel_timer pc (c_world c)) with
  | Ret (SupervisorMode, pc') c => if pc' =? pc then Ret tt c else Fault
  | Ret _ _ => Fault
  | Halted c => Halted c
  | Fault => Fault
  | NoFuel => NoFuel
  end.
(** [store_all_registers], interrupted after [n] instructions. *)
Definition save_interrupted (n : nat) (stack0 : Z) (clobbered : reg → Z) (pc : Z) : M (cpu H) () :=
  exec_all (take n store_all_registers);;
  interrupted stack0 clobbered pc;;
  exec_all (drop n store_all_registers).
(** [smode_trap_vector] with that interrupt. *)
Definition trap_vector_interrupted (n : nat) (stack0 : Z) (clobbered : reg → Z) (pc : Z) : M (cpu H) Z :=
  exec (Csrrw A0 sscratch A0);;
  exec (Addi T6 A0 0);;
  save_interrupted n stack0 clobbered pc;;
  exec (Csrr T0 sscratch);;
  exec (Sd T0 72 A0);;
  exec (Ld Sp 248 A0);;
  exec (Ld T0 256 A0);;
  get_reg T0.

(** Interrupts of C code, one after the other: where it is, its registers, the stack of the machine
    trap and what its handler leaves in the registers. *)
Record interruption := Interruption {
  i_stack0 : Z; i_clobbered : reg → Z; i_pc : Z; i_regs : reg → Z }.
Definition interrupt (i : interruption) : M (world H) () := λ w,
  match interrupted (i_stack0 i) (i_clobbered i) (i_pc i) (Cpu _ (i_regs i) w) with
  | Ret _ c => Ret tt (c_world c)
  | Halted c => Halted (c_world c)
  | Fault => Fault
  | NoFuel => NoFuel
  end.
Fixpoint interruptions (l : list interruption) : M (world H) () :=
  match l with
  | [] => mret tt
  | i :: l => interrupt i;; interruptions l
  end.
(** [handle_mtimer_trap], interrupted before each of its accesses to the counter and to [sip], and at
    the end. *)
Definition mtimer_trap_interrupted (irqs : nat → list interruption) : M (world H) () :=
  interruptions (irqs 0%nat);;
  t ← gets w_ticks;
  sprint (Lit (bytes ("Ticks %d" +:+ newline))) [Num t];;
  interruptions (irqs 1%nat);;
  modify (λ w, set_ticks (u64 (w_ticks w + 1)) w);;
  interruptions (irqs 2%nat);;
  x ← read_csr sip;
  interruptions (irqs 3%nat);;
  write_csr sip (Z.land x (not64 SIP_SSIP));;
  interruptions (irqs 4%nat).
Lemma mtimer_trap_alone w : mtimer_trap_interrupted (λ _, []) w = handle_mtimer_trap w.
Proof.
  unfold mtimer_trap_interrupted, handle_mtimer_trap. cbn [interruptions]. rewrite mret_bind.
  rewrite !(bind_Ret (gets w_ticks) _ w (w_ticks w) w) by done.
  unfold mbind, M_bind. by destruct (sprint _ _ w).
Qed.
End nested.

Section lemmas.
Context {H : Type} `{HH : Host H} `{PP : Platform} `{!RiscvCsrs} `{!Linked}.
Implicit Types w : world H.

Lemma kernel_timer_target pc w : mret_target (kernel_timer pc w) = (SupervisorMode, pc).
Proof.
  unfold mret_target, kernel_timer. cbn [w_csr set_csr].
  rewrite mpp_supervisor; [done| |]; rewrite Z.lor_spec, Z.land_spec, testbit_not64 by lia.
  - by rewrite orb_true_r.
  - by rewrite andb_false_r.
Qed.

(** An interrupt of the supervisor: it goes on with its registers, but [t6]. *)
Lemma interrupted_Ret stack0 clobbered pc f w p t :
  mready w p t → regs_ok f →
  ∃ f' w', interrupted stack0 clobbered pc (Cpu _ f w) = Ret tt (Cpu _ f' w') ∧
    (∀ r, f' r = if decide (r = T6) then p else f r) ∧ frame (w_mem w') p 248 ∧ mem_wf (w_mem w') ∧
    w_csr w' sscratch = w_csr w sscratch ∧
    (∀ a, (a < p ∨ p + 248 ≤ a) → (a < CLINT_MTIMECMP 0 ∨ CLINT_MTIMECMP 0 + 8 ≤ a) →
      w_mem w' !! a = w_mem w !! a).
Proof.
  intros Hm Hf.
  assert (mready (kernel_timer pc w) p t) as Hm1 by (apply (mready_ext w); try done; apply Hm).
  destruct (mtrap_timer_Ret (kernel_timer pc w) f p t stack0 clobbered Hm1 Hf eq_refl)
    as (f' & w' & He & Hf' & Hm' & _ & Hcsr & Hmem & _).
  rewrite kernel_timer_target in He. exists f', w'. split_and!; try done; try apply Hm'; [|by rewrite Hcsr].
  unfold interrupted. cbn [c_regs c_world]. by rewrite He, Z.eqb_refl.
Qed.

Lemma csr_set_mready c v w p t : mready w p t → c ≠ mscratch → mready (csr_set c v w) p t.
Proof. intros Hm Hc. apply (mready_ext w); try done; [apply Hm|]. by apply csr_set_ne. Qed.

Lemma save_regs_other m p f l q r :
  p + 248 ≤ q ∨ q + 248 ≤ p → word_at (save_regs m p f l) (q + reg_offset r) = word_at m (q + reg_offset r).
Proof.
  intros Hd. apply word_at_ext. intros a Ha. pose proof (reg_offset_range r).
  apply save_regs_lookup. lia.
Qed.

(** The saving itself, from registers [g] with the frame in [t6]. *)
Lemma save_interrupted_Ret n stack0 clobbered pc g w p t tf :
  mready w p t → frame (w_mem w) tf 272 → tf + 272 ≤ p ∨ p + 248 ≤ tf →
  tf + 272 ≤ CLINT_MTIMECMP 0 ∨ CLINT_MTIMECMP 0 + 8 ≤ tf → regs_ok g → g T6 = tf →
  ∃ f' w', save_interrupted n stack0 clobbered pc (Cpu _ g w) = Ret tt (Cpu _ f' w') ∧
    (∀ r, r ≠ T6 → f' r = g r) ∧ w_csr w' sscratch = w_csr w sscratch ∧
    (∀ r, r ∈ drop n riscv_regs →
      word_at (w_mem w') (tf + reg_offset r) = word_at (w_mem w) (tf + reg_offset r)) ∧
    (∀ r, r ∈ drop n riscv_regs → r ≠ T6 → word_at (w_mem w') (p + reg_offset r) = Some (g r)) ∧
    (∀ a, (a < tf ∨ tf + 248 ≤ a) → (a < p ∨ p + 248 ≤ a) →
      (a < CLINT_MTIMECMP 0 ∨ CLINT_MTIMECMP 0 + 8 ≤ a) → w_mem w' !! a = w_mem w !! a) ∧
    mem_wf (w_mem w') ∧ frame (w_mem w') tf 272.
Proof.
  intros Hm Hfr272 Hd1 Hd2 Hg Ht6.
  assert (frame (w_mem w) tf 248) as Hfr by (eapply frame_le; [|exact Hfr272]; lia).
  pose proof riscv_regs_NoDup as Hnd. rewrite <- (take_drop n riscv_regs) in Hnd.
  apply NoDup_app in Hnd as (_ & Hsep & Hnd).
  set (l1 := take n riscv_regs) in *. set (l2 := drop n riscv_regs) in *.
  set (w1 := set_mem (save_regs (w_mem w) tf g l1) w).
  assert (mready w1 p t) as Hm1.
  { apply (mready_ext w); [done|by apply save_regs_wf, Hm|done|].
    intros a Ha. apply save_regs_lookup. lia. }
  destruct (interrupted_Ret stack0 clobbered pc g w1 p t Hm1 Hg)
    as (f2 & w2 & He & Hf2 & Hfp & Hwf2 & Hcsr & Hmem).
  exists f2, (set_mem (save_regs (w_mem w2) p f2 l2) w2). split_and!.
  - unfold save_interrupted. rewrite store_all_eq, firstn_map, skipn_map. fold l1 l2.
    mrun (exec_saves g w tf l1 Ht6 Hfr). fold w1. mrun He.
    apply exec_saves; [|done]. by rewrite Hf2, decide_True.
  - intros r Hr. by rewrite Hf2, decide_False.
  - exact Hcsr.
  - intros r Hr. pose proof (reg_offset_range r). cbn [w_mem set_mem].
    rewrite save_regs_other by lia.
    transitivity (word_at (w_mem w1) (tf + reg_offset r)).
    + apply word_at_ext. intros a Ha. apply Hmem; lia.
    + apply save_regs_word_ne. intros Hr'. by apply (Hsep r).
  - intros r Hr Hne. cbn [w_mem set_mem].
    assert (saved (save_regs (w_mem w2) p f2 l2) p f2 l2) as Hs.
    { apply save_regs_saved; [done|]. intros r' _. rewrite Hf2.
      destruct Hm as [_ (? & _) ? _ _ _]. case_decide; [lia|apply Hg]. }
    unfold saved in Hs. rewrite Forall_forall in Hs. by rewrite (Hs r Hr), Hf2, decide_False.
  - intros a Ha1 Ha2 Ha3. cbn [w_mem set_mem]. rewrite save_regs_lookup, Hmem by done.
    by apply save_regs_lookup.
  - by apply save_regs_wf.
  - cbn [w_mem set_mem]. apply save_regs_frame. apply (save_regs_frame _ tf g l1) in Hfr272.
    destruct Hfr272 as (? & ? & Hmap). split_and!; [done|done|].
    apply (mapped_ext (w_mem w1)); [|done]. intros a Ha. apply Hmem; lia.
Qed.

(** What the entry does after the saving. *)
Lemma entry_ends g w tf v ksp ktrap :
  g A0 = tf → w_csr w sscratch = v → 0 ≤ v < 2 ^ 64 → frame (w_mem w) tf 272 → mem_wf (w_mem w) →
  word_at (w_mem w) (tf + tf_kernel_sp) = Some ksp → word_at (w_mem w) (tf + tf_kernel_trap) = Some ktrap →
  ∃ f', (exec (Csrr T0 sscratch);; exec (Sd T0 72 A0);; exec (Ld Sp 248 A0);; exec (Ld T0 256 A0);;
      get_reg T0) (Cpu _ g w) =
    Ret ktrap (Cpu _ f' (set_mem (write_word (w_mem w) (tf + reg_offset A0) v) w)) ∧ f' A0 = tf ∧ f' Sp = ksp.
Proof.
  intros Ha0 Hv Hvr Hfr Hwf Hsp Htrap.
  assert (∀ off, 80 ≤ off → word_at (write_word (w_mem w) (tf + 72) v) (tf + off) = word_at (w_mem w) (tf + off))
    as Hout by (intros off Hoff; apply word_at_write_ne; lia).
  assert (∀ off, 0 ≤ off → off + 8 ≤ 272 → u64 (tf + off) = tf + off) as Hu
    by (intros off Ho1 Ho2; by destruct (frame_word _ _ _ off Hfr Ho1 Ho2)).
  mrun (exec_Csrr g w T0 sscratch). rewrite Hv, u64_id by done. set (g1 := upd g T0 v).
  assert (g1 A0 = tf ∧ g1 T0 = v) as [Hg1 Hg2] by (unfold g1; by rewrite upd_eq, upd_ne).
  destruct (frame_word _ _ _ 72 Hfr ltac:(lia) ltac:(lia)) as [Hu72 Hw72].
  mrun (exec_Sd (Cpu _ g1 w) T0 72 A0 (tf + 72) ltac:(cbn [c_regs]; by rewrite Hg1) Hw72).
  cbn [c_regs c_world]. rewrite Hg2. set (w1 := set_mem _ w).
  mrun (exec_Ld (Cpu _ g1 w1) Sp 248 A0 (tf + 248) ksp ltac:(cbn [c_regs]; rewrite Hg1; by apply Hu)
    ltac:(cbn [c_world w1 w_mem set_mem]; by rewrite Hout)).
  cbn [c_regs c_world].
  mrun (exec_Ld (Cpu _ (upd g1 Sp (u64 ksp)) w1) T0 256 A0 (tf + 256) ktrap
    ltac:(cbn [c_regs]; rewrite upd_ne, Hg1 by done; by apply Hu)
    ltac:(cbn [c_world w1 w_mem set_mem]; by rewrite Hout)).
  eexists. split; [|split].
  - rewrite get_reg_Ret. cbn [c_regs c_world]. rewrite upd_eq, (u64_id ktrap); [reflexivity|].
    by eapply word_at_range.
  - by rewrite !upd_ne.
  - rewrite upd_ne, upd_eq by done. apply u64_id. by eapply word_at_range.
Qed.

(** C25. A timer interrupt in the trap entry, after the first [n] instructions of
    [store_all_registers], from any registers [f] of the user and [sscratch] at the trap frame: the
    entry goes on and ends as if nothing had happened, in the kernel's handler, on its stack and with
    the frame in [a0]; but every register it saves from there on goes to the machine's frame.  Their
    slots in the trap frame, from which the application will be resumed, keep what they held before
    the trap, all but that of [a0], which is saved once more at the end. *)
Theorem interrupted_save_loses n stack0 clobbered pc f w proc tf p k t :
  serving w proc tf p k t → apart proc tf p → regs_ok f →
  ∃ f' w', trap_vector_interrupted n stack0 clobbered pc (Cpu _ f w) =
      Ret addr_smode_trap_handler (Cpu _ f' w') ∧
    f' A0 = tf ∧ word_at (w_mem w) (tf + tf_kernel_sp) = Some (f' Sp) ∧
    word_at (w_mem w') (tf + reg_offset A0) = Some (f A0) ∧
    (∀ r, r ∈ drop n riscv_regs → r ≠ A0 →
      word_at (w_mem w') (tf + reg_offset r) = word_at (w_mem w) (tf + reg_offset r)) ∧
    (∀ r, r ∈ drop n riscv_regs → r ∉ [A0; T6] → word_at (w_mem w') (p + reg_offset r) = Some (f r)).
Proof.
  intros Hsv Hap Hf. pose proof (sv_mready _ _ _ _ _ _ Hsv) as Hm. destruct Hap as [Hd1 _ Hd2 _].
  destruct (sv_ready _ _ _ _ _ _ Hsv) as [Hl _ _ Hscr Hksp Hktrap].
  pose proof (lay_frame _ _ _ Hl) as Hfr. unfold sizeof_trapframe in *. change (Z.to_nat 272) with 272%nat in Hfr.
  assert (0 ≤ tf < 2 ^ 64) as Htf by (destruct Hfr as (? & ? & _); lia).
  destruct (frame_word _ _ _ tf_kernel_sp Hfr ltac:(done) ltac:(done)) as [_ [ksp Hsp]].
  set (g := upd (upd f A0 tf) T6 tf). set (w1 := csr_set sscratch (f A0) w).
  assert (w_csr w1 sscratch = f A0) as Hscr1
    by (unfold w1; rewrite csr_set_eq; apply csr_scratch; [by left|apply Hf]).
  assert (mready w1 p t) as Hm1 by by apply csr_set_mready.
  assert (regs_ok g) as Hg by (by repeat apply regs_ok_upd).
  destruct (save_interrupted_Ret n stack0 clobbered pc g w1 p t tf Hm1 Hfr ltac:(lia) ltac:(lia) Hg (upd_eq _ _ _))
    as (f2 & w2 & He & Hf2 & Hcsr2 & Hkept & Hlost & Hmem & Hwf2 & Hfr2).
  assert (∀ off, 248 ≤ off → off + 8 ≤ 272 → word_at (w_mem w2) (tf + off) = word_at (w_mem w) (tf + off)) as Hout
    by (intros off Ho1 Ho2; apply word_at_ext; intros a Ha; apply Hmem; lia).
  destruct (entry_ends f2 w2 tf (f A0) ksp addr_smode_trap_handler) as (f3 & Hend & Ha0 & Hspr);
    [rewrite Hf2 by done; unfold g; by rewrite upd_ne, upd_eq|by rewrite Hcsr2|apply Hf|done|done
    |by rewrite Hout|by rewrite Hout|].
  exists f3, (set_mem (write_word (w_mem w2) (tf + reg_offset A0) (f A0)) w2).
  rewrite Hspr. split_and!; [|done|done| | |].
  - unfold trap_vector_interrupted.
    mrun (exec_Csrrw f w A0 sscratch A0). rewrite Hscr, u64_id by done. fold w1.
    mrun (exec_Addi (upd f A0 tf) w1 T6 A0 0). rewrite upd_eq, Z.add_0_r, u64_id by done. fold g.
    mrun He. exact Hend.
  - cbn [w_mem set_mem]. rewrite word_at_write. f_equal. apply u64_id, Hf.
  - intros r Hr Hne. cbn [w_mem set_mem]. pose proof (reg_offset_ne r A0 Hne).
    rewrite word_at_write_ne by lia. by apply Hkept.
  - intros r Hr Hne. rewrite !not_elem_of_cons in Hne. destruct Hne as (Hne1 & Hne2 & _).
    cbn [w_mem set_mem]. pose proof (reg_offset_range r). pose proof (reg_offset_range A0).
    rewrite word_at_write_ne by lia. rewrite Hlost by done. unfold g. by rewrite !upd_ne.
Qed.

(** What one interrupt of C code does, and several. *)
Lemma interrupt_Ret i w p t :
  mready w p t → regs_ok (i_regs i) →
  ∃ w', interrupt i w = Ret tt w' ∧ mready w' p (u64 (t + TIMER_INTERVAL)) ∧
    Z.testbit (w_csr w' sip) 1 = true ∧ w_ticks w' = w_ticks w ∧ w_files w' = w_files w ∧ w_host w' = w_host w.
Proof.
  intros Hm Hf. set (w0 := kernel_timer (i_pc i) w).
  assert (mready w0 p t) as Hm1 by (apply (mready_ext w); try done; apply Hm).
  destruct (mtrap_timer_Ret w0 (i_regs i) p t (i_stack0 i) (i_clobbered i) Hm1 Hf eq_refl)
    as (f' & w' & He & _ & Hm' & Hsip & _ & _ & Heq).
  unfold w0 in He. rewrite kernel_timer_target in He. fold w0 in He.
  exists w'. split_and!; try done; try (by rewrite Heq).
  unfold interrupt, interrupted. cbn [c_regs c_world]. fold w0. by rewrite He, Z.eqb_refl.
Qed.

Definition pending (w : world H) : bool := Z.testbit (w_csr w sip) 1.
Lemma interruptions_Ret l w p t :
  mready w p t → Forall (λ i, regs_ok (i_regs i)) l →
  ∃ w', interruptions l w = Ret tt w' ∧ mready w' p (u64 (t + Z.of_nat (length l) * TIMER_INTERVAL)) ∧
    pending w' = pending w || negb (bool_decide (l = [])) ∧
    w_ticks w' = w_ticks w ∧ w_files w' = w_files w ∧ w_host w' = w_host w.
Proof.
  intros Hm Hl. revert t w Hm. induction Hl as [|i l Hi _ IH]; intros t w Hm.
  - exists w. cbn [length]. rewrite Z.mul_0_l, Z.add_0_r, orb_false_r, u64_id; [done|].
    destruct Hm as [_ _ _ Hwf Ht _]. by eapply word_at_range.
  - destruct (interrupt_Ret i w p t Hm Hi) as (w1 & Hr & Hm1 & Hp & Htk & Hfi & Hh).
    destruct (IH _ _ Hm1) as (w' & Hr' & Hm' & Hp' & Htk' & Hfi' & Hh').
    exists w'. rewrite u64_add_u64 in Hm'. cbn [length].
    replace (t + Z.of_nat (S (length l)) * TIMER_INTERVAL)
      with (t + TIMER_INTERVAL + Z.of_nat (length l) * TIMER_INTERVAL) by lia.
    split_and!; [|done| |congruence..].
    + cbn [interruptions]. by mrun Hr.
    + unfold pending in *. by rewrite Hp', Hp, orb_true_r.
Qed.


(** C26. Timer interrupts during the handling of one: however many come, and wherever in
    [handle_mtimer_trap], each of them moves [mtimecmp] on, but the counter advances by one; those
    before the write to [sip] are taken back by it, and only one that comes after it leaves the
    supervisor's interrupt pending, for one tick more.  So the others are never counted. *)
Theorem early_ticks_lost irqs w p t k :
  mready w p t → console w k → (∀ n, Forall (λ i, regs_ok (i_regs i)) (irqs n)) →
  let early := length (irqs 0%nat ++ irqs 1%nat ++ irqs 2%nat ++ irqs 3%nat) in
  let late := length (irqs 4%nat) in
  ∃ w', mtimer_trap_interrupted irqs w = Ret tt w' ∧
    mready w' p (u64 (t + Z.of_nat (early + late) * TIMER_INTERVAL)) ∧
    w_ticks w' = u64 (w_ticks w + 1) ∧ pending w' = negb (bool_decide (irqs 4%nat = [])) ∧
    w_host w' = host_calls [FeWrite k (printk_bytes (tick_msg (w_ticks w)))] (w_host w).
Proof.
  intros Hm Hk Hok early late.
  destruct (interruptions_Ret _ _ _ _ Hm (Hok 0%nat)) as (w0 & Hr0 & Hm0 & _ & Ht0 & Hf0 & Hh0).
  assert (console w0 k) as Hk0 by (unfold console; by rewrite Hf0).
  set (w1 := printed k (tick_msg (w_ticks w)) w0).
  assert (mready w1 p (u64 (t + Z.of_nat (length (irqs 0%nat)) * TIMER_INTERVAL))) as Hm1
    by (apply (mready_ext w0); try done; apply Hm0).
  destruct (interruptions_Ret _ w1 _ _ Hm1 (Hok 1%nat)) as (w2 & Hr2 & Hm2 & _ & Ht2 & Hf2 & Hh2).
  set (w3 := set_ticks (u64 (w_ticks w2 + 1)) w2). rewrite u64_add_u64 in Hm2.
  assert (mready w3 p (u64 (t + Z.of_nat (length (irqs 0%nat)) * TIMER_INTERVAL +
    Z.of_nat (length (irqs 1%nat)) * TIMER_INTERVAL))) as Hm3 by (apply (mready_ext w2); try done; apply Hm2).
  destruct (interruptions_Ret _ w3 _ _ Hm3 (Hok 2%nat)) as (w4 & Hr4 & Hm4 & _ & Ht4 & Hf4 & Hh4).
  rewrite u64_add_u64 in Hm4.
  destruct (interruptions_Ret _ w4 _ _ Hm4 (Hok 3%nat)) as (w5 & Hr5 & Hm5 & _ & Ht5 & Hf5 & Hh5).
  rewrite u64_add_u64 in Hm5.
  set (w6 := csr_set sip (Z.land (w_csr w4 sip) (not64 SIP_SSIP)) w5).
  pose proof (csr_set_mready sip (Z.land (w_csr w4 sip) (not64 SIP_SSIP)) w5 _ _ Hm5 ltac:(done)) as Hm6. fold w6 in Hm6.
  destruct (interruptions_Ret _ w6 _ _ Hm6 (Hok 4%nat)) as (w7 & Hr7 & Hm7 & Hp7 & Ht7 & Hf7 & Hh7).
  exists w7. split_and!.
  - unfold mtimer_trap_interrupted. mrun Hr0. rewrite (bind_Ret _ _ w0 (w_ticks w) w0) by (unfold gets; by rewrite Ht0).
    rewrite (bind_Ret _ _ w0 tt w1) by by apply sprint_ticks.
    mrun Hr2. rewrite (bind_Ret _ _ w2 tt w3) by done. mrun Hr4.
    rewrite (bind_Ret _ _ w4 (w_csr w4 sip) w4) by done. mrun Hr5. by rewrite (bind_Ret _ _ w5 tt w6) by done.
  - rewrite u64_add_u64 in Hm7. unfold early, late. rewrite !length_app.
    replace (t + _) with (t + Z.of_nat (length (irqs 0%nat)) * TIMER_INTERVAL + Z.of_nat (length (irqs 1%nat)) * TIMER_INTERVAL +
      Z.of_nat (length (irqs 2%nat)) * TIMER_INTERVAL + Z.of_nat (length (irqs 3%nat)) * TIMER_INTERVAL +
      Z.of_nat (length (irqs 4%nat)) * TIMER_INTERVAL) by lia. exact Hm7.
  - rewrite Ht7. change (w_ticks w6) with (w_ticks w5). rewrite Ht5, Ht4. change (w_ticks w3) with (u64 (w_ticks w2 + 1)).
    rewrite Ht2. change (w_ticks w1) with (w_ticks w0). by rewrite Ht0.
  - rewrite Hp7. unfold pending, w6. rewrite csr_set_eq, csr_sip, Z.land_spec, testbit_not64 by lia.
    by rewrite andb_false_r.
  - rewrite Hh7. change (w_host w6) with (w_host w5). rewrite Hh5, Hh4. change (w_host w3) with (w_host w2).
    rewrite Hh2. unfold w1, printed. cbn [w_host set_host]. by rewrite Hh0.
Qed.
End lemmas.

(** * Instances *)
Import SampleMachine.

(** The user's registers at the trap, all of them 5 but for the pointers. *)
Definition entry_regs : reg → Z := λ r, match r with Sp => 0x81000f00 | A0 => 64 | _ => 5 end.
Lemma entry_regs_ok : regs_ok entry_regs.
Proof. intros r. unfold entry_regs. destruct r; lia. Qed.

(** Interrupted after three instructions: the slots of [tp] and of 26 more are not written. *)
Lemma interrupted_save_loses_witness :
  ∃ f' w', trap_vector_interrupted 3 0x80003000 (λ _, 7) 0x80001010 (Cpu _ entry_regs serving_world) =
      Ret addr_smode_trap_handler (Cpu _ f' w') ∧
    f' A0 = USER_TRAP_FRAME ∧
    word_at (w_mem serving_world) (USER_TRAP_FRAME + tf_kernel_sp) = Some (f' Sp) ∧
    word_at (w_mem w') (USER_TRAP_FRAME + reg_offset A0) = Some 64 ∧
    (∀ r, r ∈ drop 3 riscv_regs → r ≠ A0 → word_at (w_mem w') (USER_TRAP_FRAME + reg_offset r) =
      word_at (w_mem serving_world) (USER_TRAP_FRAME + reg_offset r)) ∧
    (∀ r, r ∈ drop 3 riscv_regs → r ∉ [A0; T6] →
      word_at (w_mem w') (addr_g_itrframe + reg_offset r) = Some (entry_regs r)).
Proof.
  apply (interrupted_save_loses 3 0x80003000 (λ _, 7) 0x80001010 entry_regs serving_world sample_proc
    USER_TRAP_FRAME addr_g_itrframe 2 5000);
    [apply sample_serving|apply sample_apart|apply entry_regs_ok].
Defined.

(** Three interrupts: one while the line is printed, one between the two accesses to [sip], and one at
    the end. *)
Definition sample_irq : interruption := Interruption 0x80003000 (λ _, 7) 0x80001100 entry_regs.
Definition sample_irqs (n : nat) : list interruption :=
  match n with 1%nat | 3%nat | 4%nat => [sample_irq] | _ => [] end.
Lemma early_ticks_lost_witness :
  ∃ w', mtimer_trap_interrupted sample_irqs serving_world = Ret tt w' ∧
    mready w' addr_g_itrframe (u64 (5000 + Z.of_nat (2 + 1) * TIMER_INTERVAL)) ∧
    w_ticks w' = u64 (w_ticks serving_world + 1) ∧ pending w' = true ∧
    w_host w' = host_calls [FeWrite 2 (printk_bytes (tick_msg (w_ticks serving_world)))] (w_host serving_world).
Proof.
  destruct sample_serving as [_ Hm _ _ _ Hk].
  apply (early_ticks_lost sample_irqs serving_world addr_g_itrframe 5000 2 Hm Hk).
  intros n. do 5 (destruct n as [|n]; [repeat constructor; apply entry_regs_ok|]). constructor.
Defined.
