(* ===== verification/Boot.v ===== *)
(** The whole start: from the machine-mode entry of kernel/machine/minit.c through kernel/kernel.c to
    the first instruction of the application, with the kernel prepared as System.v needs it. *)
From S2P Require Import Prelude Mem CString Snprintf World Sample SpikeUtils SpikeFile Asm Process Elf Kernel Mtrap Dts Load SpikeMemory Htif Minit System.

(** * What loading leaves alone *)
Section own.
Context {H : Type} `{HH : Host H} `{PP : Platform}.
Implicit Types w : world H.

(** The CSRs and the variables of the kernel but for the file tables. *)
Definition same_kernel (w0 w : world H) : Prop :=
  w_csr w = w_csr w0 ∧ w_htif w = w_htif w0 ∧ w_mem_size w = w_mem_size w0 ∧
  w_current w = w_current w0 ∧ w_ticks w = w_ticks w0.
Context (w0 : world H).
Abbreviation own := (keeps (same_kernel w0)).

Lemma own_host : host_blind (same_kernel w0).
Proof. by intros h w Hw. Qed.
Lemma own_on_mem {A} (m : M mem A) : own (on_mem m).
Proof. apply keeps_zoom. intros w Hw m1 Hm1. by destruct (m m1). Qed.
Lemma own_load_field p off : own (load_field p off).
Proof. apply own_on_mem. Qed.
Lemma own_store_field p off v : own (store_field p off v).
Proof. apply own_on_mem. Qed.
Lemma own_get_file f : own (get_file f).
Proof. apply get_file_keeps. Qed.
Lemma own_set_file f x : own (set_file f x).
Proof. by apply keeps_modify. Qed.
Lemma own_frontend c : own (frontend c).
Proof. apply frontend_keeps, own_host. Qed.
Lemma own_sprint s vl : own (sprint s vl).
Proof. apply vprintk_keeps, own_host. Qed.
Lemma own_panic {A} s vl : own (panic (A := A) s vl).
Proof. apply panic_keeps, own_host. Qed.
Lemma own_kassert c ra s : own (kassert c ra s).
Proof. apply kassert_keeps, own_host. Qed.
Lemma own_of_option {A} (o : option A) : own (of_option o).
Proof. by intros w; destruct o. Qed.
Lemma own_atomic_cas_fd i cmp swp : own (atomic_cas_fd i cmp swp).
Proof.
  intros w Hw. unfold atomic_cas_fd. destruct (i <? 0); [done|].
  destruct (w_fds w !! _); [|done]. by case_decide.
Qed.

Ltac own_tac :=
  repeat (intros;
      match goal with
      | |- keeps _ (mret _) => apply keeps_ret
      | |- keeps _ fault => apply keeps_fault
      | |- keeps _ (zoom _) => apply own_on_mem
      | |- keeps _ (load_field _ _) => apply own_load_field
      | |- keeps _ (store_field _ _ _) => apply own_store_field
      | |- keeps _ (get_file _) => apply own_get_file
      | |- keeps _ (set_file _ _) => apply own_set_file
      | |- keeps _ (frontend _) => apply own_frontend
      | |- keeps _ (sprint _ _) => apply own_sprint
      | |- keeps _ (panic _ _) => apply own_panic
      | |- keeps _ (kassert _ _ _) => apply own_kassert
      | |- keeps _ (of_option _) => apply own_of_option
      | |- keeps _ (atomic_cas_fd _ _ _) => apply own_atomic_cas_fd
      | |- keeps _ (when _ _) => apply keeps_when
      | |- keeps _ (loop _ _ _) => apply keeps_loop
      | |- keeps _ (_ ≫= _) => apply keeps_bind
      | |- keeps _ (match ?x with _ => _ end) => destruct x
      end).

Lemma own_decref f : own (spike_file_decref f).
Proof. unfold spike_file_decref, atomic_add_refcnt, atomic_set_refcnt. own_tac. Qed.
Lemma own_close f : own (spike_file_close f).
Proof. unfold spike_file_close. pose proof own_decref as Hd. own_tac; apply Hd. Qed.
Lemma own_get_free k : own (get_free_from k).
Proof.
  induction k as [|k IH]; cbn [get_free_from]; [apply keeps_ret|]. unfold atomic_cas_refcnt. own_tac; exact IH.
Qed.
Lemma own_open fn flags mode : own (spike_file_open fn flags mode).
Proof.
  unfold spike_file_open, spike_file_openat, spike_file_get_free, set_kfd.
  apply keeps_bind; [apply own_get_free|]. pose proof own_decref as Hd.
  own_tac; try apply Hd. intros w Hw. by destruct (read_bytes _ _ _).
Qed.
Lemma own_fpread f dest nb off : own (elf_fpread f dest nb off).
Proof. unfold elf_fpread, spike_file_pread. own_tac. Qed.
Lemma own_fpread_local f nb off : own (elf_fpread_local f nb off).
Proof. unfold elf_fpread_local, spike_file_pread_local. own_tac. Qed.
Lemma own_elf_init f p : own (elf_init f p).
Proof. unfold elf_init. apply keeps_bind; [apply own_fpread_local|own_tac]. Qed.
Lemma own_elf_load ctx : own (elf_load ctx).
Proof.
  pose proof own_fpread_local as Hl. pose proof own_fpread as Hp.
  apply keeps_loop. unfold elf_load_round. own_tac; [apply Hl|apply Hp].
Qed.
Lemma own_section loader idx : own (get_elf_section_header loader idx).
Proof. unfold get_elf_section_header. apply keeps_bind; [apply own_fpread_local|own_tac]. Qed.
Lemma own_symbols loader : own (load_user_symbols loader).
Proof.
  pose proof own_section as Hs. pose proof own_fpread as Hp.
  unfold load_user_symbols, find_symtab_round, load_tables. own_tac; first [apply Hs|apply Hp].
Qed.
Lemma own_parse_args : own parse_args.
Proof. unfold parse_args, shift_args_round, load_arg, store_arg. own_tac. Qed.
Lemma own_load p : own (load_bincode_from_host_elf p).
Proof.
  unfold load_bincode_from_host_elf, load_opened, load_arg. own_tac;
    match goal with
    | |- keeps _ parse_args => apply own_parse_args
    | |- keeps _ (spike_file_open _ _ _) => apply own_open
    | |- keeps _ (elf_init _ _) => apply own_elf_init
    | |- keeps _ (elf_load _) => apply own_elf_load
    | |- keeps _ (load_user_symbols _) => apply own_symbols
    | |- keeps _ (spike_file_close _) => apply own_close
    end.
Qed.
End own.

(** * The start *)
Section boot.
Context {H : Type} `{HH : Host H} `{PP : Platform}.

(** The [mret] of [m_start] goes to [s_start]. *)
Definition boot (htif_scan : Z) (scan : mem_scan) (hartid dtb : Z) : M (world H) entry :=
  '(m, pc) ← m_start htif_scan scan hartid dtb;
  match m with
  | SupervisorMode => if pc =? addr_s_start then s_start else fault
  | _ => fault
  end.
End boot.

Section specs.
Context {H : Type} `{HH : Host H} `{PP : Platform} `{!RiscvCsrs} `{!InterruptCsrs} `{!Linked}.
Implicit Types w : world H.

(** The memory of the machine, laid out: room for the process and its frame, the frame for machine
    traps, and none of them nor the timer registers overlap. *)
Record machine_memory w : Prop := {
  mm_room : room (w_mem w) addr_user_app;
  mm_frame : frame (w_mem w) addr_g_itrframe 248;
  mm_top : addr_g_itrframe < 2 ^ 64;
  mm_apart : apart addr_user_app USER_TRAP_FRAME addr_g_itrframe;
  mm_timer : CLINT_MTIMECMP 0 + 8 ≤ addr_g_itrframe ∨ addr_g_itrframe + 248 ≤ CLINT_MTIMECMP 0;
}.
(** The memory the kernel relies on, but for the process itself and the last words of its frame. *)
Definition settled (a : Z) : Prop :=
  USER_TRAP_FRAME ≤ a < USER_TRAP_FRAME + 248 ∨
  addr_g_itrframe ≤ a < addr_g_itrframe + 248 ∨ CLINT_MTIMECMP 0 ≤ a < CLINT_MTIMECMP 0 + 8.

(** Loading ended in [w2], and the segments went nowhere into the kernel's memory. *)
Record loaded (w1 w2 : world H) (epc : Z) : Prop := {
  ld_runs : load_bincode_from_host_elf addr_user_app (before_loading w1 2) = Ret tt w2;
  ld_console : console w2 2;
  ld_layout : layout (w_mem w2) addr_user_app USER_TRAP_FRAME;
  ld_settled a : settled a → w_mem w2 !! a = w_mem (before_loading w1 2) !! a;
  ld_epc : word_at (w_mem w2) (USER_TRAP_FRAME + tf_epc) = Some epc;
  ld_entry : user_pc epc;
}.

Lemma fresh_process_lookup m proc a :
  a < proc ∨ proc + sizeof_process ≤ a →
  a < USER_TRAP_FRAME ∨ USER_TRAP_FRAME + sizeof_trapframe ≤ a →
  fresh_process m proc !! a = m !! a.
Proof.
  intros Ha1 Ha2. assert (proc_trapframe + 8 ≤ sizeof_process) by (apply Z.leb_le; reflexivity).
  unfold fresh_process. assert (0 ≤ proc_kstack ≤ proc_trapframe) by done.
  assert (0 ≤ reg_offset Sp ∧ reg_offset Sp + 8 ≤ sizeof_trapframe) by done.
  rewrite lookup_write_word_ne, lookup_write_word_ne by lia.
  rewrite lookup_write_bytes_ne.
  - apply lookup_write_word_ne. lia.
  - rewrite length_replicate, Z2Nat.id by done. lia.
Qed.

(** Where the machine is after [m_start], as [s_start] finds it. *)
Definition started (t : Z) (tr : dtree) (g : Z) w : world H :=
  mret_effect (booted 0 t (discovered 2 tr g (opened 0 w))).
Lemma started_ticks t tr g w : w_ticks (started t tr g w) = w_ticks w.
Proof. unfold started, discovered. by destruct (existsb _ _), (truthy _). Qed.

Lemma started_mem t tr g w : w_mem (started t tr g w) = write_word (w_mem w) (CLINT_MTIMECMP 0) (u64 (t + TIMER_INTERVAL)).
Proof. unfold started, discovered. by destruct (existsb _ _), (truthy _). Qed.

Lemma started_console t tr g w : console (started t tr g w) 2.
Proof.
  exists (SpikeFile 2 4). split; [|done]. unfold started, mret_effect, booted, timed, delegated, vectored, discovered, opened.
  cbn [w_files csr_set set_csr set_mem set_mem_size printed set_host].
  by destruct (existsb _ _), (truthy _).
Qed.

Lemma booted_room p w m proc :
  room m proc →
  (∀ a, a < CLINT_MTIMECMP 0 ∨ CLINT_MTIMECMP 0 + 8 ≤ a → w_mem w !! a = m !! a) →
  mem_wf (w_mem w) → apart proc USER_TRAP_FRAME p → room (w_mem w) proc.
Proof.
  intros [Hwf Hp Hn Hf Hd] He Hwf' [_ _ Ha1 Ha2]. split; [done| |done| |done].
  - destruct Hp as (Hp0 & Hp1 & Hm). split_and!; [exact Hp0|exact Hp1|]. apply (mapped_ext m); [|exact Hm].
    intros a Ha. apply He. rewrite Z2Nat.id in Ha by (apply Z.leb_le; reflexivity). lia.
  - destruct Hf as (Hf0 & Hf1 & Hm). split_and!; [exact Hf0|exact Hf1|]. apply (mapped_ext m); [|exact Hm].
    intros a Ha. apply He. rewrite Z2Nat.id in Ha by done. lia.
Qed.

Lemma started_memory t tr g w :
  mem_wf (w_mem w) → machine_memory w → machine_memory (started t tr g w).
Proof.
  intros Hwf [Hroom (Hp0 & Hp1 & Hp) Htop Hap Hat]. pose proof (started_mem t tr g w) as Hm.
  split; [| |exact Htop|exact Hap|exact Hat].
  - apply (booted_room addr_g_itrframe _ (w_mem w)); [done| | |done]; rewrite Hm.
    + intros a Ha. by apply lookup_write_word_ne.
    + by apply mem_wf_write_word.
  - split_and!; [done|done|]. rewrite Hm. by apply mapped_write_word.
Qed.

(** The kernel is prepared when the application starts. *)
Lemma boot_serves w1 w2 w' t :
  (∀ c, c ∉ satp :: switch_csrs → w_csr w' c = w_csr w1 c) → w_files w' = w_files w2 → console w2 2 →
  (∀ a, settled a → a < USER_TRAP_FRAME ∨ USER_TRAP_FRAME + sizeof_trapframe ≤ a →
    w_mem w' !! a = w_mem w1 !! a) →
  ready w' addr_user_app USER_TRAP_FRAME → machine_memory w1 →
  w_csr w1 mscratch = addr_g_itrframe → w_csr w1 mtvec = addr_mtrapvec →
  Z.testbit (w_csr w1 sie) 1 = true → w_csr w1 mideleg = interrupts →
  word_at (w_mem w1) (CLINT_MTIMECMP 0) = Some t →
  serving w' addr_user_app USER_TRAP_FRAME addr_g_itrframe 2 t.
Proof.
  intros Hcsr Hfi Hk Hmem Hr [_ (Hf0 & Hf1 & Hf) Htop [Ha1 Ha2 Ha3 Ha4] Hat] Hs Hv Hsie Hd Ht.
  split; [done| | | | |].
  - split; [|split_and!; [done|done|]|done|apply Hr| |done].
    + rewrite Hcsr by (by apply (bool_decide_unpack _)). done.
    + apply (mapped_ext (w_mem w1)); [|done]. intros a Ha. apply Hmem; [unfold settled|]; lia.
    + rewrite <- Ht. apply word_at_ext. intros a Ha. apply Hmem; [unfold settled|]; lia.
  - rewrite Hcsr by (by apply (bool_decide_unpack _)). done.
  - rewrite Hcsr by (by apply (bool_decide_unpack _)). done.
  - rewrite Hcsr by (by apply (bool_decide_unpack _)). by rewrite Hd.
  - unfold console. by rewrite Hfi.
Qed.

Definition enter_msg : list Z := bytes ("Enter supervisor mode..." +:+ newline).
Definition switch_msg : list Z := bytes ("Switch to user mode..." +:+ newline).

(** From supervisor mode on. *)
Lemma s_start_serves w1 w2 epc t :
  console w1 2 → machine_memory w1 → w_csr w1 mscratch = addr_g_itrframe →
  w_csr w1 mtvec = addr_mtrapvec → Z.testbit (w_csr w1 sie) 1 = true →
  w_csr w1 mideleg = interrupts → word_at (w_mem w1) (CLINT_MTIMECMP 0) = Some t →
  loaded w1 w2 epc →
  ∃ e w', s_start w1 = Ret e w' ∧ e_mode e = UserMode ∧ e_pc e = epc ∧
    (∀ r, e_regs e r = if decide (r = Sp) then USER_STACK else 0) ∧
    hart_ok addr_user_app USER_TRAP_FRAME addr_g_itrframe 2 t (Hart (e_pc e) (e_regs e) w') ∧
    same_outside USER_TRAP_FRAME (w_mem w2) (w_mem w') ∧
    w_host w' = host_calls [FeWrite 2 (printk_bytes switch_msg)] (w_host w2) ∧
    w_ticks w' = w_ticks w1 ∧ w_csr w' mie = w_csr w1 mie.
Proof.
  intros Hk1 Hmm Hs Hv Hsie Hmid Ht [Hload Hk2 Hl Hset Hepc Hpc]. pose proof (mm_apart _ Hmm) as Hap.
  destruct (s_start_Ret w1 2 w2 epc Hk1 (mm_room _ Hmm) Hload Hk2 Hl)
    as (e & w' & He & Hmd & Hpc' & Hregs & Hr & Hh & Ho & Hfi & _ & _ & _ & Htk & Hcsr);
    [|exact Hepc|apply Hpc|].
  { intros a Ha. apply Hset. by left. }
  assert (same_kernel (before_loading w1 2) (before_loading w1 2)) as Hsame by (by split_and!).
  pose proof (keeps_Ret _ _ _ _ _ (own_load _ addr_user_app) Hsame Hload) as (Hcsr2 & _ & _ & _ & Htk2).
  assert (∀ c, c ∉ satp :: switch_csrs → w_csr w' c = w_csr w1 c) as Hcsr1.
  { intros c [Hc0 Hc]%not_elem_of_cons. rewrite Hcsr by exact Hc. rewrite Hcsr2. unfold before_loading.
    cbn [w_csr set_mem]. by rewrite csr_set_ne. }
  exists e, w'. split_and!; [exact He|exact Hmd|exact Hpc'|exact Hregs|split; [|split]|exact Ho|exact Hh|by rewrite Htk|].
  - rewrite Hpc'. exact Hpc.
  - intros r. cbn [h_regs]. rewrite Hregs. case_decide; [unfold USER_STACK|]; lia.
  - cbn [h_world]. apply (boot_serves w1 w2); try assumption.
    intros a Ha Hout. rewrite Ho by exact Hout. rewrite Hset by exact Ha.
    unfold before_loading. cbn [w_mem set_mem]. destruct Hap.
    apply fresh_process_lookup; [|exact Hout]. unfold settled, sizeof_trapframe in *. lia.
  - apply Hcsr1. by apply (bool_decide_unpack _).
Qed.

(** With what [m_start] leaves for it. *)
Lemma boot_Ret w x scan dtb strings struct tr g t w2 epc :
  w_files w = spike_files_init → w_fds w = spike_fds_init →
  device_tree w dtb strings struct tr g → delegates w → clint w 0 t → machine_memory w →
  loaded (started t tr g w) w2 epc →
  ∃ e w', boot x scan 0 dtb w = Ret e w' ∧ e_mode e = UserMode ∧ e_pc e = epc ∧
    (∀ r, e_regs e r = if decide (r = Sp) then USER_STACK else 0) ∧
    hart_ok addr_user_app USER_TRAP_FRAME addr_g_itrframe 2 (u64 (t + TIMER_INTERVAL))
      (Hart (e_pc e) (e_regs e) w') ∧
    same_outside USER_TRAP_FRAME (w_mem w2) (w_mem w') ∧
    w_host w' = host_calls [FeWrite 2 (printk_bytes switch_msg)] (w_host w2) ∧
    w_ticks w' = w_ticks w ∧ Z.testbit (w_csr w' mie) 7 = true.
Proof.
  intros Hf Hd Htree Hdel Hcl Hmm Hload.
  assert (0 ≤ addr_g_itrframe < 2 ^ 64) as Hg by (destruct Hmm as [_ [? _] ? _ _]; lia).
  pose proof (m_start_facts w x scan 0 dtb strings struct tr g t Hf Hd Htree Hdel Hcl Hg) as Hfacts.
  cbv zeta in Hfacts. fold (started t tr g w) in Hfacts.
  pose proof (started_console t tr g w) as Hk1. rewrite <- (started_ticks t tr g w).
  pose proof (started_memory t tr g w (dt_wf _ _ _ _ _ _ Htree) Hmm) as Hmm1.
  generalize dependent (started t tr g w).
  intros w1 Hload (Hrun & [Hs Hv Htm Hsie Hmid _ _ _ _] & Ht & _) Hk1 Hmm1.
  destruct (s_start_serves w1 w2 epc _ Hk1 Hmm1 Hs Hv Hsie Hmid Ht Hload)
    as (e & w' & He & Hmd & Hpc & Hregs & Hok & Ho & Hh & Htk & Hmie).
  exists e, w'. rewrite Hmie. split_and!; try done. unfold boot. mrun Hrun. cbn beta iota. by rewrite Z.eqb_refl.
Qed.

(** When the loading stops the machine, the boot does. *)
Lemma boot_Halted w x scan dtb strings struct tr g t w2 :
  w_files w = spike_files_init → w_fds w = spike_fds_init →
  device_tree w dtb strings struct tr g → delegates w → clint w 0 t → machine_memory w →
  load_bincode_from_host_elf addr_user_app (before_loading (started t tr g w) 2) = Halted w2 →
  boot x scan 0 dtb w = Halted w2.
Proof.
  intros Hf Hd Htree Hdel Hcl Hmm Hload.
  assert (0 ≤ addr_g_itrframe < 2 ^ 64) as Hg by (destruct Hmm as [_ [? _] ? _ _]; lia).
  destruct (m_start_facts w x scan 0 dtb strings struct tr g t Hf Hd Htree Hdel Hcl Hg) as [Hrun _].
  fold (started t tr g w) in Hrun. unfold boot. mrun Hrun. cbn beta iota. rewrite Z.eqb_refl.
  apply (s_start_Halted _ 2); [apply started_console| |done].
  apply started_memory; [apply (dt_wf _ _ _ _ _ _ Htree)|done].
Qed.

(** ** With an application on the host *)

(** What of the memory has to stay as the kernel has it while the application is loaded. *)
Definition owned : Z → Prop := kernel_memory addr_user_app USER_TRAP_FRAME addr_g_itrframe.
(** The command line, and the buffer for it. *)
Record args_machine w (args path : list Z) (off : nat) : Prop := {
  am_line : args_line args path off;
  am_args : frame (w_mem w) arg_area (Z.to_nat sizeof_arg_buf);
  am_apart a : owned a → a < arg_area ∨ arg_area + sizeof_arg_buf ≤ a;
}.
(** The application, on a machine. *)
Record app_machine w (file args path : list Z) (off : nat) : Prop := {
  am_command : args_machine w args path off;
  am_file : app_file (w_mem w) file owned;
  am_entry : eh_entry (elf_of file) `mod` 4 = 0;
}.

Lemma args_machine_mapped w w' args path off :
  args_machine w args path off → (∀ q n, mapped (w_mem w) q n → mapped (w_mem w') q n) →
  args_machine w' args path off.
Proof. intros [Hl (? & ? & ?) Hap] Hm. split; try done. split_and!; auto. Qed.
Lemma app_machine_mapped w w' file args path off :
  app_machine w file args path off → (∀ q n, mapped (w_mem w) q n → mapped (w_mem w') q n) →
  app_machine w' file args path off.
Proof. intros [Hc Hf He] Hm. split; [by eapply args_machine_mapped|by eapply app_file_mapped|done]. Qed.
Lemma fresh_process_mapped m proc q n : mapped m q n → mapped (fresh_process m proc) q n.
Proof. intros Hm. by apply mapped_write_word, mapped_write_word, mapped_write_bytes, mapped_write_word. Qed.
Lemma args_line_length args path off :
  args_line args path off → Z.of_nat (length args) ≤ sizeof_arg_buf → Z.of_nat (length path) < 2 ^ 30.
Proof.
  intros [_ _ _ _ Hp _] Hl. apply (f_equal length) in Hp.
  rewrite length_take, length_drop, length_app in Hp. simpl in Hp. unfold sizeof_arg_buf, MAX_CMDLINE_ARGS in Hl. lia.
Qed.

Lemma before_loading_ready w args path off fd :
  console w 2 → w_files w = sample_files → w_fds w = sample_fds → machine_memory w →
  args_machine w args path off → 0 ≤ fd < Z.of_nat MAX_FDS →
  load_ready (before_loading w 2) 2 addr_user_app USER_TRAP_FRAME 3 fd owned.
Proof.
  intros Hk Hf Hd Hmm [_ (Ha0 & Ha1 & Ha) Hap] Hfd. split.
  - exact Hk.
  - apply fresh_layout, Hmm.
  - cbn [before_loading w_files set_mem csr_set set_csr printed set_host]. by rewrite Hf.
  - exists (SpikeFile (-1) 0). cbn [before_loading w_files set_mem csr_set set_csr printed set_host]. by rewrite Hf.
  - discriminate.
  - cbn [before_loading w_fds set_mem csr_set set_csr printed set_host]. rewrite Hd.
    destruct (lookup_lt_is_Some_2 sample_fds (Z.to_nat fd)) as [old Ho].
    { change (length sample_fds) with MAX_FDS. lia. }
    exists old. split; [exact Ho|]. intros ->.
    assert (Forall (λ o, o ≠ Some 3%nat) sample_fds) as Hall by (apply (bool_decide_unpack _); vm_compute; exact I).
    rewrite Forall_lookup in Hall. by apply (Hall _ _ Ho).
  - split_and!; [exact Ha0|exact Ha1|by apply fresh_process_mapped].
  - intros a [Hin|Hin]; [by left|by right; left].
  - exact Hap.
Qed.

(** The loading of the kernel's start, for a host with an application. *)
Lemma app_loads file args path off fd (Q P : H → Prop) `{!AppHost file args path fd Q P} w :
  console w 2 → w_files w = sample_files → w_fds w = sample_fds → machine_memory w → Q (w_host w) →
  app_machine w file args path off →
  ∃ m2 cs w2, loaded w w2 (eh_entry (elf_of file)) ∧
    args_only (fresh_process (w_mem w) addr_user_app) m2 ∧
    w_mem w2 = app_image file m2 addr_user_app USER_TRAP_FRAME ∧ Forall (is_pread fd) cs ∧
    w_host w2 = host_calls (FeWrite 2 (printk_bytes enter_msg) :: load_calls 2 path (eh_entry (elf_of file)) cs) (w_host w).
Proof.
  intros Hk Hf Hd Hmm HQ Ham. set (w1 := before_loading w 2).
  assert (app_machine w1 file args path off) as [[Hline Har Hap] Haf Hent].
  { apply (app_machine_mapped w); [done|]. intros q n. apply fresh_process_mapped. }
  pose proof (before_loading_ready w _ _ _ fd Hk Hf Hd Hmm (am_command _ _ _ _ _ Ham) (ah_fd (file := file) (P := P))) as Hrd.
  assert (Q (w_host w1)) as HQ1 by (apply gh_keeps; [exact HQ|exact I]).
  pose proof (args_line_command (w_mem w1) _ _ _ Hline) as Hcl.
  destruct (load_bincode_Ret file args path fd Q P w1 2 addr_user_app USER_TRAP_FRAME 3 _ _ owned HQ1 Hrd Hcl
    (args_line_length _ _ _ Hline gh_size) Haf) as (m2 & cs & w2 & Hr & Hag & Hmem & Hfi & Hcs & Hh).
  exists m2, cs, w2. split_and!; try done.
  assert (layout m2 addr_user_app USER_TRAP_FRAME) as Hl2.
  { apply (layout_ext (w_mem w1)); [apply Hrd|apply Hag|]. intros a Ha. apply Hag, Hap. destruct Ha; [by left|by right; left]. }
  destruct (app_image_layout file m2 addr_user_app USER_TRAP_FRAME owned) as (Himg & Hepc & He);
    [by apply (app_file_mapped (w_mem w1)); [|apply Hag]|apply (fs_bytes (P := P))|done
    |intros a [Ha|Ha]; [by left|by right; left]|].
  rewrite <- Hmem in Himg, Hepc, He. split; try done.
  - exists (SpikeFile 2 4). split; [|done]. rewrite Hfi.
    cbn [w1 before_loading w_files set_mem csr_set set_csr printed set_host]. by rewrite Hf.
  - intros a Ha. destruct (mm_apart _ Hmm) as [Ha1 Ha2 Ha3 Ha4]. destruct (room_disj _ _ (mm_room _ Hmm)) as [Hdj|Hdj].
    all: unfold sizeof_trapframe, settled in *; unfold tf_epc in He.
    all: assert (proc_symtab ≤ sizeof_process ∧ 0 ≤ proc_symtab) as [? ?] by (split; apply Z.leb_le; reflexivity).
    all: rewrite He by (unfold owned, kernel_memory, sizeof_trapframe; lia).
    all: apply Hag, Hap; unfold owned, kernel_memory, sizeof_trapframe; lia.
  - split; [|done]. apply (field_range 8), (fs_bytes (P := P)).
Qed.

(** What [m_start] does to the host and the tables. *)
Definition has_htif (tr : dtree) w : bool := existsb is_htif (nodes tr) || truthy (w_htif w).
Definition start_calls (htif : bool) (g : Z) : list fe_call :=
  FeWrite 2 (printk_bytes (hartid_msg 0)) ::
  (if htif then [FeWrite 2 (printk_bytes htif_msg)] else []) ++ [FeWrite 2 (printk_bytes (memory_msg g))].
Lemma started_facts t tr g w :
  let w1 := started t tr g w in
  w_files w1 = sample_files ∧ w_fds w1 = sample_fds ∧
  w_mem w1 = write_word (w_mem w) (CLINT_MTIMECMP 0) (u64 (t + TIMER_INTERVAL)) ∧
  w_host w1 = host_calls (start_calls (has_htif tr w) g) (w_host w).
Proof.
  unfold started, mret_effect, booted, timed, delegated, vectored, discovered, has_htif.
  destruct (existsb is_htif (nodes tr)) eqn:E; cbn [orb].
  - split_and!; done.
  - change (w_htif (opened 0 w)) with (w_htif w). destruct (truthy (w_htif w)); done.
Qed.

Lemma started_serves args (Q : H → Prop) `{!ArgsHost args Q} t tr g w :
  Q (w_host w) → Q (w_host (started t tr g w)).
Proof.
  destruct (started_facts t tr g w) as (_ & _ & _ & ->).
  assert (Forall before_open (start_calls (has_htif tr w) g)) as Hcs
    by (unfold start_calls; destruct (has_htif tr w); by repeat constructor).
  revert Hcs. generalize (start_calls (has_htif tr w) g), (w_host w). intros cs h Hcs. revert h.
  induction Hcs as [|c cs Hc _ IH]; intros h Hh; [done|]. by apply (IH (host_call c h).2), gh_keeps.
Qed.

(** All the calls of a boot. *)
Definition boot_calls (htif : bool) (g : Z) (path : list Z) (entry : Z) (cs : list fe_call) : list fe_call :=
  start_calls htif g ++ [FeWrite 2 (printk_bytes enter_msg)] ++ load_calls 2 path entry cs ++
  [FeWrite 2 (printk_bytes switch_msg)].

Lemma boot_app_Ret file args path off fd (Q P : H → Prop) `{!AppHost file args path fd Q P} w x scan dtb strings struct tr g t :
  w_files w = spike_files_init → w_fds w = spike_fds_init →
  device_tree w dtb strings struct tr g → delegates w → clint w 0 t → machine_memory w →
  Q (w_host w) → app_machine w file args path off →
  ∃ e w' m2 cs, boot x scan 0 dtb w = Ret e w' ∧ e_mode e = UserMode ∧ e_pc e = eh_entry (elf_of file) ∧
    (∀ r, e_regs e r = if decide (r = Sp) then USER_STACK else 0) ∧
    hart_ok addr_user_app USER_TRAP_FRAME addr_g_itrframe 2 (u64 (t + TIMER_INTERVAL))
      (Hart (e_pc e) (e_regs e) w') ∧
    args_only (fresh_process (write_word (w_mem w) (CLINT_MTIMECMP 0) (u64 (t + TIMER_INTERVAL))) addr_user_app) m2 ∧
    same_outside USER_TRAP_FRAME (app_image file m2 addr_user_app USER_TRAP_FRAME) (w_mem w') ∧
    Forall (is_pread fd) cs ∧ w_ticks w' = w_ticks w ∧ Z.testbit (w_csr w' mie) 7 = true ∧
    w_host w' = host_calls (boot_calls (has_htif tr w) g path (eh_entry (elf_of file)) cs) (w_host w).
Proof.
  intros Hf Hd Htree Hdel Hcl Hmm HQ Ham.
  destruct (started_facts t tr g w) as (Hf1 & Hd1 & Hm1 & Hh1).
  pose proof (started_console t tr g w) as Hk1.
  pose proof (started_memory t tr g w (dt_wf _ _ _ _ _ _ Htree) Hmm) as Hmm1.
  pose proof (started_serves args Q t tr g w HQ) as HQ1.
  assert (app_machine (started t tr g w) file args path off) as Ham1.
  { apply (app_machine_mapped w); [done|]. intros q n Hq. rewrite Hm1. by apply mapped_write_word. }
  destruct (app_loads file args path off fd Q P (started t tr g w) Hk1 Hf1 Hd1 Hmm1 HQ1 Ham1)
    as (m2 & cs & w2 & Hld & Hag & Hmem & Hcs & Hh2).
  destruct (boot_Ret w x scan dtb strings struct tr g t w2 _ Hf Hd Htree Hdel Hcl Hmm Hld)
    as (e & w' & He & Hmd & Hpc & Hregs & Hok & Ho & Hh3 & Htk & Hmie).
  exists e, w', m2, cs. rewrite Hm1 in Hag. rewrite Hmem in Ho. split_and!; try done.
  rewrite Hh3, Hh2, Hh1. unfold boot_calls. rewrite !host_calls_app. done.
Qed.

(** The calls of a boot that ends with the refusal of the file. *)
Definition refused_calls (htif : bool) (g : Z) (path : list Z) (cs : list fe_call) (s : string) : list fe_call :=
  start_calls htif g ++ [FeWrite 2 (printk_bytes enter_msg)] ++ open_calls 2 path ++ cs ++ panic_calls 2 s.

Lemma headers_inside_ext m m' file :
  (∀ q n, mapped m q n → mapped m' q n) → headers_inside m file → headers_inside m' file.
Proof.
  intros Hm Hh Hlen. destruct (Hh Hlen) as (? & ? & ? & Hs). split_and!; try done.
  eapply Forall_impl; [exact Hs|]. intros ph Hok Ht. destruct (Hok Ht). auto.
Qed.

(** C9. The boot that fails: on the same machine, when the host does not open the application's file,
    or the file is too short, no ELF file, or has an unsound segment, the machine never reaches user
    mode: after the messages of the start and the name of the application it prints the reason and
    the shutdown notice and tells the host to exit with code -1; in between it has only read, on
    the descriptor of the file. *)
Theorem boot_refuses file args path off fd (Q P : H → Prop)
    `{!ArgsHost args Q} `{!OpenHost path fd Q P} `{!FileServer file fd P} w x scan dtb strings struct tr g t s :
  w_files w = spike_files_init → w_fds w = spike_fds_init →
  device_tree w dtb strings struct tr g → delegates w → clint w 0 t → machine_memory w →
  Q (w_host w) → args_machine w args path off →
  refusal fd file = Some s → headers_inside (w_mem w) file →
  ∃ w' cs, boot x scan 0 dtb w = Halted w' ∧ Forall (is_pread fd) cs ∧
    w_host w' = host_calls (refused_calls (has_htif tr w) g path cs s) (w_host w).
Proof.
  intros Hf Hd Htree Hdel Hcl Hmm HQ Ham Hs Hin.
  destruct (started_facts t tr g w) as (Hf1 & Hd1 & Hm1 & Hh1). pose proof (started_console t tr g w) as Hk1.
  pose proof (started_memory t tr g w (dt_wf _ _ _ _ _ _ Htree) Hmm) as Hmm1.
  pose proof (started_serves args Q t tr g w HQ) as HQ1.
  assert (∀ q n, mapped (w_mem w) q n → mapped (w_mem (started t tr g w)) q n) as Hmap
    by (intros q n Hq; rewrite Hm1; by apply mapped_write_word).
  pose proof (args_machine_mapped w _ _ _ _ Ham Hmap) as Ham1. destruct (id Ham1) as [Hline _ _].
  pose proof (before_loading_ready _ _ _ _ 0 Hk1 Hf1 Hd1 Hmm1 Ham1 ltac:(done)) as Hrd.
  set (w1 := before_loading _ _) in *.
  destruct (load_bincode_Halted file args path fd Q P w1 2 addr_user_app USER_TRAP_FRAME 3 _ _ owned 0 s
    (gh_keeps _ (FeWrite 2 (printk_bytes enter_msg)) HQ1 I) Hrd (args_line_command (w_mem w1) _ _ _ Hline)
    (args_line_length _ _ _ Hline gh_size) Hs) as (cs & w' & Hrun & Hcs & Hh).
  { apply (headers_inside_ext (w_mem w)); [|done]. intros q n Hq. by apply fresh_process_mapped, Hmap. }
  exists w', cs. split; [by eapply boot_Halted|]. split; [done|].
  rewrite Hh. unfold w1, before_loading, refused_calls. cbn [w_host set_mem csr_set set_csr printed set_host].
  rewrite Hh1. by rewrite !host_calls_app.
Qed.

(** A command line without an application, for the loading of the kernel's start. *)
Lemma no_application_loads args (Q : H → Prop) `{!ArgsHost args Q} w :
  console w 2 → Q (w_host w) → frame (w_mem w) arg_area (Z.to_nat sizeof_arg_buf) →
  Forall (λ b, 0 ≤ b < 256) args → (8 ≤ length args)%nat → field 8 0 args = 1 →
  ∃ w', load_bincode_from_host_elf addr_user_app (before_loading w 2) = Halted w' ∧
    w_host w' = host_calls ([FeWrite 2 (printk_bytes enter_msg); FeGetmainvars arg_area sizeof_arg_buf] ++
      panic_calls 2 "You need to specify the application program!") (w_host w).
Proof.
  intros Hk HQ (Ha0 & Ha1 & Ha) Hby Hlen Hone.
  pose proof (gh_keeps (args := args) _ (FeWrite 2 (printk_bytes enter_msg)) HQ I) as HQ1.
  eexists. split.
  - apply (load_no_application (before_loading w 2) 2 _ args).
    + by apply gh_args.
    + apply gh_size.
    + split_and!; [done|done|]. by apply fresh_process_mapped.
    + cbn [w_mem set_mem]. rewrite map_u8_range by done.
      generalize (w_mem (before_loading w 2)). intros m. pose proof (read_write_bytes m arg_area args) as Hr.
      unfold word_at. rewrite <- (Z.add_0_r arg_area) at 2. change 0 with (Z.of_nat 0) at 1.
      rewrite (read_bytes_sub _ _ _ _ 0 8 Hr) by lia. by rewrite <- Hone.
    + exact Hk.
  - reflexivity.
Qed.

(** A command line without an application: the machine stops before it opens anything. *)
Theorem boot_no_application args (Q : H → Prop) `{!ArgsHost args Q} w x scan dtb strings struct tr g t :
  w_files w = spike_files_init → w_fds w = spike_fds_init →
  device_tree w dtb strings struct tr g → delegates w → clint w 0 t → machine_memory w →
  Q (w_host w) → frame (w_mem w) arg_area (Z.to_nat sizeof_arg_buf) →
  Forall (λ b, 0 ≤ b < 256) args → (8 ≤ length args)%nat → field 8 0 args = 1 →
  ∃ w', boot x scan 0 dtb w = Halted w' ∧
    w_host w' = host_calls (start_calls (has_htif tr w) g ++
      [FeWrite 2 (printk_bytes enter_msg); FeGetmainvars arg_area sizeof_arg_buf] ++
      panic_calls 2 "You need to specify the application program!") (w_host w).
Proof.
  intros Hf Hd Htree Hdel Hcl Hmm HQ (Ha0 & Ha1 & Ha) Hby Hlen Hone.
  destruct (started_facts t tr g w) as (_ & _ & Hm1 & Hh1).
  destruct (no_application_loads args Q (started t tr g w)) as (w' & Hload & Hh); try done.
  - apply started_console.
  - by apply (started_serves args).
  - split_and!; [done|done|]. rewrite Hm1. by apply mapped_write_word.
  - exists w'. split; [by eapply boot_Halted|]. rewrite Hh, Hh1. symmetry. apply host_calls_app.
Qed.

(** C2. The whole start: with a device tree both scans understand, a CLINT, delegable traps, memory
    for the kernel's records, and a host that opens the file of a sound application, whose segments
    stay out of that memory, and serves it to [pread] on that descriptor, the machine gets from its C entry point to the first instruction of the
    application: in user mode at the entry point of the file, the user stack in [sp] and every other
    register zero, the segments of the file in memory, and the kernel prepared for every trap and
    interrupt from then on ([System.run_kept] starts here); the timer interrupt is enabled, and the
    first one is due an interval after the time the CLINT showed.  The host sees the messages of the
    boot, the loading of the file, with no [pread] but on its descriptor, and nothing else. *)
Theorem boot_spec file args path off fd (Q P : H → Prop) `{!AppHost file args path fd Q P} w x scan dtb strings struct tr g t :
  w_files w = spike_files_init → w_fds w = spike_fds_init →
  device_tree w dtb strings struct tr g → delegates w → clint w 0 t → machine_memory w →
  Q (w_host w) → app_machine w file args path off →
  ∃ e w' m2 cs, boot x scan 0 dtb w = Ret e w' ∧ e_mode e = UserMode ∧ e_pc e = eh_entry (elf_of file) ∧
    (∀ r, e_regs e r = if decide (r = Sp) then USER_STACK else 0) ∧
    hart_ok addr_user_app USER_TRAP_FRAME addr_g_itrframe 2 (u64 (t + TIMER_INTERVAL))
      (Hart (e_pc e) (e_regs e) w') ∧
    args_only (fresh_process (write_word (w_mem w) (CLINT_MTIMECMP 0) (u64 (t + TIMER_INTERVAL))) addr_user_app) m2 ∧
    same_outside USER_TRAP_FRAME (app_image file m2 addr_user_app USER_TRAP_FRAME) (w_mem w') ∧
    Forall (is_pread fd) cs ∧ w_ticks w' = w_ticks w ∧ Z.testbit (w_csr w' mie) 7 = true ∧
    w_host w' = host_calls (boot_calls (has_htif tr w) g path (eh_entry (elf_of file)) cs) (w_host w).
Proof. by eapply boot_app_Ret. Qed.
End specs.

(** * Instances *)
Import SampleMachine.

(** The command line of the sample host, and the kernel's memory. *)
Lemma sample_args_line : args_line sample_args (bytes "app") 24.
Proof.
  split; [apply bytes_of_bool; vm_compute; reflexivity|by split|by vm_compute|by split|by vm_compute|].
  vm_compute. repeat constructor; discriminate.
Qed.
Lemma sample_owned_range a :
  owned a → a < 0x80020000 + 20512 ∨ 0x81300000 ≤ a < 0x81300000 + 272.
Proof.
  unfold owned, kernel_memory. change addr_user_app with 0x80020000. change sizeof_process with 20512.
  change addr_g_itrframe with 0x80010000. change (CLINT_MTIMECMP 0) with 0x2004000.
  unfold USER_TRAP_FRAME, sizeof_trapframe. lia.
Qed.

(** A machine with the devices of Minit.v over the memory [m], and [file] on its host; and the one
    over the memory of Kernel.v. *)
Definition machine_with (m : mem) (file : list Z) : world sample_host :=
  World _ (sample_fdt_mem m) (λ c, match c with misa => Z.shiftl 1 18 | _ => 0 end)
    spike_files_init spike_fds_init 0 0 0 0 (SampleHost [] file).
Definition machine_base : mem :=
  let m := write_bytes boot_mem addr_g_itrframe (replicate 248 0) in
  let m := write_bytes m (CLINT_MTIMECMP 0) (replicate 8 0) in
  write_word (write_bytes m CLINT_MTIME (replicate 8 0)) CLINT_MTIME 700.
Definition machine_on : world sample_host := machine_with machine_base sample_elf.
(** The memory is enough for the kernel, as a computation. *)
Definition machine_b (m : mem) : bool :=
  wf_b m && frame_b m addr_user_app sizeof_process && frame_b m USER_TRAP_FRAME sizeof_trapframe &&
  frame_b m addr_g_itrframe 248 && frame_b m arg_area sizeof_arg_buf.
Lemma machine_base_wf : mem_wf machine_base.
Proof. apply wf_b_true. vm_compute. reflexivity. Qed.
Lemma machine_base_b : machine_b (sample_fdt_mem machine_base) = true.
Proof. vm_compute. reflexivity. Qed.

Section machine.
Context (m : mem) (file : list Z).
Let w := machine_with m file.
Lemma machine_tree : mem_wf m → device_tree w sample_fdt sample_strings_at sample_struct sample_tree 0x80000000.
Proof.
  intros Hm. split.
  - by apply sample_fdt_mem_wf.
  - apply sample_mem_lits.
  - apply sample_htif_lits.
  - apply sample_blob_at.
  - apply sample_typed.
  - apply sample_listed.
  - apply sample_memory_visits.
  - by vm_compute.
  - lia.
Qed.
Lemma machine_delegates : delegates w.
Proof. by split. Qed.
Lemma machine_memory_ok : machine_b (sample_fdt_mem m) = true → machine_memory w.
Proof.
  intros [[[[Hw Hp]%andb_prop Hf]%andb_prop Hg]%andb_prop _]%andb_prop.
  split; [split; [| |done| |by right]| |done|apply sample_apart|left; by apply Z.leb_le].
  - exact (wf_b_true _ Hw).
  - exact (frame_b_true _ _ sizeof_process ltac:(done) Hp).
  - exact (frame_b_true _ _ sizeof_trapframe ltac:(done) Hf).
  - exact (frame_b_true _ _ 248 ltac:(done) Hg).
Qed.
Lemma machine_args : machine_b (sample_fdt_mem m) = true → frame (w_mem w) arg_area (Z.to_nat sizeof_arg_buf).
Proof. intros [_ Ha]%andb_prop. exact (frame_b_true _ _ sizeof_arg_buf ltac:(done) Ha). Qed.
Lemma machine_command : machine_b (sample_fdt_mem m) = true → args_machine w sample_args (bytes "app") 24.
Proof.
  intros Hb. split; [exact sample_args_line|by apply machine_args|].
  intros a Ha%sample_owned_range. change arg_area with 0x811ffa00. change sizeof_arg_buf with 512. lia.
Qed.
End machine.
Lemma machine_clint : clint machine_on 0 700.
Proof. split; [by vm_compute|]. eexists. by vm_compute. Qed.

(** The file, in memory. *)
Lemma machine_segment : mapped (w_mem machine_on) 0x81000000 8.
Proof. apply read_bytes_is_Some. eexists. vm_compute. reflexivity. Qed.
Lemma machine_app : app_machine machine_on sample_elf sample_args (bytes "app") 24.
Proof.
  split; [apply machine_command, machine_base_b| |reflexivity].
  - apply sample_app_file; [exact machine_segment|]. intros a Ha Ho%sample_owned_range. lia.
Qed.

Lemma boot_spec_witness :
  ∃ e w' m2 cs, boot 7 (MemScan 7 7 7) 0 sample_fdt machine_on = Ret e w' ∧ e_mode e = UserMode ∧
    e_pc e = eh_entry (elf_of sample_elf) ∧ (∀ r, e_regs e r = if decide (r = Sp) then USER_STACK else 0) ∧
    hart_ok addr_user_app USER_TRAP_FRAME addr_g_itrframe 2 (u64 (700 + TIMER_INTERVAL))
      (Hart (e_pc e) (e_regs e) w') ∧
    args_only (fresh_process (write_word (w_mem machine_on) (CLINT_MTIMECMP 0) (u64 (700 + TIMER_INTERVAL))) addr_user_app) m2 ∧
    same_outside USER_TRAP_FRAME (app_image sample_elf m2 addr_user_app USER_TRAP_FRAME) (w_mem w') ∧
    Forall (is_pread 3) cs ∧ w_ticks w' = w_ticks machine_on ∧ Z.testbit (w_csr w' mie) 7 = true ∧
    w_host w' = host_calls (boot_calls (has_htif sample_tree machine_on) 0x80000000 (bytes "app")
      (eh_entry (elf_of sample_elf)) cs) (w_host machine_on).
Proof.
  exact (boot_spec sample_elf sample_args (bytes "app") 24 3 (sample_closed sample_elf) (sample_open sample_elf) machine_on 7
    (MemScan 7 7 7) sample_fdt sample_strings_at sample_struct sample_tree 0x80000000 700 eq_refl eq_refl
    (machine_tree _ _ machine_base_wf) (machine_delegates _ _) machine_clint (machine_memory_ok _ _ machine_base_b)
    (conj eq_refl eq_refl) machine_app).
Defined.

(** The same machine with a text file on its host. *)
Definition machine_text : world sample_host := machine_with machine_base text_file.
Lemma machine_text_clint : clint machine_text 0 700.
Proof. split; [by vm_compute|]. eexists. by vm_compute. Qed.
Lemma boot_refuses_witness :
  refusal 3 text_file = Some "fail to init elfloader."%string ∧
  ∃ w' cs, boot 7 (MemScan 7 7 7) 0 sample_fdt machine_text = Halted w' ∧ Forall (is_pread 3) cs ∧
    w_host w' = host_calls (refused_calls (has_htif sample_tree machine_text) 0x80000000 (bytes "app") cs
      "fail to init elfloader.") (w_host machine_text).
Proof.
  assert (refusal 3 text_file = Some "fail to init elfloader."%string) as Hs by by vm_compute.
  assert (headers_inside (w_mem machine_text) text_file) as Hin.
  { intros Hl. change (Z.of_nat (length text_file)) with 5 in Hl. lia. }
  split; [exact Hs|].
  exact (boot_refuses text_file sample_args (bytes "app") 24 3 (sample_closed text_file) (sample_open text_file) machine_text 7
    (MemScan 7 7 7) sample_fdt sample_strings_at sample_struct sample_tree 0x80000000 700 _ eq_refl eq_refl
    (machine_tree machine_base text_file machine_base_wf) (machine_delegates machine_base text_file) machine_text_clint (machine_memory_ok machine_base text_file machine_base_b)
    (conj eq_refl eq_refl) (machine_command machine_base text_file machine_base_b) Hs Hin).
Defined.
