(* ===== verification/Reach.v ===== *)
(** The states the machine can be in once the application runs: everything user instructions, system
    calls that return and timer ticks lead to from what the boot of Boot.v leaves, whatever the
    application is. *)
From S2P Require Import Prelude Mem CString Snprintf World Sample SpikeUtils SpikeFile Asm Process Syscall Strap Elf Kernel Mtrap Dts Load SpikeMemory Htif Minit UserLib System Boot.

Section reach.
Context {H : Type} `{HH : Host H} `{PP : Platform} `{!RiscvCsrs} `{!InterruptCsrs} `{!Linked}.
Implicit Types w : world H.

(** [h] is reached from power-on by the events [l] after the boot. *)
Inductive reaches (x : Z) (scan : mem_scan) (dtb : Z) w (l : list event) : hart H → Prop :=
| reaches_run e w1 h :
    boot x scan 0 dtb w = Ret e w1 →
    run addr_user_app USER_TRAP_FRAME addr_g_itrframe (Hart (e_pc e) (e_regs e) w1) l h →
    reaches x scan dtb w l h.

(** In such a state the hart is in user code, the kernel is prepared, the timer interrupt is enabled,
    and the next one is due as many intervals after the time the CLINT showed at the boot as there
    were ticks, and one. *)
Definition on_time w (t : Z) (l : list event) (h : hart H) : Prop :=
  hart_ok addr_user_app USER_TRAP_FRAME addr_g_itrframe 2 (u64 (t + (1 + ticks l) * TIMER_INTERVAL)) h ∧
  Z.testbit (w_csr (h_world h) mie) 7 = true ∧
  u64 (w_ticks (h_world h)) = u64 (w_ticks w + ticks l).

(** The timer interrupt is served, at any point of the code and whatever the handlers leave in the
    registers; the program can leave; and when it faults, the report goes out and the machine stops. *)
Definition responsive (h : hart H) : Prop :=
  (∀ stack0 clobbered, ∃ e w', timer_tick stack0 clobbered (h_pc h) (h_regs h) (h_world h) = Ret e w' ∧
    e_mode e = UserMode ∧ e_pc e = h_pc h) ∧
  (∀ code, h_pc h + 4 < 2 ^ 64 → - 2 ^ 31 ≤ code < 2 ^ 31 →
    ∃ w', exit (do_user_call (h_pc h) (h_regs h)) code (h_world h) = Halted w' ∧
      w_host w' = host_calls [FeWrite 2 (printk_bytes (exit_msg code));
        FeWrite 2 (printk_bytes (shutdown_msg code)); FeExit code] (w_host (h_world h))) ∧
  (∀ stack0 clobbered cause tval, 0 ≤ cause < 2 ^ 63 → cause ≠ CAUSE_USER_ECALL →
    ∃ w', user_exception stack0 clobbered cause tval (h_pc h) (h_regs h) (h_world h) = Halted w' ∧
      w_host w' = host_calls (exception_report (Z.testbit (w_csr (h_world h) medeleg) cause) 2 cause (h_pc h) tval)
        (w_host (h_world h))).

Lemma hart_ok_responsive t h :
  apart addr_user_app USER_TRAP_FRAME addr_g_itrframe → 0 ≤ va_area < 2 ^ 63 →
  hart_ok addr_user_app USER_TRAP_FRAME addr_g_itrframe 2 t h → responsive h.
Proof.
  intros Hap Hva (Hpc & Hf & Hsv). split_and!.
  - intros stack0 clobbered.
    destruct (timer_tick_Ret stack0 clobbered _ _ _ _ _ _ _ _ Hsv Hap Hf Hpc) as (e & w' & He & Hmd & Hepc & _); eauto.
  - intros code Hp4 Hc. destruct Hpc as [Hpc _].
    by apply (exit_stops _ 2 addr_user_app USER_TRAP_FRAME); try apply Hsv; try lia.
  - intros stack0 clobbered cause tval Hc Hne. by eapply user_exception_Halted.
Qed.

(** C4. Every state the machine can reach after the boot, whatever the application is and however it
    interleaves its own instructions, its system calls and the timer - as long as it keeps out of the
    kernel's memory: the kernel is prepared for the next trap of either mode, the timer interrupt stays
    enabled, the timer runs on
    without a drift and the tick counter counts the interrupts modulo 2^64; and no state is stuck: a
    timer interrupt is served and brings the program back to where it was, an exit call ends the
    machine with the code the program gives, and any exception but a system call, in whichever mode
    it is taken, ends it with code -1 after a report of the cause. *)
Theorem reaches_on_time file args path off fd (Q P : H → Prop) `{!AppHost file args path fd Q P}
    w x scan dtb strings struct tr g t l h :
  w_files w = spike_files_init → w_fds w = spike_fds_init →
  device_tree w dtb strings struct tr g → delegates w → clint w 0 t → machine_memory w →
  0 ≤ va_area < 2 ^ 63 →
  Q (w_host w) → app_machine w file args path off →
  reaches x scan dtb w l h → on_time w t l h ∧ responsive h.
Proof.
  intros Hf Hd Htree Hdel Hcl Hmm Hva HQ Ham [e w1 h' Hboot Hrun].
  destruct (boot_app_Ret file args path off fd Q P w x scan dtb strings struct tr g t Hf Hd Htree Hdel Hcl Hmm HQ Ham)
    as (e0 & w0 & _ & _ & Hboot0 & _ & _ & _ & Hok & _ & _ & _ & Htk & Hmie & _).
  rewrite Hboot in Hboot0. injection Hboot0 as <- <-. pose proof (mm_apart _ Hmm) as Hap.
  destruct (run_keeps _ _ _ _ _ _ _ _ Hap Hok Hrun) as (Hok' & Htk' & _).
  pose proof (run_mie _ _ _ _ _ _ _ _ Hap Hok Hrun) as Hmie'.
  rewrite u64_add_u64 in Hok'. replace (t + TIMER_INTERVAL + ticks l * TIMER_INTERVAL)
    with (t + (1 + ticks l) * TIMER_INTERVAL) in Hok' by lia.
  split; [split; [done|]|by eapply hart_ok_responsive]. cbn [h_world] in Htk', Hmie'.
  by rewrite Hmie', Htk', Htk.
Qed.
End reach.

(** * Instances *)
Import SampleMachine.

(** The machine of Boot.v, after a tick and some instructions of the application. *)
Definition reach_events : list event := [Tick; User].
Lemma machine_reaches : ∃ h, reaches 7 (MemScan 7 7 7) sample_fdt machine_on reach_events h.
Proof.
  destruct (boot_app_Ret sample_elf sample_args (bytes "app") 24 3 (sample_closed sample_elf) (sample_open sample_elf) machine_on 7
    (MemScan 7 7 7) sample_fdt sample_strings_at sample_struct sample_tree 0x80000000 700 eq_refl eq_refl
    (machine_tree _ _ machine_base_wf) (machine_delegates _ _) machine_clint (machine_memory_ok _ _ machine_base_b)
    (conj eq_refl eq_refl) machine_app) as (e & w1 & _ & _ & Hboot & _ & _ & _ & (Hpc & Hf & Hsv) & _).
  cbn [h_pc h_regs h_world] in Hpc, Hf, Hsv.
  destruct (timer_tick_Ret 0x80003000 (λ _, 7) (e_pc e) (e_regs e) w1 _ _ _ _ _ Hsv sample_apart Hf Hpc)
    as (e2 & w2 & He2 & _ & _ & _ & Hsv2 & _).
  eexists. eapply (reaches_run _ _ _ _ _ e w1); [exact Hboot|].
  apply (run_cons _ _ _ _ Tick (Hart (e_pc e2) (e_regs e2) w2)); [exact (step_tick _ _ _ _ _ _ _ _ _ _ He2)|].
  eapply (run_cons _ _ _ _ User); [|apply run_nil].
  apply (step_user _ _ _ _ _ _ 0x81000200 ecall_regs (w_mem w2));
    [apply sample_pc'|apply ecall_regs_ok|apply Hsv2|reflexivity].
Qed.

Lemma reaches_on_time_witness :
  ∃ h, reaches 7 (MemScan 7 7 7) sample_fdt machine_on reach_events h ∧
    on_time machine_on 700 reach_events h ∧ responsive h.
Proof.
  destruct machine_reaches as [h Hh]. exists h. split; [exact Hh|].
  exact (reaches_on_time sample_elf sample_args (bytes "app") 24 3 (sample_closed sample_elf) (sample_open sample_elf) machine_on 7
    (MemScan 7 7 7) sample_fdt sample_strings_at sample_struct sample_tree 0x80000000 700 reach_events h eq_refl eq_refl
    (machine_tree _ _ machine_base_wf) (machine_delegates _ _) machine_clint (machine_memory_ok _ _ machine_base_b)
    ltac:(by vm_compute) (conj eq_refl eq_refl) machine_app Hh).
Defined.
