(* ===== verification/App.v ===== *)
(** The example application, user/app_print_backtrace.c, with the stack frames of its functions.

    [sys_user_backtrace] reads the frames the compiler lays out under -fno-omit-frame-pointer
    (Makefile): below the frame pointer the return address, below that the caller's frame pointer; a
    function that calls nothing saves the frame pointer only.  [prologue] and [epilogue] are that
    convention; what else the compiler decides - the size of each frame, the addresses of the call
    sites, the place of [printu]'s array in its frame, the registers of no concern - is in the class
    [Compiled].  A [call] whose frame does not lead back to where it came from is a fault.  [main] is
    left through [exit] only, so it has a prologue and no epilogue.

    Timer interrupts come at any time: the class [Interrupts] says how often one is taken at each of
    the places of a call - before it, in the function it calls, and before that returns - and
    [pause] takes them, with everything [System.timer_tick] does.  Between these places the program
    works on memory no interrupt touches. *)
From S2P Require Import Prelude Mem CString Snprintf World Sample SpikeUtils SpikeFile Asm Process Syscall Strap Elf Kernel Mtrap Dts UserLib System.

(** * Functions and call sites *)
Inductive fn := Main | F1 | F2 | F3 | F4 | F5 | F6 | F7 | F8 | Printu | Print_backtrace | Exit | Do_user_call.
#[export] Instance fn_eq_dec : EqDecision fn.
Proof. solve_decision. Defined.
Inductive site :=
| In_main_printu | In_main_f1 | In_main_exit | In_f1 | In_f2 | In_f3 | In_f4 | In_f5 | In_f6 | In_f7 | In_f8
| In_printu | In_print_backtrace | In_exit.
(** The function a call site is in, and the name of a function. *)
Definition site_fn (s : site) : fn :=
  match s with
  | In_main_printu | In_main_f1 | In_main_exit => Main
  | In_f1 => F1 | In_f2 => F2 | In_f3 => F3 | In_f4 => F4 | In_f5 => F5 | In_f6 => F6 | In_f7 => F7 | In_f8 => F8
  | In_printu => Printu | In_print_backtrace => Print_backtrace | In_exit => Exit
  end.
Definition fn_name (g : fn) : list Z :=
  bytes match g with
  | Main => "main" | F1 => "f1" | F2 => "f2" | F3 => "f3" | F4 => "f4" | F5 => "f5" | F6 => "f6" | F7 => "f7"
  | F8 => "f8" | Printu => "printu" | Print_backtrace => "print_backtrace" | Exit => "exit"
  | Do_user_call => "do_user_call"
  end.

Class Compiled := {
  main_addr : Z;                (* where [main] is *)
  frame_size : fn → Z;
  ret_addr : site → Z;          (* where the call returns to *)
  ecall_pc : Z;                 (* the ecall of do_user_call *)
  out_offset : Z;               (* out[] of printu, above its stack pointer *)
  scratch : site → reg → Z;     (* the other registers *)
}.

(** The places of an interrupt. *)
Inductive place := Start | Calling (s : site) | Entered (s : site) | Leaving (s : site).
Class Interrupts := {
  ticks_at : place → nat;
  tick_pc : place → Z;                 (* the instruction that is interrupted *)
  tick_scratch : place → reg → Z;      (* the registers of no concern *)
  tick_stack : place → Z;              (* what mtrapvec finds in the other registers *)
  tick_clobbered : place → reg → Z;
}.

(** The registers a frame is made with. *)
Record context := Context { c_ra : Z; c_sp : Z; c_fp : Z }.
#[export] Instance context_eq_dec : EqDecision context.
Proof. solve_decision. Defined.
Definition context_of (f : reg → Z) : context := Context (f Ra) (f Sp) (f S0).
Definition regs_with (f : reg → Z) (c : context) : reg → Z := λ r,
  match r with Ra => c_ra c | Sp => c_sp c | S0 => c_fp c | r => f r end.

Section app.
Context {H : Type} `{HH : Host H} `{PP : Platform} `{CC : Compiled} `{TI : Interrupts}.

(** [n] timer interrupts, one after the other, at a place; the program goes on where it was. *)
Fixpoint pauses (n : nat) (pl : place) (c : context) : M (world H) () :=
  match n with
  | O => mret tt
  | S n =>
      e ← timer_tick (tick_stack pl) (tick_clobbered pl) (tick_pc pl) (regs_with (tick_scratch pl) c);
      if decide (e_mode e = UserMode ∧ e_pc e = tick_pc pl ∧ context_of (e_regs e) = c)
      then pauses n pl c else fault
  end.
Definition pause (pl : place) : context → M (world H) () := pauses (ticks_at pl) pl.

(** A variadic function saves the argument registers above its frame; one that calls nothing keeps
    its return address in [ra]. *)
Definition va_save (g : fn) : Z := if decide (g = Printu) then 64 else 0.
Definition saves_ra (g : fn) : bool := negb (bool_decide (g = Do_user_call)).
Definition prologue (g : fn) (c : context) : M (world H) context :=
  let fp := c_sp c - va_save g in
  (if saves_ra g then on_mem (store64 (fp - 8) (c_ra c));; on_mem (store64 (fp - 16) (c_fp c))
   else on_mem (store64 (fp - 8) (c_fp c)));;
  mret (Context (c_ra c) (c_sp c - frame_size g) fp).
Definition epilogue (g : fn) (c : context) : M (world H) context :=
  if saves_ra g then
    ra ← on_mem (load64 (c_fp c - 8));
    fp ← on_mem (load64 (c_fp c - 16));
    mret (Context ra (c_sp c + frame_size g) fp)
  else
    fp ← on_mem (load64 (c_fp c - 8));
    mret (Context (c_ra c) (c_sp c + frame_size g) fp).

(** The call of [g] at [s]. *)
Definition called (s : site) (c : context) : context := Context (ret_addr s) (c_sp c) (c_fp c).
Definition call {A} (s : site) (g : fn) (body : context → M (world H) A) (c : context) : M (world H) A :=
  pause (Calling s) c;;
  c2 ← prologue g (called s c);
  pause (Entered s) c2;;
  r ← body c2;
  pause (Leaving s) c2;;
  c3 ← epilogue g c2;
  if decide (c3 = called s c) then mret r else fault.
Definition user_call_in (s : site) (c : context) : user_call := λ n a1 a2 a3 a4 a5 a6 a7,
  call s Do_user_call (λ c, do_user_call ecall_pc (regs_with (scratch s) c) n a1 a2 a3 a4 a5 a6 a7) c.

(** ** The program *)
Definition f8 (c : context) : M (world H) () :=
  call In_f8 Print_backtrace (λ c, print_backtrace (user_call_in In_print_backtrace c) 8) c;; mret tt.
Definition f7 : context → M (world H) () := call In_f7 F8 f8.
Definition f6 : context → M (world H) () := call In_f6 F7 f7.
Definition f5 : context → M (world H) () := call In_f5 F6 f6.
Definition f4 : context → M (world H) () := call In_f4 F5 f5.
Definition f3 : context → M (world H) () := call In_f3 F4 f4.
Definition f2 : context → M (world H) () := call In_f2 F3 f3.
Definition f1 : context → M (world H) () := call In_f1 F2 f2.

Definition app_text : list Z := bytes ("back trace the user app in the following:" +:+ newline).
Definition main (c : context) : M (world H) Z :=
  pause Start c;;
  c ← prologue Main c;
  call In_main_printu Printu
    (λ c, printu (user_call_in In_printu c) (c_sp c + out_offset) (Lit app_text) []) c;;
  call In_main_f1 F1 f1 c;;
  call In_main_exit Exit (λ c, exit (user_call_in In_exit c) 0) c;;
  mret 0.
End app.

(** What the compiler sees to. *)
Class CompiledOk `{Compiled} : Prop := {
  co_frame g : 32 ≤ frame_size g;
  co_out : 0 ≤ out_offset ∧ out_offset + printu_size ≤ frame_size Printu - 80;
  co_site s : 0 < ret_addr s < 2 ^ 64;
  co_ecall : 0 ≤ ecall_pc ∧ ecall_pc + 4 < 2 ^ 64 ∧ ecall_pc `mod` 4 = 0;
  co_scratch s r : 0 ≤ scratch s r < 2 ^ 64;
}.
(** Interrupts come at instructions, with words in the registers. *)
Class InterruptsOk `{Interrupts} : Prop := {
  io_pc pl : user_pc (tick_pc pl);
  io_scratch pl r : 0 ≤ tick_scratch pl r < 2 ^ 64;
}.

(** * Frames *)
Section frames.
Context {H : Type} `{HH : Host H} `{PP : Platform} `{CC : Compiled} `{CO : !CompiledOk}.
Implicit Types w : world H.

(** The memory with the frame of [g] made. *)
Definition saved (g : fn) (c : context) (m : mem) : mem :=
  let fp := c_sp c - va_save g in
  if saves_ra g then write_word (write_word m (fp - 8) (c_ra c)) (fp - 16) (c_fp c)
  else write_word m (fp - 8) (c_fp c).
Definition entered (g : fn) (c : context) : context :=
  Context (c_ra c) (c_sp c - frame_size g) (c_sp c - va_save g).

Lemma va_save_frame g : 0 ≤ va_save g ∧ va_save g + 16 ≤ frame_size g.
Proof using CO.
  pose proof (co_frame g). pose proof co_out. unfold va_save. case_decide; [subst; unfold printu_size in *|]; lia.
Qed.
Lemma saved_outside g c m a :
  a < c_sp c - va_save g - 16 ∨ c_sp c ≤ a → saved g c m !! a = m !! a.
Proof using CO.
  intros Ha. pose proof (va_save_frame g). unfold saved. cbv zeta.
  destruct (saves_ra g); by rewrite !lookup_write_word_ne by lia.
Qed.
Lemma saved_mapped g c m q n : mapped m q n → mapped (saved g c m) q n.
Proof using. intros Hm. unfold saved. cbv zeta. destruct (saves_ra g); by repeat apply mapped_write_word. Qed.
Lemma saved_wf g c m : mem_wf m → mem_wf (saved g c m).
Proof using. intros Hm. unfold saved. cbv zeta. destruct (saves_ra g); by repeat apply mem_wf_write_word. Qed.

Lemma prologue_Ret g c w :
  mapped (w_mem w) (c_sp c - va_save g - 16) 16 →
  prologue g c w = Ret (entered g c) (set_mem (saved g c (w_mem w)) w).
Proof using.
  intros Hm. unfold prologue, entered, saved. cbv zeta. set (fp := c_sp c - va_save g) in *.
  assert (is_Some (word_at (w_mem w) (fp - 8))) as H8.
  { apply word_at_mapped. eapply mapped_sub; [| |exact Hm]; lia. }
  assert (is_Some (word_at (w_mem w) (fp - 16))) as H16.
  { apply word_at_mapped. by eapply (mapped_sub _ _ 16); [| |exact Hm]; lia. }
  destruct (saves_ra g).
  - rewrite bind_assoc. mrun (on_mem_Ret _ w tt _ (store64_word _ _ (c_ra c) H8)).
    set (w1 := set_mem _ w).
    assert (is_Some (word_at (w_mem w1) (fp - 16))) as H16' by (by apply word_at_mapped, mapped_write_word, word_at_inv).
    by mrun (on_mem_Ret _ w1 tt _ (store64_word _ _ (c_fp c) H16')).
  - by mrun (on_mem_Ret _ w tt _ (store64_word _ _ (c_fp c) H8)).
Qed.

Lemma on_mem_word w p v : word_at (w_mem w) p = Some v → (on_mem (load64 p) : M (world H) Z) w = Ret v w.
Proof using. intros Hv. apply on_mem_read. by apply load64_word. Qed.

Lemma epilogue_Ret g c m w :
  0 ≤ c_ra c < 2 ^ 64 → 0 ≤ c_fp c < 2 ^ 64 →
  (∀ a, c_sp c - va_save g - 16 ≤ a < c_sp c - va_save g → w_mem w !! a = saved g c m !! a) →
  epilogue g (entered g c) w = Ret c w.
Proof using.
  intros Hra Hfp Hm. unfold epilogue, entered. cbn [c_ra c_sp c_fp]. set (fp := c_sp c - va_save g) in *.
  assert (∀ off, 8 ≤ off ≤ 16 → word_at (w_mem w) (fp - off) = word_at (saved g c m) (fp - off)) as He.
  { intros off Ho. apply word_at_ext. intros a Ha. apply Hm. lia. }
  pose proof (He 8 ltac:(lia)) as H8. pose proof (He 16 ltac:(lia)) as H16.
  unfold saved in H8, H16. cbv zeta in H8, H16. fold fp in H8, H16.
  replace (c_sp c - frame_size g + frame_size g) with (c_sp c) by lia.
  destruct (saves_ra g).
  - rewrite word_at_write in H16. rewrite word_at_write_ne, word_at_write in H8 by lia.
    rewrite u64_id in H8, H16 by done.
    mrun (on_mem_word w _ _ H8). mrun (on_mem_word w _ _ H16). by destruct c.
  - rewrite word_at_write, u64_id in H8 by done. mrun (on_mem_word w _ _ H8). by destruct c.
Qed.
End frames.

(** * Interleaving *)

(** The calls [cs] with [n] notices of the timer in between, numbered from [i] to [j]. *)
Inductive ticked (k : Z) : Z → list fe_call → nat → Z → list fe_call → Prop :=
| ticked_nil i : ticked k i [] 0 i []
| ticked_call i c cs n j cs' : ticked k i cs n j cs' → ticked k i (c :: cs) n j (c :: cs')
| ticked_tick i cs n j cs' :
    ticked k (u64 (i + 1)) cs n j cs' →
    ticked k i cs (S n) j (FeWrite k (printk_bytes (tick_msg i)) :: cs').
Lemma ticked_none k i cs : ticked k i cs 0 i cs.
Proof. induction cs; by constructor. Qed.
Lemma ticked_app k i cs1 n1 j l1 cs2 n2 e l2 :
  ticked k i cs1 n1 j l1 → ticked k j cs2 n2 e l2 → ticked k i (cs1 ++ cs2) (n1 + n2)%nat e (l1 ++ l2).
Proof. intros H1 H2. induction H1; cbn [app Nat.add]; [done|apply ticked_call|apply ticked_tick]; auto. Qed.
(** Without interrupts there is nothing to interleave. *)
Lemma ticked_zero k i cs j l : ticked k i cs 0 j l → l = cs ∧ j = i.
Proof.
  intros Ht. remember 0%nat as n eqn:Hn. induction Ht as [|i c cs n j l Ht IH|]; [done| |done].
  by destruct (IH Hn) as [-> ->].
Qed.

(** * The application and the kernel *)

(** Room for the whole stack: every function of the program is on it at most once. *)
Definition all_fns : list fn :=
  [Main; F1; F2; F3; F4; F5; F6; F7; F8; Printu; Print_backtrace; Exit; Do_user_call].
Definition stack_size `{Compiled} : Z := foldr (λ g n, frame_size g + n) 0 all_fns.
Definition stack_bottom `{Compiled} : Z := USER_STACK - stack_size.

(** What the application and the traps on its account may change. *)
Definition writable `{Platform} `{Compiled} (tf p a : Z) : Prop :=
  stack_bottom ≤ a < USER_STACK ∨ trap_memory tf p a.
(** [n] bytes at [q] out of its way. *)
Definition away `{Platform} `{Compiled} (tf p q n : Z) : Prop := ∀ a, q ≤ a < q + n → ¬ writable tf p a.

(** A machine set up for the application: the stack, the literals of the kernel, and a symbol table
    that names the function of every call site. *)
Record program `{Platform} `{Compiled} (proc tf p : Z) (syms : list symbol) (sz : Z) (m0 : mem) : Prop := {
  pg_stack : mapped m0 stack_bottom (Z.to_nat stack_size);
  pg_bottom : 0 < stack_bottom;
  pg_apart a : stack_bottom ≤ a < USER_STACK → ¬ kernel_memory proc tf p a;
  pg_kernel : apart proc tf p;
  pg_lits : literals_at m0;
  pg_lits_away s : s ∈ ["main"; "print_backtrace"; "do_user_call"]%string →
    away tf p (addr_lit s) (zlen (bytes s) + 1);
  pg_symtab : symtab_at m0 proc syms sz;
  pg_count : Z.of_nat (length syms) ≤ MAX_USER_SYMS;
  pg_names s : ∃ off, (if sz =? 0 then None else look_up syms sz (ret_addr s)) = Some off ∧
    0 ≤ off ∧ off + zlen (fn_name (site_fn s)) < MAX_USER_STRTAB ∧
    cstr m0 (proc + proc_strtab + off) (fn_name (site_fn s));
}.

Section known.
Context {H : Type} `{HH : Host H} `{PP : Platform} `{CC : Compiled} `{CO : !CompiledOk}.
Context (proc tf p : Z) (syms : list symbol) (sz : Z) (m0 : mem) (Hpg : program proc tf p syms sz m0).
Implicit Types w : world H.

Lemma stack_size_pos : 0 ≤ stack_size.
Proof using CO.
  unfold stack_size. induction all_fns as [|g l IH]; cbn [foldr]; [lia|]. pose proof (co_frame g). lia.
Qed.

(** The memory the application cannot have changed. *)
Definition known (m : mem) : Prop := ∀ a, ¬ writable tf p a → m !! a = m0 !! a.
Definition name_of (ra : Z) : option (list Z) :=
  (if sz =? 0 then None else look_up syms sz ra) ≫= λ off, cstring m0 (Num (proc + proc_strtab + off)).

Lemma known_lits m : known m → literals_at m.
Proof using Hpg.
  intros Hm s Hs. apply (cstr_ext m0); [|by apply Hpg]. intros i Hi. apply Hm.
  apply (pg_lits_away _ _ _ _ _ _ Hpg s Hs). unfold zlen. lia.
Qed.
Lemma process_away m q n :
  known m → layout m0 proc tf → proc ≤ q → q + n ≤ proc + sizeof_process →
  ∀ a, q ≤ a < q + n → m !! a = m0 !! a.
Proof using Hpg CO.
  intros Hm Hl Hq Hn a Ha. apply Hm. pose proof (lay_disj _ _ _ Hl). destruct (pg_kernel _ _ _ _ _ _ Hpg).
  pose proof (pg_apart _ _ _ _ _ _ Hpg a). unfold writable, trap_memory, kernel_memory in *. lia.
Qed.
Lemma symbols_at_ext m m' q l :
  (∀ a, q ≤ a < q + sizeof_elf_symbol * Z.of_nat (length l) → m' !! a = m !! a) →
  symbols_at m q l → symbols_at m' q l.
Proof using.
  unfold sizeof_elf_symbol. revert q. induction l as [|s l IH]; intros q He; [done|].
  cbn [symbols_at length] in *. intros (H1 & H2 & H3 & H4 & H5). unfold sym_name, sym_info, sym_value, sym_size in *.
  split_and!.
  - rewrite <- H1. unfold word32_at. f_equal. apply read_bytes_ext. intros i Hi. apply He. lia.
  - rewrite <- H2. apply He. lia.
  - rewrite <- H3. apply word_at_ext. intros a Ha. apply He. lia.
  - rewrite <- H4. apply word_at_ext. intros a Ha. apply He. lia.
  - apply IH; [|done]. intros a Ha. apply He. unfold sizeof_elf_symbol in Ha. lia.
Qed.
Lemma symtab_at_ext m m' q l z :
  (∀ a, q ≤ a < q + sizeof_process → m' !! a = m !! a) → Z.of_nat (length l) ≤ MAX_USER_SYMS →
  symtab_at m q l z → symtab_at m' q l z.
Proof using.
  intros He Hn (Hc & Hs & Hpos & Hat). unfold MAX_USER_SYMS in Hn.
  assert (proc_symtab + 12288 = proc_sym_count ∧ proc_sym_count + 8 + 8192 = proc_strtab_sz ∧
    proc_strtab_sz + 8 = sizeof_process ∧ proc_symtab = 16) as (? & ? & ? & ?) by done.
  split_and!; [| |done|].
  - rewrite <- Hc. apply word_at_ext. intros a Ha. apply He. lia.
  - rewrite <- Hs. apply word_at_ext. intros a Ha. apply He. lia.
  - apply (symbols_at_ext m); [|done]. unfold sizeof_elf_symbol. intros a Ha. apply He. lia.
Qed.
Lemma known_symtab m : known m → layout m0 proc tf → symtab_at m proc syms sz.
Proof using Hpg CO.
  intros Hm Hl. apply (symtab_at_ext m0); [|apply Hpg|apply Hpg]. apply (process_away m _ _ Hm Hl); lia.
Qed.
Lemma known_names m sites :
  known m → layout m0 proc tf → names_at m proc syms sz name_of (map ret_addr sites).
Proof using Hpg CO.
  intros Hm Hl. apply Forall_map, Forall_true. intros s.
  destruct (pg_names _ _ _ _ _ _ Hpg s) as (off & Ho & Hpos & Hlen & Hc). unfold name_of. rewrite Ho. cbn [mbind option_bind].
  exists (fn_name (site_fn s)). rewrite (cstring_num _ _ _ Hc). split_and!; [done| |by destruct s].
  apply (cstr_ext m0); [|done]. unfold zlen in Hlen.
  assert (proc_strtab + 8192 + 8 = sizeof_process ∧ 0 ≤ proc_strtab ∧ MAX_USER_STRTAB = 8192) as (? & ? & ?) by done.
  intros i Hi. apply (process_away m (proc + proc_strtab) 8192 Hm Hl); lia.
Qed.
Lemma name_of_site s : name_of (ret_addr s) = Some (fn_name (site_fn s)).
Proof using Hpg.
  destruct (pg_names _ _ _ _ _ _ Hpg s) as (off & Ho & Hpos & Hlen & Hc). unfold name_of. rewrite Ho.
  apply (cstring_num _ _ _ Hc).
Qed.
End known.
