(* ===== verification/AppRun.v ===== *)
(** The example application runs as it should: what each of its functions does on the kernel, with its
    stack frames and with timer interrupts at every call, and what [main] comes to.

    [behaves] and [stops] are the contract of a function, whoever calls it: it needs so much stack, it
    takes so many interrupts, it has the host make these calls, and it leaves the stack above alone;
    [call_behaves] and [call_stops] hand the contract of a function on to its caller. *)
From S2P Require Import Prelude Mem CString Snprintf World Sample SpikeUtils SpikeFile Asm Process Syscall Strap Elf Kernel Mtrap Dts UserLib System App.

Section runs.
Context {H : Type} `{HH : Host H} `{PP : Platform} `{CC : Compiled} `{CO : !CompiledOk} `{TI : Interrupts}.
Context `{TO : !InterruptsOk} `{RC : !RiscvCsrs} `{LK : !Linked}.
Context (k proc tf p : Z) (syms : list symbol) (sz : Z) (m0 : mem).
Context (Hpg : program proc tf p syms sz m0) (Hl0 : layout m0 proc tf).
Implicit Types (w : world H) (c : context).

(** The world while the application runs. *)
Record app_world w : Prop := {
  aw_serving : ∃ t, serving w proc tf p k t;
  aw_known : known tf p m0 (w_mem w);
  aw_stack : mapped (w_mem w) stack_bottom (Z.to_nat stack_size);
}.
Lemma aw_ready w : app_world w → ready w proc tf.
Proof using. intros [[t Hsv] _ _]. apply Hsv. Qed.
Lemma aw_console w : app_world w → console w k.
Proof using. intros [[t Hsv] _ _]. apply Hsv. Qed.

(** What a function does: [n] interrupts are taken, the host gets the calls [cs] and the notices of
    the timer, and the memory from [b] on is as it was, but for what the traps write. *)
Definition quiet (b : Z) w w' : Prop :=
  ∀ a, b ≤ a → ¬ trap_memory tf p a → w_mem w' !! a = w_mem w !! a.
Definition calls_made w (n : nat) (cs : list fe_call) w' : Prop :=
  ∃ cs', ticked k (w_ticks w) cs n (w_ticks w') cs' ∧ w_host w' = host_calls cs' (w_host w).
Record done_to (b : Z) w (n : nat) (cs : list fe_call) w' : Prop := {
  dn_world : app_world w';
  dn_quiet : quiet b w w';
  dn_calls : calls_made w n cs w';
}.
Lemma calls_none w w' : w_ticks w' = w_ticks w → w_host w' = w_host w → calls_made w 0 [] w'.
Proof using. intros Ht Hh. exists []. rewrite Ht, Hh. split; [constructor|done]. Qed.
Lemma calls_made_app w n cs w1 n' cs' w2 :
  calls_made w n cs w1 → calls_made w1 n' cs' w2 → calls_made w (n + n') (cs ++ cs') w2.
Proof using.
  intros (l & Hl & Hh) (l' & Hl' & Hh'). exists (l ++ l'). split; [by eapply ticked_app|].
  by rewrite Hh', Hh, host_calls_app.
Qed.
Lemma done_trans b b' w n cs w1 n' cs' w2 :
  done_to b w n cs w1 → done_to b' w1 n' cs' w2 → b' ≤ b → done_to b w (n + n') (cs ++ cs') w2.
Proof using.
  intros [_ Hq Hc] [Hw2 Hq' Hc'] Hb. split; [done| |by eapply calls_made_app].
  intros a Ha Hout. rewrite Hq' by (done || lia). by apply Hq.
Qed.
Lemma done_quiet b b' w n cs w' : b ≤ b' → done_to b w n cs w' → done_to b' w n cs w'.
Proof using. intros Hb [Hw Hq Hc]. split; [done| |done]. intros a Ha. apply Hq. lia. Qed.

(** The frames above: from [main], whose frame pointer is the top of the stack, or from deeper. *)
Inductive chain (m : mem) c : list Z → Prop :=
| chain_main : c_fp c = USER_STACK → chain m c []
| chain_frame rets :
    c_fp c < USER_STACK → (∀ sp, 0 ≤ sp < c_sp c → unwinds m sp (c_fp c) rets) → chain m c rets.

(** A function entered at [c] by way of the calls at [sites], the innermost first, with [need] bytes
    of stack left for it. *)
Record good (need : Z) c (sites : list site) w : Prop := {
  gd_world : app_world w;
  gd_need : stack_bottom + need ≤ c_sp c;
  gd_range : 0 ≤ need ∧ c_sp c + 16 ≤ c_fp c ≤ USER_STACK;
  gd_ra : 0 ≤ c_ra c < 2 ^ 64;
  gd_chain : chain (w_mem w) c (map ret_addr sites);
}.

(** A body that returns, whoever called it; and one that ends the machine. *)
Definition behaves {A} (need : Z) (body : context → M (world H) A) (n : nat)
    (calls : list site → list fe_call) : Prop :=
  ∀ c sites w, good need c sites w →
  ∃ r w', body c w = Ret r w' ∧ done_to (c_sp c) w n (calls sites) w'.
Definition stops {A} (need : Z) (body : context → M (world H) A) (n : nat)
    (calls : list site → list fe_call) : Prop :=
  ∀ c sites w, good need c sites w →
  ∃ w', body c w = Halted w' ∧ calls_made w n (calls sites) w'.

Lemma unwinds_ext m m' sp fp rets :
  (∀ a, fp - 16 ≤ a < USER_STACK → m' !! a = m !! a) → unwinds m sp fp rets → unwinds m' sp fp rets.
Proof using.
  intros He Hun. induction Hun as [fp Hin Hz|fp Hin ra Hra Hne Hedge|fp ra old Hin Hra Hne Hedge Hold Hstop
    |fp ra old rest Hin Hra Hne Hedge Hold Hnext Hun IH]; pose proof (id Hin) as (H16 & H8 & Htop).
  all: assert (∀ off, 8 ≤ off ≤ 16 → word_at m' (fp - off) = word_at m (fp - off)) as Hw
    by (intros off Ho; apply word_at_ext; intros a Ha; apply He; lia).
  - apply unwinds_zero; [done|]. by rewrite Hw by lia.
  - apply unwinds_edge; [done|by rewrite Hw by lia|done|done].
  - apply (unwinds_last _ _ _ _ old); try done; by rewrite Hw by lia.
  - apply (unwinds_next _ _ _ _ old); try done; try by rewrite Hw by lia.
    apply IH. intros a Ha. apply He. lia.
Qed.
Lemma chain_ext m m' c rets :
  (∀ a, c_fp c - 16 ≤ a < USER_STACK → m' !! a = m !! a) → chain m c rets → chain m' c rets.
Proof using.
  intros He [Htp|rets' Hlt Hun]; [by apply chain_main|]. apply chain_frame; [done|]. intros sp Hsp.
  apply (unwinds_ext m); [done|by apply Hun].
Qed.

(** The stack is apart from the kernel's memory. *)
Lemma stack_apart a : stack_bottom ≤ a < USER_STACK → ¬ trap_memory tf p a.
Proof using Hpg. intros Ha Ht. apply (pg_apart _ _ _ _ _ _ Hpg a Ha). unfold trap_memory, kernel_memory in *. tauto. Qed.

Lemma app_world_stack w m :
  app_world w → mem_wf m → (∀ q n, mapped (w_mem w) q n → mapped m q n) →
  (∀ a, a < stack_bottom ∨ USER_STACK ≤ a → m !! a = w_mem w !! a) → app_world (set_mem m w).
Proof using Hpg.
  intros [[t Hsv] Hkn Hs] Hwf Hmap He. split.
  - exists t. apply (serving_ext w); try done. intros a Ha. apply He. cbn [w_mem set_mem].
    destruct (decide (stack_bottom ≤ a < USER_STACK)) as [Hin|]; [|lia]. by destruct (pg_apart _ _ _ _ _ _ Hpg a Hin).
  - intros a Ha. cbn [w_mem set_mem]. rewrite He; [by apply Hkn|]. unfold writable in Ha. lia.
  - by apply Hmap.
Qed.

(** ** Interrupts *)
Lemma regs_with_ok f c :
  (∀ r, 0 ≤ f r < 2 ^ 64) → 0 ≤ c_ra c < 2 ^ 64 → 0 ≤ c_sp c < 2 ^ 64 → 0 ≤ c_fp c < 2 ^ 64 →
  regs_ok (regs_with f c).
Proof using. intros Hf Hra Hsp Hfp r. destruct r; try apply Hf; assumption. Qed.
Lemma good_regs need c sites w f : (∀ r, 0 ≤ f r < 2 ^ 64) → good need c sites w → regs_ok (regs_with f c).
Proof using Hpg.
  intros Hf [_ Hb Hr Hra _]. pose proof (pg_bottom _ _ _ _ _ _ Hpg). assert (USER_STACK < 2 ^ 63) by done.
  apply regs_with_ok; [exact Hf|exact Hra|lia|lia].
Qed.

Lemma tick_app pl c w :
  app_world w → regs_ok (regs_with (tick_scratch pl) c) →
  ∃ e w', timer_tick (tick_stack pl) (tick_clobbered pl) (tick_pc pl) (regs_with (tick_scratch pl) c) w = Ret e w' ∧
    e_mode e = UserMode ∧ e_pc e = tick_pc pl ∧ context_of (e_regs e) = c ∧
    app_world w' ∧ (∀ a, ¬ trap_memory tf p a → w_mem w' !! a = w_mem w !! a) ∧
    w_ticks w' = u64 (w_ticks w + 1) ∧ w_host w' = host_calls [FeWrite k (printk_bytes (tick_msg (w_ticks w)))] (w_host w).
Proof using Hpg CO TO RC LK HH.
  intros [[t Hsv] Hkn Hs] Hf.
  destruct (timer_tick_Ret (tick_stack pl) (tick_clobbered pl) (tick_pc pl) _ w proc tf p k t Hsv
    (pg_kernel _ _ _ _ _ _ Hpg) Hf (io_pc pl)) as (e & w' & He & Hm & Hpc & Hregs & Hsv' & Hmem & Htk & _ & _ & Hh).
  exists e, w'. split_and!; try done.
  - unfold context_of. rewrite !Hregs, !decide_False by done. by destruct c.
  - split; [by eexists| |].
    + intros a Ha. rewrite Hmem; [by apply Hkn|]. unfold writable in Ha. tauto.
    + apply (mapped_ext (w_mem w)); [|done]. intros a Ha. apply Hmem, stack_apart.
      pose proof stack_size_pos. unfold stack_bottom in *. lia.
Qed.
Lemma pauses_Ret n pl c w :
  app_world w → regs_ok (regs_with (tick_scratch pl) c) →
  ∃ w', pauses n pl c w = Ret tt w' ∧ ∀ b, done_to b w n [] w'.
Proof using Hpg CO TO RC LK HH.
  revert w. induction n as [|n IH]; intros w Hw Hf.
  - exists w. split; [done|]. intros b. split; [done|by intros a _ _|by apply calls_none].
  - destruct (tick_app pl c w Hw Hf) as (e & w1 & He & Hm & Hpc & Hc & Hw1 & Hmem & Htk & Hh).
    destruct (IH w1 Hw1 Hf) as (w2 & Hr & Hd). exists w2. split.
    + cbn [pauses]. mrun He. rewrite decide_True by done. exact Hr.
    + intros b. destruct (Hd b) as [Hw2 Hq (l & Hl & Hh2)]. split; [done| |].
      * intros a Ha Hout. by rewrite Hq, Hmem.
      * eexists. split; [apply ticked_tick; by rewrite <- Htk|]. rewrite Hh2, Hh.
        by rewrite <- host_calls_app.
Qed.

(** What holds of a function's stack holds after anything that leaves it alone. *)
Lemma good_done need c sites w b n cs w' :
  good need c sites w → b ≤ c_fp c - 16 → done_to b w n cs w' → good need c sites w'.
Proof using Hpg CO.
  intros [_ Hn [Hn0 Hr] Hra Hch] Hb [Hw Hq _]. split; [done|done|done|done|].
  pose proof stack_size_pos. apply (chain_ext (w_mem w)); [|done]. intros a Ha. apply Hq; [lia|]. apply stack_apart. lia.
Qed.
Lemma pause_good need pl c sites w :
  good need c sites w →
  ∃ w', pause pl c w = Ret tt w' ∧ good need c sites w' ∧ ∀ b, done_to b w (ticks_at pl) [] w'.
Proof using Hpg CO TO RC LK HH.
  intros Hg. destruct (pauses_Ret (ticks_at pl) pl c w (gd_world _ _ _ _ Hg)) as (w' & Hr & Hd).
  { apply (good_regs need c sites w); [|done]. apply io_scratch. }
  exists w'. split; [exact Hr|]. split; [|exact Hd]. exact (good_done _ _ _ w _ _ _ _ Hg (Z.le_refl _) (Hd _)).
Qed.

(** ** Calls *)

(** The frame of a function, as the next function finds it. *)
Lemma good_stack need c sites w g :
  good (need + frame_size g) c sites w → 0 ≤ need →
  mapped (w_mem w) (c_sp c - va_save g - 16) 16 ∧ stack_bottom ≤ c_sp c - va_save g - 16 ∧ c_sp c < USER_STACK.
Proof using CO.
  intros [[_ _ Hs] Hn [_ Hr] _ _] Hneed. pose proof (va_save_frame g). pose proof stack_size_pos.
  split; [|lia]. eapply mapped_sub; [| |exact Hs]; unfold stack_bottom in *; lia.
Qed.
Lemma chain_called s g need c sites w :
  good (need + frame_size g) c sites w → 0 ≤ need → saves_ra g = true →
  chain (saved g (called s c) (w_mem w)) (entered g (called s c)) (map ret_addr (s :: sites)).
Proof using Hpg CO.
  intros Hg Hn Hsv. destruct (good_stack _ _ _ _ _ Hg Hn) as (_ & Hb & Htop).
  destruct Hg as [_ Hlow [_ Hr] _ Hch]. pose proof (va_save_frame g). pose proof (pg_bottom _ _ _ _ _ _ Hpg).
  pose proof (co_site s). assert (USER_STACK < 2 ^ 63) by done.
  apply chain_frame; unfold entered, called; cbn [c_sp c_fp c_ra]; [lia|]. intros sp Hsp.
  set (fp := c_sp c - va_save g) in *. set (m := saved _ _ _).
  assert (word_at m (fp - 8) = Some (ret_addr s) ∧ word_at m (fp - 16) = Some (c_fp c)) as [H8 H16].
  { unfold m, saved. cbv zeta. rewrite Hsv. cbn [c_sp c_fp c_ra]. fold fp.
    rewrite word_at_write, word_at_write_ne, word_at_write, !u64_id by lia. done. }
  assert (in_stack sp fp) as Hin by (unfold in_stack, fp in *; lia).
  cbn [map]. remember (map ret_addr sites) as rets eqn:Hrets. clear Hrets. destruct Hch as [Htp|rets Hlt Hun].
  - apply (unwinds_last _ _ _ _ (c_fp c)); try done; unfold fp in *; lia.
  - apply (unwinds_next _ _ _ _ (c_fp c)); try done; [unfold fp in *; lia..|].
    apply (unwinds_ext (w_mem w)); [|apply Hun; unfold fp in *; lia].
    intros a Ha. apply saved_outside. cbn [c_sp]. lia.
Qed.
Lemma saved_done s g need c sites w :
  good (need + frame_size g) c sites w → 0 ≤ need →
  done_to (c_sp c) w 0 [] (set_mem (saved g (called s c) (w_mem w)) w).
Proof using Hpg CO HH.
  intros Hg Hn. destruct (good_stack _ _ _ _ _ Hg Hn) as (_ & Hb & Htop). destruct Hg as [Hw _ _ _ _]. split.
  - apply app_world_stack; [done|by apply saved_wf, aw_ready|intros q n; apply saved_mapped|].
    intros a Ha. apply saved_outside. cbn [called c_sp]. lia.
  - intros a Ha _. apply saved_outside. cbn [called c_sp]. lia.
  - by apply calls_none.
Qed.
Lemma good_called s g need c sites w :
  good (need + frame_size g) c sites w → 0 ≤ need → saves_ra g = true →
  good need (entered g (called s c)) (s :: sites) (set_mem (saved g (called s c) (w_mem w)) w).
Proof using Hpg CO HH.
  intros Hg Hn Hsv. split.
  - by eapply saved_done.
  - destruct Hg. cbn [entered called c_sp]. lia.
  - destruct Hg as [_ _ [_ ?] _ _]. pose proof (va_save_frame g). cbn [entered called c_sp c_fp]. lia.
  - pose proof (co_site s). cbn [entered called c_ra]. lia.
  - by eapply chain_called.
Qed.

(** The interrupts of a call. *)
Definition entry_ticks (s : site) : nat := ticks_at (Calling s) + ticks_at (Entered s).
Definition site_ticks (s : site) : nat := entry_ticks s + ticks_at (Leaving s).

(** In the function: the frame is made, and the caller's part of the stack is as it was. *)
Record inside (s : site) (g : fn) (need : Z) c (sites : list site) w : Prop := {
  ins_caller : good (need + frame_size g) c sites w;
  ins_frame : ∃ m, ∀ a, c_sp c - va_save g - 16 ≤ a < c_sp c - va_save g →
    w_mem w !! a = saved g (called s c) m !! a;
  ins_good : saves_ra g = true → good need (entered g (called s c)) (s :: sites) w;
}.
Lemma inside_done s g need c sites w b n cs w' :
  inside s g need c sites w → b ≤ c_sp c - va_save g - 16 → 0 ≤ need → done_to b w n cs w' → inside s g need c sites w'.
Proof using Hpg CO.
  intros [Hc (m & Hm) Hg] Hb Hn Hd. pose proof (va_save_frame g). split.
  - apply (good_done _ _ _ w b n cs); [done| |done]. destruct (gd_range _ _ _ _ Hc). lia.
  - exists m. intros a Ha. rewrite <- Hm by done. apply (dn_quiet _ _ _ _ _ Hd); [lia|]. apply stack_apart.
    destruct (good_stack _ _ _ _ _ Hc Hn) as (_ & ? & ?). lia.
  - intros Hsv. by apply (good_done _ _ _ w b n cs); [apply Hg|cbn [entered called c_fp c_sp]; lia|].
Qed.
Lemma inside_regs s g need c sites w f :
  (∀ r, 0 ≤ f r < 2 ^ 64) → inside s g need c sites w → 0 ≤ need → regs_ok (regs_with f (entered g (called s c))).
Proof using Hpg CO.
  intros Hf [[_ Hb [_ Hr] _ _] _ _] Hn. pose proof (pg_bottom _ _ _ _ _ _ Hpg). assert (USER_STACK < 2 ^ 63) by done.
  pose proof (va_save_frame g). pose proof (co_site s).
  apply regs_with_ok; [exact Hf|..]; cbn [entered called c_ra c_sp c_fp]; lia.
Qed.

Lemma call_enter s g need c sites w :
  good (need + frame_size g) c sites w → 0 ≤ need →
  ∃ w1, inside s g need c sites w1 ∧ done_to (c_sp c) w (entry_ticks s) [] w1 ∧
    ∀ A (body : context → M (world H) A), call s g body c w =
      (r ← body (entered g (called s c)); pause (Leaving s) (entered g (called s c));;
       c3 ← epilogue g (entered g (called s c)); if decide (c3 = called s c) then mret r else fault) w1.
Proof using Hpg CO TO RC LK HH.
  intros Hg Hn. destruct (pause_good _ (Calling s) c sites w Hg) as (w0 & Hr0 & Hg0 & Hd0).
  destruct (good_stack _ _ _ _ _ Hg0 Hn) as (Hm & Hlow & Htop). pose proof (saved_done s g need c sites w0 Hg0 Hn) as Hs.
  set (w1 := set_mem _ w0) in Hs. pose proof (va_save_frame g) as Hva.
  assert (inside s g need c sites w1) as Hin1.
  { split; [| |by apply good_called].
    - apply (good_done _ _ _ w0 (c_sp c) 0 []); [done| |done]. destruct (gd_range _ _ _ _ Hg0). lia.
    - by exists (w_mem w0). }
  destruct (pauses_Ret (ticks_at (Entered s)) (Entered s) (entered g (called s c)) w1 (dn_world _ _ _ _ _ Hs))
    as (w2 & Hr2 & Hd2).
  { apply (inside_regs s g need c sites w1); [apply io_scratch|done|done]. }
  exists w2. split_and!.
  - by apply (inside_done _ _ _ _ _ w1 _ _ _ _ Hin1 (Z.le_refl _) Hn (Hd2 _)).
  - pose proof (done_trans _ _ _ _ _ _ _ _ _ (Hd0 (c_sp c)) Hs (Z.le_refl _)) as Hd. rewrite Nat.add_0_r in Hd.
    exact (done_trans _ _ _ _ _ _ _ _ _ Hd (Hd2 (c_sp c)) (Z.le_refl _)).
  - intros A body. unfold call. mrun Hr0. mrun (prologue_Ret g (called s c) w0 Hm). fold w1. unfold pause at 1. by mrun Hr2.
Qed.

(** A call is its body in a frame of its own, when the body leaves the frame and the rest of the stack
    alone... *)
Lemma call_frame {A} s g need (body : context → M (world H) A) n cs c sites w :
  good (need + frame_size g) c sites w → 0 ≤ need →
  (∀ w1, inside s g need c sites w1 → quiet (c_sp c) w w1 →
    ∃ r w2, body (entered g (called s c)) w1 = Ret r w2 ∧ done_to (c_sp c - va_save g - 16) w1 n cs w2) →
  ∃ r w', call s g body c w = Ret r w' ∧ done_to (c_sp c) w (site_ticks s + n) cs w'.
Proof using Hpg CO TO RC LK HH.
  intros Hg Hn Hbody. pose proof (va_save_frame g) as Hva.
  destruct (call_enter s g need c sites w Hg Hn) as (w1 & Hin1 & Hd1 & Hcall).
  destruct (Hbody w1 Hin1 (dn_quiet _ _ _ _ _ Hd1)) as (r & w2 & Hr & Hd2).
  pose proof (inside_done _ _ _ _ _ _ _ _ _ _ Hin1 (Z.le_refl _) Hn Hd2) as Hin2.
  destruct (pauses_Ret (ticks_at (Leaving s)) (Leaving s) (entered g (called s c)) w2 (dn_world _ _ _ _ _ Hd2))
    as (w3 & Hr3 & Hd3).
  { apply (inside_regs s g need c sites w2); [apply io_scratch|done|done]. }
  destruct (inside_done _ _ _ _ _ _ _ _ _ _ Hin2 (Z.le_refl _) Hn (Hd3 _)) as [Hc3 (m & Hm) _].
  exists r, w3. split.
  - rewrite Hcall. mrun Hr. unfold pause. mrun Hr3. destruct Hc3 as [_ _ [_ Hfp] _ _].
    pose proof (co_site s). pose proof (pg_bottom _ _ _ _ _ _ Hpg). assert (USER_STACK < 2 ^ 63) by done.
    pose proof (gd_need _ _ _ _ Hg). pose proof (co_frame g).
    assert (0 ≤ c_ra (called s c) < 2 ^ 64 ∧ 0 ≤ c_fp (called s c) < 2 ^ 64) as [? ?] by (cbn [called c_ra c_fp]; lia).
    mrun (epilogue_Ret g (called s c) m w3 ltac:(done) ltac:(done) Hm).
    by rewrite decide_True.
  - pose proof (done_trans _ _ _ _ _ _ _ _ _ Hd1 Hd2 ltac:(lia)) as Hd.
    pose proof (done_trans _ _ _ _ _ _ _ _ _ Hd (Hd3 (c_sp c)) (Z.le_refl _)) as Hd'. rewrite app_nil_r in Hd'.
    unfold site_ticks. by replace (entry_ticks s + ticks_at (Leaving s) + n)%nat with
      (entry_ticks s + n + ticks_at (Leaving s))%nat by lia.
Qed.
(** ... or ends the machine. *)
Lemma call_last {A} s g need (body : context → M (world H) A) n cs c sites w :
  good (need + frame_size g) c sites w → 0 ≤ need →
  (∀ w1, inside s g need c sites w1 → quiet (c_sp c) w w1 →
    ∃ w2, body (entered g (called s c)) w1 = Halted w2 ∧ calls_made w1 n cs w2) →
  ∃ w', call s g body c w = Halted w' ∧ calls_made w (entry_ticks s + n) cs w'.
Proof using Hpg CO TO RC LK HH.
  intros Hg Hn Hbody. destruct (call_enter s g need c sites w Hg Hn) as (w1 & Hin1 & Hd1 & Hcall).
  destruct (Hbody w1 Hin1 (dn_quiet _ _ _ _ _ Hd1)) as (w2 & Hr & Hc2). exists w2. split.
  - rewrite Hcall. by apply bind_Halted.
  - exact (calls_made_app _ _ _ _ _ _ _ (dn_calls _ _ _ _ _ Hd1) Hc2).
Qed.

Lemma call_behaves {A} s g need (body : context → M (world H) A) n calls :
  0 ≤ need → saves_ra g = true → behaves need body n calls →
  behaves (need + frame_size g) (call s g body) (site_ticks s + n) (λ sites, calls (s :: sites)).
Proof using Hpg CO TO RC LK HH.
  intros Hn Hsv Hb c sites w Hg. apply (call_frame s g need body n _ c sites w Hg Hn). intros w1 Hin _.
  destruct (Hb _ _ _ (ins_good _ _ _ _ _ _ Hin Hsv)) as (r & w2 & Hr & Hd). exists r, w2. split; [done|].
  apply (done_quiet (c_sp (entered g (called s c)))); [|exact Hd].
  pose proof (va_save_frame g). cbn [entered called c_sp]. lia.
Qed.
Lemma call_stops {A} s g need (body : context → M (world H) A) n calls :
  0 ≤ need → saves_ra g = true → stops need body n calls →
  stops (need + frame_size g) (call s g body) (entry_ticks s + n) (λ sites, calls (s :: sites)).
Proof using Hpg CO TO RC LK HH.
  intros Hn Hsv Hb c sites w Hg. apply (call_last s g need body n _ c sites w Hg Hn). intros w1 Hin _.
  exact (Hb _ _ _ (ins_good _ _ _ _ _ _ Hin Hsv)).
Qed.
Lemma good_weaken need need' c sites w : 0 ≤ need ≤ need' → good need' c sites w → good need c sites w.
Proof using. intros Hn [Hw Hlow [_ Hr] Hra Hch]. split; [done|lia|lia|done|done]. Qed.
Lemma behaves_weaken {A} need need' (body : context → M (world H) A) n calls :
  0 ≤ need ≤ need' → behaves need body n calls → behaves need' body n calls.
Proof using. intros Hn Hb c sites w Hg. by apply Hb, (good_weaken _ _ _ _ _ Hn). Qed.

(** ** The calls of the kernel *)
Section user_call.
Context (s : site) (c : context) (sites : list site) (w : world H) (n a1 a2 a3 a4 a5 a6 a7 : Z).
Let c2 := entered Do_user_call (called s c).
(** The instruction after the frame is made: [w] is inside [do_user_call]. *)
Context (Hin : inside s Do_user_call 0 c sites w).
Definition call_regs : reg → Z := with_args (regs_with (scratch s) c2) n a1 a2 a3 a4 a5 a6 a7.
(** The world the kernel's function runs in. *)
Definition in_kernel : world H := call_world w tf ecall_pc call_regs.

Lemma inside_stack :
  app_world w ∧ stack_bottom ≤ c_sp c2 ∧ c_sp c2 + 32 ≤ c_sp c < USER_STACK ∧ c_sp c + 16 ≤ c_fp c ≤ USER_STACK ∧
  0 < c_sp c2.
Proof using Hpg CO Hin.
  destruct Hin as [Hg _ _]. destruct (good_stack 0 c sites w Do_user_call Hg ltac:(lia)) as (_ & _ & Htop).
  destruct Hg as [Hw Hb [_ Hr] _ _]. pose proof (pg_bottom _ _ _ _ _ _ Hpg). pose proof (co_frame Do_user_call).
  unfold c2, entered, called. cbn [c_sp]. split_and!; (done || lia).
Qed.
Lemma call_regs_ok : regs_ok (regs_with (scratch s) c2).
Proof using Hpg CO Hin. by apply (inside_regs s Do_user_call 0 c sites w); [apply co_scratch|done|]. Qed.

Lemma in_kernel_facts :
  layout (w_mem in_kernel) proc tf ∧ w_current in_kernel = proc ∧ console in_kernel k ∧
  w_host in_kernel = w_host w ∧ w_ticks in_kernel = w_ticks w ∧ known tf p m0 (w_mem in_kernel) ∧
  word_at (w_mem in_kernel) (tf + reg_offset Sp) = Some (c_sp c2) ∧
  word_at (w_mem in_kernel) (tf + reg_offset S0) = Some (c_sp c) ∧
  ∀ a, stack_bottom ≤ a < USER_STACK → w_mem in_kernel !! a = w_mem w !! a.
Proof using Hpg CO Hin RC LK HH.
  destruct inside_stack as (Hw & Hlow & Htop & Hfp & Hsp). pose proof (aw_ready _ Hw) as Hr.
  assert (regs_ok call_regs) as Hf by apply with_args_ok, call_regs_ok.
  destruct (call_world_facts w proc tf ecall_pc call_regs Hr Hf) as (Hl & Hc & Hfi & Hh & Hregs).
  fold in_kernel in Hl, Hc, Hfi, Hh, Hregs.
  pose proof (call_world_outside w tf ecall_pc call_regs) as Ho. fold in_kernel in Ho. split_and!; try done.
  - destruct (aw_console _ Hw) as (x & Hx & Hkx). exists x. by rewrite Hfi.
  - intros a Ha. unfold writable, trap_memory in Ha. rewrite Ho by lia. apply (aw_known _ Hw).
    unfold writable, trap_memory. lia.
  - rewrite Hregs. rewrite decide_False by done. unfold call_regs, with_args, regs_with, c2, entered, called.
    cbn [c_fp c_sp]. change (va_save Do_user_call) with 0. by rewrite Z.sub_0_r.
  - intros a Ha. rewrite Ho; [done|]. apply stack_apart in Ha. unfold trap_memory in Ha. lia.
Qed.
End user_call.

Lemma calls_exact w w' cs : w_ticks w' = w_ticks w → w_host w' = host_calls cs (w_host w) → calls_made w 0 cs w'.
Proof using. intros Ht Hh. exists cs. rewrite Ht. split; [apply ticked_none|done]. Qed.
Lemma user_pc_ecall : user_pc ecall_pc ∧ ecall_pc + 4 < 2 ^ 64.
Proof using CO. destruct co_ecall as (? & ? & ?). unfold user_pc. lia. Qed.

(** A system call that returns, and one that ends the machine. *)
Lemma user_call_Ret s c sites w n a1 a2 a3 a4 a5 a6 a7 cs :
  good (frame_size Do_user_call) c sites w →
  (∀ w1, inside s Do_user_call 0 c sites w1 → quiet (c_sp c) w w1 → ∃ ret w3,
    do_syscall (u64 n) (u64 a1) (u64 a2) (u64 a3) (u64 a4) (u64 a5) (u64 a6) (u64 a7)
      (in_kernel s c w1 n a1 a2 a3 a4 a5 a6 a7) = Ret ret w3 ∧ w_host w3 = host_calls cs (w_host w1)) →
  ∃ r w', user_call_in s c n a1 a2 a3 a4 a5 a6 a7 w = Ret r w' ∧ done_to (c_sp c) w (site_ticks s) cs w'.
Proof using Hpg CO TO RC LK HH.
  intros Hg Hk. assert (good (0 + frame_size Do_user_call) c sites w) as Hg0 by by rewrite Z.add_0_l.
  destruct (call_frame s Do_user_call 0
    (λ c, do_user_call ecall_pc (regs_with (scratch s) c) n a1 a2 a3 a4 a5 a6 a7) 0 cs c sites w Hg0 ltac:(lia))
    as (r & w' & Hr & Hd); [|exists r, w'; split; [exact Hr|by rewrite Nat.add_0_r in Hd]].
  intros w1 Hin Hq1. destruct (Hk w1 Hin Hq1) as (ret & w3 & Hcall & Hh3). destruct (inside_stack s c sites w1 Hin) as (Hw1 & _).
  pose proof (call_regs_ok s c sites w1 Hin) as Hf. destruct user_pc_ecall as [[Hp Hpa] Hp4].
  destruct (do_user_call_Ret w1 proc tf ecall_pc _ ret w3 n a1 a2 a3 a4 a5 a6 a7
    (aw_ready _ Hw1) Hf (proj1 Hp) Hp4 Hpa Hcall) as (w2 & Hr & _ & Ho & _ & Hh).
  exists (s32 ret), w2. split; [exact Hr|]. destruct Hw1 as [[t Hsv] Hkn Hst].
  destruct (do_user_call_serves _ _ _ _ _ _ _ _ _ _ _ _ _ _ _ _ _ _ Hsv (pg_kernel _ _ _ _ _ _ Hpg) Hf
    (conj Hp Hpa) Hp4 Hr) as [Hsv2 Htk].
  assert (∀ a, ¬ trap_memory tf p a → w_mem w2 !! a = w_mem w1 !! a) as Hq.
  { intros a Ha. apply Ho. unfold trap_memory in Ha. lia. }
  split; [split; [by eexists| |]|intros a _; apply Hq|].
  - intros a Ha. rewrite Hq; [by apply Hkn|]. unfold writable in Ha. tauto.
  - apply (mapped_ext (w_mem w1)); [|done]. intros a Ha. apply Hq, stack_apart.
    pose proof stack_size_pos. unfold stack_bottom in *. lia.
  - apply calls_exact; [done|]. by rewrite Hh.
Qed.
Lemma user_call_Halted s c sites w n a1 a2 a3 a4 a5 a6 a7 cs :
  good (frame_size Do_user_call) c sites w →
  (∀ w1, inside s Do_user_call 0 c sites w1 → quiet (c_sp c) w w1 → ∃ w3,
    do_syscall (u64 n) (u64 a1) (u64 a2) (u64 a3) (u64 a4) (u64 a5) (u64 a6) (u64 a7)
      (in_kernel s c w1 n a1 a2 a3 a4 a5 a6 a7) = Halted w3 ∧ calls_made w1 0 cs w3) →
  ∃ w', user_call_in s c n a1 a2 a3 a4 a5 a6 a7 w = Halted w' ∧ calls_made w (entry_ticks s) cs w'.
Proof using Hpg CO TO RC LK HH.
  intros Hg Hk. assert (good (0 + frame_size Do_user_call) c sites w) as Hg0 by by rewrite Z.add_0_l.
  destruct (call_last s Do_user_call 0
    (λ c, do_user_call ecall_pc (regs_with (scratch s) c) n a1 a2 a3 a4 a5 a6 a7) 0 cs c sites w Hg0 ltac:(lia))
    as (w' & Hr & Hd); [|exists w'; split; [exact Hr|by rewrite Nat.add_0_r in Hd]].
  intros w1 Hin Hq1. destruct (Hk w1 Hin Hq1) as (w3 & Hcall & Hh3). destruct (inside_stack s c sites w1 Hin) as (Hw1 & _).
  pose proof (call_regs_ok s c sites w1 Hin) as Hf. destruct user_pc_ecall as [[Hp Hpa] Hp4].
  exists w3. split; [|exact Hh3].
  exact (do_user_call_Halted w1 proc tf ecall_pc _ w3 n a1 a2 a3 a4 a5 a6 a7 (aw_ready _ Hw1) Hf (proj1 Hp) Hp4 Hcall).
Qed.

(** ** The functions of the program *)
Lemma sys_user_backtrace_top w sp fp depth :
  layout (w_mem w) proc tf → w_current w = proc → word_at (w_mem w) (tf + reg_offset Sp) = Some sp →
  word_at (w_mem w) (tf + reg_offset S0) = Some fp → in_stack sp fp → 0 ≤ sp →
  word_at (w_mem w) (fp - 8) = Some USER_STACK →
  sys_user_backtrace depth w = Ret 0 w.
Proof using.
  intros Hl Hc Hsp Hfp (H16 & H8 & Htop) Hsp0 Hnext. assert (USER_STACK < 2 ^ 63) by done.
  unfold sys_user_backtrace. destruct (depth =? 0); [done|].
  unfold gets at 1. rewrite (bind_Ret _ _ w (w_current w) w) by done. rewrite Hc.
  mrun (load_field_Ret w proc proc_trapframe tf (lay_tf _ _ _ Hl)).
  mrun (load_field_Ret w tf (reg_offset Sp) sp Hsp). mrun (load_field_Ret w tf (reg_offset S0) fp Hfp).
  rewrite !Z.geb_leb, (proj2 (Z.eqb_neq fp 0)), (proj2 (Z.leb_gt fp sp)),
    (proj2 (Z.leb_gt USER_STACK fp)) by lia. cbn [orb].
  rewrite u64_id, (proj2 (Z.leb_gt (fp - 8) sp)) by lia. mrun (on_mem_word w _ _ Hnext).
  rewrite Z.geb_leb, Z.leb_refl. by rewrite orb_true_r.
Qed.

(** The calls of the host a backtrace makes. *)
Definition line_calls (ls : list (list Z)) : list fe_call := map (λ l, FeWrite k (printk_bytes l)) ls.
Definition bt_calls (depth : Z) (sites : list site) : list fe_call :=
  line_calls (bt_lines (name_of proc syms sz m0) depth (map ret_addr sites)).

Lemma backtrace_in_kernel depth s c sites w :
  0 ≤ depth < 2 ^ 31 → inside s Do_user_call 0 c sites w →
  ∃ n w3, sys_user_backtrace depth (in_kernel s c w SYS_user_backtrace depth 0 0 0 0 0 0) = Ret n w3 ∧
    w_host w3 = host_calls (bt_calls depth sites) (w_host w).
Proof using Hpg CO RC LK HH Hl0.
  intros Hd Hin. destruct (in_kernel_facts s c sites w SYS_user_backtrace depth 0 0 0 0 0 0 Hin)
    as (Hl & Hcur & Hk & Hh & _ & Hkn & Hsp & Hfp & Hst).
  destruct (inside_stack s c sites w Hin) as (_ & Hlow & Htop & Hfpr & Hsp0).
  set (wk := in_kernel _ _ _ _ _ _ _ _ _ _ _) in *. set (sp := c_sp (entered _ _)) in *.
  assert (in_stack sp (c_sp c)) as Hins by (unfold in_stack; lia). assert (USER_STACK < 2 ^ 63) by done.
  destruct Hin as [Hg (m & Hm) _]. change (va_save Do_user_call) with 0 in Hm. rewrite Z.sub_0_r in Hm.
  assert (word_at (w_mem wk) (c_sp c - 8) = Some (c_fp c)) as Hnext.
  { rewrite (word_at_ext (saved Do_user_call (called s c) m)).
    - unfold saved. cbv zeta. cbn [called c_sp c_fp]. change (va_save Do_user_call) with 0. rewrite Z.sub_0_r.
      change (saves_ra Do_user_call) with false. cbv iota. rewrite word_at_write. f_equal. apply u64_id. lia.
    - intros a Ha. rewrite Hst by lia. apply Hm. lia. }
  destruct Hg as [_ _ _ _ Hch]. unfold bt_calls. remember (map ret_addr sites) as rets eqn:Hrets.
  destruct Hch as [Htp|rets Hlt Hun].
  - rewrite Htp in Hnext. exists 0, wk. split; [|exact Hh].
    apply (sys_user_backtrace_top wk sp (c_sp c)); try done. lia.
  - eexists _, _. split.
    + apply (sys_user_backtrace_Ret wk k proc tf syms sz (name_of proc syms sz m0)
        sp (c_sp c) (c_fp c) rets depth); try done; try lia.
      * split; [done|apply Hl|by apply (known_lits proc tf p syms sz m0)|done|by apply (known_symtab proc tf p syms sz m0)].
      * apply (unwinds_ext (w_mem w)); [|apply Hun; lia]. intros a Ha. apply Hst. lia.
      * rewrite Hrets. by apply (known_names proc tf p).
    + unfold printed_all. cbn [w_host set_host]. by rewrite Hh.
Qed.
Lemma print_backtrace_behaves depth :
  0 ≤ depth < 2 ^ 31 →
  behaves (frame_size Do_user_call) (λ c, print_backtrace (user_call_in In_print_backtrace c) depth)
    (site_ticks In_print_backtrace) (bt_calls depth).
Proof using Hpg CO TO RC LK HH Hl0.
  intros Hd c sites w Hg. unfold print_backtrace. apply (user_call_Ret _ c sites); [done|]. intros w1 Hin _.
  change (u64 SYS_user_backtrace) with SYS_user_backtrace. rewrite (u64_id depth) by lia.
  exact (backtrace_in_kernel depth _ _ _ _ Hd Hin).
Qed.

Definition printu_body (text : list Z) (c : context) : M (world H) Z :=
  printu (user_call_in In_printu c) (c_sp c + out_offset) (Lit text) [].

(** The array is in the frame of [printu], below the words saved there. *)
Lemma good_array s need c sites w text :
  let c2 := entered Printu (called s c) in
  good need c2 (s :: sites) w → c_sp c < USER_STACK →
  Forall (λ b, 0 ≤ b < 256) text → zlen text < printu_size →
  ∃ bs, read_bytes (w_mem w) (c_sp c2 + out_offset) 256 = Some bs ∧
    good need c2 (s :: sites) (set_mem (write_bytes (w_mem w) (c_sp c2 + out_offset) (printu_text text bs)) w) ∧
    ∀ a, c_sp c - 80 ≤ a → write_bytes (w_mem w) (c_sp c2 + out_offset) (printu_text text bs) !! a = w_mem w !! a.
Proof using Hpg CO HH.
  intros c2 Hg Htop Hby Hlen. destruct co_out as [Ho Hsz]. unfold printu_size in Hsz.
  destruct Hg as [Hw Hlow [Hn Hr] Hra Hch]. pose proof stack_size_pos.
  assert (c_sp c2 + frame_size Printu = c_sp c ∧ c_fp c2 = c_sp c - 64) as [Hsp2 Hfp2].
  { unfold c2, entered, called. cbn [c_sp c_fp]. change (va_save Printu) with 64. lia. }
  assert (mapped (w_mem w) (c_sp c2 + out_offset) 256) as Hm.
  { eapply mapped_sub; [| |apply (aw_stack _ Hw)]; unfold stack_bottom in *; lia. }
  apply read_bytes_is_Some in Hm as [bs Hbs]. exists bs.
  pose proof (printu_text_length text bs Hlen (read_bytes_length _ _ _ _ Hbs)) as Htl.
  assert (∀ a, c_sp c - 80 ≤ a →
    write_bytes (w_mem w) (c_sp c2 + out_offset) (printu_text text bs) !! a = w_mem w !! a) as Hab.
  { intros a Ha. apply lookup_write_bytes_ne. rewrite Htl. lia. }
  pose proof (lay_wf _ _ _ (rd_layout _ _ _ (aw_ready _ Hw))) as Hwf.
  split; [done|]. split; [|exact Hab]. split; [|done|lia|done|].
  - apply app_world_stack; [done| |intros q n; apply mapped_write_bytes|].
    + apply mem_wf_write_bytes; [done|]. apply printu_text_range; [done|]. by eapply read_bytes_wf.
    + intros a Ha. apply lookup_write_bytes_ne. rewrite Htl. lia.
  - apply (chain_ext (w_mem w)); [|done]. intros a Ha. apply Hab. lia.
Qed.

(** The text as the kernel finds it. *)
Lemma array_in_kernel m m' out text bs :
  Forall plain text → (∀ a, out ≤ a < out + zlen text + 1 → m' !! a = write_bytes m out (printu_text text bs) !! a) →
  cstr m' out text.
Proof using.
  intros Hpl He. apply (cstr_ext (write_bytes m out (printu_text text bs))).
  - intros i Hi. apply He. unfold zlen. lia.
  - apply cstr_bytes; [|by apply plain_nonzero].
    pose proof (read_write_bytes m out (printu_text text bs)) as Hrb. unfold printu_text in Hrb at 2 3.
    change (text ++ 0 :: drop (S (length text)) bs) with (text ++ [0] ++ drop (S (length text)) bs) in Hrb.
    rewrite app_assoc in Hrb. by apply bytes_at_app in Hrb as [Hrb _].
Qed.
Lemma printu_behaves s text :
  Forall plain text → Forall (λ b, 0 ≤ b < 256) text → zlen text < printu_size →
  behaves (frame_size Do_user_call + frame_size Printu) (call s Printu (printu_body text))
    (site_ticks s + site_ticks In_printu) (λ _, [FeWrite k text]).
Proof using Hpg CO TO RC LK HH.
  intros Hpl Hby Hlen c sites w Hg. pose proof (co_frame Do_user_call) as Hfr.
  destruct (good_stack _ _ _ _ _ Hg ltac:(lia)) as (_ & _ & Htop).
  apply (call_frame s Printu (frame_size Do_user_call) (printu_body text) _ _ c sites w Hg ltac:(lia)).
  intros w1 Hin _. pose proof (ins_good _ _ _ _ _ _ Hin eq_refl) as Hg1.
  set (c2 := entered Printu (called s c)) in *.
  destruct (good_array s _ c sites w1 text Hg1 Htop Hby Hlen) as (bs & Hbs & Hg2 & Hab). fold c2 in Hbs, Hg2, Hab.
  set (out := c_sp c2 + out_offset) in *. set (w2 := set_mem (write_bytes _ _ _) w1) in *.
  destruct co_out as [Ho Hsz]. pose proof Hlen as Hlen'. unfold zlen, printu_size in Hlen, Hsz.
  assert (c_sp c2 + frame_size Printu = c_sp c) as Hsp2 by (unfold c2, entered, called; cbn [c_sp]; lia).
  assert (USER_STACK < 2 ^ 63) as HU by done. pose proof (pg_bottom _ _ _ _ _ _ Hpg) as Hbot.
  pose proof (gd_need _ _ _ _ Hg1) as Hlow1.
  destruct (user_call_Ret In_printu c2 (s :: sites) w2 SYS_user_print out (zlen text) 0 0 0 0 0 [FeWrite k text] Hg2)
    as (r & w3 & Hr & Hd).
  { intros w4 Hin4 Hq4. destruct (in_kernel_facts In_printu c2 _ w4 SYS_user_print out (zlen text) 0 0 0 0 0 Hin4)
      as (_ & _ & Hk & Hh & _ & _ & _ & _ & Hst). set (wk := in_kernel _ _ _ _ _ _ _ _ _ _ _) in *.
    destruct (do_syscall_print_Ret wk k out (zlen text) 0 0 0 0 0 text text Hk) as (Hcall & _);
      [|by apply render_plain|lia|].
    { apply (array_in_kernel (w_mem w1) _ _ _ bs); [done|]. intros a Ha. unfold zlen in Ha.
      rewrite Hst by (unfold out in Ha; lia). apply Hq4; [unfold out in Ha; lia|]. apply stack_apart. unfold out in Ha; lia. }
    exists 0, (printed k text wk). split.
    - change (u64 SYS_user_print) with SYS_user_print. change (u64 0) with 0.
      rewrite (u64_id out), (u64_id (zlen text)) by (unfold zlen, out; lia). exact Hcall.
    - unfold printed. cbn [w_host set_host]. rewrite Hh. unfold printk_bytes, printk_size.
      by rewrite (proj2 (Z.ltb_lt _ _)), plain_u8 by (done || lia). }
  exists r, w3. split.
  - unfold printu_body. fold out. rewrite (printu_Ret w1 _ out (Lit text) [] text text bs); [exact Hr| | |done|done|done].
    + by apply cstring_lit, plain_nonzero.
    + by apply render_plain.
  - change (va_save Printu) with 64. destruct Hd as [Hw3 Hq Hc3]. split; [done| |exact Hc3].
    intros a Ha Hout. rewrite Hq by (done || lia). apply Hab. lia.
Qed.

(** The notices of an exit. *)
Definition exit_calls (code : Z) : list fe_call :=
  [FeWrite k (printk_bytes (exit_msg code)); FeWrite k (printk_bytes (shutdown_msg code)); FeExit code].
Lemma exit_halts code :
  0 ≤ va_area < 2 ^ 63 → - 2 ^ 31 ≤ code < 2 ^ 31 →
  stops (frame_size Do_user_call) (λ c, exit (user_call_in In_exit c) code) (entry_ticks In_exit)
    (λ _, exit_calls code).
Proof using Hpg CO TO RC LK HH.
  intros Hva Hc c sites w Hg. unfold exit. apply (user_call_Halted _ c sites); [done|]. intros w1 Hin _.
  destruct (in_kernel_facts In_exit c sites w1 SYS_user_exit code 0 0 0 0 0 0 Hin) as (_ & _ & Hk & Hh & Ht & _).
  destruct (do_syscall_stops_Halted _ k 0 (u64 code) 0 0 0 0 0 0 Hk Hva) as [Hcall _].
  eexists. split; [exact Hcall|]. apply calls_exact; [exact Ht|].
  cbn [w_host set_host]. rewrite Hh. unfold exit_calls, exit_msg. by rewrite !s32_u64, s32_id.
Qed.

Definition sites_ticks (l : list site) : nat := foldr (λ s n, site_ticks s + n)%nat 0%nat l.
Lemma f8_behaves :
  behaves (frame_size Do_user_call + frame_size Print_backtrace) f8 (sites_ticks [In_f8; In_print_backtrace])
    (λ sites, bt_calls 8 (In_f8 :: sites)).
Proof using Hpg CO TO RC LK HH Hl0.
  intros c sites w Hg. assert (0 ≤ frame_size Do_user_call) as Hfr by (pose proof (co_frame Do_user_call); lia).
  destruct (call_behaves In_f8 Print_backtrace _ _ _ _ Hfr eq_refl (print_backtrace_behaves 8 ltac:(lia)) c sites w Hg)
    as (r & w' & Hr & Hdone).
  exists tt, w'. split; [unfold f8; by mrun Hr|]. cbn [sites_ticks foldr]. by rewrite Nat.add_0_r.
Qed.

(** The chain of calls, from the outermost in. *)
Definition f1_stack : Z :=
  frame_size Do_user_call + frame_size Print_backtrace + frame_size F8 + frame_size F7 + frame_size F6 +
  frame_size F5 + frame_size F4 + frame_size F3 + frame_size F2.
Definition f1_sites : list site := [In_f8; In_f7; In_f6; In_f5; In_f4; In_f3; In_f2; In_f1].
Lemma f1_behaves :
  behaves f1_stack f1 (sites_ticks (rev f1_sites ++ [In_print_backtrace])) (λ sites, bt_calls 8 (f1_sites ++ sites)).
Proof using Hpg CO TO RC LK HH Hl0.
  unfold f1_stack. pose proof co_frame as Hfr.
  assert (∀ l, 0 ≤ foldr (λ g n, frame_size g + n) 0 l) as Hpos.
  { induction l as [|g l IH]; cbn [foldr]; [lia|]. specialize (Hfr g). lia. }
  pose proof (Hpos [Do_user_call; Print_backtrace; F8; F7; F6; F5; F4; F3]) as H8. cbn [foldr] in H8.
  pose proof (Hfr Do_user_call). pose proof (Hfr Print_backtrace). pose proof (Hfr F8). pose proof (Hfr F7).
  pose proof (Hfr F6). pose proof (Hfr F5). pose proof (Hfr F4). pose proof (Hfr F3).
  pose proof f8_behaves as Hb.
  apply (call_behaves In_f7 F8) in Hb; [|lia|done]. apply (call_behaves In_f6 F7) in Hb; [|lia|done].
  apply (call_behaves In_f5 F6) in Hb; [|lia|done]. apply (call_behaves In_f4 F5) in Hb; [|lia|done].
  apply (call_behaves In_f3 F4) in Hb; [|lia|done]. apply (call_behaves In_f2 F3) in Hb; [|lia|done].
  apply (call_behaves In_f1 F2) in Hb; [|lia|done]. exact Hb.
Qed.

(** What the backtrace prints: the names of the eight functions, the innermost first. *)
Definition app_fns : list fn := [F8; F7; F6; F5; F4; F3; F2; F1].
Lemma app_backtrace sites :
  bt_calls 8 (f1_sites ++ In_main_f1 :: sites) = line_calls (map (λ g, fn_name g ++ [10]) app_fns).
Proof using Hpg.
  unfold bt_calls, f1_sites. cbn [app map bt_lines].
  rewrite !(name_of_site proc tf p syms sz m0 Hpg). by destruct sites.
Qed.

Definition app_calls : list fe_call :=
  [FeWrite k app_text] ++ line_calls (map (λ g, fn_name g ++ [10]) app_fns) ++ exit_calls 0.

(** The stack is enough for each of the three calls of [main]. *)
Lemma main_room :
  0 ≤ frame_size Do_user_call + frame_size Printu ≤ stack_size - frame_size Main ∧
  0 ≤ f1_stack + frame_size F1 ≤ stack_size - frame_size Main ∧
  0 ≤ frame_size Do_user_call + frame_size Exit ≤ stack_size - frame_size Main ∧
  0 ≤ f1_stack ∧ 0 ≤ frame_size Do_user_call.
Proof using CO.
  pose proof co_frame as Hfr. unfold f1_stack, stack_size, all_fns. cbn [foldr].
  pose proof (Hfr Main). pose proof (Hfr F1). pose proof (Hfr F2). pose proof (Hfr F3). pose proof (Hfr F4).
  pose proof (Hfr F5). pose proof (Hfr F6). pose proof (Hfr F7). pose proof (Hfr F8). pose proof (Hfr Printu).
  pose proof (Hfr Print_backtrace). pose proof (Hfr Exit). pose proof (Hfr Do_user_call). lia.
Qed.
Lemma good_main w :
  app_world w →
  let c := entered Main (Context 0 USER_STACK 0) in
  good (stack_size - frame_size Main) c [] (set_mem (saved Main (Context 0 USER_STACK 0) (w_mem w)) w) ∧
  mapped (w_mem w) (USER_STACK - va_save Main - 16) 16.
Proof using Hpg CO HH.
  intros Hw c. pose proof co_frame as Hfr. pose proof (Hfr Main).
  destruct main_room as ([? ?] & _).
  assert (va_save Main = 0) as Hva by done. split.
  - split.
    + apply app_world_stack; [done|by apply saved_wf, aw_ready|intros q n; apply saved_mapped|].
      intros a Ha. apply saved_outside. cbn [c_sp]. unfold stack_bottom in Ha. lia.
    + unfold c, entered, stack_bottom. cbn [c_sp]. lia.
    + unfold c, entered. cbn [c_sp c_fp]. rewrite Hva. lia.
    + unfold c, entered. cbn [c_ra]. lia.
    + apply chain_main. unfold c, entered. cbn [c_fp c_sp]. rewrite Hva. lia.
  - eapply mapped_sub; [| |apply (aw_stack _ Hw)]; unfold stack_bottom; lia.
Qed.

(** The interrupts of the whole program. *)
Definition app_ticks : nat :=
  (ticks_at Start + sites_ticks [In_main_printu; In_printu] +
   sites_ticks (In_main_f1 :: rev f1_sites ++ [In_print_backtrace]) +
   (entry_ticks In_main_exit + entry_ticks In_exit))%nat.

Lemma main_Halted w :
  app_world w → 0 ≤ va_area < 2 ^ 63 →
  ∃ w', main (Context 0 USER_STACK 0) w = Halted w' ∧ calls_made w app_ticks app_calls w'.
Proof using Hpg CO TO RC LK HH Hl0.
  intros Hw Hva. assert (0 ≤ USER_STACK < 2 ^ 64) as HU by done.
  destruct (pauses_Ret (ticks_at Start) Start (Context 0 USER_STACK 0) w Hw) as (w0 & Hr0 & Hd0).
  { apply regs_with_ok; [apply io_scratch|done..]. }
  destruct (good_main w0 (dn_world _ _ _ _ _ (Hd0 0))) as [Hg Hm].
  set (c := entered Main _) in *. set (w1 := set_mem _ w0) in *.
  assert (calls_made w (ticks_at Start) [] w1) as Hc0 by exact (dn_calls _ _ _ _ _ (Hd0 0)).
  destruct main_room as (Hn1 & Hn2 & Hn3 & Hf1 & Hd).
  assert (c_sp c ≤ c_fp c - 16) as Hb by (destruct (gd_range _ _ _ _ Hg); lia).
  assert (Forall (λ b, 0 ≤ b < 256) app_text) as Hby by (vm_compute; repeat constructor; discriminate).
  pose proof (printu_behaves In_main_printu app_text ltac:(plain_tac) Hby eq_refl) as Hb1.
  pose proof (call_behaves In_main_f1 F1 _ _ _ _ Hf1 eq_refl f1_behaves) as Hb2.
  pose proof (call_stops In_main_exit Exit _ _ _ _ Hd eq_refl (exit_halts 0 Hva ltac:(lia))) as Hb3.
  apply (behaves_weaken _ _ _ _ _ Hn1) in Hb1. apply (behaves_weaken _ _ _ _ _ Hn2) in Hb2.
  destruct (Hb1 c [] w1 Hg) as (r1 & w2 & Hr1 & Hd1). apply (good_done _ _ _ _ _ _ _ _ Hg Hb) in Hd1 as Hg2.
  destruct (Hb2 c [] w2 Hg2) as (r2 & w3 & Hr2 & Hd2). apply (good_done _ _ _ _ _ _ _ _ Hg2 Hb) in Hd2 as Hg3.
  destruct (Hb3 c [] w3 (good_weaken _ _ _ _ _ Hn3 Hg3)) as (w4 & Hr3 & Hc3).
  rewrite app_backtrace in Hd2. exists w4. split.
  - unfold main, pause at 1. mrun Hr0. mrun (prologue_Ret Main (Context 0 USER_STACK 0) w0 Hm). fold c. fold w1.
    mrun Hr1. mrun Hr2. by apply bind_Halted.
  - pose proof (calls_made_app _ _ _ _ _ _ _ (calls_made_app _ _ _ _ _ _ _ (calls_made_app _ _ _ _ _ _ _
      Hc0 (dn_calls _ _ _ _ _ Hd1)) (dn_calls _ _ _ _ _ Hd2)) Hc3) as Hall.
    rewrite <- !app_assoc in Hall. unfold app_ticks. cbn [sites_ticks foldr] in *. by rewrite Nat.add_0_r.
Qed.

End runs.

Section theorem.
Context {H : Type} `{HH : Host H} `{PP : Platform} `{CC : Compiled} `{CO : !CompiledOk} `{TI : Interrupts}.
Context `{TO : !InterruptsOk} `{RC : !RiscvCsrs} `{LK : !Linked}.

Lemma main_Ret (w : world H) k proc tf p t syms sz :
  program proc tf p syms sz (w_mem w) → serving w proc tf p k t → 0 ≤ va_area < 2 ^ 63 →
  ∃ w' cs, main (Context 0 USER_STACK 0) w = Halted w' ∧
    ticked k (w_ticks w) (app_calls k) app_ticks (w_ticks w') cs ∧ w_host w' = host_calls cs (w_host w).
Proof.
  intros Hpg Hsv Hva.
  destruct (main_Halted k proc tf p syms sz (w_mem w) Hpg (rd_layout _ _ _ (sv_ready _ _ _ _ _ _ Hsv)) w)
    as (w' & Hr & cs & Hcs); [|done|by exists w', cs].
  split; [by exists t|by intros a _|apply Hpg].
Qed.

(** C3. The application, end to end, on a kernel prepared for it, with timer interrupts wherever they
    come: [main], entered as the kernel enters it, prints its text, calls down to [f8], whose
    backtrace prints the names of the eight functions, the innermost first and without those of the
    user library or [main], and exits with code 0: the host sees exactly these lines, the two notices
    of the exit and the exit itself, and in between, never inside a line, one notice for every
    interrupt taken, numbered on from the tick counter.  No call on the way fails, every return finds
    its way back, and the hypotheses of the backtrace's own theorem hold on the stack the calls have
    built. *)
Theorem main_prints (w : world H) k proc tf p t syms sz :
  program proc tf p syms sz (w_mem w) → serving w proc tf p k t → 0 ≤ va_area < 2 ^ 63 →
  ∃ w' cs, main (Context 0 USER_STACK 0) w = Halted w' ∧ w_host w' = host_calls cs (w_host w) ∧
    ticked k (w_ticks w)
      (map (FeWrite k) [bytes ("back trace the user app in the following:" +:+ newline);
         bytes ("f8" +:+ newline); bytes ("f7" +:+ newline); bytes ("f6" +:+ newline);
         bytes ("f5" +:+ newline); bytes ("f4" +:+ newline); bytes ("f3" +:+ newline);
         bytes ("f2" +:+ newline); bytes ("f1" +:+ newline);
         bytes ("User exit with code:0." +:+ newline);
         bytes ("System is shutting down with exit code 0." +:+ newline)] ++ [FeExit 0])
      app_ticks (w_ticks w') cs.
Proof.
  intros Hpg Hsv Hva. destruct (main_Ret w k proc tf p t syms sz Hpg Hsv Hva) as (w' & cs & Hr & Ht & Hh).
  by exists w', cs.
Qed.
End theorem.

(** * Instances *)
Import SampleMachine.

(** A compiled program: every function takes 64 bytes from 0x81000000 on, in the order of [all_fns]. *)
Definition fn_index (g : fn) : Z :=
  match list_find (λ g', g' = g) all_fns with Some (i, _) => Z.of_nat i | None => 0 end.
Definition fn_addr (g : fn) : Z := 0x81000000 + 64 * fn_index g.
#[export] Instance sample_compiled : Compiled := {|
  main_addr := fn_addr Main;
  frame_size g := if decide (g = Printu) then 384 else 32;
  ret_addr s := fn_addr (site_fn s) + match s with In_main_f1 => 32 | In_main_exit => 48 | _ => 16 end;
  ecall_pc := fn_addr Do_user_call + 24;
  out_offset := 16;
  scratch _ _ := 0;
|}.
#[export] Instance sample_compiled_ok : CompiledOk.
Proof. split; [intros []| |intros []| |]; vm_compute; repeat split; discriminate. Qed.

(** Two interrupts while the text is printed, one in [f4], and one on the way to the exit. *)
#[export] Instance sample_interrupts : Interrupts := {|
  ticks_at pl :=
    match pl with Entered In_main_printu => 2 | Calling In_f4 | Leaving In_f2 | Calling In_exit => 1 | _ => 0 end%nat;
  tick_pc _ := 0x81000020;
  tick_scratch _ _ := 5;
  tick_stack _ := 0x80003000;
  tick_clobbered _ _ := 7;
|}.
#[export] Instance sample_interrupts_ok : InterruptsOk.
Proof. split; [by split|done]. Qed.

(** Its symbol table and the names. *)
Fixpoint name_offset (g : fn) (l : list fn) : Z :=
  match l with
  | [] => 0
  | g' :: l => if decide (g' = g) then 0 else zlen (fn_name g') + 1 + name_offset g l
  end.
Definition sample_strtab : list Z := 0 :: concat (map (λ g, fn_name g ++ [0]) all_fns).
Definition sample_syms : list symbol :=
  map (λ g, Symbol (1 + name_offset g all_fns) 2 (fn_addr g) 64) all_fns.
Definition symbol_bytes (s : symbol) : list Z :=
  le_bytes 4 (sy_name s) ++ [sy_info s; 0; 0; 0] ++ le_bytes 8 (sy_value s) ++ le_bytes 8 (sy_size s).
(** The literals the kernel compares names with, and the stack. *)
Definition sample_literals (m : mem) : mem :=
  foldr (λ s m, write_bytes m (addr_lit s) (bytes s ++ [0])) m ["main"; "print_backtrace"; "do_user_call"]%string.
Definition sample_stack (m : mem) : mem := write_bytes m stack_bottom (replicate (Z.to_nat stack_size) 5).

(** A kernel with the program's symbols in its process. *)
Definition app_mem : mem :=
  let m := write_bytes serving_mem (sample_proc + proc_symtab) (concat (map symbol_bytes sample_syms)) in
  let m := write_word m (sample_proc + proc_sym_count) (Z.of_nat (length sample_syms)) in
  let m := write_bytes m (sample_proc + proc_strtab) sample_strtab in
  sample_stack (sample_literals (write_word m (sample_proc + proc_strtab_sz) (zlen sample_strtab))).
Definition app_sample : world sample_host := set_mem app_mem serving_world.

Lemma app_sample_wf : mem_wf app_mem.
Proof. apply wf_b_true. vm_compute. reflexivity. Qed.
Lemma app_sample_ready : ready app_sample sample_proc USER_TRAP_FRAME.
Proof.
  split; [|reflexivity|reflexivity|reflexivity|by vm_compute|by vm_compute]. split.
  - exact app_sample_wf.
  - apply frame_b_true; [done|]. vm_compute. reflexivity.
  - done.
  - by vm_compute.
  - apply frame_b_true; [done|]. vm_compute. reflexivity.
  - by right.
Qed.
Lemma app_sample_serving : serving app_sample sample_proc USER_TRAP_FRAME addr_g_itrframe 2 5000.
Proof.
  split; [exact app_sample_ready| |reflexivity|reflexivity|reflexivity|apply sample_console].
  split; [reflexivity| |done|exact app_sample_wf|by vm_compute|by apply sample_serving].
  apply (frame_b_true _ _ 248); [done|]. vm_compute. reflexivity.
Qed.
Lemma app_sample_program :
  program sample_proc USER_TRAP_FRAME addr_g_itrframe sample_syms (zlen sample_strtab) app_mem.
Proof.
  assert (∀ s, s ∈ ["main"; "print_backtrace"; "do_user_call"]%string →
    0x80018000 ≤ addr_lit s ∧ addr_lit s + (zlen (bytes s) + 1) < 0x80019000) as Hl.
  { intros s Hs. rewrite !elem_of_cons in Hs. destruct Hs as [->|[->|[->|[]%elem_of_nil]]]; by vm_compute. }
  split.
  - apply (frame_b_true _ _ stack_size); [done|]. vm_compute. reflexivity.
  - done.
  - intros a. change stack_bottom with 0x810ffd00. unfold kernel_memory, USER_STACK, sample_proc, USER_TRAP_FRAME.
    change sizeof_process with 20512. unfold sizeof_trapframe. change addr_g_itrframe with 0x80010000.
    change (CLINT_MTIMECMP 0) with 0x2004000. lia.
  - apply sample_apart.
  - intros s Hs. rewrite !elem_of_cons in Hs. destruct Hs as [->|[->|[->|[]%elem_of_nil]]];
      vm_compute; repeat split; discriminate.
  - intros s Hs a Ha. specialize (Hl s Hs). unfold writable, trap_memory, USER_STACK, USER_TRAP_FRAME.
    change stack_bottom with 0x810ffd00. unfold sizeof_trapframe. change addr_g_itrframe with 0x80010000.
    change (CLINT_MTIMECMP 0) with 0x2004000. lia.
  - vm_compute. repeat split; discriminate.
  - by vm_compute.
  - intros s. exists (1 + name_offset (site_fn s) all_fns).
    destruct s; (split_and!; [vm_compute; reflexivity|by vm_compute..|vm_compute; repeat split; discriminate]).
Qed.

Lemma main_prints_witness :
  app_ticks = 5%nat ∧
  ∃ w' cs, main (Context 0 USER_STACK 0) app_sample = Halted w' ∧ w_host w' = host_calls cs (w_host app_sample) ∧
    ticked 2 (w_ticks app_sample)
      (map (FeWrite 2) [bytes ("back trace the user app in the following:" +:+ newline);
         bytes ("f8" +:+ newline); bytes ("f7" +:+ newline); bytes ("f6" +:+ newline);
         bytes ("f5" +:+ newline); bytes ("f4" +:+ newline); bytes ("f3" +:+ newline);
         bytes ("f2" +:+ newline); bytes ("f1" +:+ newline);
         bytes ("User exit with code:0." +:+ newline);
         bytes ("System is shutting down with exit code 0." +:+ newline)] ++ [FeExit 0])
      app_ticks (w_ticks w') cs.
Proof.
  split; [by vm_compute|].
  apply (main_prints app_sample 2 sample_proc USER_TRAP_FRAME addr_g_itrframe 5000 sample_syms (zlen sample_strtab));
    [apply app_sample_program|apply app_sample_serving|by vm_compute].
Defined.
