(* ===== verification/Whole.v ===== *)
(** From power-on to power-off: the boot of Boot.v on a machine whose host serves the example
    application, and the application of App.v on the kernel the boot leaves, with timer interrupts. *)
From S2P Require Import Prelude Mem CString Snprintf World Sample SpikeUtils SpikeFile Asm Process Syscall Strap Elf Kernel Mtrap Dts Load SpikeMemory Htif Minit UserLib System Boot App AppRun.

(** * The program in the file *)

(** The file was linked from the compiled program: its symbol table names the function of every call
    site. *)
Record app_binary `{Compiled} (file : list Z) (sym : elf_section_header) : Prop := {
  ab_entry : eh_entry (elf_of file) = main_addr;
  ab_symtab : the_symtab file (elf_of file) = Some sym;
  ab_size : sh_size sym ≤ sizeof_elf_symbol * MAX_USER_SYMS;
  ab_name s : let str := string_section file (elf_of file) sym in
    ∃ off, look_up (file_symbols file sym) (sh_size str) (ret_addr s) = Some off ∧
      0 ≤ off ∧ off + zlen (fn_name (site_fn s)) < sh_size str ∧
      slice file (sh_off str + off) (zlen (fn_name (site_fn s)) + 1) = fn_name (site_fn s) ++ [0];
}.

(** The literals the kernel compares names with. *)
Definition literal `{Platform} (a : Z) : Prop :=
  ∃ s, s ∈ ["main"; "print_backtrace"; "do_user_call"]%string ∧
    addr_lit s ≤ a < addr_lit s + (zlen (bytes s) + 1).

(** Room for the application's stack; the literals are there, and nothing is loaded over them. *)
Record user_memory `{Platform} `{Compiled} {H} (w : world H) (file : list Z) : Prop := {
  um_stack : mapped (w_mem w) stack_bottom (Z.to_nat stack_size);
  um_bottom : 0 < stack_bottom;
  um_apart a : stack_bottom ≤ a < USER_STACK → ¬ owned a;
  um_lits : literals_at (w_mem w);
  um_literal a : literal a → ¬ owned a ∧ ¬ (stack_bottom ≤ a < USER_STACK) ∧
    (a < arg_area ∨ arg_area + sizeof_arg_buf ≤ a);
  um_avoid : Forall (seg_avoids literal) (segments_of file);
}.

Section image.
Context `{PP : Platform} `{CC : Compiled} `{CO : !CompiledOk} (file : list Z) (sym : elf_section_header).
Context (Hfile : Forall (λ b, 0 ≤ b < 256) file) (Hbin : app_binary file sym).
Context (Hsec : sections_ok file (elf_of file)).

Lemma image_process m2 m' a :
  same_outside USER_TRAP_FRAME (app_image file m2 addr_user_app USER_TRAP_FRAME) m' →
  (USER_TRAP_FRAME + sizeof_trapframe ≤ addr_user_app ∨ addr_user_app + sizeof_process ≤ USER_TRAP_FRAME) →
  addr_user_app ≤ a < addr_user_app + sizeof_process →
  m' !! a = symbols_mem file (elf_of file) (load_segments file (segments_of file) m2).2 addr_user_app !! a.
Proof using.
  intros Ho Hd Ha. rewrite Ho by lia. apply lookup_write_word_ne. unfold tf_epc, sizeof_trapframe in *. lia.
Qed.

(** The symbol table the process has after the boot. *)
Lemma image_symtab m2 m' :
  same_outside USER_TRAP_FRAME (app_image file m2 addr_user_app USER_TRAP_FRAME) m' →
  (USER_TRAP_FRAME + sizeof_trapframe ≤ addr_user_app ∨ addr_user_app + sizeof_process ≤ USER_TRAP_FRAME) →
  let str := string_section file (elf_of file) sym in
  symtab_at m' addr_user_app (file_symbols file sym) (sh_size str) ∧
  Z.of_nat (length (file_symbols file sym)) ≤ MAX_USER_SYMS ∧
  ∀ s, ∃ off, (if sh_size str =? 0 then None else look_up (file_symbols file sym) (sh_size str) (ret_addr s)) = Some off ∧
    0 ≤ off ∧ off + zlen (fn_name (site_fn s)) < MAX_USER_STRTAB ∧
    cstr m' (addr_user_app + proc_strtab + off) (fn_name (site_fn s)).
Proof using Hbin Hsec.
  intros Ho Hd str. destruct Hbin as [_ Hst Hsz Hname]. destruct (sk_tables _ _ Hsec sym Hst) as [_ Hsym Hstr _ Hcount Hstrsz].
  fold str in Hstr, Hstrsz. pose proof (λ a, image_process m2 m' a Ho Hd) as He.
  unfold symbols_mem in He. rewrite Hst in He. fold str in He. set (m1 := (load_segments _ _ _).2) in He.
  assert (Z.of_nat (length (file_symbols file sym)) ≤ MAX_USER_SYMS) as Hlen.
  { unfold file_symbols. rewrite length_map, length_seq, Z2Nat.id; [done|]. apply Z.div_pos; [apply Hsym|done]. }
  split_and!; [|done|].
  - eapply symtab_at_ext; [intros a Ha; by apply He|done|by apply tables_symtab_at].
  - intros s. destruct (Hname s) as (off & Hl & Hoff & Hb & Hsl). fold str in Hl, Hb, Hsl.
    exists off. rewrite (proj2 (Z.eqb_neq _ _)) by (unfold zlen in Hb; lia). split_and!; [done|done|lia|].
    apply (cstr_ext (tables_mem file m1 addr_user_app sym str)).
    + unfold zlen, MAX_USER_STRTAB in *. intros i Hi. apply He.
      assert (proc_strtab + 8192 + 8 = sizeof_process ∧ 0 ≤ proc_strtab) as [? ?] by done. lia.
    + apply tables_name; [done..| |done]. by destruct s; vm_compute; repeat constructor.
Qed.

(** Neither the boot nor the loading touch the literals. *)
Lemma image_literal {H} (w : world H) m2 m' t a :
  user_memory w file →
  args_only (fresh_process (write_word (w_mem w) (CLINT_MTIMECMP 0) t) addr_user_app) m2 →
  same_outside USER_TRAP_FRAME (app_image file m2 addr_user_app USER_TRAP_FRAME) m' →
  literal a → m' !! a = w_mem w !! a.
Proof using Hfile Hsec.
  intros [_ _ _ _ Hlit Hav] Hag Ho Ha. destruct (Hlit a Ha) as (Hown & _ & Har).
  unfold owned, kernel_memory in Hown. unfold sizeof_trapframe in *.
  rewrite Ho by (unfold sizeof_trapframe; lia). unfold app_image.
  rewrite lookup_write_word_ne by (unfold tf_epc; lia).
  assert (0 ≤ proc_symtab) by done.
  rewrite symbols_mem_outside by (done || lia).
  rewrite (load_segments_outside literal) by (try apply segments_memsz; done).
  rewrite (ag_same _ _ Hag) by done. rewrite fresh_process_lookup by (unfold sizeof_trapframe; lia).
  apply lookup_write_word_ne. lia.
Qed.
End image.

Section whole.
Context {H : Type} `{HH : Host H} `{PP : Platform} `{CC : Compiled} `{CO : !CompiledOk} `{TI : Interrupts}.
Context `{TO : !InterruptsOk} `{RC : !RiscvCsrs} `{IC : !InterruptCsrs} `{LK : !Linked}.
Implicit Types w : world H.

Lemma image_program file sym w m2 m' t :
  Forall (λ b, 0 ≤ b < 256) file → app_binary file sym → sections_ok file (elf_of file) → user_memory w file →
  room (w_mem w) addr_user_app → apart addr_user_app USER_TRAP_FRAME addr_g_itrframe →
  args_only (fresh_process (write_word (w_mem w) (CLINT_MTIMECMP 0) t) addr_user_app) m2 →
  same_outside USER_TRAP_FRAME (app_image file m2 addr_user_app USER_TRAP_FRAME) m' →
  program addr_user_app USER_TRAP_FRAME addr_g_itrframe (file_symbols file sym)
    (sh_size (string_section file (elf_of file) sym)) m'.
Proof.
  intros Hf Hbin Hsec Hum Hroom Hapt Hag Ho.
  destruct (image_symtab file sym Hbin Hsec m2 m' Ho (room_disj _ _ Hroom)) as (Hst & Hlen & Hnames).
  pose proof (λ a, image_literal file Hf Hsec w m2 m' t a Hum Hag Ho) as Hlit.
  destruct Hum as [Hs Hb Hap Hl Hlits _]. split; try done.
  - apply (mapped_ext (app_image file m2 addr_user_app USER_TRAP_FRAME)).
    + intros a Ha. apply Ho. pose proof stack_size_pos. assert (¬ owned a) as Hna by (apply Hap; unfold stack_bottom in *; lia).
      unfold owned, kernel_memory in Hna. lia.
    + unfold app_image. apply mapped_write_word, symbols_mem_mapped, load_segments_keeps_mapped.
      apply (ag_mapped _ _ Hag). by apply fresh_process_mapped, mapped_write_word.
  - intros s Hin. apply (cstr_ext (w_mem w)); [|by apply Hl]. intros i Hi. apply Hlit. exists s.
    split; [done|]. unfold zlen. lia.
  - intros s Hin a Ha. destruct (Hlits a) as (Hna & Hns & _); [by exists s|].
    intros [?|Ht]; [done|]. apply Hna. unfold owned, kernel_memory, trap_memory in *. tauto.
Qed.

(** The machine, from its C entry point on, with the application. *)
Definition power_on (htif_scan : Z) (scan : mem_scan) (hartid dtb : Z) : M (world H) Z :=
  e ← boot htif_scan scan hartid dtb;
  if e_pc e =? main_addr then main (context_of (e_regs e)) else fault.

(** What reaches descriptor [k] of the host. *)
Definition written (k : Z) (cs : list fe_call) : list Z :=
  concat (map (λ c, match c with FeWrite k' d => if decide (k' = k) then d else [] | _ => [] end) cs).
Lemma written_app k cs cs' : written k (cs ++ cs') = written k cs ++ written k cs'.
Proof. unfold written. by rewrite map_app, concat_app. Qed.
Lemma written_preads fd k cs : Forall (is_pread fd) cs → written k cs = [].
Proof. induction 1 as [|c cs Hc _ IH]; [done|]. by destruct c. Qed.

(** The messages of the boot, and the output of the application. *)
Definition boot_text (htif : bool) (g : Z) (path : list Z) (entry : Z) : list Z :=
  concat (map printk_bytes ([hartid_msg 0] ++ (if htif then [htif_msg] else []) ++
    [memory_msg g; enter_msg; application_msg path; entry_msg entry; switch_msg])).
Definition app_output : list Z :=
  bytes ("back trace the user app in the following:" +:+ newline +:+ "f8" +:+ newline +:+ "f7" +:+ newline +:+
    "f6" +:+ newline +:+ "f5" +:+ newline +:+ "f4" +:+ newline +:+ "f3" +:+ newline +:+ "f2" +:+ newline +:+
    "f1" +:+ newline +:+ "User exit with code:0." +:+ newline +:+
    "System is shutting down with exit code 0." +:+ newline).

Lemma written_run fd htif g path entry cs :
  Forall (is_pread fd) cs →
  written 2 (boot_calls htif g path entry cs ++ app_calls 2) = boot_text htif g path entry ++ app_output.
Proof.
  intros Hcs. rewrite written_app. assert (written 2 (app_calls 2) = app_output) as -> by by vm_compute.
  f_equal. unfold boot_calls, load_calls, open_calls, start_calls, boot_text. rewrite !written_app, (written_preads fd 2 cs Hcs).
  unfold written. destruct htif; cbn [map concat app openat_call];
    repeat (rewrite decide_True by done); rewrite ?app_nil_r, <- ?app_assoc; cbn [app]; done.
Qed.

(** C1. The whole machine: on a host that opens the file of the example application and
    serves it to [pread] on that descriptor, linked from a compiled
    program that keeps to the frame convention, the kernel boots, loads the file and runs [main],
    interrupted by the timer any number of times; the machine stops by telling the host to exit with
    code 0; and what the console has seen by then is the messages of the boot followed by the text of
    the application, the eight names of the backtrace, the innermost first, and the notices of the
    exit - every byte of it, and in between, never inside a line, a notice for every interrupt. *)
Theorem power_on_output file sym args path off fd (Q P : H → Prop) `{!AppHost file args path fd Q P}
    w x scan dtb strings struct tr g t :
  w_files w = spike_files_init → w_fds w = spike_fds_init →
  device_tree w dtb strings struct tr g → delegates w → clint w 0 t → machine_memory w →
  0 ≤ va_area < 2 ^ 63 →
  Q (w_host w) → app_machine w file args path off → app_binary file sym → user_memory w file →
  ∃ w' cs cs', power_on x scan 0 dtb w = Halted w' ∧ w_host w' = host_calls cs' (w_host w) ∧
    ticked 2 (w_ticks w) (cs ++ [FeExit 0]) app_ticks (w_ticks w') cs' ∧
    written 2 cs = boot_text (has_htif tr w) g path (eh_entry (elf_of file)) ++ app_output.
Proof.
  intros Hf Hd Htree Hdel Hcl Hmm Hva HQ Ham Hbin Hum.
  destruct (boot_app_Ret file args path off fd Q P w x scan dtb strings struct tr g t Hf Hd Htree Hdel Hcl Hmm HQ Ham)
    as (e & w1 & m2 & cs & He & _ & Hpc & Hregs & Hok & Hag & Ho & Hcs & Htk & _ & Hh).
  pose proof (image_program file sym w m2 (w_mem w1) _ (fs_bytes (P := P)) Hbin (af_sections _ _ _ (am_file _ _ _ _ _ Ham))
    Hum (mm_room _ Hmm) (mm_apart _ Hmm) Hag Ho) as Hpg.
  destruct Hok as (_ & _ & Hsv). cbn [h_world] in Hsv.
  destruct (main_Ret w1 2 _ _ _ _ _ _ Hpg Hsv Hva) as (w' & l & Hrun & Hl & Hh').
  pose proof (written_run fd (has_htif tr w) g path (eh_entry (elf_of file)) cs Hcs) as Hout.
  set (bc := boot_calls _ _ _ _ _) in *. exists w', (bc ++ removelast (app_calls 2)), (bc ++ l).
  assert (app_calls 2 = removelast (app_calls 2) ++ [FeExit 0]) as Hlast by by vm_compute.
  split_and!.
  - unfold power_on. mrun He. rewrite Hpc, (ab_entry _ _ Hbin), Z.eqb_refl. unfold context_of. by rewrite !Hregs.
  - by rewrite Hh', Hh, <- host_calls_app.
  - rewrite <- app_assoc, <- Hlast. rewrite Htk in Hl. exact (ticked_app _ _ _ _ _ _ _ _ _ _ (ticked_none 2 _ bc) Hl).
  - rewrite Hlast, app_assoc, written_app in Hout. change (written 2 [FeExit 0]) with (@nil Z) in Hout.
    by rewrite app_nil_r in Hout.
Qed.
End whole.

(** * Instances *)
Import SampleMachine.

(** The file of the compiled program of App.v: an ELF header, a program header for its 832 bytes, the
    headers of the two sections behind them, the symbols and the names. *)
Definition program_elf : list Z :=
  le_bytes 4 ELF_MAGIC ++ replicate 12 0 ++ le_bytes 2 2 ++ le_bytes 2 243 ++ le_bytes 4 1 ++
  le_bytes 8 main_addr ++ le_bytes 8 64 ++ le_bytes 8 952 ++ le_bytes 4 0 ++ le_bytes 2 64 ++
  le_bytes 2 56 ++ le_bytes 2 1 ++ le_bytes 2 64 ++ le_bytes 2 2 ++ le_bytes 2 0 ++
  (* the program header, at 64 *)
  le_bytes 4 1 ++ le_bytes 4 5 ++ le_bytes 8 120 ++ le_bytes 8 0x81000000 ++
  le_bytes 8 0x81000000 ++ le_bytes 8 832 ++ le_bytes 8 832 ++ le_bytes 8 4096 ++
  (* the segment, at 120 *)
  replicate 832 19 ++
  (* the section headers, at 952 *)
  le_bytes 4 0 ++ le_bytes 4 2 ++ le_bytes 8 0 ++ le_bytes 8 0 ++ le_bytes 8 1080 ++ le_bytes 8 312 ++
  le_bytes 4 1 ++ le_bytes 4 0 ++ le_bytes 8 8 ++ le_bytes 8 24 ++
  le_bytes 4 0 ++ le_bytes 4 3 ++ le_bytes 8 0 ++ le_bytes 8 0 ++ le_bytes 8 1392 ++
  le_bytes 8 (zlen sample_strtab) ++ le_bytes 4 0 ++ le_bytes 4 0 ++ le_bytes 8 1 ++ le_bytes 8 0 ++
  (* the symbols, at 1080, and the names, at 1392 *)
  concat (map symbol_bytes sample_syms) ++ sample_strtab.
#[export] Instance program_app : AppHost program_elf sample_args (bytes "app") 3 (sample_closed program_elf) (sample_open program_elf).
Proof. apply sample_app_host. vm_compute. reflexivity. Qed.

(** The machine of Boot.v with room for the program and its stack, and the literals. *)
Definition program_base : mem :=
  sample_stack (sample_literals (write_bytes machine_base 0x81000000 (replicate 832 7))).
Definition program_machine : world sample_host := machine_with program_base program_elf.
Lemma program_base_wf : mem_wf program_base.
Proof. apply wf_b_true. vm_compute. reflexivity. Qed.
Lemma program_machine_b : machine_b (sample_fdt_mem program_base) = true.
Proof. vm_compute. reflexivity. Qed.
Lemma program_clint : clint program_machine 0 700.
Proof. split; [by vm_compute|]. eexists. by vm_compute. Qed.

(** The headers of the file. *)
Definition program_symtab : elf_section_header := section_header program_elf (elf_of program_elf) 0.
Lemma program_the_symtab : the_symtab program_elf (elf_of program_elf) = Some program_symtab.
Proof. by vm_compute. Qed.
Lemma program_sections : sections_ok program_elf (elf_of program_elf).
Proof.
  split.
  - intros idx Hi. change (eh_shnum (elf_of program_elf)) with 2 in Hi. unfold section_ok.
    change (eh_shoff (elf_of program_elf)) with 952. change (eh_shentsize (elf_of program_elf)) with 64.
    assert (1080 ≤ Z.of_nat (length program_elf)) as Hlen by by vm_compute. lia.
  - intros sym Hs. rewrite program_the_symtab in Hs. injection Hs as <-.
    split; [split_and!; vm_compute; (reflexivity || discriminate)|split_and!; vm_compute; (reflexivity || discriminate)
      |split_and!; vm_compute; (reflexivity || discriminate)|by vm_compute|by vm_compute|by vm_compute].
Qed.
Lemma program_segments :
  Forall (λ ph, ph_off ph = 120 ∧ ph_vaddr ph = 0x81000000 ∧ ph_memsz ph = 832) (segments_of program_elf).
Proof. vm_compute. repeat constructor. Qed.
Lemma program_avoids (K : Z → Prop) :
  (∀ a, 0x81000000 ≤ a < 0x81000000 + 832 → ¬ K a) → Forall (seg_avoids K) (segments_of program_elf).
Proof.
  intros HK. eapply Forall_impl; [exact program_segments|]. intros ph (_ & Hv & Hms) _. by rewrite Hv, Hms.
Qed.
Lemma program_app_machine : app_machine program_machine program_elf sample_args (bytes "app") 24.
Proof.
  split; [apply machine_command, program_machine_b| |reflexivity].
  - split; [by vm_compute|by vm_compute|by vm_compute| | |apply program_sections|].
    + assert (mapped (w_mem program_machine) 0x81000000 832) as Hm.
      { apply read_bytes_is_Some. eexists. vm_compute. reflexivity. }
      eapply Forall_impl; [exact program_segments|]. intros ph (Ho & Hv & Hms) _. by rewrite Ho, Hv, Hms.
    + rewrite (load_segments_status _ _ _ ∅). by vm_compute.
    + apply program_avoids. intros a Ha Ho%sample_owned_range. lia.
Qed.
Lemma program_binary : app_binary program_elf program_symtab.
Proof.
  split; [by vm_compute|apply program_the_symtab|by vm_compute|].
  intros s str. exists (1 + name_offset (site_fn s) all_fns).
  destruct s; (split_and!; [vm_compute; reflexivity|by vm_compute..]).
Qed.
Lemma literal_range a : literal a → 0x80018000 ≤ a < 0x80019000.
Proof.
  intros (s & Hs & Ha). revert Ha. rewrite !elem_of_cons in Hs.
  destruct Hs as [->|[->|[->|[]%elem_of_nil]]];
    match goal with |- context [addr_lit ?s] => let v := eval vm_compute in (addr_lit s) in change (addr_lit s) with v end;
    match goal with |- context [zlen ?l] => let v := eval vm_compute in (zlen l) in change (zlen l) with v end; lia.
Qed.
Lemma program_memory : user_memory program_machine program_elf.
Proof.
  split.
  - apply (frame_b_true _ _ stack_size); [done|]. vm_compute. reflexivity.
  - done.
  - intros a Ha Ho%sample_owned_range. revert Ha. change stack_bottom with 0x810ffd00. unfold USER_STACK. lia.
  - intros s Hs. rewrite !elem_of_cons in Hs. destruct Hs as [->|[->|[->|[]%elem_of_nil]]];
      vm_compute; repeat split; discriminate.
  - intros a Ha%literal_range. unfold owned, kernel_memory, USER_STACK, USER_TRAP_FRAME, sizeof_trapframe.
    change stack_bottom with 0x810ffd00. change addr_user_app with 0x80020000. change sizeof_process with 20512.
    change addr_g_itrframe with 0x80010000. change (CLINT_MTIMECMP 0) with 0x2004000.
    change arg_area with 0x811ffa00. lia.
  - apply program_avoids. intros a Ha Hl%literal_range. lia.
Qed.

(** The whole run, on a machine that has all of this. *)
Lemma power_on_output_witness :
  ∃ w' cs cs', power_on 7 (MemScan 7 7 7) 0 sample_fdt program_machine = Halted w' ∧
    w_host w' = host_calls cs' (w_host program_machine) ∧
    ticked 2 (w_ticks program_machine) (cs ++ [FeExit 0]) app_ticks (w_ticks w') cs' ∧
    written 2 cs = boot_text (has_htif sample_tree program_machine) 0x80000000 (bytes "app")
      (eh_entry (elf_of program_elf)) ++ app_output.
Proof.
  apply (power_on_output program_elf program_symtab sample_args (bytes "app") 24 3 (sample_closed program_elf) (sample_open program_elf)
    program_machine 7 (MemScan 7 7 7) sample_fdt sample_strings_at sample_struct sample_tree 0x80000000 700);
    [reflexivity|reflexivity|apply machine_tree, program_base_wf|apply machine_delegates|apply program_clint
    |apply machine_memory_ok, program_machine_b|by vm_compute|by split|apply program_app_machine
    |apply program_binary|apply program_memory].
Defined.
